(** * FileTransferApp: the receiving side of the transfer protocol

    A shallow embedding of the receiver of [transfer_core] (Python), of the
    sender's side of the closing handshake and of the path sanitizer of
    [utils.py], with the properties the specification states about them
    and further properties read off the code.

    Conventions of the embedding:
    - Python [bytes] is [list byte]; Python [str] is a list of Unicode code
      points ([list N]); [str.encode('utf-8')] and [bytes.decode('utf-8')]
      are the strict UTF-8 codec written out below.
    - Python [int] is [Z]; lengths and indices are [nat].
    - [os.path] is [posixpath] (the receiver is modelled on a POSIX host, so
      [sys.platform != "win32"] and [os.path.normcase] is the identity).
    - The socket, the cancellation event, the clock, the filesystem and the
      GUI callbacks form an explicit [world] threaded through a state and
      exception monad; what [recv], [is_set] and [sendall] observe is
      scripted in the world. *)

From Stdlib Require Import String Strings.Byte.
From Stdlib Require Import Bool Arith NArith ZArith Lia List.
Import ListNotations.

Set Implicit Arguments.

(* ===================================================================== *)
(** * Python values *)
(* ===================================================================== *)

Module Py.

Definition bytes := list byte.
Definition str := list N.

(** An ASCII literal as [bytes] and as [str]. *)
Definition b (s : string) : bytes := list_byte_of_string s.
Definition u (s : string) : str := map Byte.to_N (list_byte_of_string s).

Definition byte_of_N (n : N) : byte :=
  match Byte.of_N n with Some x => x | None => x00 end.

Definition bytes_eqb (x y : bytes) : bool :=
  if list_eq_dec Byte.byte_eq_dec x y then true else false.

Definition str_eqb (x y : str) : bool :=
  if list_eq_dec N.eq_dec x y then true else false.

(** ** [str.encode('utf-8')]: [None] stands for [UnicodeEncodeError]. *)

Definition is_surrogate (c : N) : bool := ((55296 <=? c) && (c <=? 57343))%N.

Definition encode_cp (c : N) : option bytes :=
  (if c <? 128 then Some [byte_of_N c]
   else if c <? 2048 then
     Some [byte_of_N (192 + c / 64); byte_of_N (128 + c mod 64)]
   else if c <? 65536 then
     if is_surrogate c then None
     else Some [byte_of_N (224 + c / 4096);
                byte_of_N (128 + (c / 64) mod 64);
                byte_of_N (128 + c mod 64)]
   else if c <? 1114112 then
     Some [byte_of_N (240 + c / 262144);
           byte_of_N (128 + (c / 4096) mod 64);
           byte_of_N (128 + (c / 64) mod 64);
           byte_of_N (128 + c mod 64)]
   else None)%N.

Fixpoint encode (s : str) : option bytes :=
  match s with
  | [] => Some []
  | c :: r =>
      match encode_cp c, encode r with
      | Some x, Some y => Some (x ++ y)
      | _, _ => None
      end
  end.

(** ** [bytes.decode('utf-8')] with [errors='strict']: [None] stands for
    [UnicodeDecodeError] (overlong forms, surrogates, values above U+10FFFF,
    stray or missing continuation bytes). *)

Definition is_cont (x : byte) : bool :=
  ((128 <=? Byte.to_N x) && (Byte.to_N x <? 192))%N.

Definition cont (x : byte) : N := (Byte.to_N x - 128)%N.

Fixpoint decode (bs : bytes) : option str :=
  match bs with
  | [] => Some []
  | b0 :: r0 =>
      let n0 := Byte.to_N b0 in
      (if n0 <? 128 then option_map (cons n0) (decode r0)
       else if n0 <? 194 then None
       else if n0 <? 224 then
         match r0 with
         | b1 :: r1 =>
             if is_cont b1
             then option_map (cons ((n0 - 192) * 64 + cont b1)) (decode r1)
             else None
         | _ => None
         end
       else if n0 <? 240 then
         match r0 with
         | b1 :: b2 :: r2 =>
             let c := (n0 - 224) * 4096 + cont b1 * 64 + cont b2 in
             if is_cont b1 && is_cont b2 && (2048 <=? c) && negb (is_surrogate c)
             then option_map (cons c) (decode r2)
             else None
         | _ => None
         end
       else if n0 <? 245 then
         match r0 with
         | b1 :: b2 :: b3 :: r3 =>
             let c := (n0 - 240) * 262144 + cont b1 * 4096 + cont b2 * 64 + cont b3 in
             if is_cont b1 && is_cont b2 && is_cont b3
                && (65536 <=? c) && (c <? 1114112)
             then option_map (cons c) (decode r3)
             else None
         | _ => None
         end
       else None)%N
  end.

(** ** Searching and slicing *)

Section Seq.
Variable A : Type.
Variable eqb : A -> A -> bool.

Fixpoint startswith (l p : list A) : bool :=
  match p, l with
  | [], _ => true
  | x :: p', y :: l' => eqb x y && startswith l' p'
  | _ :: _, [] => false
  end.

(** [l.find(sub)]: the lowest index at which [sub] occurs, [None] for -1. *)
Fixpoint find_from (i : nat) (l sub : list A) : option nat :=
  if startswith l sub then Some i
  else match l with
       | [] => None
       | _ :: l' => find_from (S i) l' sub
       end.

Definition find (l sub : list A) : option nat := find_from 0 l sub.

Definition endswith (l p : list A) : bool :=
  startswith (rev l) (rev p).

(** [l.split(sep)] for a one-element separator. *)
Fixpoint split_on (sep : A) (l : list A) : list (list A) :=
  match l with
  | [] => [[]]
  | x :: l' =>
      if eqb x sep then [] :: split_on sep l'
      else match split_on sep l' with
           | [] => [[x]]
           | h :: t => (x :: h) :: t
           end
  end.

(** [sep.join(parts)]. *)
Fixpoint join_with (sep : list A) (parts : list (list A)) : list A :=
  match parts with
  | [] => []
  | [p] => p
  | p :: ps => p ++ sep ++ join_with sep ps
  end.

(** [l.rfind(c) + 1] for a single element [c]: the length of the prefix
    that ends with the last occurrence of [c], 0 when there is none. *)
Fixpoint after_last (c : A) (l : list A) : nat :=
  match l with
  | [] => 0
  | x :: l' =>
      match after_last c l' with
      | 0 => if eqb x c then 1 else 0
      | S k => S (S k)
      end
  end.

Fixpoint lstrip_while (p : A -> bool) (l : list A) : list A :=
  match l with
  | x :: l' => if p x then lstrip_while p l' else l
  | [] => []
  end.

Definition rstrip_while (p : A -> bool) (l : list A) : list A :=
  rev (lstrip_while p (rev l)).

Definition strip_while (p : A -> bool) (l : list A) : list A :=
  rstrip_while p (lstrip_while p l).
End Seq.

Definition slash : N := 47.
Definition dot : N := 46.
Definition underscore : N := 95.
Definition space : N := 32.

(** What the host's libraries give and the embedding does not compute.
    The Unicode character database, consulted for code points above 127
    only: [str.isalnum], [str.isspace] and the decimal digit value.  And
    [int(math.floor(math.log(n, 1024)))] for [n > 0], the floating-point
    computation of [utils.format_bytes]: it is below 9 for [n] below
    [2^89] and at least 9 from [2^91] on; between the two the rounding of
    the floats decides. *)
Class UnicodeDB := {
  uni_isalnum : N -> bool;
  uni_isspace : N -> bool;
  uni_decimal : N -> option N;
  float_log_1024 : Z -> Z;
  float_log_small : forall n, (0 < n < 2 ^ 89)%Z -> (float_log_1024 n < 9)%Z;
  float_log_large : forall n, (2 ^ 91 <= n)%Z -> (9 <= float_log_1024 n)%Z
}.

Section Unicode.
Context {db : UnicodeDB}.

(** [Py_UNICODE_ISSPACE]: what [str.strip], [int] and the regex class
    [\s] call whitespace. *)
Definition isspace (c : N) : bool :=
  (if c <? 128
   then ((9 <=? c) && (c <=? 13)) || ((28 <=? c) && (c <=? 32))
   else uni_isspace c)%N.

Definition isdigit_ascii (c : N) : bool := ((48 <=? c) && (c <=? 57))%N.

(** The regex class [\w] on [str] patterns. *)
Definition isword (c : N) : bool :=
  (if c <? 128
   then isdigit_ascii c || ((65 <=? c) && (c <=? 90))
        || ((97 <=? c) && (c <=? 122)) || (c =? 95)
   else uni_isalnum c)%N.

Definition strip (s : str) : str := strip_while isspace s.

(** The decimal value of a digit character, as [int] reads it. *)
Definition digit_value (c : N) : option N :=
  (if c <? 128
   then if isdigit_ascii c then Some (c - 48) else None
   else uni_decimal c)%N.

(** Digits with single underscores between them. *)
Fixpoint int_digits (l : str) (acc : Z) (after_digit : bool) : option Z :=
  match l with
  | [] => if after_digit then Some acc else None
  | c :: r =>
      match digit_value c with
      | Some d => int_digits r (10 * acc + Z.of_N d) true
      | None =>
          if (c =? underscore)%N && after_digit
          then int_digits r acc false
          else None
      end
  end.

(** [int(s)] for a [str] argument: [None] stands for [ValueError]. *)
Definition int (s : str) : option Z :=
  match strip s with
  | 43%N :: r => int_digits r 0 false
  | 45%N :: r => option_map Z.opp (int_digits r 0 false)
  | r => int_digits r 0 false
  end.
End Unicode.

(** [bytes.strip()]: ASCII whitespace only. *)
Definition bytes_isspace (x : byte) : bool :=
  let n := Byte.to_N x in (((9 <=? n) && (n <=? 13)) || (n =? 32))%N.

Definition bytes_strip (x : bytes) : bytes := strip_while bytes_isspace x.

(** [str(n)] for an [int]. *)
Fixpoint str_of_N_fuel (fuel : nat) (n : N) (acc : str) : str :=
  match fuel with
  | 0 => acc
  | S f =>
      let acc' := (48 + n mod 10)%N :: acc in
      if (n / 10 =? 0)%N then acc' else str_of_N_fuel f (n / 10) acc'
  end.

Definition str_of_Z (z : Z) : str :=
  let n := Z.abs_N z in
  let digits := str_of_N_fuel (S (N.size_nat n)) n [] in
  if (z <? 0)%Z then 45%N :: digits else digits.

End Py.

(* ===================================================================== *)
(** * [os.path] on a POSIX host ([posixpath]) *)
(* ===================================================================== *)

Module PosixPath.
Import Py.

Definition sep : str := [slash].
Definition curdir : str := [dot].
Definition pardir : str := [dot; dot].

Definition isabs (p : str) : bool := startswith N.eqb p sep.

(** One round of the loop of [join(a, *p)]. *)
Definition join_step (path b : str) : str :=
  if startswith N.eqb b sep then b
  else if match path with [] => true | _ => endswith N.eqb path sep end
       then path ++ b
       else path ++ sep ++ b.

Definition join (a : str) (p : list str) : str := fold_left join_step p a.

(** One round of the loop over [comps] in [normpath]. *)
Definition normpath_step (initial_slashes : nat) (new_comps : list str)
    (comp : str) : list str :=
  if str_eqb comp [] || str_eqb comp curdir then new_comps
  else if negb (str_eqb comp pardir)
          || ((initial_slashes =? 0) && (length new_comps =? 0))
          || (negb (length new_comps =? 0) && str_eqb (last new_comps []) pardir)
       then new_comps ++ [comp]
       else removelast new_comps.

Definition normpath (path : str) : str :=
  match path with
  | [] => curdir
  | _ =>
      let initial_slashes :=
        if startswith N.eqb path sep
        then if startswith N.eqb path (sep ++ sep)
                && negb (startswith N.eqb path (sep ++ sep ++ sep))
             then 2 else 1
        else 0 in
      let comps :=
        fold_left (normpath_step initial_slashes) (split_on N.eqb slash path) [] in
      match repeat slash initial_slashes ++ join_with sep comps with
      | [] => curdir
      | p => p
      end
  end.

(** [abspath(path)], where [cwd] is [os.getcwd()]. *)
Definition abspath (cwd path : str) : str :=
  normpath (if isabs path then path else join cwd [path]).

(** The components [commonpath] compares: empty ones and ["."] dropped. *)
Definition components (p : str) : list str :=
  filter (fun c => negb (str_eqb c []) && negb (str_eqb c curdir))
         (split_on N.eqb slash p).

Fixpoint str_compare (x y : str) : comparison :=
  match x, y with
  | [], [] => Eq
  | [], _ :: _ => Lt
  | _ :: _, [] => Gt
  | a :: x', c :: y' =>
      match N.compare a c with Eq => str_compare x' y' | o => o end
  end.

Fixpoint comps_compare (x y : list str) : comparison :=
  match x, y with
  | [], [] => Eq
  | [], _ :: _ => Lt
  | _ :: _, [] => Gt
  | a :: x', c :: y' =>
      match str_compare a c with Eq => comps_compare x' y' | o => o end
  end.

(** The loop [for i, c in enumerate(s1): if c != s2[i]: ...]. *)
Fixpoint common_prefix (s1 s2 : list str) : list str :=
  match s1, s2 with
  | c :: r1, d :: r2 => if str_eqb c d then c :: common_prefix r1 r2 else []
  | _, _ => []
  end.

(** [commonpath([p1, p2])]: [None] stands for the [ValueError] raised when
    absolute and relative paths are mixed. *)
Definition commonpath (p1 p2 : str) : option str :=
  if Bool.eqb (isabs p1) (isabs p2) then
    let c1 := components p1 in
    let c2 := components p2 in
    let s1 := match comps_compare c2 c1 with Lt => c2 | _ => c1 end in
    let s2 := match comps_compare c2 c1 with Gt => c2 | _ => c1 end in
    let common := common_prefix s1 s2 in
    Some ((if isabs p1 then sep else []) ++ join_with sep common)
  else None.

Definition basename (p : str) : str := skipn (after_last N.eqb slash p) p.

Definition dirname (p : str) : str :=
  let head := firstn (after_last N.eqb slash p) p in
  if negb (length head =? 0) && negb (forallb (N.eqb slash) head)
  then rstrip_while (N.eqb slash) head
  else head.

Definition splitext (p : str) : str * str :=
  let sep_end := after_last N.eqb slash p in
  let dot_end := after_last N.eqb dot p in
  if sep_end <? dot_end then
    let name := firstn (dot_end - 1 - sep_end) (skipn sep_end p) in
    if existsb (fun c => negb (c =? dot)%N) name
    then (firstn (dot_end - 1) p, skipn (dot_end - 1) p)
    else (p, [])
  else (p, []).

End PosixPath.

(* ===================================================================== *)
(** * [config.py] *)
(* ===================================================================== *)

(** Durations are in milliseconds (the source has seconds as floats). *)
Module config.
Import Py.

Definition BUFFER_SIZE_FOR_HEADER : Z := 2048.
Definition HEADER_SEPARATOR : str := u "|".
Definition FOLDER_PROTOCOL_PREFIX : str := u "FDR_V1".
Definition FOLDER_HEADER_TYPE_FOLDER : str := u "FOLDER".
Definition FOLDER_HEADER_TYPE_FILE : str := u "FILE".
Definition FOLDER_HEADER_TYPE_END_TRANSFER : str := u "END_TRANSFER".
Definition FOLDER_HEADER_TYPE_TOTAL_INFO : str := u "TOTAL_INFO".
Definition TOTAL_INFO_COUNT_SIZE_SEPARATOR : N := 44.
Definition HANDSHAKE_REQUEST_SIGNAL : bytes := b "IS_TRANSFER_COMPLETE?".
Definition HANDSHAKE_COMPLETE_OK_SIGNAL : bytes := b "TRANSFER_COMPLETE_OK".
Definition HANDSHAKE_ERROR_SIGNAL : bytes := b "TRANSFER_ERROR".
Definition HANDSHAKE_READ_BUFFER_SIZE : Z := 1024.
Definition DISCOVERY_TIMEOUT : Z := 5000.
Definition CANCEL_CHECK_INTERVAL : Z := 500.
Definition DATA_TRANSFER_TIMEOUT : Z := 10000.
Definition TEST_FILE_SIZE : Z := 100 * 1024 * 1024.

End config.

(* ===================================================================== *)
(** * The filesystem *)
(* ===================================================================== *)

(** Files and directories under their absolute normalized names; the root
    always exists.  Symbolic links, permissions and a full disk are not
    modelled: a write to an open file always succeeds. *)
Module FS.
Import Py.

Inductive node : Type :=
| File (content : bytes)
| Dir.

Definition t := list (str * node).

Fixpoint lookup (p : str) (fs : t) : option node :=
  match fs with
  | [] => None
  | (q, n) :: r => if str_eqb p q then Some n else lookup p r
  end.

Definition drop (p : str) (fs : t) : t :=
  filter (fun e => negb (str_eqb p (fst e))) fs.

Definition is_root (p : str) : bool :=
  negb (length p =? 0) && forallb (N.eqb slash) p.

Definition exists_ (fs : t) (p : str) : bool :=
  is_root p || match lookup p fs with Some _ => true | None => false end.

Definition isdir (fs : t) (p : str) : bool :=
  is_root p || match lookup p fs with Some Dir => true | _ => false end.

(** [os.mkdir]: [None] stands for [OSError]. *)
Definition mkdir (fs : t) (name : str) : option t :=
  if exists_ fs name then None
  else if isdir fs (PosixPath.dirname name) then Some ((name, Dir) :: fs)
  else None.

(** [os.makedirs(name, exist_ok=True)]; [fuel] bounds the depth of the
    recursion on the parent, the length of the name is enough. *)
Fixpoint makedirs_fuel (fuel : nat) (fs : t) (name : str) : option t :=
  match fuel with
  | 0 => None
  | S f =>
      let head := PosixPath.dirname name in
      let tail := PosixPath.basename name in
      let parents :=
        if negb (length head =? 0) && negb (length tail =? 0)
           && negb (exists_ fs head)
        then makedirs_fuel f fs head
        else Some fs in
      match parents with
      | None => None
      | Some fs1 =>
          match mkdir fs1 name with
          | Some fs2 => Some fs2
          | None => if isdir fs1 name then Some fs1 else None
          end
      end
  end.

Definition makedirs (fs : t) (name : str) : option t :=
  makedirs_fuel (S (length name)) fs name.

(** [open(name, "wb")]: creates or truncates. *)
Definition open_wb (fs : t) (name : str) : option t :=
  if isdir fs name then None
  else if isdir fs (PosixPath.dirname name)
       then Some ((name, File []) :: drop name fs)
       else None.

(** [handle.write(data)] on the file opened under [name]. *)
Definition append (fs : t) (name : str) (data : bytes) : t :=
  match lookup name fs with
  | Some (File c) => (name, File (c ++ data)) :: drop name fs
  | _ => fs
  end.

(** [os.remove(name)]. *)
Definition remove (fs : t) (name : str) : option t :=
  match lookup name fs with
  | Some (File _) => Some (drop name fs)
  | _ => None
  end.

End FS.

(* ===================================================================== *)
(** * The world and the monad of handlers *)
(* ===================================================================== *)

(** The exception classes the receiver raises and catches.  [SocketTimeout]
    is [socket.timeout]; [PlainException] is an exception that [except
    Exception] catches and no other clause of the receiver does: an
    instance of [Exception] itself, or the [IndexError] of
    [utils.format_bytes]. *)
Inductive exn : Type :=
| SocketTimeout
| ConnectionResetError
| ValueError
| CancelledError
| OSError
| RuntimeError
| PlainException.

(** [isinstance e cls], with the builtin hierarchy: [socket.timeout] and
    [ConnectionResetError] derive from [OSError], all from [Exception]. *)
Definition isinstance (e cls : exn) : bool :=
  match cls, e with
  | PlainException, _ => true
  | OSError, (OSError | SocketTimeout | ConnectionResetError) => true
  | SocketTimeout, SocketTimeout => true
  | ConnectionResetError, ConnectionResetError => true
  | ValueError, ValueError => true
  | CancelledError, CancelledError => true
  | RuntimeError, RuntimeError => true
  | _, _ => false
  end.

(** What one call of [recv] finds: up to [n] bytes of the peer's stream are
    there (none left means the peer has closed: [recv] returns [b""]), the
    socket timeout expires, or the connection breaks. *)
Inductive recv_event : Type :=
| Arrive (n : positive)
| Silence
| Reset.

(** The status lines, dialogs and notifications the receiver hands to the
    GUI callbacks, by what they report.  Progress and speed updates and the
    debug prints are presentation only and are left out. *)
Inductive gui_event : Type :=
| StNewConnection
| StCancelledByUser
| StSizeTooLarge
| StReceiveStart
| StPathError
| StEmptyFileDone
| StSocketReadError
| StConnectionLost
| StFileWriteError
| StReceiveError
| StIncompleteRemoved
| StRemoveFailed
| StHeaderError
| StProcessingError
| StTransferCancelled
| StTransferFailed
| StHandlerFinished
| StReady
| StSetupError
| StRootNameFallback
| StRootNameSanitizeError
| StRootReady
| StEarlyHandshakeRequest
| StTotalInfo (items size : Z)
| StTotalInfoMissing
| StEndTransfer
| StVerificationFailed
| StVerificationDetail (items size : Z)
| StVerificationPassed
| StProcessingFolder
| StFolderCreated
| StFileExistsRenamed
| StReceivingFile
| StFileDone
| StLoopEndedUnexpectedly
| StTransferError
| StSendingOk
| StSendingError
| StSendFailed
| StSniffTimeout
| StSniffReset
| StSniffError
| ShowError
| ShowWarning
| ShowInfo
| OnTransferStarted
| OnTransferFinished.

Record world : Type := mkWorld {
  w_now : Z;                       (** [time.time()], in milliseconds *)
  w_cwd : Py.str;                  (** [os.getcwd()] *)
  w_fs : FS.t;
  w_wire : Py.bytes;               (** what the peer sends and is not read yet *)
  w_net : list (Z * recv_event);   (** the next calls of [recv]: time taken, event *)
  w_cancel : list bool;            (** the next answers of [cancel_event.is_set()] *)
  w_sendok : list bool;            (** whether the next calls of [sendall] succeed *)
  w_recv_log : list Z;             (** the sizes asked of [recv] so far *)
  w_sent : list Py.bytes;          (** what [sendall] has sent so far *)
  w_closed : bool;                 (** [client_socket.close()] was called *)
  w_gui : list gui_event           (** what the GUI callbacks were given so far *)
}.

Inductive outcome (A : Type) : Type :=
| Ret (a : A)
| Raise (e : exn)
| Blocked.

Arguments Ret {A} a.
Arguments Raise {A} e.
Arguments Blocked {A}.

(** A computation over a state [S]: it returns, raises, or is still blocked
    in [recv] when the script of network events ends. *)
Definition M (S A : Type) : Type := S -> outcome A * S.

Definition ret {S A} (a : A) : M S A := fun s => (Ret a, s).

Definition bind {S A B} (m : M S A) (k : A -> M S B) : M S B :=
  fun s =>
    match m s with
    | (Ret a, s') => k a s'
    | (Raise e, s') => (Raise e, s')
    | (Blocked, s') => (Blocked, s')
    end.

Definition raise {S A} (e : exn) : M S A := fun s => (Raise e, s).

Definition get {S} : M S S := fun s => (Ret s, s).

Definition gets {S A} (f : S -> A) : M S A := fun s => (Ret (f s), s).

Definition modify {S} (f : S -> S) : M S unit := fun s => (Ret tt, f s).

(** [try: m / except cls...: h e]: [h e] is [None] when no clause matches. *)
Definition try_except {S A} (m : M S A) (h : exn -> option (M S A)) : M S A :=
  fun s =>
    match m s with
    | (Raise e, s') =>
        match h e with
        | Some k => k s'
        | None => (Raise e, s')
        end
    | r => r
    end.

(** [try: m / finally: f]. *)
Definition try_finally {S A} (m : M S A) (f : M S unit) : M S A :=
  fun s =>
    match m s with
    | (Blocked, s') => (Blocked, s')
    | (r, s') =>
        match f s' with
        | (Ret _, s'') => (r, s'')
        | (Raise e, s'') => (Raise e, s'')
        | (Blocked, s'') => (Blocked, s'')
        end
    end.

Declare Scope monad_scope.
Delimit Scope monad_scope with monad.
Notation "x <- m ;; k" := (bind m (fun x => k))
  (at level 61, m at next level, right associativity) : monad_scope.
Notation "' pat <- m ;; k" := (bind m (fun x => match x with pat => k end))
  (at level 61, pat pattern, m at next level, right associativity) : monad_scope.
Notation "m ;; k" := (bind m (fun _ => k))
  (at level 61, right associativity) : monad_scope.
Open Scope monad_scope.

(** A state that holds the world. *)
Class HasWorld (S : Type) := {
  the_world : S -> world;
  with_world : world -> S -> S
}.

#[export] Instance world_has_world : HasWorld world :=
  {| the_world := fun w => w; with_world := fun w _ => w |}.

Definition lift {S} `{HasWorld S} {A} (m : M world A) : M S A :=
  fun s => let (r, w') := m (the_world s) in (r, with_world w' s).

(** ** The primitives *)

Module Sys.
Import Py.

Definition set_fs (f : FS.t) (w : world) : world :=
  mkWorld (w_now w) (w_cwd w) f (w_wire w) (w_net w) (w_cancel w)
          (w_sendok w) (w_recv_log w) (w_sent w) (w_closed w) (w_gui w).

Definition set_cancel (c : list bool) (w : world) : world :=
  mkWorld (w_now w) (w_cwd w) (w_fs w) (w_wire w) (w_net w) c
          (w_sendok w) (w_recv_log w) (w_sent w) (w_closed w) (w_gui w).

Definition set_closed (w : world) : world :=
  mkWorld (w_now w) (w_cwd w) (w_fs w) (w_wire w) (w_net w) (w_cancel w)
          (w_sendok w) (w_recv_log w) (w_sent w) true (w_gui w).

Definition add_gui (e : gui_event) (w : world) : world :=
  mkWorld (w_now w) (w_cwd w) (w_fs w) (w_wire w) (w_net w) (w_cancel w)
          (w_sendok w) (w_recv_log w) (w_sent w) (w_closed w) (w_gui w ++ [e]).

Definition log_recv (size : Z) (w : world) : world :=
  mkWorld (w_now w) (w_cwd w) (w_fs w) (w_wire w) (w_net w) (w_cancel w)
          (w_sendok w) (w_recv_log w ++ [size]) (w_sent w) (w_closed w) (w_gui w).

Definition after_recv (dt : Z) (k : nat) (rest : list (Z * recv_event))
    (w : world) : world :=
  mkWorld (w_now w + dt) (w_cwd w) (w_fs w) (skipn k (w_wire w)) rest
          (w_cancel w) (w_sendok w) (w_recv_log w) (w_sent w) (w_closed w)
          (w_gui w).

Definition after_send (ok : bool) (rest : list bool) (data : bytes)
    (w : world) : world :=
  mkWorld (w_now w) (w_cwd w) (w_fs w) (w_wire w) (w_net w) (w_cancel w)
          rest (w_recv_log w)
          (if ok then w_sent w ++ [data] else w_sent w) (w_closed w) (w_gui w).

Definition len {A} (l : list A) : Z := Z.of_nat (length l).

(** [time.time()]. *)
Definition time : M world Z := gets w_now.

(** [sock.recv(size)]. *)
Definition recv (size : Z) : M world bytes :=
  fun w =>
    if (size <? 0)%Z then (Raise ValueError, w)
    else
      let w0 := log_recv size w in
      match w_net w0 with
      | [] => (Blocked, w0)
      | (dt, ev) :: rest =>
          match ev with
          | Arrive n =>
              let k := Nat.min (Nat.min (Pos.to_nat n) (Z.to_nat size))
                               (length (w_wire w0)) in
              (Ret (firstn k (w_wire w0)), after_recv dt k rest w0)
          | Silence => (Raise SocketTimeout, after_recv dt 0 rest w0)
          | Reset => (Raise ConnectionResetError, after_recv dt 0 rest w0)
          end
      end.

(** [cancel_event.is_set()]: unset once the script of answers is over. *)
Definition is_set : M world bool :=
  fun w =>
    match w_cancel w with
    | [] => (Ret false, w)
    | c :: rest => (Ret c, set_cancel rest w)
    end.

(** [sock.sendall(data)]: succeeds once the script of outcomes is over. *)
Definition sendall (data : bytes) : M world unit :=
  fun w =>
    match w_sendok w with
    | [] => (Ret tt, after_send true [] data w)
    | true :: rest => (Ret tt, after_send true rest data w)
    | false :: rest => (Raise OSError, after_send false rest data w)
    end.

(** [sock.shutdown(); sock.close()]. *)
Definition close_socket : M world unit := modify set_closed.

(** [utils.safe_gui_update(root, callback, ...)]. *)
Definition gui (e : gui_event) : M world unit := modify (add_gui e).

Definition abspath (p : str) : M world str :=
  gets (fun w => PosixPath.abspath (w_cwd w) p).

Definition path_exists (p : str) : M world bool :=
  gets (fun w => FS.exists_ (w_fs w) (PosixPath.abspath (w_cwd w) p)).

Definition path_isdir (p : str) : M world bool :=
  gets (fun w => FS.isdir (w_fs w) (PosixPath.abspath (w_cwd w) p)).

Definition makedirs (p : str) : M world unit :=
  fun w =>
    match FS.makedirs (w_fs w) (PosixPath.abspath (w_cwd w) p) with
    | Some f => (Ret tt, set_fs f w)
    | None => (Raise OSError, w)
    end.

(** [open(p, "wb")]: the handle is the absolute name of the file. *)
Definition open_wb (p : str) : M world str :=
  fun w =>
    let q := PosixPath.abspath (w_cwd w) p in
    match FS.open_wb (w_fs w) q with
    | Some f => (Ret q, set_fs f w)
    | None => (Raise OSError, w)
    end.

Definition write (handle : str) (data : bytes) : M world unit :=
  modify (fun w => set_fs (FS.append (w_fs w) handle data) w).

Definition remove (p : str) : M world unit :=
  fun w =>
    match FS.remove (w_fs w) (PosixPath.abspath (w_cwd w) p) with
    | Some f => (Ret tt, set_fs f w)
    | None => (Raise OSError, w)
    end.

(** [s.encode('utf-8')] and [x.decode('utf-8')]; the Unicode errors derive
    from [ValueError]. *)
Definition encode_utf8 {S} (s : str) : M S bytes :=
  match encode s with Some x => ret x | None => raise ValueError end.

Definition decode_utf8 {S} (x : bytes) : M S str :=
  match decode x with Some s => ret s | None => raise ValueError end.

End Sys.

(* ===================================================================== *)
(** * [transfer_core/helpers.py] *)
(* ===================================================================== *)

Module helpers.
Import Py Sys.

(** The slicing at a separator found at [separator_index]. *)
Definition split_at_separator (header_buffer header_sep_bytes : bytes)
    (separator_index : nat) : M world (str * bytes) :=
  let header_bytes := firstn separator_index header_buffer in
  let remaining_buffer :=
    skipn (separator_index + length header_sep_bytes) header_buffer in
  try_except
    (decoded_header <- decode_utf8 header_bytes ;;
     ret (decoded_header, remaining_buffer))
    (fun _ => Some (raise ValueError)).

(** The loop [while time.time() - start_time < timeout].  Every round that
    goes on to the next has called [recv] once, so a round each for the
    scripted network events, and one more, is all the loop can make. *)
Fixpoint read_header_loop (rounds : nat) (start_time timeout max_buffer : Z)
    (header_sep_bytes header_buffer : bytes) : M world (str * bytes) :=
  match rounds with
  | 0 => fun w => (Blocked, w)
  | S rounds' =>
      now <- time ;;
      if (now - start_time <? timeout)%Z then
        cancelled <- is_set ;;
        if cancelled then raise CancelledError
        else
          chunk <- try_except
            (let chunk_size_to_read :=
               if (len header_buffer =? 0)%Z
               then Z.min config.BUFFER_SIZE_FOR_HEADER max_buffer
               else Z.min 4096 (max_buffer - len header_buffer) in
             if (chunk_size_to_read <=? 0)%Z then raise ValueError
             else
               chunk <- recv chunk_size_to_read ;;
               ret (Some chunk))
            (fun e =>
               if isinstance e SocketTimeout then Some (ret None)
               else Some (raise PlainException)) ;;
          match chunk with
          | None =>
              read_header_loop rounds' start_time timeout max_buffer
                               header_sep_bytes header_buffer
          | Some [] =>
              if (len header_buffer =? 0)%Z then raise ConnectionResetError
              else raise ValueError
          | Some chunk =>
              let header_buffer := header_buffer ++ chunk in
              match find Byte.eqb header_buffer header_sep_bytes with
              | Some separator_index =>
                  split_at_separator header_buffer header_sep_bytes
                                     separator_index
              | None =>
                  if (len header_buffer >? max_buffer)%Z then raise ValueError
                  else
                    read_header_loop rounds' start_time timeout max_buffer
                                     header_sep_bytes header_buffer
              end
          end
      else raise SocketTimeout
  end.

Definition default_timeout : Z := 10000.
Definition default_max_buffer : Z := config.BUFFER_SIZE_FOR_HEADER * 4.

Definition read_header_from_socket (initial_buffer : bytes)
    (timeout max_buffer : Z) : M world (str * bytes) :=
  let header_buffer := initial_buffer in
  header_sep_bytes <- encode_utf8 config.HEADER_SEPARATOR ;;
  start_time <- time ;;
  match find Byte.eqb header_buffer header_sep_bytes with
  | Some separator_index =>
      split_at_separator header_buffer header_sep_bytes separator_index
  | None =>
      rounds <- gets (fun w => S (length (w_net w))) ;;
      read_header_loop rounds start_time timeout max_buffer
                       header_sep_bytes header_buffer
  end.

End helpers.

(* ===================================================================== *)
(** * [utils.py] *)
(* ===================================================================== *)

Module utils.
Import Py Sys.

Section WithUnicode.
Context {db : UnicodeDB}.

(** [format_bytes(byte_count)], for what it does besides the text it
    returns (the text goes into a status line and nowhere else): a count
    that is negative or 0 is answered at once; for a positive one,
    [size_name[i]] with [i = int(math.floor(math.log(byte_count, 1024)))]
    raises [IndexError] when [i] is beyond the 9 names of [size_name]
    (for the counts so large that [math.pow] or the division overflows,
    [OverflowError] comes first: it is caught by the same clauses). *)
Definition format_bytes {S} (byte_count : Z) : M S unit :=
  if (byte_count <=? 0)%Z then ret tt
  else if (9 <=? float_log_1024 byte_count)%Z then raise PlainException
  else ret tt.

(** [re.sub(r'[^\w\s\.-_]', '_', part)]: inside the class, [\.-_] is the
    range from ['.'] to ['_']. *)
Definition keep_char (c : N) : bool :=
  isword c || isspace c || ((46 <=? c) && (c <=? 95))%N.

(** [None] stands for [ValueError]. *)
Definition sanitize_filename_part (part : str) : option str :=
  match part with
  | [] => Some []
  | _ =>
      if str_eqb part (u ".") || str_eqb part (u "..") then None
      else
        let sanitized_part :=
          map (fun c => if keep_char c then c else underscore) part in
        let sanitized_part :=
          map (fun c => if (c =? space)%N then underscore else c) sanitized_part in
        let sanitized_part := lstrip_while (N.eqb dot) sanitized_part in
        let sanitized_part :=
          rstrip_while (fun c => isspace c || (c =? dot)%N) sanitized_part in
        match sanitized_part with
        | [] => None
        | _ => Some sanitized_part
        end
  end.

(** The loop [for i, part in enumerate(parts_protocol)] of [sanitize_path];
    [count] is [len(parts_protocol)]. *)
Fixpoint sanitize_parts (count i : nat) (parts_protocol : list str)
    (sanitized_parts_local : list str) : option (list str) :=
  match parts_protocol with
  | [] => Some sanitized_parts_local
  | part :: rest =>
      if (i =? count - 1) && str_eqb part [] && (1 <? count)
      then sanitize_parts count (S i) rest (sanitized_parts_local ++ [[]])
      else if str_eqb part (u ".") || str_eqb part (u "..") then None
      else if str_eqb part []
      then sanitize_parts count (S i) rest sanitized_parts_local
      else
        match sanitize_filename_part part with
        | Some sanitized_name =>
            sanitize_parts count (S i) rest (sanitized_parts_local ++ [sanitized_name])
        | None => None
        end
  end.

(** [relative_path.strip() not in ["", ".", "/"]]. *)
Definition names_a_sub_item (relative_path : str) : bool :=
  let s := strip relative_path in
  negb (str_eqb s [] || str_eqb s (u ".") || str_eqb s (u "/")).

Definition sanitize_path (base_dir relative_path : str) : M world str :=
  match base_dir with
  | [] => raise ValueError
  | _ =>
      base_dir_abs <- try_except
        (base_dir_abs <- abspath base_dir ;;
         present <- path_exists base_dir_abs ;;
         (if present then ret tt
          else try_except (makedirs base_dir_abs)
                 (fun e => if isinstance e OSError then Some (raise OSError)
                           else Some (raise RuntimeError))) ;;
         ret base_dir_abs)
        (fun _ => Some (raise ValueError)) ;;
      let parts_protocol := split_on N.eqb slash relative_path in
      match sanitize_parts (length parts_protocol) 0 parts_protocol [] with
      | None => raise ValueError
      | Some sanitized_parts_local =>
          if (length sanitized_parts_local =? 0) && names_a_sub_item relative_path
          then raise ValueError
          else
            let full_path := PosixPath.join base_dir_abs sanitized_parts_local in
            let normalized_full_path := PosixPath.normpath full_path in
            let base_dir_abs_norm := PosixPath.normpath base_dir_abs in
            match PosixPath.commonpath base_dir_abs_norm normalized_full_path with
            | None => raise ValueError
            | Some common_path =>
                if negb (str_eqb common_path base_dir_abs_norm)
                then raise ValueError
                else if names_a_sub_item relative_path
                        && str_eqb normalized_full_path base_dir_abs_norm
                then raise ValueError
                else ret normalized_full_path
            end
      end
  end.

End WithUnicode.

End utils.

(* ===================================================================== *)
(** * [transfer_core/single_file_handler.py] *)
(* ===================================================================== *)

Module single_file_handler.
Import Py Sys.

(** The local variables of [handle_client_connection], and the world. *)
Record env : Type := mkEnv {
  filesize : Z;
  filename_from_header : str;
  current_buffer_size_from_header : Z;
  received_bytes : Z;
  is_cancelled : bool;
  transfer_success : bool;
  file_handle : option str;
  file_path : option str;
  current_remaining_buffer : bytes;
  W : world
}.

Definition set_filesize (v : Z) (s : env) : env :=
  mkEnv v (filename_from_header s) (current_buffer_size_from_header s)
    (received_bytes s) (is_cancelled s) (transfer_success s) (file_handle s)
    (file_path s) (current_remaining_buffer s) (W s) .

Definition set_filename_from_header (v : str) (s : env) : env :=
  mkEnv (filesize s) v (current_buffer_size_from_header s) (received_bytes s)
    (is_cancelled s) (transfer_success s) (file_handle s) (file_path s)
    (current_remaining_buffer s) (W s) .

Definition set_current_buffer_size_from_header (v : Z) (s : env) : env :=
  mkEnv (filesize s) (filename_from_header s) v (received_bytes s)
    (is_cancelled s) (transfer_success s) (file_handle s) (file_path s)
    (current_remaining_buffer s) (W s) .

Definition set_received_bytes (v : Z) (s : env) : env :=
  mkEnv (filesize s) (filename_from_header s)
    (current_buffer_size_from_header s) v (is_cancelled s)
    (transfer_success s) (file_handle s) (file_path s)
    (current_remaining_buffer s) (W s) .

Definition set_is_cancelled (v : bool) (s : env) : env :=
  mkEnv (filesize s) (filename_from_header s)
    (current_buffer_size_from_header s) (received_bytes s) v
    (transfer_success s) (file_handle s) (file_path s)
    (current_remaining_buffer s) (W s) .

Definition set_transfer_success (v : bool) (s : env) : env :=
  mkEnv (filesize s) (filename_from_header s)
    (current_buffer_size_from_header s) (received_bytes s) (is_cancelled s) v
    (file_handle s) (file_path s) (current_remaining_buffer s) (W s) .

Definition set_file_handle (v : option str) (s : env) : env :=
  mkEnv (filesize s) (filename_from_header s)
    (current_buffer_size_from_header s) (received_bytes s) (is_cancelled s)
    (transfer_success s) v (file_path s) (current_remaining_buffer s) (W s) .

Definition set_file_path (v : option str) (s : env) : env :=
  mkEnv (filesize s) (filename_from_header s)
    (current_buffer_size_from_header s) (received_bytes s) (is_cancelled s)
    (transfer_success s) (file_handle s) v (current_remaining_buffer s) (W s)
    .

Definition set_current_remaining_buffer (v : bytes) (s : env) : env :=
  mkEnv (filesize s) (filename_from_header s)
    (current_buffer_size_from_header s) (received_bytes s) (is_cancelled s)
    (transfer_success s) (file_handle s) (file_path s) v (W s) .

Definition set_W (v : world) (s : env) : env :=
  mkEnv (filesize s) (filename_from_header s)
    (current_buffer_size_from_header s) (received_bytes s) (is_cancelled s)
    (transfer_success s) (file_handle s) (file_path s)
    (current_remaining_buffer s) v.

#[export] Instance env_has_world : HasWorld env :=
  {| the_world := W; with_world := set_W |}.

Definition initial_env (initial_buffer : bytes) (w : world) : env :=
  mkEnv 0 (u "N/A") 4096 0 false false None None initial_buffer w.

Definition say (e : gui_event) : M env unit := lift (gui e).

(** What one round of the receive loop leaves to do. *)
Inductive round : Type :=
| Continue
| Break
| Got (bytes_read_chunk : bytes).

Section WithUnicode.
Context {db : UnicodeDB}.

(** [part, current_remaining_buffer = read_header_from_socket(...)]. *)
Definition read_header (timeout : Z) : M env str :=
  buffer <- gets current_remaining_buffer ;;
  '(part, rest) <- lift (helpers.read_header_from_socket
                           buffer timeout helpers.default_max_buffer) ;;
  modify (set_current_remaining_buffer rest) ;;
  ret part.

(** The three frames [filename|filesize|buffersize|]. *)
Definition parse_header : M env unit :=
  header_part1 <- read_header (config.DISCOVERY_TIMEOUT * 2) ;;
  modify (set_filename_from_header header_part1) ;;
  header_part2 <- read_header helpers.default_timeout ;;
  try_except
    (match int header_part2 with
     | None => raise ValueError
     | Some n =>
         modify (set_filesize n) ;;
         if (n <? 0)%Z then raise ValueError
         else if (n >? config.TEST_FILE_SIZE * 10000)%Z
         then utils.format_bytes n ;; say StSizeTooLarge ;; raise ValueError
         else ret tt
     end)
    (fun e => if isinstance e ValueError then Some (raise ValueError) else None) ;;
  header_part3 <- read_header helpers.default_timeout ;;
  try_except
    (match int header_part3 with
     | None => raise ValueError
     | Some n =>
         modify (set_current_buffer_size_from_header n) ;;
         if (n <=? 0)%Z then raise ValueError else ret tt
     end)
    (fun e =>
       if isinstance e ValueError
       then Some (modify (set_current_buffer_size_from_header 4096))
       else None).

(** [while os.path.exists(final_file_path)]: the counter stops the loop
    after 10000 rounds. *)
Fixpoint unique_name (rounds : nat) (original_base ext final_file_path : str)
    (counter : Z) : M world str :=
  present <- path_exists final_file_path ;;
  if present then
    match rounds with
    | 0 => raise ValueError
    | S rounds' =>
        let final_file_path :=
          original_base ++ [underscore] ++ str_of_Z counter ++ ext in
        let counter := (counter + 1)%Z in
        if (counter >? 10000)%Z then raise ValueError
        else unique_name rounds' original_base ext final_file_path counter
    end
  else ret final_file_path.

Definition save_dir : str := u "received_files".

(** The block that settles [file_path]; [false] when it ends in [return]. *)
Definition prepare_path (save_filename_raw : str) : M env bool :=
  try_except
    (received_files_base_abs <- lift (abspath save_dir) ;;
     present <- lift (path_exists received_files_base_abs) ;;
     (if present then ret tt
      else try_except (lift (makedirs received_files_base_abs))
             (fun e => if isinstance e OSError then Some (raise OSError)
                       else Some (raise RuntimeError))) ;;
     file_path_base <-
       lift (utils.sanitize_path received_files_base_abs save_filename_raw) ;;
     let (base, ext) := PosixPath.splitext file_path_base in
     final_file_path <- lift (unique_name (Z.to_nat 10000) base ext file_path_base 1) ;;
     modify (set_file_path (Some final_file_path)) ;;
     ret true)
    (fun e =>
       if isinstance e ValueError || isinstance e OSError
          || isinstance e RuntimeError
       then Some (say StPathError ;; say ShowError ;;
                  modify (set_is_cancelled true) ;; ret false)
       else None).

(** [while received_bytes < filesize]: a round that goes on has called
    [recv] once. *)
Fixpoint receive_loop (rounds : nat) (handle : str)
    (recv_buffer_size_for_loop : Z) : M env unit :=
  match rounds with
  | 0 => fun s => (Blocked, s)
  | S rounds' =>
      s <- get ;;
      if (received_bytes s <? filesize s)%Z then
        cancelled <- lift is_set ;;
        if cancelled
        then say StCancelledByUser ;; modify (set_is_cancelled true)
        else
          r <- try_except
            (let bytes_to_read_now :=
               Z.min recv_buffer_size_for_loop (filesize s - received_bytes s) in
             if (bytes_to_read_now <=? 0)%Z then ret Break
             else
               bytes_read_chunk <- lift (recv bytes_to_read_now) ;;
               ret (Got bytes_read_chunk))
            (fun e =>
               if isinstance e SocketTimeout then Some (ret Continue)
               else Some (say StSocketReadError ;;
                          modify (set_is_cancelled true) ;; ret Break)) ;;
          match r with
          | Continue => receive_loop rounds' handle recv_buffer_size_for_loop
          | Break => ret tt
          | Got [] => say StConnectionLost ;; modify (set_is_cancelled true)
          | Got bytes_read_chunk =>
              lift (write handle bytes_read_chunk) ;;
              modify (fun s => set_received_bytes
                                 (received_bytes s + len bytes_read_chunk) s) ;;
              receive_loop rounds' handle recv_buffer_size_for_loop
          end
      else ret tt
  end.

(** The body of the inner [try]. *)
Definition receive_body (receive_buffer_size : Z) : M env unit :=
  s <- get ;;
  match file_path s with
  | None => raise PlainException
  | Some path =>
      if (filesize s =? 0)%Z then
        try_except
          (lift (open_wb path) ;;
           modify (set_transfer_success true) ;;
           say StEmptyFileDone)
          (fun _ => Some (raise PlainException))
      else
        handle <- lift (open_wb path) ;;
        modify (set_file_handle (Some handle)) ;;
        (match current_remaining_buffer s with
         | [] => ret tt
         | buffer =>
             let bytes_to_write_now :=
               Z.min (len buffer) (filesize s - received_bytes s) in
             (if (bytes_to_write_now >? 0)%Z then
                lift (write handle (firstn (Z.to_nat bytes_to_write_now) buffer)) ;;
                modify (fun s => set_received_bytes
                                   (received_bytes s + bytes_to_write_now) s)
              else ret tt) ;;
             modify (set_current_remaining_buffer [])
         end) ;;
        rounds <- gets (fun s => S (length (w_net (W s)))) ;;
        receive_loop rounds handle receive_buffer_size ;;
        s <- get ;;
        if negb (is_cancelled s) && (received_bytes s >=? filesize s)%Z
        then modify (set_transfer_success true)
        else ret tt
  end.

(** The inner [finally]: the handle is closed and an incomplete file is
    removed. *)
Definition cleanup : M env unit :=
  s <- get ;;
  match file_path s with
  | None => ret tt
  | Some path =>
      present <- lift (path_exists path) ;;
      if negb (transfer_success s) && negb (length path =? 0) && present
         && (filesize s >? 0)%Z && (received_bytes s <? filesize s)%Z
      then try_except (lift (remove path) ;; say StIncompleteRemoved)
             (fun _ => Some (say StRemoveFailed))
      else ret tt
  end.

(** The inner [try / except Exception / finally]. *)
Definition receive_file (receive_buffer_size : Z) : M env unit :=
  modify (set_file_handle None) ;;
  try_finally
    (try_except (receive_body receive_buffer_size)
       (fun _ =>
          Some (s <- get ;;
                if is_cancelled s then ret tt
                else say StReceiveError ;; say ShowError ;;
                     modify (set_is_cancelled true) ;;
                     modify (set_transfer_success false))))
    cleanup.

(** The handler.  The start of the receive is reported in three status
    lines, each built with [utils.format_bytes]: of the file size, of the
    receiver's buffer size and of the sender's; [StReceiveStart] is the
    first of them. *)
Definition handle_client_connection (receive_buffer_size : Z) : M env unit :=
  say StNewConnection ;;
  try_finally
    (try_except
       (parse_header ;;
        cancelled <- lift is_set ;;
        if cancelled
        then say StCancelledByUser ;; modify (set_is_cancelled true)
        else
          s <- get ;;
          let save_filename_raw := PosixPath.basename (filename_from_header s) in
          utils.format_bytes (filesize s) ;;
          say StReceiveStart ;;
          utils.format_bytes receive_buffer_size ;;
          utils.format_bytes (current_buffer_size_from_header s) ;;
          prepared <- prepare_path save_filename_raw ;;
          if prepared then receive_file receive_buffer_size else ret tt)
       (fun e =>
          if isinstance e SocketTimeout || isinstance e ConnectionResetError
             || isinstance e ValueError || isinstance e CancelledError
             || isinstance e OSError || isinstance e RuntimeError
          then Some (say StHeaderError ;; say ShowError ;;
                     modify (set_is_cancelled true) ;;
                     modify (set_transfer_success false))
          else Some (s <- get ;;
                     if is_cancelled s then ret tt
                     else say StProcessingError ;; say ShowError ;;
                          modify (set_is_cancelled true) ;;
                          modify (set_transfer_success false))))
    (lift close_socket ;;
     s <- get ;;
     (if transfer_success s then ret tt
      else if is_cancelled s then say StTransferCancelled
      else say StTransferFailed) ;;
     say StHandlerFinished ;;
     say OnTransferFinished).

(** The handler started on a connection whose first bytes were sniffed. *)
Definition run (receive_buffer_size : Z) (initial_buffer : bytes)
    (w : world) : outcome unit * env :=
  handle_client_connection receive_buffer_size (initial_env initial_buffer w).

End WithUnicode.

End single_file_handler.

(* ===================================================================== *)
(** * [transfer_core/handshake.py] *)
(* ===================================================================== *)

Module handshake.
Import Py Sys.

(** The receiver's side: the response is sent, nothing is read. *)
Definition perform_folder_handshake_server (verification_result : bool)
    : M world unit :=
  try_except
    (try_except
       (if verification_result
        then gui StSendingOk ;; sendall config.HANDSHAKE_COMPLETE_OK_SIGNAL
        else gui StSendingError ;; sendall config.HANDSHAKE_ERROR_SIGNAL)
       (fun _ => Some (gui StSendFailed ;; gui ShowWarning)))
    (fun e =>
       if isinstance e CancelledError then Some (ret tt)
       else Some (gui StTransferError ;; gui ShowError ;;
                  try_except (sendall config.HANDSHAKE_ERROR_SIGNAL)
                    (fun _ => Some (ret tt)))).

End handshake.

(* ===================================================================== *)
(** * [transfer_core/folder_handler.py] *)
(* ===================================================================== *)

Module folder_handler.
Import Py Sys.

Inductive state : Type :=
| STATE_WAITING_FOR_ROOT_FOLDER_HEADER
| STATE_WAITING_FOR_TOTAL_INFO_HEADER
| STATE_WAITING_FOR_ITEM_HEADER
| STATE_RECEIVING_FILE_DATA
| STATE_WAITING_FOR_HANDSHAKE_REQUEST
| STATE_HANDSHAKE_COMPLETE.

Definition state_eqb (x y : state) : bool :=
  match x, y with
  | STATE_WAITING_FOR_ROOT_FOLDER_HEADER, STATE_WAITING_FOR_ROOT_FOLDER_HEADER
  | STATE_WAITING_FOR_TOTAL_INFO_HEADER, STATE_WAITING_FOR_TOTAL_INFO_HEADER
  | STATE_WAITING_FOR_ITEM_HEADER, STATE_WAITING_FOR_ITEM_HEADER
  | STATE_RECEIVING_FILE_DATA, STATE_RECEIVING_FILE_DATA
  | STATE_WAITING_FOR_HANDSHAKE_REQUEST, STATE_WAITING_FOR_HANDSHAKE_REQUEST
  | STATE_HANDSHAKE_COMPLETE, STATE_HANDSHAKE_COMPLETE => true
  | _, _ => false
  end.

(** The local variables of [handle_client_folder_transfer], and the world.
    [None] is Python's [None]. *)
Record env : Type := mkEnv {
  current_save_dir : option str;
  session_root_name : option str;
  received_files_base_abs : option str;
  received_bytes_total : Z;
  items_received_count : Z;
  total_expected_items : option Z;
  total_expected_size : option Z;
  current_file_bytes_expected : Z;
  current_file_bytes_received : Z;
  current_file_handle : option str;
  current_file_path : option str;
  current_item_path_protocol : str;
  is_cancelled : bool;
  transfer_success : bool;
  received_buffer : bytes;
  current_state : state;
  W : world
}.

Definition set_current_save_dir (v : option str) (s : env) : env :=
  mkEnv v (session_root_name s) (received_files_base_abs s)
    (received_bytes_total s) (items_received_count s)
    (total_expected_items s) (total_expected_size s)
    (current_file_bytes_expected s) (current_file_bytes_received s)
    (current_file_handle s) (current_file_path s)
    (current_item_path_protocol s) (is_cancelled s) (transfer_success s)
    (received_buffer s) (current_state s) (W s) .

Definition set_session_root_name (v : option str) (s : env) : env :=
  mkEnv (current_save_dir s) v (received_files_base_abs s)
    (received_bytes_total s) (items_received_count s)
    (total_expected_items s) (total_expected_size s)
    (current_file_bytes_expected s) (current_file_bytes_received s)
    (current_file_handle s) (current_file_path s)
    (current_item_path_protocol s) (is_cancelled s) (transfer_success s)
    (received_buffer s) (current_state s) (W s) .

Definition set_received_files_base_abs (v : option str) (s : env) : env :=
  mkEnv (current_save_dir s) (session_root_name s) v (received_bytes_total s)
    (items_received_count s) (total_expected_items s) (total_expected_size s)
    (current_file_bytes_expected s) (current_file_bytes_received s)
    (current_file_handle s) (current_file_path s)
    (current_item_path_protocol s) (is_cancelled s) (transfer_success s)
    (received_buffer s) (current_state s) (W s) .

Definition set_received_bytes_total (v : Z) (s : env) : env :=
  mkEnv (current_save_dir s) (session_root_name s)
    (received_files_base_abs s) v (items_received_count s)
    (total_expected_items s) (total_expected_size s)
    (current_file_bytes_expected s) (current_file_bytes_received s)
    (current_file_handle s) (current_file_path s)
    (current_item_path_protocol s) (is_cancelled s) (transfer_success s)
    (received_buffer s) (current_state s) (W s) .

Definition set_items_received_count (v : Z) (s : env) : env :=
  mkEnv (current_save_dir s) (session_root_name s)
    (received_files_base_abs s) (received_bytes_total s) v
    (total_expected_items s) (total_expected_size s)
    (current_file_bytes_expected s) (current_file_bytes_received s)
    (current_file_handle s) (current_file_path s)
    (current_item_path_protocol s) (is_cancelled s) (transfer_success s)
    (received_buffer s) (current_state s) (W s) .

Definition set_total_expected_items (v : option Z) (s : env) : env :=
  mkEnv (current_save_dir s) (session_root_name s)
    (received_files_base_abs s) (received_bytes_total s)
    (items_received_count s) v (total_expected_size s)
    (current_file_bytes_expected s) (current_file_bytes_received s)
    (current_file_handle s) (current_file_path s)
    (current_item_path_protocol s) (is_cancelled s) (transfer_success s)
    (received_buffer s) (current_state s) (W s) .

Definition set_total_expected_size (v : option Z) (s : env) : env :=
  mkEnv (current_save_dir s) (session_root_name s)
    (received_files_base_abs s) (received_bytes_total s)
    (items_received_count s) (total_expected_items s) v
    (current_file_bytes_expected s) (current_file_bytes_received s)
    (current_file_handle s) (current_file_path s)
    (current_item_path_protocol s) (is_cancelled s) (transfer_success s)
    (received_buffer s) (current_state s) (W s) .

Definition set_current_file_bytes_expected (v : Z) (s : env) : env :=
  mkEnv (current_save_dir s) (session_root_name s)
    (received_files_base_abs s) (received_bytes_total s)
    (items_received_count s) (total_expected_items s) (total_expected_size s)
    v (current_file_bytes_received s) (current_file_handle s)
    (current_file_path s) (current_item_path_protocol s) (is_cancelled s)
    (transfer_success s) (received_buffer s) (current_state s) (W s) .

Definition set_current_file_bytes_received (v : Z) (s : env) : env :=
  mkEnv (current_save_dir s) (session_root_name s)
    (received_files_base_abs s) (received_bytes_total s)
    (items_received_count s) (total_expected_items s) (total_expected_size s)
    (current_file_bytes_expected s) v (current_file_handle s)
    (current_file_path s) (current_item_path_protocol s) (is_cancelled s)
    (transfer_success s) (received_buffer s) (current_state s) (W s) .

Definition set_current_file_handle (v : option str) (s : env) : env :=
  mkEnv (current_save_dir s) (session_root_name s)
    (received_files_base_abs s) (received_bytes_total s)
    (items_received_count s) (total_expected_items s) (total_expected_size s)
    (current_file_bytes_expected s) (current_file_bytes_received s) v
    (current_file_path s) (current_item_path_protocol s) (is_cancelled s)
    (transfer_success s) (received_buffer s) (current_state s) (W s) .

Definition set_current_file_path (v : option str) (s : env) : env :=
  mkEnv (current_save_dir s) (session_root_name s)
    (received_files_base_abs s) (received_bytes_total s)
    (items_received_count s) (total_expected_items s) (total_expected_size s)
    (current_file_bytes_expected s) (current_file_bytes_received s)
    (current_file_handle s) v (current_item_path_protocol s) (is_cancelled s)
    (transfer_success s) (received_buffer s) (current_state s) (W s) .

Definition set_current_item_path_protocol (v : str) (s : env) : env :=
  mkEnv (current_save_dir s) (session_root_name s)
    (received_files_base_abs s) (received_bytes_total s)
    (items_received_count s) (total_expected_items s) (total_expected_size s)
    (current_file_bytes_expected s) (current_file_bytes_received s)
    (current_file_handle s) (current_file_path s) v (is_cancelled s)
    (transfer_success s) (received_buffer s) (current_state s) (W s) .

Definition set_is_cancelled (v : bool) (s : env) : env :=
  mkEnv (current_save_dir s) (session_root_name s)
    (received_files_base_abs s) (received_bytes_total s)
    (items_received_count s) (total_expected_items s) (total_expected_size s)
    (current_file_bytes_expected s) (current_file_bytes_received s)
    (current_file_handle s) (current_file_path s)
    (current_item_path_protocol s) v (transfer_success s) (received_buffer s)
    (current_state s) (W s) .

Definition set_transfer_success (v : bool) (s : env) : env :=
  mkEnv (current_save_dir s) (session_root_name s)
    (received_files_base_abs s) (received_bytes_total s)
    (items_received_count s) (total_expected_items s) (total_expected_size s)
    (current_file_bytes_expected s) (current_file_bytes_received s)
    (current_file_handle s) (current_file_path s)
    (current_item_path_protocol s) (is_cancelled s) v (received_buffer s)
    (current_state s) (W s) .

Definition set_received_buffer (v : bytes) (s : env) : env :=
  mkEnv (current_save_dir s) (session_root_name s)
    (received_files_base_abs s) (received_bytes_total s)
    (items_received_count s) (total_expected_items s) (total_expected_size s)
    (current_file_bytes_expected s) (current_file_bytes_received s)
    (current_file_handle s) (current_file_path s)
    (current_item_path_protocol s) (is_cancelled s) (transfer_success s) v
    (current_state s) (W s) .

Definition set_current_state (v : state) (s : env) : env :=
  mkEnv (current_save_dir s) (session_root_name s)
    (received_files_base_abs s) (received_bytes_total s)
    (items_received_count s) (total_expected_items s) (total_expected_size s)
    (current_file_bytes_expected s) (current_file_bytes_received s)
    (current_file_handle s) (current_file_path s)
    (current_item_path_protocol s) (is_cancelled s) (transfer_success s)
    (received_buffer s) v (W s) .

Definition set_W (v : world) (s : env) : env :=
  mkEnv (current_save_dir s) (session_root_name s)
    (received_files_base_abs s) (received_bytes_total s)
    (items_received_count s) (total_expected_items s) (total_expected_size s)
    (current_file_bytes_expected s) (current_file_bytes_received s)
    (current_file_handle s) (current_file_path s)
    (current_item_path_protocol s) (is_cancelled s) (transfer_success s)
    (received_buffer s) (current_state s) v.

#[export] Instance env_has_world : HasWorld env :=
  {| the_world := W; with_world := set_W |}.

Definition initial_env (initial_buffer : bytes) (w : world) : env :=
  mkEnv None None None 0 0 None None 0 0 None None (u "N/A") false false
        initial_buffer STATE_WAITING_FOR_ROOT_FOLDER_HEADER w.

Definition say (e : gui_event) : M env unit := lift (gui e).

Definition save_dir_base : str := u "received_folders".

(** [close_current_file()]. *)
Definition close_current_file : M env unit :=
  s <- get ;;
  match current_file_handle s with
  | Some _ =>
      modify (set_current_file_handle None) ;;
      modify (set_current_file_path None)
  | None => ret tt
  end.

(** [segment, received_buffer = read_header_from_socket(...)]. *)
Definition read_header (timeout : Z) : M env str :=
  buffer <- gets received_buffer ;;
  '(segment, rest) <- lift (helpers.read_header_from_socket
                              buffer timeout helpers.default_max_buffer) ;;
  modify (set_received_buffer rest) ;;
  ret segment.

(** [segment.encode('utf-8').strip() == config.HANDSHAKE_REQUEST_SIGNAL.strip()]. *)
Definition is_handshake_request (segment : str) : M env bool :=
  encoded <- encode_utf8 segment ;;
  ret (bytes_eqb (bytes_strip encoded)
                 (bytes_strip config.HANDSHAKE_REQUEST_SIGNAL)).

(** [s.replace('\\', '/')]. *)
Definition backslash_to_slash (s : str) : str :=
  map (fun c => if (c =? 92)%N then slash else c) s.

(** The first part that is a name, [""] when there is none. *)
Fixpoint first_name (parts : list str) : str :=
  match parts with
  | [] => []
  | part :: rest =>
      if negb (length part =? 0)
         && negb (str_eqb part (u ".") || str_eqb part (u ".."))
      then part
      else first_name rest
  end.

(** [int(time.time())], in seconds. *)
Definition int_time : M env Z := now <- lift time ;; ret (now / 1000)%Z.

(** A variable that must not be [None] where it is used: a [TypeError]
    otherwise. *)
Definition required {A} (x : option A) : M env A :=
  match x with Some a => ret a | None => raise PlainException end.

(** The base directory handed to [sanitize_path], which refuses [None]
    with a [ValueError]. *)
Definition required_dir (x : option str) : M env str :=
  match x with Some a => ret a | None => raise ValueError end.

(** [x == y] for an [int] and a value that may be [None]. *)
Definition eq_expected (x : Z) (y : option Z) : bool :=
  match y with Some v => (x =? v)%Z | None => false end.

(** [y is None or y < 0]. *)
Definition unknown (y : option Z) : bool :=
  match y with Some v => (v <? 0)%Z | None => true end.

(** The count and size check made on END_TRANSFER. *)
Definition verification (s : env) : bool :=
  negb ((unknown (total_expected_items s) || unknown (total_expected_size s))
        || (negb (eq_expected (items_received_count s) (total_expected_items s))
            || negb (eq_expected (received_bytes_total s) (total_expected_size s)))).

Definition count_item : M env unit :=
  modify (fun s => set_items_received_count (items_received_count s + 1) s).

Section WithUnicode.
Context {db : UnicodeDB}.

(** ** State WAITING_FOR_ROOT_FOLDER_HEADER *)
Definition on_root_folder_header : M env unit :=
  header_prefix_segment <- read_header (config.DISCOVERY_TIMEOUT * 2) ;;
  request <- is_handshake_request header_prefix_segment ;;
  if request then
    modify (fun s => set_received_buffer
                       (config.HANDSHAKE_REQUEST_SIGNAL ++ received_buffer s) s) ;;
    raise ValueError
  else if negb (str_eqb header_prefix_segment config.FOLDER_PROTOCOL_PREFIX)
  then raise ValueError
  else
    header_type_segment <- read_header helpers.default_timeout ;;
    header_path_segment <- read_header helpers.default_timeout ;;
    let first_item_type := header_type_segment in
    let first_item_path_raw := header_path_segment in
    modify (set_current_item_path_protocol first_item_path_raw) ;;
    if negb (str_eqb first_item_type config.FOLDER_HEADER_TYPE_FOLDER)
    then raise ValueError
    else
      let normalized_client_root_path_str :=
        backslash_to_slash (PosixPath.normpath first_item_path_raw) in
      let parts := split_on N.eqb slash normalized_client_root_path_str in
      root_folder_name_for_session <-
        (match first_name parts with
         | [] =>
             t <- int_time ;;
             say StRootNameFallback ;;
             ret (u "received_folder_" ++ str_of_Z t)
         | name => ret name
         end) ;;
      sanitized_root_name <-
        (match utils.sanitize_filename_part root_folder_name_for_session with
         | Some [] =>
             t <- int_time ;;
             ret (u "received_folder_" ++ str_of_Z t ++ u "_sanitized_fallback")
         | Some name => ret name
         | None =>
             t <- int_time ;;
             say StRootNameSanitizeError ;;
             ret (u "received_folder_" ++ str_of_Z t ++ u "_sanitization_error")
         end) ;;
      try_except
        (s <- get ;;
         base <- required_dir (received_files_base_abs s) ;;
         save_dir <- lift (utils.sanitize_path base (sanitized_root_name ++ u "/")) ;;
         modify (set_current_save_dir (Some save_dir)) ;;
         present <- lift (path_exists save_dir) ;;
         (if present then ret tt else lift (makedirs save_dir)) ;;
         modify (set_session_root_name (Some sanitized_root_name)) ;;
         count_item)
        (fun e =>
           if isinstance e ValueError || isinstance e OSError
              || isinstance e RuntimeError
           then Some (raise ValueError) else None) ;;
      say StRootReady ;;
      modify (set_current_state STATE_WAITING_FOR_TOTAL_INFO_HEADER).

(** ** State WAITING_FOR_TOTAL_INFO_HEADER *)
Definition on_total_info_header : M env unit :=
  header_prefix_segment <- read_header config.DISCOVERY_TIMEOUT ;;
  request <- is_handshake_request header_prefix_segment ;;
  if request then
    say StEarlyHandshakeRequest ;;
    modify (fun s => set_received_buffer
                       (config.HANDSHAKE_REQUEST_SIGNAL ++ received_buffer s) s) ;;
    modify (set_current_state STATE_WAITING_FOR_HANDSHAKE_REQUEST)
  else if negb (str_eqb header_prefix_segment config.FOLDER_PROTOCOL_PREFIX)
  then raise ValueError
  else
    header_type_segment <- read_header helpers.default_timeout ;;
    if str_eqb header_type_segment config.FOLDER_HEADER_TYPE_TOTAL_INFO then
      header_data_segment <- read_header helpers.default_timeout ;;
      try_except
        (match split_on N.eqb config.TOTAL_INFO_COUNT_SIZE_SEPARATOR
                        header_data_segment with
         | [count_part; size_part] =>
             match int count_part with
             | None => raise ValueError
             | Some parsed_count =>
                 match int size_part with
                 | None => raise ValueError
                 | Some parsed_size =>
                     if (parsed_count <? 0)%Z || (parsed_size <? 0)%Z
                     then raise ValueError
                     else
                       modify (set_total_expected_items (Some parsed_count)) ;;
                       modify (set_total_expected_size (Some parsed_size)) ;;
                       utils.format_bytes parsed_size ;;
                       say (StTotalInfo parsed_count parsed_size)
                 end
             end
         | _ => raise ValueError
         end)
        (fun e => if isinstance e ValueError then Some (raise ValueError)
                  else None) ;;
      modify (set_current_state STATE_WAITING_FOR_ITEM_HEADER)
    else if str_eqb header_type_segment config.FOLDER_HEADER_TYPE_FOLDER
            || str_eqb header_type_segment config.FOLDER_HEADER_TYPE_FILE
            || str_eqb header_type_segment config.FOLDER_HEADER_TYPE_END_TRANSFER
    then
      say StTotalInfoMissing ;;
      prefix_bytes <- encode_utf8 header_prefix_segment ;;
      sep_bytes <- encode_utf8 config.HEADER_SEPARATOR ;;
      type_bytes <- encode_utf8 header_type_segment ;;
      modify (fun s => set_received_buffer
                         (prefix_bytes ++ sep_bytes ++ type_bytes ++ sep_bytes
                          ++ received_buffer s) s) ;;
      modify (set_current_state STATE_WAITING_FOR_ITEM_HEADER) ;;
      modify (set_total_expected_items (Some (-1)%Z)) ;;
      modify (set_total_expected_size (Some (-1)%Z))
    else raise ValueError.

(** ** State WAITING_FOR_ITEM_HEADER *)

(** An END_TRANSFER header: the count and size verification.  The two
    detail lines format [received_bytes_total] and [total_expected_size]
    with [utils.format_bytes]: it has returned on the expected size when
    TOTAL_INFO was read, and the total is the sum of the sizes of the
    files received, each at most 10000 times [TEST_FILE_SIZE], which stays
    below [2^89] unless more than 10^14 files are received; these two
    calls are not written out. *)
Definition on_end_transfer : M env unit :=
  say StEndTransfer ;;
  close_current_file ;;
  modify (set_current_state STATE_WAITING_FOR_HANDSHAKE_REQUEST) ;;
  s <- get ;;
  verification_passed <-
    (if (unknown (total_expected_items s) || unknown (total_expected_size s))
        || (negb (eq_expected (items_received_count s) (total_expected_items s))
            || negb (eq_expected (received_bytes_total s) (total_expected_size s)))
     then
       say StVerificationFailed ;;
       (match total_expected_items s, total_expected_size s with
        | Some items, Some size =>
            if (items >=? 0)%Z && (size >=? 0)%Z then
              say (StVerificationDetail (items_received_count s)
                                        (received_bytes_total s)) ;;
              say (StVerificationDetail items size)
            else ret tt
        | _, _ => ret tt
        end) ;;
       ret false
     else say StVerificationPassed ;; ret true) ;;
  modify (set_transfer_success verification_passed).

(** A FOLDER header whose path, relative to the session root, is given. *)
Definition on_folder (path_relative_to_session_root : str) : M env unit :=
  let path_for_sanitization :=
    if negb (length path_relative_to_session_root =? 0)
       && negb (endswith N.eqb path_relative_to_session_root (u "/"))
    then path_relative_to_session_root ++ u "/"
    else path_relative_to_session_root in
  say StProcessingFolder ;;
  try_except
    (s <- get ;;
     save_dir <- required_dir (current_save_dir s) ;;
     sanitized_full_path <- lift (utils.sanitize_path save_dir path_for_sanitization) ;;
     root <- required (session_root_name s) ;;
     (if str_eqb (PosixPath.normpath sanitized_full_path)
                 (PosixPath.normpath save_dir)
         && negb (str_eqb (strip (current_item_path_protocol s))
                          (strip (root ++ u "/")))
      then raise ValueError else ret tt) ;;
     lift (makedirs sanitized_full_path) ;;
     say StFolderCreated ;;
     count_item)
    (fun e =>
       if isinstance e ValueError || isinstance e OSError
          || isinstance e RuntimeError
       then Some (raise ValueError) else None).

(** A FILE header: the size frame, the destination, and the file opened. *)
Definition on_file (path_relative_to_session_root : str) : M env unit :=
  let path_for_sanitization :=
    if endswith N.eqb path_relative_to_session_root (u "/")
    then rstrip_while (N.eqb slash) path_relative_to_session_root
    else path_relative_to_session_root in
  match path_for_sanitization with
  | [] => raise ValueError
  | _ =>
      header_size_segment <- read_header helpers.default_timeout ;;
      item_size <-
        try_except
          (match int header_size_segment with
           | None => raise ValueError
           | Some item_size =>
               if (item_size <? 0)%Z then raise ValueError
               else if (item_size >? config.TEST_FILE_SIZE * 10000)%Z
               then utils.format_bytes item_size ;; say StSizeTooLarge ;;
                    raise ValueError
               else ret item_size
           end)
          (fun e => if isinstance e ValueError then Some (raise ValueError)
                    else None) ;;
      let current_file_size := item_size in
      modify (set_current_file_bytes_received 0) ;;
      modify (set_current_file_bytes_expected item_size) ;;
      try_except
        (s <- get ;;
         save_dir <- required_dir (current_save_dir s) ;;
         sanitized_full_path <-
           lift (utils.sanitize_path save_dir path_for_sanitization) ;;
         (if str_eqb (PosixPath.normpath sanitized_full_path)
                     (PosixPath.normpath save_dir)
          then raise ValueError else ret tt) ;;
         let parent_dir := PosixPath.dirname sanitized_full_path in
         parent_present <- lift (path_exists parent_dir) ;;
         (if negb (length parent_dir =? 0) && negb parent_present
          then lift (makedirs parent_dir) else ret tt) ;;
         is_directory <- lift (path_isdir sanitized_full_path) ;;
         (if is_directory then raise ValueError else ret tt) ;;
         present <- lift (path_exists sanitized_full_path) ;;
         final_file_path <-
           (if present then
              let (base, ext) := PosixPath.splitext sanitized_full_path in
              final_file_path <-
                lift (single_file_handler.unique_name
                        (Z.to_nat 10000) base ext sanitized_full_path 1) ;;
              say StFileExistsRenamed ;;
              ret final_file_path
            else ret sanitized_full_path) ;;
         modify (set_current_file_path (Some final_file_path)) ;;
         close_current_file ;;
         s <- get ;;
         path <- required (current_file_path s) ;;
         is_directory <- lift (path_isdir path) ;;
         (if is_directory then raise ValueError else ret tt) ;;
         if (current_file_size =? 0)%Z then
           try_except
             (lift (open_wb path) ;;
              count_item ;;
              say StEmptyFileDone ;;
              modify (set_current_state STATE_WAITING_FOR_ITEM_HEADER))
             (fun _ => Some (raise PlainException))
         else
           handle <- lift (open_wb path) ;;
           modify (set_current_file_handle (Some handle)) ;;
           utils.format_bytes current_file_size ;;
           say StReceivingFile ;;
           modify (set_current_state STATE_RECEIVING_FILE_DATA) ;;
           count_item)
        (fun e =>
           if isinstance e ValueError || isinstance e OSError
              || isinstance e RuntimeError
           then Some (raise ValueError) else None)
  end.

(** A FOLDER or FILE header: the path relative to the session root. *)
Definition on_folder_or_file (item_type item_path_raw : str) : M env unit :=
  modify (set_current_item_path_protocol item_path_raw) ;;
  let normalized_item_path :=
    backslash_to_slash (PosixPath.normpath item_path_raw) in
  s <- get ;;
  root <- required (session_root_name s) ;;
  let normalized_session_root_name_clean :=
    rstrip_while (N.eqb slash) (backslash_to_slash (PosixPath.normpath root)) in
  let normalized_session_root_path_protocol_style :=
    normalized_session_root_name_clean ++ u "/" in
  path_relative_to_session_root <-
    (if startswith N.eqb normalized_item_path
                   normalized_session_root_path_protocol_style
     then ret (skipn (length normalized_session_root_path_protocol_style)
                     normalized_item_path)
     else if str_eqb normalized_item_path normalized_session_root_name_clean
     then ret []
     else raise ValueError) ;;
  if str_eqb item_type config.FOLDER_HEADER_TYPE_FOLDER
  then on_folder path_relative_to_session_root
  else if str_eqb item_type config.FOLDER_HEADER_TYPE_FILE
  then on_file path_relative_to_session_root
  else raise ValueError.

Definition on_item_header : M env unit :=
  header_prefix_segment <- read_header config.DISCOVERY_TIMEOUT ;;
  request <- is_handshake_request header_prefix_segment ;;
  if request
  then modify (set_current_state STATE_WAITING_FOR_HANDSHAKE_REQUEST)
  else if negb (str_eqb header_prefix_segment config.FOLDER_PROTOCOL_PREFIX)
  then raise ValueError
  else
    header_type_segment <- read_header helpers.default_timeout ;;
    if str_eqb header_type_segment config.FOLDER_HEADER_TYPE_END_TRANSFER
    then on_end_transfer
    else if str_eqb header_type_segment config.FOLDER_HEADER_TYPE_FOLDER
            || str_eqb header_type_segment config.FOLDER_HEADER_TYPE_FILE
    then
      header_path_segment <- read_header helpers.default_timeout ;;
      on_folder_or_file header_type_segment header_path_segment
    else ret tt.

(** ** State RECEIVING_FILE_DATA *)

(** What the socket part of one round leaves to do. *)
Inductive round : Type :=
| Continue
| Got (chunk : bytes).

(** Step 1 of a round: the bytes of the file that are in the buffer are
    written; the answer is whether the file is complete now. *)
Definition take_from_buffer (handle : str) (bytes_needed_for_file : Z)
    : M env bool :=
  s <- get ;;
  let bytes_available_in_buffer := len (received_buffer s) in
  if (bytes_available_in_buffer >? 0)%Z then
    let bytes_to_process_from_buffer :=
      Z.min bytes_available_in_buffer bytes_needed_for_file in
    (if (bytes_to_process_from_buffer >? 0)%Z then
       let n := Z.to_nat bytes_to_process_from_buffer in
       lift (write handle (firstn n (received_buffer s))) ;;
       modify (fun s => set_current_file_bytes_received
                 (current_file_bytes_received s + bytes_to_process_from_buffer) s) ;;
       modify (fun s => set_received_bytes_total
                 (received_bytes_total s + bytes_to_process_from_buffer) s) ;;
       modify (fun s => set_received_buffer (skipn n (received_buffer s)) s)
     else ret tt) ;;
    s <- get ;;
    ret (current_file_bytes_received s =? current_file_bytes_expected s)%Z
  else ret false.

(** [while current_file_bytes_received < current_file_bytes_expected]: a
    round that goes on has called [recv] once, unless the receive buffer
    size is not positive (the source then spins, the model gives up). *)
Fixpoint data_loop (rounds : nat) (handle : str) (receive_buffer_size : Z)
    : M env unit :=
  match rounds with
  | 0 => fun s => (Blocked, s)
  | S rounds' =>
      s <- get ;;
      if (current_file_bytes_received s <? current_file_bytes_expected s)%Z then
        cancelled <- lift is_set ;;
        if cancelled then modify (set_is_cancelled true)
        else
          let bytes_needed_for_file :=
            (current_file_bytes_expected s - current_file_bytes_received s)%Z in
          complete <- take_from_buffer handle bytes_needed_for_file ;;
          if complete then ret tt
          else
            s <- get ;;
            if (current_file_bytes_received s <? current_file_bytes_expected s)%Z
            then
              let bytes_to_read_from_socket :=
                Z.max 0 (Z.min receive_buffer_size bytes_needed_for_file) in
              if (bytes_to_read_from_socket >? 0)%Z then
                r <- try_except
                  (chunk <- lift (recv bytes_to_read_from_socket) ;;
                   ret (Got chunk))
                  (fun e =>
                     if isinstance e SocketTimeout then Some (ret Continue)
                     else Some (raise PlainException)) ;;
                match r with
                | Continue => data_loop rounds' handle receive_buffer_size
                | Got [] =>
                    if (current_file_bytes_received s
                        <? current_file_bytes_expected s)%Z
                    then raise ConnectionResetError
                    else ret tt
                | Got chunk =>
                    modify (fun s => set_received_buffer
                                       (received_buffer s ++ chunk) s) ;;
                    data_loop rounds' handle receive_buffer_size
                end
              else data_loop rounds' handle receive_buffer_size
            else data_loop rounds' handle receive_buffer_size
      else ret tt
  end.

Definition on_file_data (handle : str) (receive_buffer_size : Z) : M env unit :=
  rounds <- gets (fun s => S (length (w_net (W s)))) ;;
  data_loop rounds handle receive_buffer_size ;;
  s <- get ;;
  if (current_file_bytes_received s =? current_file_bytes_expected s)%Z then
    close_current_file ;;
    say StFileDone ;;
    modify (set_current_state STATE_WAITING_FOR_ITEM_HEADER)
  else ret tt.

(** ** State WAITING_FOR_HANDSHAKE_REQUEST *)
Definition on_handshake : M env unit :=
  s <- get ;;
  lift (handshake.perform_folder_handshake_server (transfer_success s)) ;;
  modify (set_current_state STATE_HANDSHAKE_COMPLETE).

(** ** The main loop *)

(** The [if / elif] chain over [current_state]. *)
Definition dispatch (receive_buffer_size : Z) : M env unit :=
  s <- get ;;
  match current_state s with
  | STATE_WAITING_FOR_ROOT_FOLDER_HEADER => on_root_folder_header
  | STATE_WAITING_FOR_TOTAL_INFO_HEADER => on_total_info_header
  | STATE_WAITING_FOR_ITEM_HEADER => on_item_header
  | STATE_RECEIVING_FILE_DATA =>
      match current_file_handle s with
      | Some handle => on_file_data handle receive_buffer_size
      | None => ret tt
      end
  | STATE_WAITING_FOR_HANDSHAKE_REQUEST => on_handshake
  | STATE_HANDSHAKE_COMPLETE => ret tt
  end.

(** One round of the main loop: the inner [try] and its [except]. *)
Definition loop_body (receive_buffer_size : Z) : M env unit :=
  try_except (dispatch receive_buffer_size)
    (fun e =>
       Some (close_current_file ;;
             (if isinstance e CancelledError then ret tt
              else modify (set_is_cancelled true)) ;;
             raise e)).

(** [while not cancel_transfer_event.is_set() and
    current_state != STATE_HANDSHAKE_COMPLETE]. *)
Fixpoint main_loop (rounds : nat) (receive_buffer_size : Z) : M env unit :=
  match rounds with
  | 0 => fun s => (Blocked, s)
  | S rounds' =>
      cancelled <- lift is_set ;;
      if cancelled then ret tt
      else
        s <- get ;;
        if state_eqb (current_state s) STATE_HANDSHAKE_COMPLETE then ret tt
        else
          loop_body receive_buffer_size ;;
          main_loop rounds' receive_buffer_size
  end.

(** The creation of the base directory; [false] when it ends in [return]. *)
Definition initial_setup : M env bool :=
  try_except
    (base <- lift (abspath save_dir_base) ;;
     modify (set_received_files_base_abs (Some base)) ;;
     present <- lift (path_exists base) ;;
     (if present then ret tt
      else try_except (lift (makedirs base))
             (fun e => if isinstance e OSError then Some (raise OSError)
                       else Some (raise RuntimeError))) ;;
     say StReady ;;
     ret true)
    (fun e =>
       if isinstance e ValueError || isinstance e OSError
          || isinstance e RuntimeError
       then Some (say StSetupError ;; say ShowError ;;
                  modify (set_is_cancelled true) ;; ret false)
       else None).

(** What follows the main loop inside the outer [try]. *)
Definition after_loop : M env unit :=
  cancelled <- lift is_set ;;
  if cancelled then
    modify (set_is_cancelled true) ;;
    modify (set_transfer_success false)
  else
    s <- get ;;
    if state_eqb (current_state s) STATE_HANDSHAKE_COMPLETE then ret tt
    else say StLoopEndedUnexpectedly ;; modify (set_transfer_success false).

(** The outer [except]. *)
Definition on_error (e : exn) : M env unit :=
  close_current_file ;;
  s <- get ;;
  (if negb (isinstance e CancelledError) && negb (is_cancelled s)
   then modify (set_is_cancelled true) else ret tt) ;;
  user_cancel <-
    (if isinstance e CancelledError then lift is_set else ret false) ;;
  (if negb user_cancel then say StTransferError ;; say ShowError else ret tt) ;;
  modify (set_transfer_success false).

(** The outer [finally]. *)
Definition finish : M env unit :=
  close_current_file ;;
  s <- get ;;
  (match current_file_path s with
   | None => ret tt
   | Some path =>
       present <- lift (path_exists path) ;;
       if negb (transfer_success s) && negb (length path =? 0) && present
          && (current_file_bytes_expected s >? 0)%Z
          && (current_file_bytes_received s <? current_file_bytes_expected s)%Z
       then try_except (lift (remove path) ;; say StIncompleteRemoved)
              (fun _ => Some (say StRemoveFailed))
       else ret tt
   end) ;;
  lift close_socket ;;
  say StHandlerFinished ;;
  say OnTransferFinished.

(** A bound on the rounds of the main loop: a round that reads a header
    takes a separator out of the stream, a round of file data follows a
    FILE header or a cancellation seen inside the data loop. *)
Definition main_rounds (s : env) : nat :=
  2 * (length (received_buffer s) + length (w_wire (W s)))
  + length (w_net (W s)) + length (w_cancel (W s)) + 64.

Definition handle_client_folder_transfer (receive_buffer_size : Z)
    : M env unit :=
  say StNewConnection ;;
  try_finally
    (try_except
       (ready <- initial_setup ;;
        if ready then
          rounds <- gets main_rounds ;;
          main_loop rounds receive_buffer_size ;;
          after_loop
        else ret tt)
       (fun e => Some (on_error e)))
    finish.

(** The handler started on a connection whose first bytes were sniffed. *)
Definition run (receive_buffer_size : Z) (initial_buffer : bytes)
    (w : world) : outcome unit * env :=
  handle_client_folder_transfer receive_buffer_size
                                (initial_env initial_buffer w).

End WithUnicode.

End folder_handler.

(* ===================================================================== *)
(** * [transfer_core/server.py]: what is done with an accepted connection *)
(* ===================================================================== *)

Module server.
Import Py Sys.

Inductive protocol : Type :=
| folder
| file.

(** What [get_receive_buffer_size_cb()] gives: an [int], something else, or
    an exception. *)
Inductive callback_result : Type :=
| CbInt (n : Z)
| CbOther
| CbRaises.

(** The handler thread started, with the arguments that matter. *)
Inductive started : Type :=
| Started (detected : protocol) (receive_buffer_size : Z)
          (initial_buffer : bytes).

(** The protocol detection: [None] when it failed. *)
Definition detect_protocol : M world (option (protocol * bytes)) :=
  try_except
    (initial_buffer <- recv config.BUFFER_SIZE_FOR_HEADER ;;
     match initial_buffer with
     | [] => raise ConnectionResetError
     | _ =>
         prefix_check_bytes <-
           encode_utf8 (config.FOLDER_PROTOCOL_PREFIX ++ config.HEADER_SEPARATOR) ;;
         if startswith Byte.eqb initial_buffer prefix_check_bytes
         then ret (Some (folder, initial_buffer))
         else ret (Some (file, initial_buffer))
     end)
    (fun e =>
       if isinstance e SocketTimeout then Some (gui StSniffTimeout ;; ret None)
       else if isinstance e ConnectionResetError
       then Some (gui StSniffReset ;; ret None)
       else Some (gui StSniffError ;; ret None)).

(** The receive buffer size handed to the handler. *)
Definition receive_buffer_size_of (callback : option callback_result) : Z :=
  match callback with
  | Some (CbInt chosen_recv_buffer) =>
      if (chosen_recv_buffer >? 0)%Z then chosen_recv_buffer else 65536%Z
  | _ => 65536%Z
  end.

(** The body of the accept loop once [accept()] has returned a socket. *)
Definition on_accept (callback : option callback_result)
    : M world (option started) :=
  gui OnTransferStarted ;;
  detected <- detect_protocol ;;
  match detected with
  | None =>
      close_socket ;;
      gui OnTransferFinished ;;
      ret None
  | Some (protocol_detected, initial_buffer) =>
      let receive_buffer_size := receive_buffer_size_of callback in
      ret (Some (Started protocol_detected receive_buffer_size initial_buffer))
  end.

Section WithUnicode.
Context {db : UnicodeDB}.

(** The handler thread run to its end: [handlers.py] names the two. *)
Definition run_handler (h : started) (w : world) : outcome unit * world :=
  match h with
  | Started folder receive_buffer_size initial_buffer =>
      let (r, s) := folder_handler.run receive_buffer_size initial_buffer w in
      (r, folder_handler.W s)
  | Started file receive_buffer_size initial_buffer =>
      let (r, s) := single_file_handler.run receive_buffer_size initial_buffer w in
      (r, single_file_handler.W s)
  end.

(** An accepted connection served to the end. *)
Definition serve (callback : option callback_result) : M world unit :=
  h <- on_accept callback ;;
  match h with
  | None => ret tt
  | Some h => run_handler h
  end.

End WithUnicode.

End server.

(* ===================================================================== *)
(** * [transfer_core/handshake.py]: the sender's side *)
(* ===================================================================== *)

(** [perform_folder_handshake_client] runs in the sender, on the sender's
    socket and with the sender's GUI callbacks: the world is the sender's,
    and what the callbacks were given is kept beside it. *)
Module handshake_client.
Import Py Sys.

(** [config.HANDSHAKE_TIMEOUT], in milliseconds. *)
Definition HANDSHAKE_TIMEOUT : Z := 30000.

(** The status lines and dialogs of the sender during the handshake. *)
Inductive shown : Type :=
| StSendingRequest
| SpeedWaitingForConfirmation
| StCancelledByUser
| StConfirmed
| ShowInfo
| StReceiverError
| ShowWarning
| StHandshakeError
| ShowError.

(** The local variables, what the GUI was shown, and the world. *)
Record env : Type := mkEnv {
  handshake_successful : bool;
  response_buffer : bytes;
  gui_log : list shown;
  W : world
}.

Definition set_handshake_successful (v : bool) (s : env) : env :=
  mkEnv v (response_buffer s) (gui_log s) (W s).

Definition set_response_buffer (v : bytes) (s : env) : env :=
  mkEnv (handshake_successful s) v (gui_log s) (W s).

Definition set_W (v : world) (s : env) : env :=
  mkEnv (handshake_successful s) (response_buffer s) (gui_log s) v.

#[export] Instance env_has_world : HasWorld env :=
  {| the_world := W; with_world := set_W |}.

Definition initial_env (w : world) : env := mkEnv false [] [] w.

Definition say (e : shown) : M env unit :=
  modify (fun s => mkEnv (handshake_successful s) (response_buffer s)
                         (gui_log s ++ [e]) (W s)).

(** [signal in buffer] on [bytes]. *)
Definition contains (buffer signal : bytes) : bool :=
  match find Byte.eqb buffer signal with
  | Some _ => true
  | None => false
  end.

(** What the [try] around [recv] leaves to do. *)
Inductive round : Type :=
| Continue
| Got (chunk : bytes).

(** [while time.time() - start_time < config.HANDSHAKE_TIMEOUT]: a round
    that goes on to the next has called [recv] once. *)
Fixpoint response_loop (rounds : nat) (start_time : Z) : M env unit :=
  match rounds with
  | 0 => fun s => (Blocked, s)
  | S rounds' =>
      now <- lift time ;;
      if (now - start_time <? HANDSHAKE_TIMEOUT)%Z then
        cancelled <- lift is_set ;;
        if cancelled then say StCancelledByUser ;; raise CancelledError
        else
          r <- try_except
            (chunk <- lift (recv config.HANDSHAKE_READ_BUFFER_SIZE) ;;
             ret (Got chunk))
            (fun e =>
               if isinstance e SocketTimeout then Some (ret Continue)
               else Some (raise PlainException)) ;;
          match r with
          | Continue => response_loop rounds' start_time
          | Got [] => raise ConnectionResetError
          | Got chunk =>
              modify (fun s => set_response_buffer (response_buffer s ++ chunk) s) ;;
              s <- get ;;
              if contains (response_buffer s) config.HANDSHAKE_COMPLETE_OK_SIGNAL
              then
                say StConfirmed ;;
                say ShowInfo ;;
                modify (set_handshake_successful true)
              else if contains (response_buffer s) config.HANDSHAKE_ERROR_SIGNAL
              then
                say StReceiverError ;;
                say ShowWarning ;;
                modify (set_handshake_successful false)
              else if (len (response_buffer s)
                       >? config.BUFFER_SIZE_FOR_HEADER * 2)%Z
              then raise ValueError
              else response_loop rounds' start_time
          end
      else ret tt
  end.

(** The [try] block. *)
Definition request_and_wait : M env unit :=
  say StSendingRequest ;;
  lift (sendall config.HANDSHAKE_REQUEST_SIGNAL) ;;
  say SpeedWaitingForConfirmation ;;
  start_time <- lift time ;;
  rounds <- gets (fun s => S (length (w_net (W s)))) ;;
  response_loop rounds start_time ;;
  cancelled <- lift is_set ;;
  s <- get ;;
  if negb cancelled && negb (handshake_successful s)
  then raise SocketTimeout
  else ret tt.

(** The [finally] block ends in [return handshake_successful]. *)
Definition perform_folder_handshake_client : M env bool :=
  try_except request_and_wait
    (fun e =>
       if isinstance e CancelledError
       then Some (modify (set_handshake_successful false))
       else Some (say StHandshakeError ;;
                  say ShowError ;;
                  modify (set_handshake_successful false))) ;;
  s <- get ;;
  ret (handshake_successful s).

Definition run (w : world) : outcome bool * env :=
  perform_folder_handshake_client (initial_env w).

End handshake_client.

(* ===================================================================== *)
(** * What the properties are stated with *)
(* ===================================================================== *)

Module Spec.
Import Py Sys.

(** [Q] holds in the state [m] ends in, however it ends, when it starts in
    a state where [P] holds. *)
Definition hoare {S A} (P : S -> Prop) (m : M S A) (Q : S -> Prop) : Prop :=
  forall s r s', P s -> m s = (r, s') -> Q s'.

(** [m] keeps [I]. *)
Definition stable {S A} (I : S -> Prop) (m : M S A) : Prop := hoare I m I.

(** The separator byte of the wire format. *)
Definition sep_byte : byte := "|"%byte.

(** The network is kind to one call of [read_header_from_socket]: no
    cancellation is seen, no [recv] breaks, the scripted events take less
    than [timeout] together, and at least [need] of them bring bytes. *)
Definition is_arrival (e : Z * recv_event) : bool :=
  match snd e with Arrive _ => true | _ => false end.

Definition is_reset (e : Z * recv_event) : bool :=
  match snd e with Reset => true | _ => false end.

Definition total_time (net : list (Z * recv_event)) : Z :=
  fold_right (fun e acc => (fst e + acc)%Z) 0%Z net.

Definition delivers (w : world) (timeout : Z) (need : nat) : bool :=
  forallb negb (w_cancel w)
  && forallb (fun e => (0 <=? fst e)%Z && negb (is_reset e)) (w_net w)
  && (total_time (w_net w) <? timeout)%Z
  && (need <=? length (filter is_arrival (w_net w))).

(** The floor of the logarithm to the base 1024, computed on integers. *)
Definition exact_log_1024 (n : Z) : Z := (Z.log2 n / 10)%Z.

(** A host with nothing above ASCII in its Unicode database, and with the
    logarithm exact: enough for examples whose characters are all ASCII
    and whose byte counts are not within a rounding error of a power of
    1024. *)
#[export] Instance ascii_db : UnicodeDB.
Proof.
  refine {| uni_isalnum := fun _ => false;
            uni_isspace := fun _ => false;
            uni_decimal := fun _ => None;
            float_log_1024 := exact_log_1024;
            float_log_small := _;
            float_log_large := _ |}.
  - intros n [Hpos Hlt]. unfold exact_log_1024.
    apply Z.log2_lt_pow2 in Hlt; [|exact Hpos].
    apply Z.div_lt_upper_bound; lia.
  - intros n H. unfold exact_log_1024.
    apply Z.log2_le_pow2 in H; [|lia].
    apply Z.div_le_lower_bound; lia.
Defined.

(** A segment of the slash-separated [relative_path] is ["."] or [".."]. *)
Definition has_dot_segment (relative_path : str) : bool :=
  existsb (fun part => str_eqb part (u ".") || str_eqb part (u ".."))
          (split_on N.eqb slash relative_path).

(** [p] is [base] or below it: the components of [base] are the first
    components of [p]. *)
Definition inside (base p : str) : Prop :=
  exists more,
    PosixPath.components p = PosixPath.components base ++ more.

(** A filesystem with a home directory, and a world on it. *)
Definition home_fs : FS.t := [(u "/home", FS.Dir); (u "/home/user", FS.Dir)].

Definition world_on (wire : bytes) (net : list (Z * recv_event)) : world :=
  mkWorld 1700000000000 (u "/home/user") home_fs wire net [] [] [] [] false [].

(** A filesystem where both receivers have saved before, and a world on
    it. *)
Definition saved_fs : FS.t :=
  [(u "/home", FS.Dir); (u "/home/user", FS.Dir);
   (u "/home/user/received_files", FS.Dir);
   (u "/home/user/received_folders", FS.Dir);
   (u "/home/user/received_folders/docs", FS.Dir)].

Definition saved_world (wire : bytes) (net : list (Z * recv_event)) : world :=
  mkWorld 1700000000000 (u "/home/user") saved_fs wire net [] [] [] [] false [].

(** The single-file receiver after a header that declares [size] bytes for
    [name], with [buffer] read after the header. *)
Definition single_after_header (name : str) (size : Z) (buffer : bytes)
    (w : world) : single_file_handler.env :=
  single_file_handler.set_file_path
    (Some (u "/home/user/received_files/" ++ name))
    (single_file_handler.set_filesize size
       (single_file_handler.set_filename_from_header name
          (single_file_handler.initial_env buffer w))).

(** The folder receiver in the session [docs], waiting for an item header
    or for what follows the path of an item. *)
Definition folder_in_session (buffer : bytes) (w : world) : folder_handler.env :=
  folder_handler.set_current_state folder_handler.STATE_WAITING_FOR_ITEM_HEADER
    (folder_handler.set_total_expected_size (Some 0%Z)
       (folder_handler.set_total_expected_items (Some 1%Z)
          (folder_handler.set_received_files_base_abs
             (Some (u "/home/user/received_folders"))
             (folder_handler.set_session_root_name (Some (u "docs"))
                (folder_handler.set_current_save_dir
                   (Some (u "/home/user/received_folders/docs"))
                   (folder_handler.initial_env buffer w)))))).

(** The folder receiver has recorded that no TOTAL_INFO header came. *)
Definition no_totals (s : folder_handler.env) : Prop :=
  folder_handler.total_expected_items s = Some (-1)%Z
  /\ folder_handler.total_expected_size s = Some (-1)%Z.

(** The folder receiver is past the two headers that open a session. *)
Definition past_totals (s : folder_handler.env) : Prop :=
  match folder_handler.current_state s with
  | folder_handler.STATE_WAITING_FOR_ROOT_FOLDER_HEADER
  | folder_handler.STATE_WAITING_FOR_TOTAL_INFO_HEADER => False
  | _ => True
  end.

(** The bytes of the file that is being received, none when no file is. *)
Definition pending (s : folder_handler.env) : Z :=
  if folder_handler.state_eqb (folder_handler.current_state s)
                              folder_handler.STATE_RECEIVING_FILE_DATA
  then folder_handler.current_file_bytes_received s else 0%Z.

(** The declared size of the file whose data a round has fully admitted:
    the round went from the state of file data to the state of item
    headers.  (A file of declared size 0 has no data to admit.) *)
Definition completed (s s' : folder_handler.env) : list Z :=
  if folder_handler.state_eqb (folder_handler.current_state s)
                              folder_handler.STATE_RECEIVING_FILE_DATA
     && folder_handler.state_eqb (folder_handler.current_state s')
                                 folder_handler.STATE_WAITING_FOR_ITEM_HEADER
  then [folder_handler.current_file_bytes_expected s] else [].

Definition sum_sizes (sizes : list Z) : Z := fold_right Z.add 0%Z sizes.

(** A session of the folder receiver from [s0]: polls of the cancel event
    and rounds of the main loop, with the sizes of the files completed. *)
Inductive session {db : UnicodeDB} (rbs : Z) (s0 : folder_handler.env)
    : list Z -> folder_handler.env -> Prop :=
| session_start : session rbs s0 [] s0
| session_poll (done : list Z) (s s' : folder_handler.env) (c : bool) :
    session rbs s0 done s ->
    @lift _ folder_handler.env_has_world _ is_set s = (Ret c, s') ->
    session rbs s0 done s'
| session_round (done : list Z) (s s' : folder_handler.env) (r : outcome unit) :
    session rbs s0 done s ->
    folder_handler.loop_body rbs s = (r, s') ->
    session rbs s0 (done ++ completed s s') s'.

(** The folder receiver when its main loop starts, in the first state,
    with the bytes that were sniffed. *)
Definition folder_at_start (buffer : bytes) (w : world) : folder_handler.env :=
  folder_handler.set_received_files_base_abs
    (Some (u "/home/user/received_folders"))
    (folder_handler.initial_env buffer w).

(** The result of a step of the single-file receiver, with the hint of the
    header set to [v]. *)
Definition with_hint {A} (v : Z) (r : outcome A * single_file_handler.env)
    : outcome A * single_file_handler.env :=
  (fst r, single_file_handler.set_current_buffer_size_from_header v (snd r)).

(** [m] does not look at the hint: with another hint it does the same. *)
Definition blind {A} (m : M single_file_handler.env A) : Prop :=
  forall v s,
    m (single_file_handler.set_current_buffer_size_from_header v s)
    = with_hint v (m s).

(** The hint the single-file receiver keeps for the third frame of a
    header. *)
Definition hint_value {db : UnicodeDB} (frame : str) : Z :=
  match int frame with
  | Some k => if (k <=? 0)%Z then 4096%Z else k
  | None => 4096%Z
  end.

(** Every [recv] so far has asked for at most [limit] bytes. *)
Definition reads_within (limit : Z) (w : world) : Prop :=
  Forall (fun size => (size <= limit)%Z) (w_recv_log w).

(** A world where [received_files/a.txt] is there already. *)
Definition taken_world (wire : bytes) (net : list (Z * recv_event)) : world :=
  mkWorld 1700000000000 (u "/home/user")
          ((u "/home/user/received_files/a.txt", FS.File (b "old")) :: saved_fs)
          wire net [] [] [] [] false [].

(** [s] has the separator character in it. *)
Definition has_separator (s : str) : bool := existsb (N.eqb 124) s.

(** A frame of three characters, two of them outside ASCII, with bytes
    after it; two bytes are in the initial buffer, the rest comes in
    chunks of one, three and more bytes after a socket timeout. *)
Definition sample_token : str := [1587; 1604; 97]%N.
Definition sample_rest : bytes := b "12|payload".
Definition sample_world : world :=
  mkWorld 0 (u "/srv") [] ([xd9; x84; x61; sep_byte] ++ sample_rest)
          [(100, Silence); (0, Arrive 1); (50, Arrive 3); (0, Arrive 100);
           (0, Arrive 100); (0, Arrive 100)]%Z
          [] [] [] [] false [].

(** A frame as long as the default buffer limit. *)
Definition long_token : str := repeat 97%N (Z.to_nat 8192).
Definition long_bytes : bytes := repeat x61 (Z.to_nat 8192).
Definition long_world : world :=
  mkWorld 0 (u "/srv") [] (long_bytes ++ [sep_byte])
          (repeat (0%Z, Arrive 4096) (Z.to_nat 8193)) [] [] [] [] false [].

(** The world after an answer of [is_set]. *)
Definition pop_cancel (w : world) : world :=
  match w_cancel w with
  | [] => w
  | _ :: rest => set_cancel rest w
  end.

(** A component of a path: a part that is neither empty nor [.]. *)
Definition is_component (part : str) : bool :=
  negb (str_eqb part []) && negb (str_eqb part PosixPath.curdir).

(** The block of [sanitize_path] that makes [base_dir] absolute and creates
    it: it gives the absolute name, or a [ValueError]. *)
Definition base_block (base_dir : str) : M world str :=
  try_except
    (base_dir_abs <- abspath base_dir ;;
     present <- path_exists base_dir_abs ;;
     (if present then ret tt
      else try_except (makedirs base_dir_abs)
             (fun e => if isinstance e OSError then Some (raise OSError)
                       else Some (raise RuntimeError))) ;;
     ret base_dir_abs)
    (fun _ => Some (raise ValueError)).

(** What [is_set] leaves alone. *)
Definition polled (w w' : world) : Prop :=
  w_now w' = w_now w /\ w_cwd w' = w_cwd w /\ w_fs w' = w_fs w
  /\ w_wire w' = w_wire w /\ w_net w' = w_net w /\ w_sendok w' = w_sendok w
  /\ w_recv_log w' = w_recv_log w /\ w_sent w' = w_sent w
  /\ w_closed w' = w_closed w /\ w_gui w' = w_gui w.

(** What the receive loop leaves alone. *)
Definition same_file (s s' : single_file_handler.env) : Prop :=
  single_file_handler.filesize s' = single_file_handler.filesize s /\ single_file_handler.file_path s' = single_file_handler.file_path s
  /\ single_file_handler.transfer_success s' = single_file_handler.transfer_success s
  /\ w_cwd (single_file_handler.W s') = w_cwd (single_file_handler.W s).

(** The network side of the world, and the working directory. *)
Definition net_side (w : world) :=
  (w_recv_log w, w_net w, w_wire w, w_sent w, w_cwd w).

(** What a call did at the socket between [w] and [w']: the bytes it took
    off the wire, and the sizes it asked [recv] for. *)
Definition took (w w' : world) (taken : bytes) (sizes : list Z) : Prop :=
  w_wire w = taken ++ w_wire w' /\ w_recv_log w' = w_recv_log w ++ sizes.

(** From a state where [P] holds, [m] returns [a] in a state where [Q a]
    holds, or raises [e] in a state where [R e] holds, or does not end. *)
Definition triple {S A} (P : S -> Prop) (m : M S A) (Q : A -> S -> Prop)
    (R : exn -> S -> Prop) : Prop :=
  forall s, P s ->
    match m s with
    | (Ret a, s') => Q a s'
    | (Raise e, s') => R e s'
    | (Blocked, _) => True
    end.

(** The single-file receiver has its file open under [handle]: the file
    holds as many bytes as were counted, which are not more than declared,
    and no success is recorded yet. *)
Definition filling (handle path cwd : str) (s : single_file_handler.env) : Prop :=
  single_file_handler.transfer_success s = false
  /\ single_file_handler.file_path s = Some path
  /\ w_cwd (single_file_handler.W s) = cwd
  /\ (single_file_handler.received_bytes s <= single_file_handler.filesize s)%Z
  /\ exists c,
       FS.lookup handle (w_fs (single_file_handler.W s)) = Some (FS.File c)
       /\ len c = single_file_handler.received_bytes s.

(** The success flag of the single-file receiver is backed by the disk: the
    transfer was not cancelled, the count of received bytes is the declared
    size, and the file saved under [file_path] has that many bytes. *)
Definition whole_file_stored (s : single_file_handler.env) : Prop :=
  single_file_handler.transfer_success s = true ->
  single_file_handler.is_cancelled s = false
  /\ single_file_handler.received_bytes s = single_file_handler.filesize s
  /\ exists p c,
       single_file_handler.file_path s = Some p
       /\ FS.lookup (PosixPath.abspath (w_cwd (single_file_handler.W s)) p)
                    (w_fs (single_file_handler.W s)) = Some (FS.File c)
       /\ len c = single_file_handler.filesize s.

(** The folder receiver has a file open under [handle]: the file holds the
    bytes counted for it, which are not more than declared; these bytes,
    then the receive buffer, then what the peer has sent and is not read
    yet, make [stream]; and the session total is [base] and the bytes of
    this file. *)
Definition streaming (handle : str) (stream : bytes) (base : Z)
    (s : folder_handler.env) : Prop :=
  exists c,
    FS.lookup handle (w_fs (folder_handler.W s)) = Some (FS.File c)
    /\ len c = folder_handler.current_file_bytes_received s
    /\ (folder_handler.current_file_bytes_received s
        <= folder_handler.current_file_bytes_expected s)%Z
    /\ c ++ folder_handler.received_buffer s ++ w_wire (folder_handler.W s) = stream
    /\ folder_handler.received_bytes_total s
       = (base + folder_handler.current_file_bytes_received s)%Z.

(** A folder session in the middle of [docs/a.txt], declared with 5 bytes:
    3 bytes of it came with the header, the peer has sent the rest and the
    start of the next header. *)
Definition receiving_sample : folder_handler.env :=
  folder_handler.set_current_state folder_handler.STATE_RECEIVING_FILE_DATA
    (folder_handler.set_current_file_handle
       (Some (u "/home/user/received_folders/docs/a.txt"))
       (folder_handler.set_current_file_bytes_expected 5
          (folder_in_session (b "hel")
             (mkWorld 1700000000000 (u "/home/user")
                ((u "/home/user/received_folders/docs/a.txt", FS.File []) :: saved_fs)
                (b "lo!FDR_V1|") [(0, Arrive 1); (10, Silence); (0, Arrive 9)]%Z
                [] [] [] [] false [])))).

(** The count and the size of the folder session are the announced ones. *)
Definition matched (s : folder_handler.env) : Prop :=
  folder_handler.total_expected_items s = Some (folder_handler.items_received_count s)
  /\ folder_handler.total_expected_size s = Some (folder_handler.received_bytes_total s)
  /\ (0 <= folder_handler.items_received_count s)%Z
  /\ (0 <= folder_handler.received_bytes_total s)%Z.

(** No part of a file is left: when fewer bytes were received than the
    header declared, there is no file under the path that was chosen. *)
Definition no_partial_file (s : single_file_handler.env) : Prop :=
  forall p c,
    single_file_handler.file_path s = Some p -> p <> [] ->
    (0 < single_file_handler.filesize s)%Z ->
    (single_file_handler.received_bytes s < single_file_handler.filesize s)%Z ->
    FS.lookup (PosixPath.abspath (w_cwd (single_file_handler.W s)) p)
              (w_fs (single_file_handler.W s)) <> Some (FS.File c).

(** A plain name of a path: not empty, not [.] or [..], and without a
    slash. *)
Definition plain_name (c : str) : bool :=
  negb (str_eqb c []) && negb (str_eqb c PosixPath.curdir)
  && negb (str_eqb c PosixPath.pardir) && negb (existsb (N.eqb slash) c).

(** The absolute path [/n1/n2/.../nk] of the names [n1 .. nk], the form
    in which [os.getcwd()] gives the working directory. *)
Definition rooted (names : list str) : str :=
  PosixPath.sep ++ join_with PosixPath.sep names.

(** The deadline of a call that has been running for [elapsed] passes
    with the last of [waits]: it has not passed when a wait begins, and it
    has passed when the last one is over. *)
Fixpoint expires (elapsed timeout : Z) (waits : list Z) : Prop :=
  match waits with
  | [] => (timeout <= elapsed)%Z
  | dt :: waits' => (elapsed < timeout)%Z /\ expires (elapsed + dt) timeout waits'
  end.

(** The peer is silent for each of [waits]: every [recv] ends in its
    socket timeout. *)
Definition silences (waits : list Z) : list (Z * recv_event) :=
  map (fun dt => (dt, Silence)) waits.

(** What is on the disk [fs0] is on the disk [fs] as it was: every file
    with its contents, every directory. *)
Definition preserved (fs0 fs : FS.t) : Prop :=
  forall q n, FS.lookup q fs0 = Some n -> FS.lookup q fs = Some n.

(** The names the conflict loop tries, in order: the path itself, then
    [base_1.ext], [base_2.ext], ... *)
Definition candidate (base ext first : str) (i : Z) : str :=
  if (i =? 0)%Z then first else base ++ [underscore] ++ str_of_Z i ++ ext.

(** [os.path.exists(p)] in the world [w]. *)
Definition taken (w : world) (p : str) : bool :=
  FS.exists_ (w_fs w) (PosixPath.abspath (w_cwd w) p).

(** A size frame that is not the decimal form of an integer, or is that
    of a negative one, or of one above 10000 times [TEST_FILE_SIZE]. *)
Definition refused_size {db : UnicodeDB} (size_frame : str) : Prop :=
  match int size_frame with
  | None => True
  | Some n => (n < 0)%Z \/ (config.TEST_FILE_SIZE * 10000 < n)%Z
  end.

(** A folder session in which the empty file [docs/empty.txt] has been
    received and counted, and the size frame of the next FILE item, 5, has
    been read: no file is open, and the path is still that of the empty
    file. *)
Definition after_empty_file : folder_handler.env :=
  folder_handler.set_current_file_bytes_expected 5
    (folder_handler.set_current_file_path
       (Some (u "/home/user/received_folders/docs/empty.txt"))
       (folder_handler.set_items_received_count 2
          (folder_in_session []
             (mkWorld 1700000000000 (u "/home/user")
                ((u "/home/user/received_folders/docs/empty.txt", FS.File [])
                 :: saved_fs)
                [] [] [] [] [] [] false [])))).

(** The single-file receiver when it has announced the receive of [size]
    bytes for [name] and goes on to choose the path: [buffer] was read
    after the header, and [hint] is the buffer size kept for the sender. *)
Definition single_announced (name : str) (size hint : Z) (buffer : bytes)
    (w : world) : single_file_handler.env :=
  single_file_handler.set_current_buffer_size_from_header hint
    (single_file_handler.set_filesize size
       (single_file_handler.set_filename_from_header name
          (single_file_handler.initial_env buffer
             (add_gui StReceiveStart (add_gui StNewConnection w))))).

(** What the single-file handler does between the header and its
    [except] clauses when the transfer is not cancelled and the hint is
    one that [utils.format_bytes] formats. *)
Definition receive_announced {db : UnicodeDB} (rbs size : Z) (name : str)
    : M single_file_handler.env unit :=
  utils.format_bytes size ;;
  single_file_handler.say StReceiveStart ;;
  utils.format_bytes rbs ;;
  prepared <- single_file_handler.prepare_path (PosixPath.basename name) ;;
  if prepared then single_file_handler.receive_file rbs else ret tt.

End Spec.

(* ===================================================================== *)
(** * Properties of the Python values *)
(* ===================================================================== *)

Module PyFacts.
Import Py.

Lemma to_N_byte_of_N (n : N) : (n < 256)%N -> Byte.to_N (byte_of_N n) = n.
Proof.
  intros Hn. unfold byte_of_N.
  destruct (Byte.of_N n) as [x|] eqn:E.
  - apply Byte.to_of_N in E. exact E.
  - apply Byte.of_N_None_iff in E. lia.
Qed.

Lemma decode_cons (b0 : byte) (r0 : bytes) :
  decode (b0 :: r0) =
  let n0 := Byte.to_N b0 in
  (if n0 <? 128 then option_map (cons n0) (decode r0)
   else if n0 <? 194 then None
   else if n0 <? 224 then
     match r0 with
     | b1 :: r1 =>
         if is_cont b1
         then option_map (cons ((n0 - 192) * 64 + cont b1)) (decode r1)
         else None
     | _ => None
     end
   else if n0 <? 240 then
     match r0 with
     | b1 :: b2 :: r2 =>
         let c := (n0 - 224) * 4096 + cont b1 * 64 + cont b2 in
         if is_cont b1 && is_cont b2 && (2048 <=? c) && negb (is_surrogate c)
         then option_map (cons c) (decode r2)
         else None
     | _ => None
     end
   else if n0 <? 245 then
     match r0 with
     | b1 :: b2 :: b3 :: r3 =>
         let c := (n0 - 240) * 262144 + cont b1 * 4096 + cont b2 * 64 + cont b3 in
         if is_cont b1 && is_cont b2 && is_cont b3
            && (65536 <=? c) && (c <? 1114112)
         then option_map (cons c) (decode r3)
         else None
     | _ => None
     end
   else None)%N.
Proof. reflexivity. Qed.

Lemma some_eq {A} (x y : A) : Some x = Some y -> x = y.
Proof. congruence. Qed.

Ltac n_divmod c k :=
  let q := fresh "q" in let m := fresh "m" in
  pose proof (N.div_mod' c k);
  pose proof (N.mod_lt c k ltac:(lia));
  remember (N.div c k) as q; remember (N.modulo c k) as m.

Lemma decode_encode_cp (c : N) (x r : bytes) :
  encode_cp c = Some x -> decode (x ++ r) = option_map (cons c) (decode r).
Proof.
  unfold encode_cp.
  destruct (c <? 128)%N eqn:E1.
  { intros H; apply some_eq in H; subst x. apply N.ltb_lt in E1. rewrite <- ?app_comm_cons, ?app_nil_l, decode_cons. cbv zeta.
    rewrite to_N_byte_of_N by lia.
    replace (c <? 128)%N with true by (symmetry; apply N.ltb_lt; lia).
    reflexivity. }
  apply N.ltb_ge in E1.
  destruct (c <? 2048)%N eqn:E2.
  { intros H; apply some_eq in H; subst x. apply N.ltb_lt in E2. rewrite <- ?app_comm_cons, ?app_nil_l, decode_cons. cbv zeta.
    n_divmod c 64%N.
    rewrite !to_N_byte_of_N by lia.
    replace (192 + q <? 128)%N with false by (symmetry; apply N.ltb_ge; lia).
    replace (192 + q <? 194)%N with false by (symmetry; apply N.ltb_ge; lia).
    replace (192 + q <? 224)%N with true by (symmetry; apply N.ltb_lt; lia).
    unfold is_cont, cont. rewrite !to_N_byte_of_N by lia.
    replace (128 <=? 128 + m)%N with true by (symmetry; apply N.leb_le; lia).
    replace (128 + m <? 192)%N with true by (symmetry; apply N.ltb_lt; lia).
    cbn [andb]. f_equal. f_equal. lia. }
  apply N.ltb_ge in E2.
  destruct (c <? 65536)%N eqn:E3.
  { destruct (is_surrogate c) eqn:Es; [discriminate|].
    intros H; apply some_eq in H; subst x. apply N.ltb_lt in E3. rewrite <- ?app_comm_cons, ?app_nil_l, decode_cons. cbv zeta.
    pose proof (N.div_mod' c 4096) as D1. pose proof (N.mod_lt c 4096 ltac:(lia)) as D2.
    pose proof (N.div_mod' c 64) as D3. pose proof (N.mod_lt c 64 ltac:(lia)) as D4.
    pose proof (N.div_mod' (c / 64) 64) as D5.
    pose proof (N.mod_lt (c / 64) 64 ltac:(lia)) as D6.
    assert (D7 : (c / 64 / 64 = c / 4096)%N) by (rewrite N.Div0.div_div; reflexivity).
    rewrite D7 in D5.
    remember (c / 4096)%N as q1. remember (c mod 64)%N as m0.
    remember ((c / 64) mod 64)%N as m1. remember (c / 64)%N as q0.
    rewrite !to_N_byte_of_N by lia.
    replace (224 + q1 <? 128)%N with false by (symmetry; apply N.ltb_ge; lia).
    replace (224 + q1 <? 194)%N with false by (symmetry; apply N.ltb_ge; lia).
    replace (224 + q1 <? 224)%N with false by (symmetry; apply N.ltb_ge; lia).
    replace (224 + q1 <? 240)%N with true by (symmetry; apply N.ltb_lt; lia).
    unfold is_cont, cont. rewrite !to_N_byte_of_N by lia.
    replace (128 <=? 128 + m1)%N with true by (symmetry; apply N.leb_le; lia).
    replace (128 + m1 <? 192)%N with true by (symmetry; apply N.ltb_lt; lia).
    replace (128 <=? 128 + m0)%N with true by (symmetry; apply N.leb_le; lia).
    replace (128 + m0 <? 192)%N with true by (symmetry; apply N.ltb_lt; lia).
    replace ((224 + q1 - 224) * 4096 + (128 + m1 - 128) * 64 + (128 + m0 - 128))%N
      with c by lia.
    rewrite Es.
    replace (2048 <=? c)%N with true by (symmetry; apply N.leb_le; lia).
    reflexivity. }
  apply N.ltb_ge in E3.
  destruct (c <? 1114112)%N eqn:E4; [|discriminate].
  intros H; apply some_eq in H; subst x. apply N.ltb_lt in E4. rewrite <- ?app_comm_cons, ?app_nil_l, decode_cons. cbv zeta.
  pose proof (N.div_mod' c 262144) as D1. pose proof (N.mod_lt c 262144 ltac:(lia)) as D2.
  pose proof (N.div_mod' c 64) as D3. pose proof (N.mod_lt c 64 ltac:(lia)) as D4.
  pose proof (N.div_mod' (c / 64) 64) as D5.
  pose proof (N.mod_lt (c / 64) 64 ltac:(lia)) as D6.
  pose proof (N.div_mod' (c / 4096) 64) as D8.
  pose proof (N.mod_lt (c / 4096) 64 ltac:(lia)) as D9.
  assert (D7 : (c / 64 / 64 = c / 4096)%N) by (rewrite N.Div0.div_div; reflexivity).
  assert (D10 : (c / 4096 / 64 = c / 262144)%N) by (rewrite N.Div0.div_div; reflexivity).
  rewrite D7 in D5. rewrite D10 in D8.
  remember (c / 262144)%N as q2. remember (c mod 64)%N as m0.
  remember ((c / 64) mod 64)%N as m1. remember (c / 64)%N as q0.
  remember ((c / 4096) mod 64)%N as m2. remember (c / 4096)%N as q1.
  rewrite !to_N_byte_of_N by lia.
  replace (240 + q2 <? 128)%N with false by (symmetry; apply N.ltb_ge; lia).
  replace (240 + q2 <? 194)%N with false by (symmetry; apply N.ltb_ge; lia).
  replace (240 + q2 <? 224)%N with false by (symmetry; apply N.ltb_ge; lia).
  replace (240 + q2 <? 240)%N with false by (symmetry; apply N.ltb_ge; lia).
  replace (240 + q2 <? 245)%N with true by (symmetry; apply N.ltb_lt; lia).
  unfold is_cont, cont. rewrite !to_N_byte_of_N by lia.
  replace (128 <=? 128 + m2)%N with true by (symmetry; apply N.leb_le; lia).
  replace (128 + m2 <? 192)%N with true by (symmetry; apply N.ltb_lt; lia).
  replace (128 <=? 128 + m1)%N with true by (symmetry; apply N.leb_le; lia).
  replace (128 + m1 <? 192)%N with true by (symmetry; apply N.ltb_lt; lia).
  replace (128 <=? 128 + m0)%N with true by (symmetry; apply N.leb_le; lia).
  replace (128 + m0 <? 192)%N with true by (symmetry; apply N.ltb_lt; lia).
  replace ((240 + q2 - 240) * 262144 + (128 + m2 - 128) * 4096
           + (128 + m1 - 128) * 64 + (128 + m0 - 128))%N with c by lia.
  replace (65536 <=? c)%N with true by (symmetry; apply N.leb_le; lia).
  replace (c <? 1114112)%N with true by (symmetry; apply N.ltb_lt; lia).
  reflexivity.
Qed.

(** Decoding undoes encoding. *)
Lemma decode_encode (s : str) (x : bytes) :
  encode s = Some x -> decode x = Some s.
Proof.
  revert x. induction s as [|c s IH]; intros x.
  - intros [= <-]. reflexivity.
  - cbn [encode]. destruct (encode_cp c) as [y|] eqn:Ec; [|discriminate].
    destruct (encode s) as [z|] eqn:Es; [|discriminate].
    intros [= <-]. rewrite (decode_encode_cp _ _ Ec), (IH z eq_refl). reflexivity.
Qed.

End PyFacts.

(* ===================================================================== *)
(** * The frame reader *)
(* ===================================================================== *)

Module HelpersFacts.
Import Py Sys Spec helpers.

Lemma byte_eqb_refl (x : byte) : Byte.eqb x x = true.
Proof. apply Byte.byte_dec_lb. reflexivity. Qed.

Lemma byte_eqb_neq (x y : byte) : x <> y -> Byte.eqb x y = false.
Proof.
  intros H. destruct (Byte.eqb x y) eqn:E; [|reflexivity].
  apply Byte.byte_dec_bl in E. contradiction.
Qed.

Lemma startswith_nil {A} (eqb : A -> A -> bool) (l : list A) :
  startswith eqb l [] = true.
Proof. destruct l; reflexivity. Qed.

Lemma find_from_absent (c : byte) (l : bytes) (i : nat) :
  ~ In c l -> find_from Byte.eqb i l [c] = None.
Proof.
  revert i. induction l as [|x l IH]; intros i Hn.
  - reflexivity.
  - cbn. rewrite byte_eqb_neq.
    + cbn. apply IH. intros H. apply Hn. right. exact H.
    + intros ->. apply Hn. left. reflexivity.
Qed.

Lemma find_from_first (c : byte) (l rest : bytes) (i : nat) :
  ~ In c l -> find_from Byte.eqb i (l ++ c :: rest) [c] = Some (i + length l).
Proof.
  revert i. induction l as [|x l IH]; intros i Hn.
  - cbn. rewrite byte_eqb_refl, startswith_nil. cbn. f_equal. lia.
  - cbn. rewrite byte_eqb_neq.
    + cbn. rewrite IH.
      * f_equal. lia.
      * intros H. apply Hn. right. exact H.
    + intros ->. apply Hn. left. reflexivity.
Qed.

Lemma encode_separator : encode config.HEADER_SEPARATOR = Some [sep_byte].
Proof. reflexivity. Qed.

(** Only the code point of ['|'] is encoded with the byte ['|']. *)
Lemma encode_cp_sep (c : N) (x : bytes) :
  encode_cp c = Some x -> In sep_byte x -> c = 124%N.
Proof.
  unfold encode_cp, sep_byte.
  assert (K : forall n, (128 <= n < 256)%N -> "|"%byte <> byte_of_N n).
  { intros n Hn E. apply (f_equal Byte.to_N) in E.
    rewrite PyFacts.to_N_byte_of_N in E by lia. cbn in E. lia. }
  destruct (c <? 128)%N eqn:E1.
  { intros H Hin. apply PyFacts.some_eq in H. subst x. apply N.ltb_lt in E1.
    destruct Hin as [Hin|[]]. apply (f_equal Byte.to_N) in Hin.
    rewrite PyFacts.to_N_byte_of_N in Hin by lia. cbn in Hin. lia. }
  apply N.ltb_ge in E1.
  pose proof (N.mod_lt c 64 ltac:(lia)) as M0.
  pose proof (N.mod_lt (c / 64) 64 ltac:(lia)) as M1.
  pose proof (N.mod_lt (c / 4096) 64 ltac:(lia)) as M2.
  assert (Q0 : (c < 2048 -> c / 64 < 32)%N)
    by (intros; apply N.Div0.div_lt_upper_bound; lia).
  assert (Q1 : (c < 65536 -> c / 4096 < 16)%N)
    by (intros; apply N.Div0.div_lt_upper_bound; lia).
  assert (Q2 : (c < 1114112 -> c / 262144 < 5)%N)
    by (intros; apply N.Div0.div_lt_upper_bound; lia).
  remember (c mod 64)%N as m0. remember ((c / 64) mod 64)%N as m1.
  remember ((c / 4096) mod 64)%N as m2. remember (c / 64)%N as q0.
  remember (c / 4096)%N as q1. remember (c / 262144)%N as q2.
  destruct (c <? 2048)%N eqn:E2.
  { intros H Hin. apply PyFacts.some_eq in H. subst x. apply N.ltb_lt in E2.
    destruct Hin as [Hin|[Hin|[]]]; symmetry in Hin; apply K in Hin; try easy; lia. }
  destruct (c <? 65536)%N eqn:E3.
  { destruct (is_surrogate c); [discriminate|].
    intros H Hin. apply PyFacts.some_eq in H. subst x. apply N.ltb_lt in E3.
    destruct Hin as [Hin|[Hin|[Hin|[]]]]; symmetry in Hin; apply K in Hin; try easy; lia. }
  destruct (c <? 1114112)%N eqn:E4; [|discriminate].
  intros H Hin. apply PyFacts.some_eq in H. subst x. apply N.ltb_lt in E4.
  destruct Hin as [Hin|[Hin|[Hin|[Hin|[]]]]]; symmetry in Hin; apply K in Hin; try easy; lia.
Qed.

Lemma encode_without_sep (s : str) (x : bytes) :
  encode s = Some x -> ~ In 124%N s -> ~ In sep_byte x.
Proof.
  revert x. induction s as [|c s IH]; intros x.
  - intros H _. apply PyFacts.some_eq in H. subst x. intros [].
  - cbn [encode]. destruct (encode_cp c) as [y|] eqn:Ec; [|discriminate].
    destruct (encode s) as [z|] eqn:Es; [|discriminate].
    intros H Hn. apply PyFacts.some_eq in H. subst x.
    intros Hin. apply in_app_or in Hin. destruct Hin as [Hin|Hin].
    + apply Hn. left. exact (encode_cp_sep _ Ec Hin).
    + apply (IH z eq_refl); [|exact Hin]. intros H. apply Hn. right. exact H.
Qed.

End HelpersFacts.

Module ReaderFacts.
Import Py Sys Spec helpers HelpersFacts.

Lemma is_set_quiet (w : world) :
  forallb negb (w_cancel w) = true -> is_set w = (Ret false, pop_cancel w).
Proof.
  unfold is_set, pop_cancel. destruct (w_cancel w) as [|c rest]; [reflexivity|].
  cbn. destruct c; [discriminate|reflexivity].
Qed.

Lemma pop_cancel_quiet (w : world) :
  forallb negb (w_cancel w) = true -> forallb negb (w_cancel (pop_cancel w)) = true.
Proof.
  unfold pop_cancel. destruct (w_cancel w) as [|c rest] eqn:E; [rewrite E; auto|].
  cbn. destruct c; [discriminate|auto].
Qed.

Lemma pop_cancel_fields (w : world) :
  w_net (pop_cancel w) = w_net w /\ w_wire (pop_cancel w) = w_wire w
  /\ w_now (pop_cancel w) = w_now w.
Proof. unfold pop_cancel. destruct (w_cancel w); auto. Qed.

(** A separator found right after [tb]. *)
Lemma split_at_found (token : str) (tb leftover : bytes) (w : world) :
  decode tb = Some token ->
  split_at_separator (tb ++ sep_byte :: leftover) [sep_byte] (length tb) w
  = (Ret (token, leftover), w).
Proof.
  intros Hd. unfold split_at_separator, try_except, bind, decode_utf8.
  rewrite firstn_app, Nat.sub_diag, firstn_all. cbn [firstn]. rewrite app_nil_r, Hd.
  cbn. replace (length tb + 1) with (S (length tb)) by lia.
  change (sep_byte :: leftover) with ([sep_byte] ++ leftover).
  rewrite app_assoc.
  replace (S (length tb)) with (length (tb ++ [sep_byte]))
    by (rewrite length_app; cbn; lia).
  rewrite skipn_app, Nat.sub_diag, skipn_all. reflexivity.
Qed.

(** The separator is already in the buffer: nothing is read. *)
Lemma read_header_immediate (token : str) (tb leftover : bytes)
    (timeout max_buffer : Z) (w : world) :
  decode tb = Some token -> ~ In sep_byte tb ->
  read_header_from_socket (tb ++ sep_byte :: leftover) timeout max_buffer w
  = (Ret (token, leftover), w).
Proof.
  intros Hd Hn. unfold read_header_from_socket, encode_utf8.
  rewrite encode_separator. unfold bind at 1. unfold ret at 1.
  unfold bind at 1. unfold time, gets. unfold find.
  rewrite find_from_first by exact Hn. cbn [Nat.add].
  apply split_at_found. exact Hd.
Qed.

Lemma prefix_of_stream (buf wire tb rest : bytes) :
  buf ++ wire = tb ++ sep_byte :: rest -> length buf <= length tb ->
  exists mid, tb = buf ++ mid /\ wire = mid ++ sep_byte :: rest.
Proof.
  intros E L. apply app_eq_app in E. destruct E as [l [[E1 E2]|[E1 E2]]].
  - subst buf. rewrite length_app in L. assert (l = []) by (destruct l; cbn in L; [auto|lia]).
    subst l. exists []. rewrite !app_nil_r. split; [reflexivity|]. exact (eq_sym E2).
  - exists l. split; assumption.
Qed.

Section Loop.
Variables (token : str) (tb rest : bytes) (start timeout max_buffer : Z).
Hypothesis Hdecode : decode tb = Some token.
Hypothesis Hsep : ~ In sep_byte tb.
Hypothesis Hfits : (len tb < max_buffer)%Z.

Lemma read_header_loop_delivers (net : list (Z * recv_event)) :
  forall (rounds : nat) (buf : bytes) (w : world),
    w_net w = net -> length net < rounds ->
    forallb negb (w_cancel w) = true ->
    forallb (fun e => (0 <=? fst e)%Z && negb (is_reset e)) net = true ->
    (w_now w - start + total_time net < timeout)%Z ->
    buf ++ w_wire w = tb ++ sep_byte :: rest ->
    length buf <= length tb ->
    length tb + 1 - length buf <= length (filter is_arrival net) ->
    exists leftover w',
      read_header_loop rounds start timeout max_buffer [sep_byte] buf w
      = (Ret (token, leftover), w')
      /\ leftover ++ w_wire w' = rest.
Proof.
  induction net as [|[dt ev] net IH]; intros rounds buf w Hnet Hr Hc Hev Ht Hs Hl Hneed.
  - cbn in Hneed. lia.
  - destruct rounds as [|rounds]; [cbn in Hr; lia|].
    cbn [forallb fst] in Hev. apply andb_prop in Hev. destruct Hev as [Hev0 Hev].
    apply andb_prop in Hev0. destruct Hev0 as [Hdt Hnr]. apply Z.leb_le in Hdt.
    cbn [total_time fold_right fst] in Ht. fold (total_time net) in Ht.
    assert (Htot : (0 <= total_time net)%Z).
    { clear - Hev. induction net as [|e net IHn]; cbn; [lia|].
      cbn in Hev. apply andb_prop in Hev. destruct Hev as [He Hev].
      apply andb_prop in He. destruct He as [He _]. apply Z.leb_le in He.
      specialize (IHn Hev). unfold total_time in IHn. lia. }
    destruct (@prefix_of_stream _ _ _ _ Hs Hl) as [mid [Etb Ewire]].
    destruct (pop_cancel_fields w) as [Pn [Pw Pt]].
    cbn [read_header_loop]. unfold bind at 1. unfold time, gets.
    replace (w_now w - start <? timeout)%Z with true
      by (symmetry; apply Z.ltb_lt; lia).
    unfold bind at 1. rewrite (@is_set_quiet _ Hc).
    set (size := if (len buf =? 0)%Z
                 then Z.min config.BUFFER_SIZE_FOR_HEADER max_buffer
                 else Z.min 4096 (max_buffer - len buf)).
    assert (Hsize : (0 < size)%Z).
    { unfold size, config.BUFFER_SIZE_FOR_HEADER, len in *.
      destruct (Z.of_nat (length buf) =? 0)%Z eqn:E0; lia. }
    replace (size <=? 0)%Z with false by (symmetry; apply Z.leb_gt; lia).
    unfold bind at 1. unfold try_except at 1. unfold bind at 1.
    unfold recv. replace (size <? 0)%Z with false by (symmetry; apply Z.ltb_ge; lia).
    change (w_net (log_recv size (pop_cancel w))) with (w_net (pop_cancel w)).
    rewrite Pn, Hnet.
    destruct ev as [n| |]; [| |discriminate].
    + (* bytes arrive *)
      change (w_wire (log_recv size (pop_cancel w))) with (w_wire (pop_cancel w)).
      rewrite Pw.
      set (k := Nat.min (Nat.min (Pos.to_nat n) (Z.to_nat size)) (length (w_wire w))).
      assert (Hk : 1 <= k).
      { unfold k. rewrite Ewire, length_app. cbn [length]. lia. }
      set (w1 := after_recv dt k net (log_recv size (pop_cancel w))).
      assert (W1 : w_net w1 = net /\ w_wire w1 = skipn k (w_wire w)
                   /\ w_now w1 = (w_now w + dt)%Z
                   /\ w_cancel w1 = w_cancel (pop_cancel w)).
      { unfold w1. cbn. rewrite Pw, Pt. auto. }
      destruct W1 as [W1n [W1w [W1t W1c]]].
      unfold ret at 1.
      destruct (firstn k (w_wire w)) as [|c0 chunk0] eqn:Echunk.
      { apply (f_equal (@length _)) in Echunk. rewrite length_firstn in Echunk.
        cbn in Echunk. unfold k in Hk. lia. }
      rewrite <- Echunk. clear c0 chunk0 Echunk.
      assert (Hsplit : (buf ++ firstn k (w_wire w)) ++ w_wire w1
                       = tb ++ sep_byte :: rest).
      { rewrite W1w, <- app_assoc, firstn_skipn. exact Hs. }
      destruct (Nat.leb_spec (length (buf ++ firstn k (w_wire w))) (length tb)) as [Hle|Hgt].
      * (* the separator has not arrived yet *)
        destruct (@prefix_of_stream _ _ _ _ Hsplit Hle) as [mid' [Etb' _]].
        assert (Hab : ~ In sep_byte (buf ++ firstn k (w_wire w))).
        { intros Hin. apply Hsep. rewrite Etb'. apply in_or_app. left. exact Hin. }
        unfold find. rewrite find_from_absent by exact Hab.
        replace (len (buf ++ firstn k (w_wire w)) >? max_buffer)%Z with false
          by (symmetry; rewrite Z.gtb_ltb; apply Z.ltb_ge; unfold len in *; lia).
        apply IH.
        -- exact W1n.
        -- cbn in Hr. lia.
        -- rewrite W1c. apply pop_cancel_quiet. exact Hc.
        -- exact Hev.
        -- rewrite W1t. lia.
        -- exact Hsplit.
        -- exact Hle.
        -- cbn [filter is_arrival snd] in Hneed. cbn [length] in Hneed.
           rewrite length_app, length_firstn in *. lia.
      * (* the separator is in the buffer now *)
        apply app_eq_app in Hsplit. destruct Hsplit as [l [[E1 E2]|[E1 E2]]].
        2:{ apply (f_equal (@length _)) in E1. rewrite length_app in E1. lia. }
        destruct l as [|x l].
        { rewrite app_nil_r in E1. rewrite E1 in Hgt. lia. }
        cbn in E2. injection E2 as Ex El. subst x.
        rewrite E1. unfold find. rewrite find_from_first by exact Hsep. cbn [Nat.add].
        rewrite (@split_at_found _ _ _ w1 Hdecode).
        exists l, w1. split; [reflexivity|]. symmetry. exact El.
    + (* the socket timeout expires: the next round *)
      set (w1 := after_recv dt 0 net (log_recv size (pop_cancel w))).
      assert (W1 : w_net w1 = net /\ w_wire w1 = w_wire w
                   /\ w_now w1 = (w_now w + dt)%Z
                   /\ w_cancel w1 = w_cancel (pop_cancel w)).
      { unfold w1. cbn. rewrite Pw, Pt. auto. }
      destruct W1 as [W1n [W1w [W1t W1c]]].
      cbn [isinstance]. unfold ret at 1.
      apply IH.
      * exact W1n.
      * cbn in Hr. lia.
      * rewrite W1c. apply pop_cancel_quiet. exact Hc.
      * exact Hev.
      * rewrite W1t. lia.
      * rewrite W1w. exact Hs.
      * exact Hl.
      * cbn [filter is_arrival snd] in Hneed. exact Hneed.
Qed.

End Loop.

End ReaderFacts.

Module C3.
Import Py Sys Spec helpers HelpersFacts ReaderFacts.

(** C3, as the reader has it: a frame written as the UTF-8 bytes of a string
    without the separator, then the separator, then any bytes, is read back
    as that string whenever its bytes are fewer than [max_buffer], however
    the stream is cut between the initial buffer and the chunks [recv]
    brings, provided no cancellation is seen and the bytes up to the
    separator arrive before the timeout; the bytes after the separator are
    all either in the leftover returned or still unread on the socket. *)
Theorem frame_round_trip (token : str) (tb rest initial_buffer : bytes)
    (timeout max_buffer : Z) (w : world) :
  encode token = Some tb ->
  has_separator token = false ->
  (len tb < max_buffer)%Z ->
  initial_buffer ++ w_wire w = tb ++ sep_byte :: rest ->
  delivers w timeout (length tb + 1 - length initial_buffer) = true ->
  exists leftover w',
    read_header_from_socket initial_buffer timeout max_buffer w
    = (Ret (token, leftover), w')
    /\ leftover ++ w_wire w' = rest.
Proof.
  intros Henc Hno Hfit Hstream Hdel.
  assert (Hdec : decode tb = Some token) by (apply PyFacts.decode_encode; exact Henc).
  assert (Hsep : ~ In sep_byte tb).
  { apply (encode_without_sep _ Henc). intros Hin.
    unfold has_separator in Hno.
    assert (existsb (N.eqb 124) token = true)
      by (apply existsb_exists; exists 124%N; split; [exact Hin|apply N.eqb_refl]).
    congruence. }
  destruct (Nat.leb_spec (length initial_buffer) (length tb)) as [Hle|Hgt].
  - (* the separator is still to come *)
    destruct (@prefix_of_stream _ _ _ _ Hstream Hle) as [mid [Etb _]].
    assert (Hab : ~ In sep_byte initial_buffer).
    { intros Hin. apply Hsep. rewrite Etb. apply in_or_app. left. exact Hin. }
    unfold read_header_from_socket, encode_utf8. rewrite encode_separator.
    unfold bind at 1. unfold ret at 1. unfold bind at 1. unfold time, gets.
    unfold find. rewrite find_from_absent by exact Hab.
    unfold bind at 1.
    unfold delivers in Hdel.
    apply andb_prop in Hdel. destruct Hdel as [Hdel Hneed].
    apply andb_prop in Hdel. destruct Hdel as [Hdel Htime].
    apply andb_prop in Hdel. destruct Hdel as [Hquiet Hev].
    apply Nat.leb_le in Hneed. apply Z.ltb_lt in Htime.
    apply (@read_header_loop_delivers token tb rest (w_now w) timeout max_buffer
             Hdec Hsep Hfit (w_net w)); auto; lia.
  - (* the separator is in the initial buffer *)
    apply app_eq_app in Hstream. destruct Hstream as [l [[E1 E2]|[E1 E2]]].
    2:{ apply (f_equal (@length _)) in E1. rewrite length_app in E1. lia. }
    destruct l as [|x l].
    { rewrite app_nil_r in E1. rewrite E1 in Hgt. lia. }
    cbn in E2. injection E2 as Ex El. subst x. rewrite E1.
    rewrite (@read_header_immediate token tb l timeout max_buffer w Hdec Hsep).
    exists l, w. split; [reflexivity|]. symmetry. exact El.
Qed.

(** The round trip on [sample_token], cut into a two-byte initial buffer
    and chunks of one, three and more bytes. *)
Lemma frame_round_trip_sample :
  encode sample_token = Some [xd8; xb3; xd9; x84; x61]
  /\ has_separator sample_token = false
  /\ exists leftover w',
       read_header_from_socket [xd8; xb3] 10000 8192 sample_world
       = (Ret (sample_token, leftover), w')
       /\ leftover ++ w_wire w' = sample_rest.
Proof.
  split; [reflexivity|]. split; [reflexivity|].
  apply (@frame_round_trip sample_token [xd8; xb3; xd9; x84; x61] sample_rest
           [xd8; xb3] 10000 8192 sample_world);
    reflexivity.
Defined.

(** C3 as stated fails for a frame of 8192 bytes, the default limit of the
    buffer: every other condition holds, and the reader raises. *)
Lemma long_frame_is_refused :
  encode long_token = Some long_bytes
  /\ has_separator long_token = false
  /\ len long_bytes = default_max_buffer
  /\ [] ++ w_wire long_world = long_bytes ++ sep_byte :: []
  /\ delivers long_world default_timeout (length long_bytes + 1 - 0) = true
  /\ fst (read_header_from_socket [] default_timeout default_max_buffer long_world)
     = Raise PlainException.
Proof. vm_compute. repeat split; reflexivity. Qed.

End C3.

(* ===================================================================== *)
(** * The path sanitizer *)
(* ===================================================================== *)

Module PathFacts.
Import Py PosixPath Spec.

Lemma str_eqb_eq (x y : str) : str_eqb x y = true <-> x = y.
Proof. unfold str_eqb. destruct (list_eq_dec N.eq_dec x y); split; congruence. Qed.

Lemma str_eqb_refl (x : str) : str_eqb x x = true.
Proof. apply str_eqb_eq. reflexivity. Qed.

Lemma str_compare_eq (x y : str) : str_compare x y = Eq -> x = y.
Proof.
  revert y. induction x as [|a x IH]; intros [|c y]; cbn; try discriminate; auto.
  destruct (N.compare a c) eqn:E; try discriminate.
  apply N.compare_eq in E. intros H. f_equal; auto.
Qed.

Lemma comps_compare_eq (x y : list str) : comps_compare x y = Eq -> x = y.
Proof.
  revert y. induction x as [|a x IH]; intros [|c y]; cbn; try discriminate; auto.
  destruct (str_compare a c) eqn:E; try discriminate.
  apply str_compare_eq in E. intros H. f_equal; auto.
Qed.

Lemma common_prefix_comm (x y : list str) : common_prefix x y = common_prefix y x.
Proof.
  revert y. induction x as [|a x IH]; intros [|c y]; cbn; auto.
  destruct (str_eqb a c) eqn:E.
  - apply str_eqb_eq in E. subst c. rewrite str_eqb_refl, IH. reflexivity.
  - destruct (str_eqb c a) eqn:E'; [|reflexivity].
    apply str_eqb_eq in E'. subst c. rewrite str_eqb_refl in E. discriminate.
Qed.

Lemma common_prefix_self (x : list str) : common_prefix x x = x.
Proof. induction x as [|a x IH]; cbn; [reflexivity|]. rewrite str_eqb_refl, IH. reflexivity. Qed.

(** The common prefix is the whole of [x] only when [x] starts [y]. *)
Lemma common_prefix_whole (x y : list str) :
  common_prefix x y = x -> exists more, y = x ++ more.
Proof.
  revert y. induction x as [|a x IH]; intros y H.
  - exists y. reflexivity.
  - destruct y as [|c y]; cbn in H; [discriminate|].
    destruct (str_eqb a c) eqn:E; [|discriminate].
    apply str_eqb_eq in E. subst c. injection H as H.
    destruct (IH y H) as [more ->]. exists more. reflexivity.
Qed.

(** No part of a split holds the separator. *)
Lemma split_on_parts (c : N) (l : str) :
  Forall (fun part => ~ In c part) (split_on N.eqb c l).
Proof.
  induction l as [|x l IH]; cbn.
  - constructor; [intros []|constructor].
  - destruct (N.eqb x c) eqn:E.
    + constructor; [intros []|exact IH].
    + destruct (split_on N.eqb c l) as [|h t]; [repeat constructor; intros [H|[]]|].
      * subst x. rewrite N.eqb_refl in E. discriminate.
      * inversion IH as [|? ? Hh Ht]; subst. constructor; [|exact Ht].
        intros [H|H]; [subst x; rewrite N.eqb_refl in E; discriminate|auto].
Qed.

Lemma split_on_nonempty (c : N) (l : str) : split_on N.eqb c l <> [].
Proof.
  destruct l as [|x l]; cbn; [discriminate|].
  destruct (N.eqb x c); [discriminate|].
  destruct (split_on N.eqb c l); discriminate.
Qed.

(** Splitting a part followed by the separator and more. *)
Lemma split_on_app (c : N) (part l : str) :
  ~ In c part ->
  split_on N.eqb c (part ++ c :: l) = part :: split_on N.eqb c l.
Proof.
  induction part as [|x part IH]; intros Hn; cbn.
  - rewrite N.eqb_refl. reflexivity.
  - destruct (N.eqb x c) eqn:E.
    + apply N.eqb_eq in E. subst x. exfalso. apply Hn. left. reflexivity.
    + rewrite IH; [reflexivity|]. intros H. apply Hn. right. exact H.
Qed.

Lemma split_on_single (c : N) (part : str) :
  ~ In c part -> split_on N.eqb c part = [part].
Proof.
  induction part as [|x part IH]; intros Hn; cbn; [reflexivity|].
  destruct (N.eqb x c) eqn:E.
  - apply N.eqb_eq in E. subst x. exfalso. apply Hn. left. reflexivity.
  - rewrite IH; [reflexivity|]. intros H. apply Hn. right. exact H.
Qed.

(** Joining components and splitting again gives the components back. *)
Lemma components_join (l : list str) :
  Forall (fun part => ~ In slash part) l ->
  forallb is_component l = true ->
  components (join_with sep l) = l.
Proof.
  unfold components. fold is_component.
  induction l as [|p l IH]; intros Hs Hc; [reflexivity|].
  inversion Hs as [|? ? Hp Hl]; subst.
  cbn [forallb] in Hc. apply andb_prop in Hc. destruct Hc as [Hcp Hcl].
  destruct l as [|q l].
  - cbn [join_with]. rewrite split_on_single by exact Hp. cbn [filter].
    unfold is_component in Hcp |- *. rewrite Hcp. reflexivity.
  - change (join_with sep (p :: q :: l)) with (p ++ sep ++ join_with sep (q :: l)).
    unfold sep at 1. cbn [app]. rewrite split_on_app by exact Hp.
    cbn [filter]. unfold is_component in Hcp. unfold is_component at 1.
    rewrite Hcp. f_equal. apply IH; assumption.
Qed.

Lemma components_sep_join (l : list str) :
  Forall (fun part => ~ In slash part) l ->
  forallb is_component l = true ->
  components (sep ++ join_with sep l) = l.
Proof.
  intros Hs Hc. destruct l as [|p l].
  - reflexivity.
  - unfold components. unfold sep at 1. cbn [app split_on].
    rewrite N.eqb_refl. cbn [filter andb negb str_eqb].
    replace (negb (str_eqb [] []) && negb (str_eqb [] curdir)) with false by reflexivity.
    apply components_join; assumption.
Qed.

Lemma components_are_components (p : str) :
  Forall (fun part => ~ In slash part) (components p)
  /\ forallb is_component (components p) = true.
Proof.
  unfold components. split.
  - apply Forall_forall. intros x Hx. apply filter_In in Hx. destruct Hx as [Hx _].
    pose proof (split_on_parts slash p) as H. rewrite Forall_forall in H. auto.
  - apply forallb_forall. intros x Hx. apply filter_In in Hx. destruct Hx as [_ Hx]. exact Hx.
Qed.

Lemma common_prefix_is_prefix (x y : list str) :
  exists more, x = common_prefix x y ++ more.
Proof.
  revert y. induction x as [|a x IH]; intros y; [exists []; reflexivity|].
  destruct y as [|c y]; cbn; [eexists; reflexivity|].
  destruct (str_eqb a c); [|eexists; reflexivity].
  destruct (IH y) as [more E]. exists more. cbn. rewrite <- E. reflexivity.
Qed.

(** What the containment check of [sanitize_path] establishes. *)
Lemma commonpath_contains (base p : str) :
  commonpath base p = Some base ->
  exists more, components p = components base ++ more.
Proof.
  unfold commonpath. destruct (Bool.eqb (isabs base) (isabs p)); [|discriminate].
  intros H. apply PyFacts.some_eq in H.
  set (c1 := components base) in *. set (c2 := components p) in *.
  assert (Hcommon : exists common,
             (if isabs base then sep else []) ++ join_with sep common = base
             /\ common = common_prefix c1 c2).
  { destruct (comps_compare c2 c1) eqn:E.
    - apply comps_compare_eq in E. rewrite E in *. eexists. split; [exact H|].
      reflexivity.
    - eexists. split; [exact H|]. apply common_prefix_comm.
    - eexists. split; [exact H|]. reflexivity. }
  destruct Hcommon as [common [Hb Hc]].
  assert (Hcomp : Forall (fun part => ~ In slash part) common
                  /\ forallb is_component common = true).
  { destruct (components_are_components base) as [F1 F2]. fold c1 in F1, F2.
    destruct (common_prefix_is_prefix c1 c2) as [more E]. rewrite <- Hc in E.
    rewrite E in F1, F2. apply Forall_app in F1.
    rewrite forallb_app in F2. apply andb_prop in F2. tauto. }
  destruct Hcomp as [F1 F2].
  assert (Hc1 : c1 = common).
  { unfold c1. rewrite <- Hb at 1. destruct (isabs base).
    - apply components_sep_join; assumption.
    - cbn [app]. apply components_join; assumption. }
  apply common_prefix_whole. congruence.
Qed.

End PathFacts.

Module C2.
Import Py Sys Spec utils PathFacts.

Section WithUnicode.
Context {db : UnicodeDB}.

Lemma sanitize_parts_dot (parts : list str) :
  forall (count i : nat) (acc : list str),
    existsb (fun part => str_eqb part (u ".") || str_eqb part (u "..")) parts = true ->
    sanitize_parts count i parts acc = None.
Proof.
  induction parts as [|part parts IH]; intros count i acc H; [discriminate|].
  cbn [existsb] in H. cbn [sanitize_parts].
  destruct (str_eqb part (u ".") || str_eqb part (u "..")) eqn:Edot.
  - assert (Hne : str_eqb part [] = false).
    { destruct (str_eqb part []) eqn:E; [|reflexivity]. apply str_eqb_eq in E.
      subst part. discriminate. }
    rewrite Hne, andb_false_r. cbn [andb]. reflexivity.
  - cbn [orb] in H.
    destruct ((i =? count - 1) && str_eqb part [] && (1 <? count)); [auto|].
    destruct (str_eqb part []); [auto|].
    destruct (sanitize_filename_part part); [auto|reflexivity].
Qed.

Lemma base_block_outcome (base_dir : str) (w : world) :
  (exists w', base_block base_dir w = (Raise ValueError, w'))
  \/ (exists w', base_block base_dir w
                 = (Ret (PosixPath.abspath (w_cwd w) base_dir), w')).
Proof.
  unfold base_block, try_except, bind, abspath, path_exists, makedirs, gets, ret, raise.
  destruct (FS.exists_ _ _).
  - right. eexists. reflexivity.
  - destruct (FS.makedirs _ _).
    + right. eexists. reflexivity.
    + left. cbn. eexists. reflexivity.
Qed.

(** C2: [sanitize_path] raises for every relative path with a segment
    ["."] or [".."]; and a path it returns has passed the
    [os.path.commonpath] check against the normalized absolute base
    directory, so it is that directory or lies below it, component by
    component (no prefix of a sibling's name passes). *)
Theorem sanitize_path_contains (base_dir relative_path : str) (w : world) :
  (has_dot_segment relative_path = true ->
   exists w', sanitize_path base_dir relative_path w = (Raise ValueError, w'))
  /\ (forall (p : str) (w' : world),
        sanitize_path base_dir relative_path w = (Ret p, w') ->
        let base := PosixPath.normpath (PosixPath.abspath (w_cwd w) base_dir) in
        PosixPath.commonpath base p = Some base /\ inside base p).
Proof.
  remember (sanitize_path base_dir relative_path w) as r eqn:Er.
  unfold sanitize_path in Er. fold (base_block base_dir) in Er.
  destruct base_dir as [|c0 base_dir'] eqn:Eb.
  { subst r. unfold raise.
    split; [intros _; eexists; reflexivity|intros p w' H; discriminate]. }
  rewrite <- Eb in *. clear Eb c0 base_dir'.
  unfold bind at 1 in Er.
  destruct (base_block_outcome base_dir w) as [[w1 E]|[w1 E]];
    rewrite E in Er; cbv beta iota in Er.
  { subst r. split; [intros _; eexists; reflexivity|intros p w' H; discriminate]. }
  unfold raise, ret in Er.
  split.
  - intros Hdot. unfold has_dot_segment in Hdot.
    rewrite (sanitize_parts_dot _ _ _ _ Hdot) in Er. subst r. eexists. reflexivity.
  - intros p w' H. rewrite H in Er. clear H.
    destruct (sanitize_parts _ _ _ _) as [parts|]; [|discriminate].
    destruct ((length parts =? 0) && names_a_sub_item relative_path); [discriminate|].
    destruct (PosixPath.commonpath _ _) as [common|] eqn:Ec; [|discriminate].
    destruct (str_eqb common _) eqn:Ecommon; [|discriminate].
    apply str_eqb_eq in Ecommon. subst common. cbn [negb] in Er.
    destruct (names_a_sub_item relative_path && _); [discriminate|].
    injection Er as Hp Hw. subst p.
    split; [exact Ec|]. apply commonpath_contains. exact Ec.
Qed.

End WithUnicode.

(** [sanitize_path] on ["docs/../../etc"] (refused) and on
    ["docs/a b.txt"] (kept below the base directory). *)
Lemma sanitize_path_samples :
  (has_dot_segment (u "docs/../../etc") = true
   /\ exists w', sanitize_path (u "received_files") (u "docs/../../etc")
                               (world_on [] []) = (Raise ValueError, w'))
  /\ (exists w',
        sanitize_path (u "received_files") (u "docs/a b.txt") (world_on [] [])
        = (Ret (u "/home/user/received_files/docs/a_b.txt"), w')
        /\ inside (u "/home/user/received_files")
                  (u "/home/user/received_files/docs/a_b.txt")).
Proof.
  split.
  - split; [reflexivity|].
    apply (proj1 (sanitize_path_contains (u "received_files") (u "docs/../../etc")
                                         (world_on [] []))).
    reflexivity.
  - eexists. split; [reflexivity|].
    apply (proj2 (sanitize_path_contains (u "received_files") (u "docs/a b.txt")
                                         (world_on [] []))
                 (u "/home/user/received_files/docs/a_b.txt") _ eq_refl).
Defined.

End C2.

(* ===================================================================== *)
(** * Reasoning about handlers *)
(* ===================================================================== *)

Module Logic.
Import Spec.

Section Rules.
Context {S : Type}.
Implicit Types (P Q I : S -> Prop).

Lemma hoare_conseq {A} P P' Q Q' (m : M S A) :
  hoare P' m Q' -> (forall s, P s -> P' s) -> (forall s, Q' s -> Q s) ->
  hoare P m Q.
Proof. unfold hoare. intros H HP HQ s r s' Hs E. eauto. Qed.

Lemma hoare_bind {A B} P Q1 Q (m : M S A) (k : A -> M S B) :
  hoare P m Q1 -> (forall a, hoare Q1 (k a) Q) -> (forall s, Q1 s -> Q s) ->
  hoare P (bind m k) Q.
Proof.
  unfold hoare, bind. intros Hm Hk HQ s r s' Hs E.
  destruct (m s) as [[a|e|] s1] eqn:Em.
  - exact (Hk a s1 r s' (Hm s _ s1 Hs Em) E).
  - injection E as <- <-. eauto.
  - injection E as <- <-. eauto.
Qed.

Lemma stable_bind {A B} I (m : M S A) (k : A -> M S B) :
  stable I m -> (forall a, stable I (k a)) -> stable I (bind m k).
Proof. intros Hm Hk. eapply hoare_bind; eauto. Qed.

Lemma stable_ret {A} I (a : A) : stable I (ret a).
Proof. unfold stable, hoare, ret. intros s r s' Hs [= <- <-]. exact Hs. Qed.

Lemma stable_raise {A} I (e : exn) : stable I (@raise S A e).
Proof. unfold stable, hoare, raise. intros s r s' Hs [= <- <-]. exact Hs. Qed.

Lemma stable_blocked {A} I : stable I (fun s : S => (@Blocked A, s)).
Proof. unfold stable, hoare. intros s r s' Hs [= <- <-]. exact Hs. Qed.

Lemma stable_get I : stable I (@get S).
Proof. unfold stable, hoare, get. intros s r s' Hs [= <- <-]. exact Hs. Qed.

Lemma stable_gets {A} I (f : S -> A) : stable I (gets f).
Proof. unfold stable, hoare, gets. intros s r s' Hs [= <- <-]. exact Hs. Qed.

Lemma hoare_modify P Q (f : S -> S) :
  (forall s, P s -> Q (f s)) -> hoare P (modify f) Q.
Proof. unfold hoare, modify. intros H s r s' Hs [= <- <-]. auto. Qed.

Lemma stable_modify I (f : S -> S) :
  (forall s, I s -> I (f s)) -> stable I (modify f).
Proof. apply hoare_modify. Qed.

Lemma stable_try_except {A} I (m : M S A) (h : exn -> option (M S A)) :
  stable I m ->
  (forall e, match h e with Some k => stable I k | None => True end) ->
  stable I (try_except m h).
Proof.
  unfold stable, hoare, try_except. intros Hm Hh s r s' Hs E.
  destruct (m s) as [[a|e|] s1] eqn:Em.
  - injection E as <- <-. eauto.
  - specialize (Hh e). destruct (h e) as [k|].
    + exact (Hh s1 r s' (Hm s _ s1 Hs Em) E).
    + injection E as <- <-. eauto.
  - injection E as <- <-. eauto.
Qed.

Lemma hoare_try_except {A} P Q (m : M S A) (h : exn -> option (M S A)) :
  hoare P m Q ->
  (forall e, match h e with Some k => stable Q k | None => True end) ->
  hoare P (try_except m h) Q.
Proof.
  unfold stable, hoare, try_except. intros Hm Hh s r s' Hs E.
  destruct (m s) as [[a|e|] s1] eqn:Em.
  - injection E as <- <-. eauto.
  - specialize (Hh e). destruct (h e) as [k|].
    + exact (Hh s1 r s' (Hm s _ s1 Hs Em) E).
    + injection E as <- <-. eauto.
  - injection E as <- <-. eauto.
Qed.

Lemma stable_try_finally {A} I (m : M S A) (f : M S unit) :
  stable I m -> stable I f -> stable I (try_finally m f).
Proof.
  unfold stable, hoare, try_finally. intros Hm Hf s r s' Hs E.
  destruct (m s) as [[a|e|] s1] eqn:Em.
  - destruct (f s1) as [[u|e|] s2] eqn:Ef; injection E as <- <-; eauto.
  - destruct (f s1) as [[u|e'|] s2] eqn:Ef; injection E as <- <-; eauto.
  - injection E as <- <-. eauto.
Qed.

Lemma stable_lift `{HasWorld S} {A} I (m : M world A) :
  (forall s w, I s -> I (with_world w s)) -> stable I (lift m).
Proof.
  unfold stable, hoare, lift. intros HI s r s' Hs E.
  destruct (m (the_world s)) as [r1 w1]. injection E as <- <-. auto.
Qed.

(** [utils.format_bytes] touches no state: it returns, or raises where
    it stands. *)
Lemma stable_format_bytes {db : Py.UnicodeDB} I (n : Z) :
  stable I (@utils.format_bytes db S n).
Proof.
  unfold utils.format_bytes.
  destruct (n <=? 0)%Z; [apply stable_ret|].
  destruct (9 <=? Py.float_log_1024 n)%Z; [apply stable_raise|apply stable_ret].
Qed.

End Rules.

(** Booleans of comparisons as propositions. *)
Ltac prop_of_bool :=
  repeat match goal with
  | H : (_ <? _)%Z = true |- _ => apply Z.ltb_lt in H
  | H : (_ <? _)%Z = false |- _ => apply Z.ltb_ge in H
  | H : (_ <=? _)%Z = true |- _ => apply Z.leb_le in H
  | H : (_ <=? _)%Z = false |- _ => apply Z.leb_gt in H
  | H : (_ >? _)%Z = true |- _ => rewrite Z.gtb_ltb in H; apply Z.ltb_lt in H
  | H : (_ >? _)%Z = false |- _ => rewrite Z.gtb_ltb in H; apply Z.ltb_ge in H
  | H : (_ >=? _)%Z = true |- _ => rewrite Z.geb_leb in H; apply Z.leb_le in H
  | H : (_ >=? _)%Z = false |- _ => rewrite Z.geb_leb in H; apply Z.leb_gt in H
  | H : (_ =? _)%Z = true |- _ => apply Z.eqb_eq in H
  | H : (_ =? _)%Z = false |- _ => apply Z.eqb_neq in H
  | H : andb _ _ = true |- _ => apply andb_prop in H; destruct H
  | H : negb _ = true |- _ => apply negb_true_iff in H
  | H : negb _ = false |- _ => apply negb_false_iff in H
  end.

(** A triple with the same condition on both sides is an invariant. *)
Ltac as_stable :=
  lazymatch goal with
  | |- hoare ?P ?m ?P => change (stable P m)
  end.

(** What is left of an invariant after a primitive step. *)
Ltac side := intros; cbn in *; prop_of_bool; intuition (try congruence; try lia).

(** The walk through the body of a handler that keeps an invariant: [known]
    settles the calls of functions whose own lemma is at hand, [lifted] the
    calls of the world. *)
Ltac walk_with lifted known :=
  lazymatch goal with
  | |- stable _ (bind _ _) =>
      apply stable_bind; [walk_with lifted known | intros; walk_with lifted known]
  | |- stable _ (ret _) => apply stable_ret
  | |- stable _ (raise _) => apply stable_raise
  | |- stable _ get => apply stable_get
  | |- stable _ (gets _) => apply stable_gets
  | |- stable _ (modify _) => apply stable_modify; side
  | |- stable _ (lift _) => lifted
  | |- stable _ (try_except _ _) =>
      apply stable_try_except;
      [walk_with lifted known
      | let e := fresh "e" in intros e; cbv beta; walk_handler_with lifted known]
  | |- stable _ (try_finally _ _) =>
      apply stable_try_finally; [walk_with lifted known | walk_with lifted known]
  | |- stable _ (fun s => (Blocked, s)) => apply stable_blocked
  | |- stable _ (match ?x with _ => _ end) =>
      destruct x eqn:?; walk_with lifted known
  | |- stable _ (Sys.encode_utf8 _) => unfold Sys.encode_utf8; walk_with lifted known
  | |- stable _ (Sys.decode_utf8 _) => unfold Sys.decode_utf8; walk_with lifted known
  | |- stable _ (utils.format_bytes _) =>
      unfold utils.format_bytes; walk_with lifted known
  | |- stable _ _ => first [solve [known] | fail 1 "no lemma for this call"]
  end
with walk_handler_with lifted known :=
  lazymatch goal with
  | |- match (if ?c then _ else _) with _ => _ end =>
      destruct c eqn:?; walk_handler_with lifted known
  | |- match Some _ with _ => _ end => cbv beta iota; walk_with lifted known
  | |- match None with _ => _ end => exact I
  | |- True => exact I
  | |- _ => walk_with lifted known
  end.

(** The walk for an invariant that does not speak of the world. *)
Ltac walk known := walk_with ltac:(apply stable_lift; side) known.
Ltac walk_handler known := walk_handler_with ltac:(apply stable_lift; side) known.

End Logic.
(* ===================================================================== *)
(** * Invariants of the folder receiver *)
(* ===================================================================== *)

Module FolderWalk.
Import Py Sys Spec Logic folder_handler.

(** The body of a function of the folder receiver, for [walk]. *)
Ltac unfold_call :=
  lazymatch goal with
  | |- stable _ (say _) => unfold say
  | |- stable _ (read_header _) => unfold read_header
  | |- stable _ close_current_file => unfold close_current_file
  | |- stable _ (is_handshake_request _) => unfold is_handshake_request
  | |- stable _ int_time => unfold int_time
  | |- stable _ (required _) => unfold required
  | |- stable _ (required_dir _) => unfold required_dir
  | |- stable _ count_item => unfold count_item
  | |- stable _ on_root_folder_header => unfold on_root_folder_header
  | |- stable _ on_total_info_header => unfold on_total_info_header
  | |- stable _ on_end_transfer => unfold on_end_transfer
  | |- stable _ (on_folder _) => unfold on_folder
  | |- stable _ (on_file _) => unfold on_file
  | |- stable _ (on_folder_or_file _ _) => unfold on_folder_or_file
  | |- stable _ on_item_header => unfold on_item_header
  | |- stable _ (take_from_buffer _ _) => unfold take_from_buffer
  | |- stable _ (on_file_data _ _) => unfold on_file_data
  | |- stable _ on_handshake => unfold on_handshake
  | |- stable _ (dispatch _) => unfold dispatch
  | |- stable _ (loop_body _) => unfold loop_body
  end.

(** An invariant through the calls: a lemma at hand, or the body. *)
Ltac through := first [ solve [eauto] | unfold_call; walk ltac:(through) ].

End FolderWalk.

Module FolderMonotone.
Import Py Sys Spec Logic folder_handler FolderWalk.

Section WithUnicode.
Context {db : UnicodeDB}.
Variable n : Z.

Local Abbreviation grown := (fun s : env => (n <= received_bytes_total s)%Z).

Lemma mono_data_loop rounds h rbs : stable grown (data_loop rounds h rbs).
Proof.
  induction rounds as [|rounds IH]; cbn [data_loop].
  - walk idtac.
  - walk ltac:(through).
Qed.

Lemma mono_loop_body rbs : stable grown (loop_body rbs).
Proof. pose proof mono_data_loop. through. Qed.

Lemma mono_main_loop rounds rbs : stable grown (main_loop rounds rbs).
Proof.
  pose proof mono_loop_body.
  induction rounds as [|rounds IH]; cbn [main_loop].
  - walk idtac.
  - walk ltac:(through).
Qed.

End WithUnicode.

End FolderMonotone.

(* ===================================================================== *)
(** * The dispatcher *)
(* ===================================================================== *)

Module C7.
Import Py Sys Spec server.

(** C7: on an accepted connection the dispatcher calls [recv] once, for
    [BUFFER_SIZE_FOR_HEADER] bytes.  When that read brings bytes, a handler
    is started with exactly those bytes as its initial buffer, the folder
    handler if and only if they start with [FDR_V1|], the single-file
    handler otherwise, and the socket is left open.  When the read times
    out, breaks or is empty, the socket is closed, the end of the transfer
    is signalled and no handler is started. *)
Theorem sniff_and_dispatch (callback : option callback_result) (w : world) :
  let sniff := recv config.BUFFER_SIZE_FOR_HEADER w in
  let result := on_accept callback w in
  w_recv_log (snd result) = w_recv_log w ++ [config.BUFFER_SIZE_FOR_HEADER]
  /\ match fst sniff with
     | Ret [] | Raise _ =>
         fst result = Ret None
         /\ w_closed (snd result) = true
         /\ last (w_gui (snd result)) OnTransferStarted = OnTransferFinished
     | Ret sniffed =>
         fst result
         = Ret (Some (Started
                        (if startswith Byte.eqb sniffed (b "FDR_V1|")
                         then folder else file)
                        (receive_buffer_size_of callback) sniffed))
         /\ (length sniffed <= Z.to_nat config.BUFFER_SIZE_FOR_HEADER)%nat
         /\ w_wire w = sniffed ++ w_wire (snd result)
         /\ w_closed (snd result) = w_closed w
     | Blocked => fst result = Blocked
     end.
Proof.
  cbv zeta. unfold on_accept, detect_protocol, try_except, bind, gui, modify,
    close_socket, recv, encode_utf8, ret, raise.
  change (config.BUFFER_SIZE_FOR_HEADER <? 0)%Z with false. cbv iota.
  change (w_net (log_recv config.BUFFER_SIZE_FOR_HEADER (add_gui OnTransferStarted w)))
    with (w_net w).
  change (w_net (log_recv config.BUFFER_SIZE_FOR_HEADER w)) with (w_net w).
  destruct (w_net w) as [|[dt ev] net].
  - cbn. auto.
  - destruct ev as [n| |].
    + change (w_wire (log_recv config.BUFFER_SIZE_FOR_HEADER
                        (add_gui OnTransferStarted w))) with (w_wire w).
      change (w_wire (log_recv config.BUFFER_SIZE_FOR_HEADER w)) with (w_wire w).
      set (k := Nat.min (Nat.min (Pos.to_nat n) (Z.to_nat config.BUFFER_SIZE_FOR_HEADER))
                        (length (w_wire w))).
      cbv beta iota. cbn [fst snd].
      destruct (firstn k (w_wire w)) as [|c0 chunk] eqn:Echunk.
      * cbn. rewrite last_last. auto.
      * rewrite <- Echunk.
        change (encode (config.FOLDER_PROTOCOL_PREFIX ++ config.HEADER_SEPARATOR))
          with (Some (b "FDR_V1|")).
        cbv beta iota.
        assert (Hlen : (length (firstn k (w_wire w))
                        <= Z.to_nat config.BUFFER_SIZE_FOR_HEADER)%nat).
        { rewrite length_firstn. unfold k. lia. }
        destruct (startswith Byte.eqb (firstn k (w_wire w)) (b "FDR_V1|"));
          cbn; rewrite firstn_skipn; auto.
    + cbn. rewrite last_last. auto.
    + cbn. rewrite last_last. auto.
Qed.

End C7.

(* ===================================================================== *)
(** * The filesystem and the single-file receiver *)
(* ===================================================================== *)

Module FSFacts.
Import Py PathFacts.

Lemma lookup_drop (p : str) (fs : FS.t) : FS.lookup p (FS.drop p fs) = None.
Proof.
  induction fs as [|[q n] fs IH]; [reflexivity|].
  cbn. destruct (str_eqb p q) eqn:E; cbn; [exact IH|]. rewrite E. exact IH.
Qed.

Lemma lookup_head (p : str) (n : FS.node) (fs : FS.t) :
  FS.lookup p ((p, n) :: fs) = Some n.
Proof. cbn. rewrite str_eqb_refl. reflexivity. Qed.

Lemma exists_false (fs : FS.t) (p : str) :
  FS.exists_ fs p = false -> FS.lookup p fs = None /\ FS.is_root p = false.
Proof.
  unfold FS.exists_. destruct (FS.is_root p); [discriminate|].
  destruct (FS.lookup p fs); [discriminate|auto].
Qed.

Lemma open_wb_creates (fs fs' : FS.t) (p : str) :
  FS.open_wb fs p = Some fs' -> FS.lookup p fs' = Some (FS.File []).
Proof.
  unfold FS.open_wb. destruct (FS.isdir fs p); [discriminate|].
  destruct (FS.isdir fs _); [|discriminate].
  intros [= <-]. apply lookup_head.
Qed.

Lemma append_file (fs : FS.t) (p : str) (c data : bytes) :
  FS.lookup p fs = Some (FS.File c) ->
  FS.lookup p (FS.append fs p data) = Some (FS.File (c ++ data)).
Proof. intros H. unfold FS.append. rewrite H. apply lookup_head. Qed.

Lemma remove_file (fs : FS.t) (p : str) (c : bytes) :
  FS.lookup p fs = Some (FS.File c) -> FS.remove fs p = Some (FS.drop p fs).
Proof. intros H. unfold FS.remove. rewrite H. reflexivity. Qed.

End FSFacts.

Module RunFacts.
Import Py Sys Spec.

(** ** Equations for running a handler step by step *)

Lemma bind_get {S B} (k : S -> M S B) (s : S) : bind get k s = k s s.
Proof. reflexivity. Qed.

Lemma bind_gets {S A B} (f : S -> A) (k : A -> M S B) (s : S) :
  bind (gets f) k s = k (f s) s.
Proof. reflexivity. Qed.

Lemma bind_ret {S A B} (a : A) (k : A -> M S B) (s : S) : bind (ret a) k s = k a s.
Proof. reflexivity. Qed.

Lemma bind_modify {S B} (f : S -> S) (k : unit -> M S B) (s : S) :
  bind (modify f) k s = k tt (f s).
Proof. reflexivity. Qed.

Lemma bind_raise {S A B} (e : exn) (k : A -> M S B) (s : S) :
  bind (raise e) k s = (Raise e, s).
Proof. reflexivity. Qed.

Lemma bind_lift {S} `{HasWorld S} {A B} (m : M world A) (k : A -> M S B) (s : S) :
  bind (lift m) k s =
  match m (the_world s) with
  | (Ret a, w) => k a (with_world w s)
  | (Raise e, w) => (Raise e, with_world w s)
  | (Blocked, w) => (Blocked, with_world w s)
  end.
Proof. unfold bind, lift. destruct (m (the_world s)) as [[a|e|] w]; reflexivity. Qed.

Lemma bind_lift_modify {S} `{HasWorld S} {B} (f : world -> world)
    (k : unit -> M S B) (s : S) :
  bind (lift (modify f)) k s = k tt (with_world (f (the_world s)) s).
Proof. reflexivity. Qed.

Lemma bind_assoc {S A B C} (m : M S A) (k : A -> M S B) (h : B -> M S C) (s : S) :
  bind (bind m k) h s = bind m (fun a => bind (k a) h) s.
Proof. unfold bind. destruct (m s) as [[a|e|] s1]; reflexivity. Qed.

Lemma bind_returns {S A B} (m : M S A) (k : A -> M S B) (s s1 : S) (a : A) :
  m s = (Ret a, s1) -> bind m k s = k a s1.
Proof. unfold bind. intros ->. reflexivity. Qed.

Lemma try_except_returns {S A} (m : M S A) (h : exn -> option (M S A))
    (s s1 : S) (a : A) :
  m s = (Ret a, s1) -> try_except m h s = (Ret a, s1).
Proof. unfold try_except. intros ->. reflexivity. Qed.

Lemma lift_returns {S} `{HasWorld S} {A} (m : M world A) (s : S) (a : A) (w : world) :
  m (the_world s) = (Ret a, w) -> lift m s = (Ret a, with_world w s).
Proof. unfold lift. intros ->. reflexivity. Qed.

Lemma is_set_polled (w : world) :
  exists c w', is_set w = (Ret c, w') /\ polled w w'.
Proof.
  unfold is_set, polled. destruct (w_cancel w) as [|c rest].
  - exists false, w. repeat split.
  - exists c, (set_cancel rest w). repeat split.
Qed.

(** [utils.format_bytes] returns for a size that is not positive, and for
    one whose logarithm to the base 1024 is below 9: below [2 ^ 89] for
    every floating-point logarithm this development allows.  From
    [2 ^ 91] on it raises. *)
Lemma format_bytes_returns {db : UnicodeDB} {S} (n : Z) :
  (n <= 0)%Z \/ (float_log_1024 n < 9)%Z -> @utils.format_bytes db S n = ret tt.
Proof.
  intros H. unfold utils.format_bytes.
  destruct (n <=? 0)%Z eqn:E; [reflexivity|].
  apply Z.leb_gt in E.
  replace (9 <=? float_log_1024 n)%Z with false
    by (symmetry; apply Z.leb_gt; lia).
  reflexivity.
Qed.

Lemma format_bytes_small {db : UnicodeDB} {S} (n : Z) :
  (n < 2 ^ 89)%Z -> @utils.format_bytes db S n = ret tt.
Proof.
  intros H. apply format_bytes_returns.
  destruct (Z_le_gt_dec n 0) as [Hn|Hn]; [left; exact Hn|].
  right. apply float_log_small. lia.
Qed.

Lemma format_bytes_large {db : UnicodeDB} {S} (n : Z) :
  (2 ^ 91 <= n)%Z -> @utils.format_bytes db S n = raise PlainException.
Proof.
  intros H. unfold utils.format_bytes.
  replace (n <=? 0)%Z with false by (symmetry; apply Z.leb_gt; lia).
  replace (9 <=? float_log_1024 n)%Z with true
    by (symmetry; apply Z.leb_le; apply float_log_large; exact H).
  reflexivity.
Qed.

End RunFacts.

Module SingleFacts.
Import Py Sys Spec Logic PathFacts FSFacts RunFacts single_file_handler.

Lemma drop_head (p : str) (n : FS.node) (fs : FS.t) :
  FS.drop p ((p, n) :: fs) = FS.drop p fs.
Proof. unfold FS.drop. cbn. rewrite str_eqb_refl. reflexivity. Qed.

Lemma drop_twice (p : str) (fs : FS.t) : FS.drop p (FS.drop p fs) = FS.drop p fs.
Proof.
  unfold FS.drop. induction fs as [|[q n] fs IH]; [reflexivity|].
  cbn. destruct (str_eqb p q) eqn:E; cbn; [exact IH|]. rewrite E. cbn.
  rewrite IH. reflexivity.
Qed.

(** A write to the file that was opened last. *)
Lemma append_head (p : str) (c data : bytes) (fs : FS.t) :
  FS.append ((p, FS.File c) :: FS.drop p fs) p data
  = (p, FS.File (c ++ data)) :: FS.drop p fs.
Proof.
  unfold FS.append. rewrite lookup_head, drop_head, drop_twice. reflexivity.
Qed.

(** What [open(name, "wb")] leaves when it succeeds. *)
Lemma open_wb_shape (fs f : FS.t) (p : str) :
  FS.open_wb fs p = Some f ->
  f = (p, FS.File []) :: FS.drop p fs /\ FS.is_root p = false.
Proof.
  unfold FS.open_wb, FS.isdir.
  destruct (FS.is_root p); [discriminate|]. cbn [orb].
  destruct (match FS.lookup p fs with Some FS.Dir => true | _ => false end);
    [discriminate|].
  destruct (_ || _); [|discriminate]. intros [= <-]. auto.
Qed.

Lemma is_set_never (w : world) : w_cancel w = [] -> is_set w = (Ret false, w).
Proof. intros H. unfold is_set. rewrite H. reflexivity. Qed.

Section Loop.
Variables (handle : str) (rbs : Z).
Hypothesis Hrbs : (0 < rbs)%Z.

(** The peer sends fewer bytes than the header declared and closes (no
    cancellation, no reset of the connection): the loop writes every byte
    that comes, then meets the empty [recv], reports the connection as
    lost and marks the transfer cancelled. *)
Lemma receive_loop_cut (net : list (Z * recv_event)) :
  forall (rounds : nat) (s : env) (c : bytes) (fs0 : FS.t),
    w_net (W s) = net -> length net < rounds ->
    w_cancel (W s) = [] ->
    forallb (fun e => negb (is_reset e)) net = true ->
    (received_bytes s + len (w_wire (W s)) < filesize s)%Z ->
    length (w_wire (W s)) < length (filter is_arrival net) ->
    w_fs (W s) = (handle, FS.File c) :: FS.drop handle fs0 ->
    exists s',
      receive_loop rounds handle rbs s = (Ret tt, s')
      /\ received_bytes s' = (received_bytes s + len (w_wire (W s)))%Z
      /\ w_fs (W s') = (handle, FS.File (c ++ w_wire (W s))) :: FS.drop handle fs0
      /\ w_wire (W s') = []
      /\ is_cancelled s' = true
      /\ w_gui (W s') = w_gui (W s) ++ [StConnectionLost]
      /\ filesize s' = filesize s /\ file_path s' = file_path s
      /\ transfer_success s' = transfer_success s
      /\ w_cwd (W s') = w_cwd (W s).
Proof.
  induction net as [|[dt ev] net IH];
    intros rounds s c fs0 Hnet Hr Hcan Hok Hshort Hclose Hfs.
  - cbn in Hclose. lia.
  - destruct rounds as [|rounds]; [cbn in Hr; lia|].
    cbn [receive_loop]. rewrite bind_get.
    assert (Hlt : (received_bytes s <? filesize s)%Z = true)
      by (apply Z.ltb_lt; unfold len in *; lia).
    rewrite Hlt, bind_lift. cbn [the_world env_has_world].
    rewrite (is_set_never _ Hcan). cbv beta iota.
    set (size := Z.min rbs (filesize s - received_bytes s)).
    assert (Hsize : (0 < size)%Z) by (unfold size, len in *; lia).
    replace (size <=? 0)%Z with false by (symmetry; apply Z.leb_gt; lia).
    unfold bind at 1. unfold try_except at 1. rewrite bind_lift.
    unfold recv. replace (size <? 0)%Z with false by (symmetry; apply Z.ltb_ge; lia).
    cbn [the_world with_world env_has_world W set_W].
    change (w_net (log_recv size (W s))) with (w_net (W s)).
    change (w_wire (log_recv size (W s))) with (w_wire (W s)).
    rewrite Hnet.
    cbn [forallb] in Hok. apply andb_prop in Hok. destruct Hok as [Hev Hok].
    destruct ev as [n| |]; cbv beta iota.
    + set (k := Nat.min (Nat.min (Pos.to_nat n) (Z.to_nat size))
                        (length (w_wire (W s)))).
      destruct (firstn k (w_wire (W s))) as [|c0 chunk] eqn:Echunk.
      * (* nothing comes: the peer has closed *)
        assert (Hnone : w_wire (W s) = []).
        { apply (f_equal (@length _)) in Echunk. rewrite length_firstn in Echunk.
          cbn in Echunk. apply length_zero_iff_nil. unfold k in Echunk. lia. }
        unfold ret at 1. cbv beta iota. unfold say. rewrite bind_lift. cbn.
        eexists. split; [reflexivity|]. cbn.
        rewrite Hnone, app_nil_r. cbn. repeat split; auto; try lia.
        apply skipn_nil.
      * (* bytes come: they are written *)
        rewrite <- Echunk. unfold ret at 1. cbv beta iota.
        assert (Hk : 1 <= k <= length (w_wire (W s))).
        { split; [|unfold k; lia].
          apply (f_equal (@length _)) in Echunk. rewrite length_firstn in Echunk.
          cbn in Echunk. fold k in Echunk. lia. }
        destruct (firstn k (w_wire (W s))) as [|c1 chunk1] eqn:Echunk1; [discriminate|].
        rewrite <- Echunk1. clear c0 chunk Echunk.
        unfold write. rewrite bind_lift_modify, bind_modify.
        cbn [the_world with_world env_has_world W set_W].
        match goal with |- exists s', receive_loop _ _ _ ?st = _ /\ _ =>
          destruct (IH rounds st (c ++ firstn k (w_wire (W s))) fs0)
            as (s' & El & Hrec & Hf & Hrest)
        end.
        -- reflexivity.
        -- cbn in Hr. lia.
        -- exact Hcan.
        -- exact Hok.
        -- cbn. unfold len in *. rewrite length_firstn, length_skipn. lia.
        -- cbn. rewrite length_skipn.
           cbn [filter is_arrival snd length] in Hclose. lia.
        -- cbn. rewrite Hfs. apply append_head.
        -- exists s'. split; [exact El|]. cbn in Hrec, Hf, Hrest.
           split.
           { rewrite Hrec. unfold len. rewrite length_firstn, length_skipn. lia. }
           split.
           { rewrite Hf, <- app_assoc, firstn_skipn. reflexivity. }
           exact Hrest.
    + (* the socket timeout expires *)
      unfold isinstance. unfold ret at 1. cbv beta iota.
      match goal with |- exists s', receive_loop _ _ _ ?st = _ /\ _ =>
        destruct (IH rounds st c fs0) as (s' & El & Hrest)
      end.
      * reflexivity.
      * cbn in Hr. lia.
      * exact Hcan.
      * exact Hok.
      * exact Hshort.
      * cbn [filter is_arrival snd] in Hclose. exact Hclose.
      * exact Hfs.
      * exists s'. split; [exact El|]. exact Hrest.
    + discriminate Hev.
Qed.

End Loop.
End SingleFacts.
Module C8.
Import Py Sys Spec Logic FSFacts RunFacts single_file_handler SingleFacts.

(** The inner [try] with a peer that closes early: the file is created,
    the bytes that came with the header and those of the wire are written
    to it, and the empty [recv] ends the loop with the transfer marked
    cancelled. *)
Lemma receive_body_cut (rbs : Z) (s : env) (path : str) (f : FS.t) :
  let q := PosixPath.abspath (w_cwd (W s)) path in
  let buffer := current_remaining_buffer s in
  let wire := w_wire (W s) in
  (0 < rbs)%Z ->
  file_path s = Some path ->
  FS.open_wb (w_fs (W s)) q = Some f ->
  (0 < filesize s)%Z -> received_bytes s = 0%Z ->
  w_cancel (W s) = [] ->
  forallb (fun e => negb (is_reset e)) (w_net (W s)) = true ->
  (len buffer + len wire < filesize s)%Z ->
  length wire < length (filter is_arrival (w_net (W s))) ->
  exists s1,
    receive_body rbs s = (Ret tt, s1)
    /\ received_bytes s1 = (len buffer + len wire)%Z
    /\ w_fs (W s1) = (q, FS.File (buffer ++ wire)) :: FS.drop q (w_fs (W s))
    /\ w_wire (W s1) = []
    /\ is_cancelled s1 = true
    /\ w_gui (W s1) = w_gui (W s) ++ [StConnectionLost]
    /\ filesize s1 = filesize s /\ file_path s1 = Some path
    /\ transfer_success s1 = transfer_success s
    /\ w_cwd (W s1) = w_cwd (W s).
Proof.
  intros q buffer wire Hrbs Hpath Hopen Hsize Hzero Hcan Hnet Hshort Hclose.
  subst buffer wire.
  set (buffer := current_remaining_buffer s) in *.
  set (wire := w_wire (W s)) in *.
  destruct (open_wb_shape _ _ Hopen) as [Hf _].
  unfold receive_body. rewrite bind_get, Hpath.
  replace (filesize s =? 0)%Z with false by (symmetry; apply Z.eqb_neq; lia).
  rewrite bind_lift. unfold open_wb. cbn [the_world env_has_world]. fold q.
  rewrite Hopen, bind_modify.
  set (s1 := set_file_handle (Some q) (with_world (set_fs f (W s)) s)).
  (* the bytes that came with the header *)
  assert (Hbuf : exists s2,
             (match current_remaining_buffer s with
              | [] => ret tt
              | buffer =>
                  let bytes_to_write_now :=
                    Z.min (len buffer) (filesize s - received_bytes s) in
                  (if (bytes_to_write_now >? 0)%Z then
                     lift (write q (firstn (Z.to_nat bytes_to_write_now) buffer)) ;;
                     modify (fun s => set_received_bytes
                                        (received_bytes s + bytes_to_write_now) s)
                   else ret tt) ;;
                  modify (set_current_remaining_buffer [])
              end) s1 = (Ret tt, s2)
             /\ received_bytes s2 = len buffer
             /\ w_fs (W s2) = (q, FS.File buffer) :: FS.drop q (w_fs (W s))
             /\ W s2 = set_fs (w_fs (W s2)) (W s)
             /\ filesize s2 = filesize s /\ file_path s2 = file_path s
             /\ transfer_success s2 = transfer_success s).
  { unfold buffer in *.
    destruct (current_remaining_buffer s) as [|c0 buffer'] eqn:Ebuf.
    - exists s1. unfold s1. cbn. rewrite Hf. repeat split; auto.
    - rewrite <- Ebuf in *. cbv zeta. rewrite Hzero, Z.sub_0_r.
      assert (Hmin : Z.min (len (current_remaining_buffer s)) (filesize s)
                     = len (current_remaining_buffer s))
        by (unfold len in *; lia).
      rewrite Hmin.
      assert (Hpos : (len (current_remaining_buffer s) >? 0)%Z = true).
      { rewrite Z.gtb_ltb. apply Z.ltb_lt. unfold len. rewrite Ebuf. cbn. lia. }
      rewrite Hpos, bind_assoc. unfold write.
      rewrite bind_lift_modify, bind_modify. unfold modify.
      eexists. split; [reflexivity|]. unfold s1. cbn.
      repeat split; auto; [lia|].
      rewrite Hf. unfold len. rewrite Nat2Z.id, firstn_all.
      exact (@append_head q [] _ (w_fs (W s))). }
  destruct Hbuf as (s2 & Ebuf & Hr2 & Hf2 & Hw2 & Hz2 & Hp2 & Ht2).
  unfold bind at 1. fold s1. cbv zeta in Ebuf. unfold buffer. rewrite Ebuf.
  rewrite bind_gets.
  assert (Hwire2 : w_wire (W s2) = wire) by (rewrite Hw2; reflexivity).
  assert (Hnet2 : w_net (W s2) = w_net (W s)) by (rewrite Hw2; reflexivity).
  assert (Hcan2 : w_cancel (W s2) = []) by (rewrite Hw2; exact Hcan).
  assert (Hgui2 : w_gui (W s2) = w_gui (W s)) by (rewrite Hw2; reflexivity).
  assert (Hcwd2 : w_cwd (W s2) = w_cwd (W s)) by (rewrite Hw2; reflexivity).
  assert (H1 : length (w_net (W s2)) < S (length (w_net (W s2)))) by lia.
  assert (H2 : forallb (fun e => negb (is_reset e)) (w_net (W s2)) = true)
    by (rewrite Hnet2; exact Hnet).
  assert (H3 : (received_bytes s2 + len (w_wire (W s2)) < filesize s2)%Z)
    by (rewrite Hr2, Hwire2, Hz2; exact Hshort).
  assert (H4 : length (w_wire (W s2)) < length (filter is_arrival (w_net (W s2))))
    by (rewrite Hwire2, Hnet2; exact Hclose).
  destruct (@receive_loop_cut q rbs Hrbs (w_net (W s2))
              (S (length (w_net (W s2)))) s2 buffer (w_fs (W s))
              eq_refl H1 Hcan2 H2 H3 H4 Hf2)
    as (s3 & Eloop & Hr3 & Hf3 & Hw3 & Hc3 & Hg3 & Hz3 & Hp3 & Ht3 & Hcwd3).
  unfold bind at 1. rewrite Eloop. rewrite bind_get, Hc3.
  cbn [negb andb]. unfold ret.
  exists s3. split; [reflexivity|].
  rewrite Hr3, Hf3, Hg3, Hz3, Hp3, Ht3, Hcwd3, Hr2, Hwire2, Hz2, Hp2, Ht2, Hgui2, Hcwd2.
  repeat split; auto.
Qed.

(** C8: in a single-file receive whose peer sends fewer bytes than the
    declared size and then closes (no cancellation, no reset of the
    connection; a [recv] comes after the last byte and returns empty),
    the inner [try] creates the file and writes to it every byte that
    came; the receive block then ends without success, with the
    transfer marked cancelled and fewer bytes counted than declared, the
    connection reported as lost, and the partial file removed, the rest of
    the disk being as before.  And the cleanup leaves alone a file whose
    bytes are all there. *)
Theorem partial_file_is_deleted (rbs : Z) (s : env) (path : str) (f : FS.t) :
  let q := PosixPath.abspath (w_cwd (W s)) path in
  let buffer := current_remaining_buffer s in
  let wire := w_wire (W s) in
  (0 < rbs)%Z ->
  file_path s = Some path ->
  (length path =? 0) = false ->
  FS.open_wb (w_fs (W s)) q = Some f ->
  (0 < filesize s)%Z -> received_bytes s = 0%Z ->
  transfer_success s = false -> is_cancelled s = false ->
  w_cancel (W s) = [] ->
  forallb (fun e => negb (is_reset e)) (w_net (W s)) = true ->
  (len buffer + len wire < filesize s)%Z ->
  length wire < length (filter is_arrival (w_net (W s))) ->
  (exists s1 s',
     receive_body rbs (set_file_handle None s) = (Ret tt, s1)
     /\ FS.lookup q (w_fs (W s1)) = Some (FS.File (buffer ++ wire))
     /\ cleanup s1 = (Ret tt, s')
     /\ receive_file rbs s = (Ret tt, s')
     /\ transfer_success s' = false /\ is_cancelled s' = true
     /\ received_bytes s' = (len buffer + len wire)%Z
     /\ filesize s' = filesize s
     /\ w_wire (W s') = []
     /\ w_fs (W s') = FS.drop q (w_fs (W s))
     /\ FS.exists_ (w_fs (W s')) q = false
     /\ w_gui (W s') = w_gui (W s) ++ [StConnectionLost; StIncompleteRemoved])
  /\ (forall t, (filesize t <= received_bytes t)%Z ->
                exists t', cleanup t = (Ret tt, t') /\ w_fs (W t') = w_fs (W t)).
Proof.
  intros q buffer wire Hrbs Hpath Hname Hopen Hsize Hzero Hfail Hgo Hcan Hnet
    Hshort Hclose.
  split.
  - destruct (open_wb_shape _ _ Hopen) as [_ Hroot].
    destruct (@receive_body_cut rbs (set_file_handle None s) path f
                Hrbs Hpath Hopen Hsize Hzero Hcan Hnet Hshort Hclose)
      as (s1 & Ebody & Hr1 & Hf1 & Hw1 & Hc1 & Hg1 & Hz1 & Hp1 & Ht1 & Hcwd1).
    cbn [W set_file_handle current_remaining_buffer filesize transfer_success]
      in Hr1, Hf1, Hg1, Hz1, Ht1, Hcwd1.
    fold q buffer wire in Hr1, Hf1.
    (* the inner [finally] *)
    assert (Hclean : exists s',
               cleanup s1 = (Ret tt, s')
               /\ transfer_success s' = false /\ is_cancelled s' = true
               /\ received_bytes s' = (len buffer + len wire)%Z
               /\ filesize s' = filesize s
               /\ w_wire (W s') = []
               /\ w_fs (W s') = FS.drop q (w_fs (W s))
               /\ w_gui (W s') = w_gui (W s) ++ [StConnectionLost; StIncompleteRemoved]).
    { unfold cleanup. rewrite bind_get, Hp1, bind_lift. unfold path_exists, gets.
      cbn [the_world env_has_world]. rewrite Hcwd1. fold q.
      rewrite Ht1, Hfail, Hname, Hf1.
      replace (FS.exists_ ((q, FS.File (buffer ++ wire)) :: FS.drop q (w_fs (W s))) q)
        with true
        by (unfold FS.exists_; rewrite lookup_head, orb_true_r; reflexivity).
      replace (filesize s1 >? 0)%Z with true
        by (symmetry; rewrite Z.gtb_ltb; apply Z.ltb_lt; lia).
      replace (received_bytes s1 <? filesize s1)%Z with true
        by (symmetry; apply Z.ltb_lt; lia).
      cbn [negb andb].
      unfold try_except. rewrite bind_lift. unfold remove.
      cbn [the_world with_world env_has_world W set_W]. rewrite Hcwd1. fold q.
      rewrite Hf1, (remove_file _ _ (lookup_head q _ _)), drop_head, drop_twice.
      unfold say, lift, gui, modify.
      cbn [the_world with_world env_has_world W set_W].
      eexists. split; [reflexivity|]. cbn.
      rewrite Hg1, <- app_assoc. repeat split; auto; congruence. }
    destruct Hclean as (s' & Eclean & Ht' & Hc' & Hr' & Hz' & Hw' & Hf' & Hg').
    exists s1, s'. split; [exact Ebody|].
    split; [rewrite Hf1; apply lookup_head|].
    split; [exact Eclean|].
    split.
    { unfold receive_file. rewrite bind_modify.
      unfold try_finally, try_except. rewrite Ebody, Eclean. reflexivity. }
    repeat (split; [assumption|]).
    split; [|exact Hg'].
    rewrite Hf'. unfold FS.exists_. rewrite Hroot, lookup_drop. reflexivity.
  - intros t Hfull. unfold cleanup. rewrite bind_get.
    destruct (file_path t) as [p|]; [|exists t; auto].
    rewrite bind_lift. unfold path_exists, gets. cbv beta iota.
    replace (received_bytes t <? filesize t)%Z with false
      by (symmetry; apply Z.ltb_ge; lia).
    rewrite !andb_false_r. eexists. split; [reflexivity|]. reflexivity.
Qed.

(** C8 on a file of five declared bytes: three came with the header,
    one comes after a timeout of the socket, and the peer closes.  The
    four bytes are written, then the file is removed; and the whole
    handler, run on the header [a.txt|5|4096|] and these bytes, reports the
    connection as lost and the file as removed, and leaves the disk as it
    was. *)
Lemma partial_file_deleted_sample :
  let w := saved_world (b "l")
             [(0%Z, Silence); (0%Z, Arrive 100); (0%Z, Arrive 100)] in
  let s := single_after_header (u "a.txt") 5 (b "hel") w in
  let q := u "/home/user/received_files/a.txt" in
  ((exists s1 s',
      receive_body 4096 (set_file_handle None s) = (Ret tt, s1)
      /\ FS.lookup q (w_fs (W s1)) = Some (FS.File (b "hell"))
      /\ cleanup s1 = (Ret tt, s')
      /\ receive_file 4096 s = (Ret tt, s')
      /\ transfer_success s' = false /\ is_cancelled s' = true
      /\ received_bytes s' = 4%Z
      /\ filesize s' = 5%Z
      /\ w_wire (W s') = []
      /\ w_fs (W s') = saved_fs
      /\ FS.exists_ (w_fs (W s')) q = false
      /\ w_gui (W s') = [StConnectionLost; StIncompleteRemoved])
   /\ (forall t, (filesize t <= received_bytes t)%Z ->
                 exists t', cleanup t = (Ret tt, t') /\ w_fs (W t') = w_fs (W t)))
  /\ (let r := @run ascii_db 4096 (b "a.txt|5|4096|hel") w in
      fst r = Ret tt
      /\ transfer_success (snd r) = false
      /\ received_bytes (snd r) = 4%Z
      /\ w_fs (W (snd r)) = saved_fs
      /\ w_gui (W (snd r))
         = [StNewConnection; StReceiveStart; StConnectionLost;
            StIncompleteRemoved; StTransferCancelled; StHandlerFinished;
            OnTransferFinished]).
Proof.
  split.
  - apply (@partial_file_is_deleted 4096
             (single_after_header (u "a.txt") 5 (b "hel")
                (saved_world (b "l")
                   [(0%Z, Silence); (0%Z, Arrive 100); (0%Z, Arrive 100)]))
             (u "/home/user/received_files/a.txt")
             ((u "/home/user/received_files/a.txt", FS.File []) :: saved_fs));
      try reflexivity; cbn; lia.
  - vm_compute. repeat split.
Defined.

End C8.

(* ===================================================================== *)
(** * Following a run that returned *)
(* ===================================================================== *)

Module Inversion.
Import Py Sys Spec Logic RunFacts.

Section Rules.
Context {S : Type}.

Lemma inv_bind {A B} (m : M S A) (k : A -> M S B) (s s' : S) (r : B) :
  bind m k s = (Ret r, s') ->
  exists a s1, m s = (Ret a, s1) /\ k a s1 = (Ret r, s').
Proof.
  unfold bind. destruct (m s) as [[a|e|] s1]; try discriminate.
  intros H. exists a, s1. auto.
Qed.

Lemma inv_ret {A} (a r : A) (s s' : S) : ret a s = (Ret r, s') -> r = a /\ s' = s.
Proof. unfold ret. intros [= -> ->]. auto. Qed.

Lemma inv_raise {A} (e : exn) (r : A) (s s' : S) : raise e s = (Ret r, s') -> False.
Proof. unfold raise. discriminate. Qed.

Lemma inv_get (r s s' : S) : get s = (Ret r, s') -> r = s /\ s' = s.
Proof. unfold get. intros [= -> ->]. auto. Qed.

Lemma inv_gets {A} (f : S -> A) (r : A) (s s' : S) :
  gets f s = (Ret r, s') -> r = f s /\ s' = s.
Proof. unfold gets. intros [= <- <-]. auto. Qed.

Lemma inv_modify (f : S -> S) (r : unit) (s s' : S) :
  modify f s = (Ret r, s') -> s' = f s.
Proof. unfold modify. intros [= <-]. auto. Qed.

Lemma inv_lift `{HasWorld S} {A} (m : M world A) (r : A) (s s' : S) :
  lift m s = (Ret r, s') ->
  exists w', m (the_world s) = (Ret r, w') /\ s' = with_world w' s.
Proof.
  unfold lift. destruct (m (the_world s)) as [r1 w1]. intros [= -> <-].
  exists w1. auto.
Qed.

(** A [try] whose [except] clauses all raise again returns only when its
    body returns. *)
Lemma inv_try_raises {A} (m : M S A) (h : exn -> option (M S A)) (s s' : S) (r : A) :
  (forall e, match h e with
             | Some k => exists e', k = raise e'
             | None => True
             end) ->
  try_except m h s = (Ret r, s') -> m s = (Ret r, s').
Proof.
  unfold try_except. intros Hh. destruct (m s) as [[a|e|] s1]; auto.
  specialize (Hh e). destruct (h e) as [k|]; [|discriminate].
  destruct Hh as [e' ->]. unfold raise. discriminate.
Qed.

End Rules.

End Inversion.

Module WorldFrames.
Import Py Sys Spec Logic RunFacts.

Section Quiet.
Variable side0 : list Z * list (Z * recv_event) * bytes * list bytes * str.

Local Abbreviation quiet := (fun w : world => net_side w = side0).

Lemma quiet_gui e : stable quiet (gui e).
Proof. unfold gui. walk idtac. Qed.

Lemma quiet_abspath p : stable quiet (abspath p).
Proof. unfold abspath. walk idtac. Qed.

Lemma quiet_path_exists p : stable quiet (path_exists p).
Proof. unfold path_exists. walk idtac. Qed.

Lemma quiet_path_isdir p : stable quiet (path_isdir p).
Proof. unfold path_isdir. walk idtac. Qed.

Lemma quiet_makedirs p : stable quiet (makedirs p).
Proof.
  unfold stable, hoare, makedirs. intros w r w' Hw E.
  destruct (FS.makedirs _ _); injection E as <- <-; exact Hw.
Qed.

Lemma quiet_open_wb p : stable quiet (open_wb p).
Proof.
  unfold stable, hoare, open_wb. intros w r w' Hw E.
  destruct (FS.open_wb _ _); injection E as <- <-; exact Hw.
Qed.

Lemma quiet_remove p : stable quiet (remove p).
Proof.
  unfold stable, hoare, remove. intros w r w' Hw E.
  destruct (FS.remove _ _); injection E as <- <-; exact Hw.
Qed.

Lemma quiet_write h d : stable quiet (write h d).
Proof. unfold write. walk idtac. Qed.

Lemma quiet_is_set : stable quiet is_set.
Proof.
  unfold stable, hoare, is_set. intros w r w' Hw E.
  destruct (w_cancel w); injection E as <- <-; exact Hw.
Qed.

Lemma quiet_close_socket : stable quiet close_socket.
Proof. unfold close_socket. walk idtac. Qed.

Lemma quiet_time : stable quiet time.
Proof. unfold time. walk idtac. Qed.

Context {db : UnicodeDB}.

Lemma quiet_sanitize_path base rel : stable quiet (utils.sanitize_path base rel).
Proof.
  pose proof quiet_abspath. pose proof quiet_path_exists. pose proof quiet_makedirs.
  unfold utils.sanitize_path. walk ltac:(eauto).
Qed.

Lemma quiet_unique_name rounds base ext final counter :
  stable quiet (single_file_handler.unique_name rounds base ext final counter).
Proof.
  pose proof quiet_path_exists.
  revert final counter. induction rounds as [|rounds IH]; intros final counter;
    cbn [single_file_handler.unique_name]; walk ltac:(eauto).
Qed.

End Quiet.

(** A world computation that keeps the network side, seen from its ends. *)
Lemma kept {A} (m : M world A) (w w' : world) (r : outcome A) :
  (forall side0, stable (fun w => net_side w = side0) m) ->
  m w = (r, w') -> net_side w' = net_side w.
Proof. intros H E. exact (H (net_side w) w r w' eq_refl E). Qed.

Lemma inv_open_wb (p h : str) (w w' : world) :
  open_wb p w = (Ret h, w') ->
  exists f, FS.open_wb (w_fs w) (PosixPath.abspath (w_cwd w) p) = Some f
            /\ h = PosixPath.abspath (w_cwd w) p /\ w' = set_fs f w.
Proof.
  unfold open_wb. destruct (FS.open_wb _ _) as [f|]; [|discriminate].
  intros [= <- <-]. exists f. auto.
Qed.

Lemma inv_makedirs (p : str) (r : unit) (w w' : world) :
  makedirs p w = (Ret r, w') -> exists f, w' = set_fs f w.
Proof.
  unfold makedirs. destruct (FS.makedirs _ _) as [f|]; [|discriminate].
  intros [= <-]. exists f. auto.
Qed.

Lemma kept_sanitize_path {db : UnicodeDB} base rel w r w' :
  utils.sanitize_path base rel w = (r, w') -> net_side w' = net_side w.
Proof. apply kept. intros. apply quiet_sanitize_path. Qed.

Lemma kept_unique_name rounds base ext final counter w r w' :
  single_file_handler.unique_name rounds base ext final counter w = (r, w') ->
  net_side w' = net_side w.
Proof. apply kept. intros. apply quiet_unique_name. Qed.

End WorldFrames.
Module FolderRun.
Import Py Sys Spec Logic RunFacts Inversion HelpersFacts ReaderFacts folder_handler.

Lemma set_W_same (s : env) : set_W (W s) s = s.
Proof. destruct s. reflexivity. Qed.

(** A frame that is in the buffer is read without touching the socket. *)
Lemma read_header_ready (timeout : Z) (s : env) (token : str) (tb rest : bytes) :
  received_buffer s = tb ++ sep_byte :: rest ->
  decode tb = Some token -> ~ In sep_byte tb ->
  read_header timeout s = (Ret token, set_received_buffer rest s).
Proof.
  intros Hb Hd Hn. unfold read_header. rewrite bind_gets, Hb, bind_lift.
  rewrite (@read_header_immediate token tb rest timeout helpers.default_max_buffer
             (the_world s) Hd Hn).
  cbn [the_world with_world env_has_world]. rewrite set_W_same. reflexivity.
Qed.

Lemma open_wb_not_dir (fs fs' : FS.t) (p : str) :
  FS.open_wb fs p = Some fs' -> FS.isdir fs p = false.
Proof. unfold FS.open_wb. destruct (FS.isdir fs p); [discriminate|reflexivity]. Qed.

Lemma close_current_file_closed (s : env) :
  current_file_handle s = None -> close_current_file s = (Ret tt, s).
Proof. intros H. unfold close_current_file. rewrite bind_get, H. reflexivity. Qed.

(** Reading a field of an updated record. *)
Ltac fields :=
  cbn [the_world with_world folder_handler.env_has_world
       folder_handler.current_save_dir folder_handler.session_root_name folder_handler.received_files_base_abs folder_handler.received_bytes_total folder_handler.items_received_count folder_handler.total_expected_items folder_handler.total_expected_size folder_handler.current_file_bytes_expected folder_handler.current_file_bytes_received folder_handler.current_file_handle folder_handler.current_file_path folder_handler.current_item_path_protocol folder_handler.is_cancelled folder_handler.transfer_success folder_handler.received_buffer folder_handler.current_state folder_handler.W folder_handler.set_current_save_dir folder_handler.set_session_root_name folder_handler.set_received_files_base_abs folder_handler.set_received_bytes_total folder_handler.set_items_received_count folder_handler.set_total_expected_items folder_handler.set_total_expected_size folder_handler.set_current_file_bytes_expected folder_handler.set_current_file_bytes_received folder_handler.set_current_file_handle folder_handler.set_current_file_path folder_handler.set_current_item_path_protocol folder_handler.set_is_cancelled folder_handler.set_transfer_success folder_handler.set_received_buffer folder_handler.set_current_state folder_handler.set_W].

Tactic Notation "fields" "in" hyp(H) :=
  cbn [the_world with_world folder_handler.env_has_world
       folder_handler.current_save_dir folder_handler.session_root_name folder_handler.received_files_base_abs folder_handler.received_bytes_total folder_handler.items_received_count folder_handler.total_expected_items folder_handler.total_expected_size folder_handler.current_file_bytes_expected folder_handler.current_file_bytes_received folder_handler.current_file_handle folder_handler.current_file_path folder_handler.current_item_path_protocol folder_handler.is_cancelled folder_handler.transfer_success folder_handler.received_buffer folder_handler.current_state folder_handler.W folder_handler.set_current_save_dir folder_handler.set_session_root_name folder_handler.set_received_files_base_abs folder_handler.set_received_bytes_total folder_handler.set_items_received_count folder_handler.set_total_expected_items folder_handler.set_total_expected_size folder_handler.set_current_file_bytes_expected folder_handler.set_current_file_bytes_received folder_handler.set_current_file_handle folder_handler.set_current_file_path folder_handler.set_current_item_path_protocol folder_handler.set_is_cancelled folder_handler.set_transfer_success folder_handler.set_received_buffer folder_handler.set_current_state folder_handler.set_W] in H.

(** The steps of a run that need no case analysis. *)
Ltac run :=
  repeat (first [ rewrite bind_assoc | rewrite bind_modify | rewrite bind_ret
                | rewrite bind_get | rewrite bind_gets | rewrite bind_lift_modify ];
          fields).

Tactic Notation "run" "in" hyp(H) :=
  repeat (first [ rewrite bind_assoc in H | rewrite bind_modify in H
                | rewrite bind_ret in H | rewrite bind_get in H
                | rewrite bind_gets in H | rewrite bind_lift_modify in H ];
          fields in H).

(** One step of a run whose first call returns [E]. *)
Ltac step E := rewrite (@bind_returns _ _ _ _ _ _ _ _ E).

End FolderRun.

Module C9.
Import Py Sys Spec Logic RunFacts Inversion FSFacts WorldFrames HelpersFacts ReaderFacts FolderRun.

Section WithUnicode.
Context {db : UnicodeDB}.

Lemma empty_file_folder (rel : str) (s : folder_handler.env)
    (size_frame : str) (tb rest : bytes) (dir p : str) (w1 : world) (f : FS.t) :
  let name := if endswith N.eqb rel (u "/")
              then rstrip_while (N.eqb slash) rel else rel in
  let q := PosixPath.abspath (w_cwd w1) p in
  (length name =? 0) = false ->
  folder_handler.received_buffer s = tb ++ sep_byte :: rest ->
  decode tb = Some size_frame -> ~ In sep_byte tb ->
  int size_frame = Some 0%Z ->
  folder_handler.current_save_dir s = Some dir ->
  folder_handler.current_file_handle s = None ->
  utils.sanitize_path dir name (folder_handler.W s) = (Ret p, w1) ->
  str_eqb (PosixPath.normpath p) (PosixPath.normpath dir) = false ->
  FS.exists_ (w_fs w1) (PosixPath.abspath (w_cwd w1) (PosixPath.dirname p)) = true ->
  FS.exists_ (w_fs w1) q = false ->
  FS.open_wb (w_fs w1) q = Some f ->
  exists s',
    folder_handler.on_file rel s = (Ret tt, s')
    /\ folder_handler.current_state s' = folder_handler.STATE_WAITING_FOR_ITEM_HEADER
    /\ folder_handler.items_received_count s'
       = (folder_handler.items_received_count s + 1)%Z
    /\ folder_handler.current_file_handle s' = None
    /\ folder_handler.received_bytes_total s' = folder_handler.received_bytes_total s
    /\ folder_handler.received_buffer s' = rest
    /\ net_side (folder_handler.W s') = net_side (folder_handler.W s)
    /\ FS.lookup q (w_fs (folder_handler.W s')) = Some (FS.File []).
Proof.
  intros name q Hname Hb Hd Hn Hint Hdir Hclosed Hpath Hneq Hparent Hnew Hopen.
  pose proof (open_wb_not_dir _ _ Hopen) as Hfile.
  pose proof (open_wb_creates _ _ Hopen) as Hcreated.
  pose proof (kept_sanitize_path _ _ _ Hpath) as Hside.
  unfold folder_handler.on_file. fold name.
  destruct name as [|c0 name'] eqn:Ename; [discriminate Hname|].
  rewrite (@bind_returns _ _ _ _ _ _ _ _
             (@FolderRun.read_header_ready helpers.default_timeout s _ _ _ Hb Hd Hn)).
  rewrite Hint.
  erewrite bind_returns by reflexivity.
  rewrite !bind_modify.
  eexists. split.
  - apply try_except_returns.
    rewrite bind_get. fields. rewrite Hdir. unfold folder_handler.required_dir.
    rewrite bind_ret, bind_lift. fields. rewrite Hpath, Hneq, bind_ret.
    rewrite bind_lift. unfold path_exists at 1, gets. fields. rewrite Hparent.
    rewrite andb_false_r, bind_ret.
    rewrite bind_lift. unfold path_isdir at 1, gets. fields. fold q.
    rewrite Hfile, bind_ret.
    rewrite bind_lift. unfold path_exists at 1, gets. fields. fold q.
    rewrite Hnew, bind_ret, bind_modify.
    erewrite bind_returns by (apply close_current_file_closed; exact Hclosed).
    rewrite bind_get. fields. unfold folder_handler.required. rewrite bind_ret.
    rewrite bind_lift. unfold path_isdir at 1, gets. fields. fold q.
    rewrite Hfile, bind_ret. change (0 =? 0)%Z with true. cbv iota.
    apply try_except_returns.
    rewrite bind_lift. unfold open_wb. fields. fold q. rewrite Hopen.
    unfold folder_handler.count_item. rewrite bind_modify.
    unfold folder_handler.say, gui. rewrite bind_lift_modify.
    reflexivity.
  - fields. repeat (split; [first [reflexivity | exact Hclosed]|]).
    split; [exact Hside|exact Hcreated].
Qed.

End WithUnicode.

(** The single-file receiver on a declared size of 0. *)
Lemma empty_file_single (rbs : Z) (s : single_file_handler.env) (path : str)
    (f : FS.t) :
  let q := PosixPath.abspath (w_cwd (single_file_handler.W s)) path in
  single_file_handler.file_path s = Some path ->
  single_file_handler.filesize s = 0%Z ->
  FS.open_wb (w_fs (single_file_handler.W s)) q = Some f ->
  exists s',
    single_file_handler.receive_file rbs s = (Ret tt, s')
    /\ single_file_handler.transfer_success s' = true
    /\ single_file_handler.is_cancelled s' = single_file_handler.is_cancelled s
    /\ net_side (single_file_handler.W s') = net_side (single_file_handler.W s)
    /\ FS.lookup q (w_fs (single_file_handler.W s')) = Some (FS.File []).
Proof.
  intros q Hpath Hsize Hopen.
  pose proof (open_wb_creates _ _ Hopen) as Hcreated.
  unfold single_file_handler.receive_file. rewrite bind_modify.
  unfold try_finally, try_except.
  unfold single_file_handler.receive_body at 1. rewrite bind_get.
  cbn [single_file_handler.file_path single_file_handler.filesize
       single_file_handler.set_file_handle].
  rewrite Hpath, Hsize. change (0 =? 0)%Z with true. cbv iota.
  unfold try_except. rewrite bind_lift. unfold open_wb.
  cbn [the_world with_world single_file_handler.env_has_world
       single_file_handler.W single_file_handler.set_file_handle].
  fold q. rewrite Hopen. rewrite bind_modify.
  unfold single_file_handler.say, gui, lift, modify.
  cbn [the_world with_world single_file_handler.env_has_world
       single_file_handler.W single_file_handler.set_file_handle
       single_file_handler.set_transfer_success single_file_handler.set_W].
  unfold single_file_handler.cleanup. rewrite bind_get.
  cbn [single_file_handler.file_path single_file_handler.set_W
       single_file_handler.set_transfer_success single_file_handler.set_file_handle
       single_file_handler.transfer_success].
  rewrite Hpath, bind_lift. unfold path_exists, gets. cbn [negb andb].
  eexists. split; [reflexivity|].
  cbn. repeat split. exact Hcreated.
Qed.

Section Claim.
Context {db : UnicodeDB}.


End Claim.


End C9.

(* ===================================================================== *)
(** * The end of a folder transfer *)
(* ===================================================================== *)

Module EndFacts.
Import Py Sys Spec Logic RunFacts FSFacts WorldFrames HelpersFacts ReaderFacts
       FolderRun folder_handler.

(** The check of END_TRANSFER, as a proposition. *)
Lemma verification_spec (s : env) :
  verification s = true <->
  exists items size,
    total_expected_items s = Some items /\ total_expected_size s = Some size
    /\ (0 <= items)%Z /\ (0 <= size)%Z
    /\ items_received_count s = items /\ received_bytes_total s = size.
Proof.
  unfold verification, unknown, eq_expected.
  destruct (total_expected_items s) as [items|], (total_expected_size s) as [size|];
    cbn.
  - rewrite negb_true_iff, !orb_false_iff, !negb_false_iff.
    rewrite !Z.ltb_ge, !Z.eqb_eq. split.
    + intros [[Hi Hs] [Hc Hb]]. exists items, size. repeat split; assumption.
    + intros (i & z & [= <-] & [= <-] & Hi & Hs & Hc & Hb). repeat split; assumption.
  - split; [destruct (items <? 0)%Z; discriminate|].
    intros (i & z & _ & H & _). discriminate H.
  - split; [discriminate|]. intros (i & z & H & _). discriminate H.
  - split; [discriminate|]. intros (i & z & H & _). discriminate H.
Qed.

Section WithUnicode.
Context {db : UnicodeDB}.

(** END_TRANSFER: the state moves on and [transfer_success] is the check
    on the counters as they are; nothing is sent or read. *)
Lemma on_end_transfer_runs (s : env) :
  exists s',
    on_end_transfer s = (Ret tt, s')
    /\ current_state s' = STATE_WAITING_FOR_HANDSHAKE_REQUEST
    /\ transfer_success s' = verification s
    /\ received_buffer s' = received_buffer s
    /\ items_received_count s' = items_received_count s
    /\ received_bytes_total s' = received_bytes_total s
    /\ total_expected_items s' = total_expected_items s
    /\ total_expected_size s' = total_expected_size s
    /\ w_sendok (W s') = w_sendok (W s)
    /\ w_cancel (W s') = w_cancel (W s)
    /\ net_side (W s') = net_side (W s).
Proof.
  unfold on_end_transfer, verification, say, close_current_file, gui. run.
  destruct (current_file_handle s); run;
    (destruct (unknown (total_expected_items s) || unknown (total_expected_size s)
               || (negb (eq_expected (items_received_count s)
                                     (total_expected_items s))
                   || negb (eq_expected (received_bytes_total s)
                                        (total_expected_size s))));
     run;
     [ destruct (total_expected_items s) as [items|] eqn:Ei;
       [ destruct (total_expected_size s) as [size|] eqn:Es;
         [ destruct ((items >=? 0)%Z && (size >=? 0)%Z) |] |] |];
     run;
     (eexists; split; [reflexivity|]); fields; repeat split; assumption).
Qed.

(** The prefix of a header is not the request of the handshake. *)
Lemma prefix_is_no_request (s : env) :
  is_handshake_request config.FOLDER_PROTOCOL_PREFIX s = (Ret false, s).
Proof. reflexivity. Qed.

(** The round of the main loop that reads an END_TRANSFER header. *)
Lemma end_transfer_round (rbs : Z) (s : env) (rest : bytes) :
  current_state s = STATE_WAITING_FOR_ITEM_HEADER ->
  received_buffer s = b "FDR_V1|END_TRANSFER|" ++ rest ->
  exists s',
    loop_body rbs s = (Ret tt, s')
    /\ current_state s' = STATE_WAITING_FOR_HANDSHAKE_REQUEST
    /\ transfer_success s' = verification s
    /\ received_buffer s' = rest
    /\ w_sendok (W s') = w_sendok (W s)
    /\ w_cancel (W s') = w_cancel (W s)
    /\ net_side (W s') = net_side (W s).
Proof.
  intros Hstate Hb.
  assert (Hb1 : received_buffer s
                = b "FDR_V1" ++ sep_byte :: (b "END_TRANSFER|" ++ rest)) by exact Hb.
  assert (Hsep1 : ~ In sep_byte (b "FDR_V1")).
  { cbn. intuition discriminate. }
  assert (Hsep2 : ~ In sep_byte (b "END_TRANSFER")).
  { cbn. intuition discriminate. }
  pose proof (@read_header_ready config.DISCOVERY_TIMEOUT s (u "FDR_V1")
                (b "FDR_V1") _ Hb1 eq_refl Hsep1) as E1.
  pose proof (@read_header_ready helpers.default_timeout
                (set_received_buffer (b "END_TRANSFER|" ++ rest) s)
                (u "END_TRANSFER") (b "END_TRANSFER") rest eq_refl eq_refl Hsep2)
    as E2.
  destruct (on_end_transfer_runs
              (set_received_buffer rest
                 (set_received_buffer (b "END_TRANSFER|" ++ rest) s)))
    as (s' & E3 & H1 & H2 & H3 & H4 & H5 & H6 & H7 & H8 & H9 & H10).
  exists s'. split.
  - unfold loop_body. apply try_except_returns.
    unfold dispatch. rewrite bind_get, Hstate. unfold on_item_header.
    step E1. step (prefix_is_no_request
                     (set_received_buffer (b "END_TRANSFER|" ++ rest) s)).
    cbv iota.
    replace (str_eqb (u "FDR_V1") config.FOLDER_PROTOCOL_PREFIX) with true
      by reflexivity.
    cbn [negb]. cbv iota. step E2.
    replace (str_eqb (u "END_TRANSFER") config.FOLDER_HEADER_TYPE_END_TRANSFER)
      with true by reflexivity.
    cbv iota. exact E3.
  - fields in H2. fields in H3. fields in H8. fields in H9. fields in H10.
    unfold verification in *. fields in H2. auto 10.
Qed.

(** The round of the main loop in the state of the handshake: one
    response is sent, by the value of [transfer_success], and nothing is
    read. *)
Lemma handshake_round (rbs : Z) (s : env) :
  current_state s = STATE_WAITING_FOR_HANDSHAKE_REQUEST ->
  exists s',
    loop_body rbs s = (Ret tt, s')
    /\ current_state s' = STATE_HANDSHAKE_COMPLETE
    /\ w_recv_log (W s') = w_recv_log (W s)
    /\ w_wire (W s') = w_wire (W s)
    /\ w_sent (W s')
       = (if hd true (w_sendok (W s))
          then w_sent (W s)
               ++ [if transfer_success s then config.HANDSHAKE_COMPLETE_OK_SIGNAL
                   else config.HANDSHAKE_ERROR_SIGNAL]
          else w_sent (W s)).
Proof.
  intros Hstate. unfold loop_body, dispatch, try_except.
  rewrite bind_get, Hstate. unfold on_handshake. rewrite bind_get, bind_lift.
  unfold handshake.perform_folder_handshake_server, try_except, gui, sendall.
  fields.
  destruct (transfer_success s); rewrite ?bind_modify;
    cbn [w_sendok add_gui];
    (destruct (w_sendok (W s)) as [|[|] oks];
     (eexists; split; [reflexivity|]); fields; cbn; repeat split).
Qed.

End WithUnicode.
End EndFacts.

Module C1.
Import Py Sys Spec Logic RunFacts FolderRun EndFacts folder_handler.

Section Claim.
Context {db : UnicodeDB}.

(** C1: on an END_TRANSFER header the folder receiver sets
    [transfer_success] to the check that the expected count and size are
    known and not negative and equal the count of items and the total of
    bytes received; the round after it sends TRANSFER_COMPLETE_OK when the
    check holds and TRANSFER_ERROR when it does not (when [sendall]
    succeeds), and nothing before. *)
Theorem end_transfer_verification (rbs : Z) (s : env) (rest : bytes) :
  current_state s = STATE_WAITING_FOR_ITEM_HEADER ->
  received_buffer s = b "FDR_V1|END_TRANSFER|" ++ rest ->
  (verification s = true <->
   exists items size,
     total_expected_items s = Some items /\ total_expected_size s = Some size
     /\ (0 <= items)%Z /\ (0 <= size)%Z
     /\ items_received_count s = items /\ received_bytes_total s = size)
  /\ exists s1 s2,
       loop_body rbs s = (Ret tt, s1)
       /\ transfer_success s1 = verification s
       /\ w_sent (W s1) = w_sent (W s)
       /\ loop_body rbs s1 = (Ret tt, s2)
       /\ current_state s2 = STATE_HANDSHAKE_COMPLETE
       /\ (hd true (w_sendok (W s)) = true ->
           w_sent (W s2)
           = w_sent (W s) ++ [if verification s then b "TRANSFER_COMPLETE_OK"
                              else b "TRANSFER_ERROR"]).
Proof.
  intros Hstate Hb. split; [apply verification_spec|].
  destruct (@end_transfer_round db rbs s rest Hstate Hb)
    as (s1 & E1 & Hs1 & Hok & _ & Hsend & _ & Hside).
  destruct (@handshake_round db rbs s1 Hs1) as (s2 & E2 & Hs2 & _ & _ & Hsent).
  exists s1, s2. unfold net_side in Hside.
  assert (Hsent1 : w_sent (W s1) = w_sent (W s)) by congruence.
  repeat split; auto.
  intros Hcan. rewrite Hsent, Hsend, Hcan, Hok, Hsent1. reflexivity.
Qed.

End Claim.

(** C1 on a session of one item and no bytes: the item has come, and the
    response is TRANSFER_COMPLETE_OK. *)
Lemma end_transfer_sample :
  exists s1 s2,
    loop_body 4096
      (set_items_received_count 1
         (folder_in_session (b "FDR_V1|END_TRANSFER|") (saved_world [] [])))
    = (Ret tt, s1)
    /\ transfer_success s1 = true
    /\ loop_body 4096 s1 = (Ret tt, s2)
    /\ w_sent (W s2) = [b "TRANSFER_COMPLETE_OK"].
Proof.
  destruct (@end_transfer_verification ascii_db 4096
              (set_items_received_count 1
                 (folder_in_session (b "FDR_V1|END_TRANSFER|") (saved_world [] [])))
              [] eq_refl eq_refl)
    as (_ & s1 & s2 & E1 & Hok & _ & E2 & _ & Hsent).
  exists s1, s2. repeat split; auto.
Defined.

End C1.

(* ===================================================================== *)
(** * The response of the handshake and the request *)
(* ===================================================================== *)

Module C4.
Import Py Sys Spec folder_handler.

(** C4 fails on the code: a sender whose whole stream is the root folder,
    the totals and END_TRANSFER, and who never sends IS_TRANSFER_COMPLETE?,
    gets the response all the same; the receiver has not called [recv]
    once.  The docstring of [perform_folder_handshake_server] leaves the
    receipt of the request to the caller, which does not read it. *)
Lemma response_without_request :
  let stream := b "FDR_V1|FOLDER|docs/|FDR_V1|TOTAL_INFO|1,0|FDR_V1|END_TRANSFER|" in
  let r := @run ascii_db 4096 stream (world_on [] []) in
  fst r = Ret tt
  /\ transfer_success (snd r) = true
  /\ w_sent (W (snd r)) = [b "TRANSFER_COMPLETE_OK"]
  /\ w_recv_log (W (snd r)) = []
  /\ find Byte.eqb stream (b "IS_TRANSFER_COMPLETE?") = None.
Proof. vm_compute. repeat split. Qed.

End C4.

(* ===================================================================== *)
(** * A session without TOTAL_INFO *)
(* ===================================================================== *)

Module TotalsFacts.
Import Py Sys Spec Logic RunFacts FSFacts WorldFrames HelpersFacts ReaderFacts
       FolderRun FolderWalk EndFacts folder_handler.

Section WithUnicode.
Context {db : UnicodeDB}.

Local Abbreviation missing := (fun s : env => no_totals s /\ past_totals s).

Lemma missing_data_loop rounds h rbs : stable missing (data_loop rounds h rbs).
Proof.
  unfold no_totals, past_totals.
  induction rounds as [|rounds IH]; cbn [data_loop].
  - walk idtac.
  - walk ltac:(through).
Qed.

(** Once the totals are recorded as missing they stay so, whatever the
    rounds of the main loop do. *)
Lemma missing_loop_body rbs : stable missing (loop_body rbs).
Proof.
  pose proof missing_data_loop as Hdata.
  assert (Hitem : stable missing on_item_header)
    by (unfold no_totals, past_totals in *; through).
  assert (Hfile : forall h, stable missing (on_file_data h rbs))
    by (unfold no_totals, past_totals in *; intros; through).
  assert (Hshake : stable missing on_handshake)
    by (unfold no_totals, past_totals in *; through).
  assert (Hdispatch : stable missing (dispatch rbs)).
  { intros s r s' HJ E. unfold dispatch in E. rewrite bind_get in E.
    pose proof (proj2 HJ) as Hpast. unfold past_totals in Hpast.
    destruct (current_state s) eqn:Es; try contradiction.
    - exact (Hitem s r s' HJ E).
    - destruct (current_file_handle s) as [h|].
      + exact (Hfile h s r s' HJ E).
      + injection E as <- <-. exact HJ.
    - exact (Hshake s r s' HJ E).
    - injection E as <- <-. exact HJ. }
  unfold loop_body. unfold no_totals, past_totals in *. walk ltac:(through).
Qed.

(** The round that finds an item header where TOTAL_INFO should be: the
    header is put back, the totals are recorded as missing. *)
Lemma item_header_for_totals (rbs : Z) (s : env) (type : str) (tb rest : bytes) :
  current_state s = STATE_WAITING_FOR_TOTAL_INFO_HEADER ->
  In (type, tb) [(u "FOLDER", b "FOLDER"); (u "FILE", b "FILE");
                 (u "END_TRANSFER", b "END_TRANSFER")] ->
  received_buffer s = b "FDR_V1|" ++ tb ++ sep_byte :: rest ->
  exists s',
    loop_body rbs s = (Ret tt, s')
    /\ current_state s' = STATE_WAITING_FOR_ITEM_HEADER
    /\ received_buffer s' = received_buffer s
    /\ no_totals s'
    /\ items_received_count s' = items_received_count s
    /\ received_bytes_total s' = received_bytes_total s
    /\ w_sendok (W s') = w_sendok (W s)
    /\ net_side (W s') = net_side (W s).
Proof.
  intros Hstate Hin Hb.
  assert (Hb1 : received_buffer s
                = b "FDR_V1" ++ sep_byte :: (tb ++ sep_byte :: rest)) by exact Hb.
  assert (Hsep1 : ~ In sep_byte (b "FDR_V1")).
  { cbn. intuition discriminate. }
  pose proof (@read_header_ready config.DISCOVERY_TIMEOUT s (u "FDR_V1")
                (b "FDR_V1") _ Hb1 eq_refl Hsep1) as E1.
  assert (Hd : decode tb = Some type /\ ~ In sep_byte tb
               /\ encode type = Some tb
               /\ str_eqb type config.FOLDER_HEADER_TYPE_TOTAL_INFO = false
               /\ (str_eqb type config.FOLDER_HEADER_TYPE_FOLDER
                   || str_eqb type config.FOLDER_HEADER_TYPE_FILE
                   || str_eqb type config.FOLDER_HEADER_TYPE_END_TRANSFER) = true).
  { destruct Hin as [[= <- <-]|[[= <- <-]|[[= <- <-]|[]]]];
      (repeat split; try reflexivity); cbn; intuition discriminate. }
  destruct Hd as (Hd & Hsep2 & Henc & Hno & Hyes).
  pose proof (@read_header_ready helpers.default_timeout
                (set_received_buffer (tb ++ sep_byte :: rest) s)
                type tb rest eq_refl Hd Hsep2) as E2.
  eexists. split.
  - unfold loop_body. apply try_except_returns.
    unfold dispatch. rewrite bind_get, Hstate. unfold on_total_info_header.
    step E1. step (prefix_is_no_request
                     (set_received_buffer (tb ++ sep_byte :: rest) s)).
    cbv iota.
    replace (str_eqb (u "FDR_V1") config.FOLDER_PROTOCOL_PREFIX) with true
      by reflexivity.
    cbn [negb]. cbv iota. step E2. rewrite Hno, Hyes.
    unfold say, gui, encode_utf8. run. rewrite Henc. run.
    reflexivity.
  - fields. unfold no_totals. fields. rewrite Hb. repeat split.
Qed.

End WithUnicode.
End TotalsFacts.

Module C5.
Import Py Sys Spec Logic RunFacts FolderRun EndFacts TotalsFacts folder_handler.

Section Claim.
Context {db : UnicodeDB}.

(** C5: a FOLDER, FILE or END_TRANSFER header where TOTAL_INFO is awaited
    does not fail the round: the expected count and size are recorded as
    missing (-1), the header is back in the buffer and the state is the one
    of item headers.  The record stays through every later round, and with
    it an END_TRANSFER header gives a failed check and the response
    TRANSFER_ERROR. *)
Theorem missing_totals_fail_the_check (rbs : Z) (s : env) (type : str)
    (tb rest : bytes) :
  current_state s = STATE_WAITING_FOR_TOTAL_INFO_HEADER ->
  In (type, tb) [(u "FOLDER", b "FOLDER"); (u "FILE", b "FILE");
                 (u "END_TRANSFER", b "END_TRANSFER")] ->
  received_buffer s = b "FDR_V1|" ++ tb ++ sep_byte :: rest ->
  (exists s1,
     loop_body rbs s = (Ret tt, s1)
     /\ current_state s1 = STATE_WAITING_FOR_ITEM_HEADER
     /\ received_buffer s1 = received_buffer s
     /\ no_totals s1 /\ past_totals s1
     /\ w_sent (W s1) = w_sent (W s))
  /\ (forall t r t',
        no_totals t /\ past_totals t -> loop_body rbs t = (r, t') ->
        no_totals t' /\ past_totals t')
  /\ (forall t rest',
        no_totals t ->
        current_state t = STATE_WAITING_FOR_ITEM_HEADER ->
        received_buffer t = b "FDR_V1|END_TRANSFER|" ++ rest' ->
        exists t1 t2,
          loop_body rbs t = (Ret tt, t1)
          /\ transfer_success t1 = false
          /\ loop_body rbs t1 = (Ret tt, t2)
          /\ current_state t2 = STATE_HANDSHAKE_COMPLETE
          /\ (hd true (w_sendok (W t)) = true ->
              w_sent (W t2) = w_sent (W t) ++ [b "TRANSFER_ERROR"])).
Proof.
  intros Hstate Hin Hb. split; [|split].
  - destruct (@item_header_for_totals db rbs s type tb rest Hstate Hin Hb)
      as (s1 & E & Hs1 & Hb1 & Hno & _ & _ & _ & Hside).
    exists s1. unfold net_side in Hside. repeat split; try assumption.
    + apply Hno.
    + apply Hno.
    + unfold past_totals. rewrite Hs1. exact I.
    + congruence.
  - intros t r t' HJ E. exact (@missing_loop_body db rbs t r t' HJ E).
  - intros t rest' Hno Ht Hbt.
    assert (Hfail : verification t = false).
    { destruct Hno as [Hi Hz]. unfold verification. rewrite Hi. reflexivity. }
    destruct (@end_transfer_round db rbs t rest' Ht Hbt)
      as (t1 & E1 & Ht1 & Hok & _ & Hsend & _ & Hside).
    destruct (@handshake_round db rbs t1 Ht1) as (t2 & E2 & Ht2 & _ & _ & Hsent).
    exists t1, t2. unfold net_side in Hside.
    assert (Hsent1 : w_sent (W t1) = w_sent (W t)) by congruence.
    repeat split; try assumption; [congruence|].
    intros Hcan. rewrite Hsent, Hsend, Hcan, Hok, Hfail, Hsent1. reflexivity.
Qed.

End Claim.

(** C5 on a session whose sender goes from the root folder to
    END_TRANSFER: three rounds, and the response is TRANSFER_ERROR. *)
Lemma missing_totals_sample :
  exists s1 s2 s3,
    loop_body 4096
      (set_current_state STATE_WAITING_FOR_TOTAL_INFO_HEADER
         (folder_in_session (b "FDR_V1|END_TRANSFER|") (saved_world [] [])))
    = (Ret tt, s1)
    /\ current_state s1 = STATE_WAITING_FOR_ITEM_HEADER
    /\ loop_body 4096 s1 = (Ret tt, s2)
    /\ transfer_success s2 = false
    /\ loop_body 4096 s2 = (Ret tt, s3)
    /\ w_sent (W s3) = [b "TRANSFER_ERROR"].
Proof.
  destruct (@missing_totals_fail_the_check ascii_db 4096
              (set_current_state STATE_WAITING_FOR_TOTAL_INFO_HEADER
                 (folder_in_session (b "FDR_V1|END_TRANSFER|") (saved_world [] [])))
              (u "END_TRANSFER") (b "END_TRANSFER") [] eq_refl
              (or_intror (or_intror (or_introl eq_refl))) eq_refl)
    as ((s1 & E1 & Hs1 & Hb1 & Hno & _ & Hsent1) & _ & Hend).
  destruct (Hend s1 [] Hno Hs1 Hb1) as (s2 & s3 & E2 & Hfail & E3 & _ & Hsent).
  exists s1, s2, s3. repeat split; try assumption.
  rewrite Hsent.
  - rewrite Hsent1. reflexivity.
  - assert (Hok : w_sendok (W s1) = []).
    { pose proof E1 as E. vm_compute in E. injection E as <-. reflexivity. }
    rewrite Hok. reflexivity.
Defined.

End C5.

(* ===================================================================== *)
(** * The total of bytes of a folder session *)
(* ===================================================================== *)

Module TotalFacts.
Import Py Sys Spec Logic RunFacts FolderRun FolderWalk folder_handler.

Section WithUnicode.
Context {db : UnicodeDB}.
Variable c : Z.

(** Outside the state of file data: the total is [c], and a file that
    starts has no byte yet. *)
Local Abbreviation idle :=
  (fun s : env => received_bytes_total s = c
                  /\ (current_state s = STATE_RECEIVING_FILE_DATA ->
                      current_file_bytes_received s = 0%Z)).

Local Abbreviation zeroed :=
  (fun s : env => received_bytes_total s = c
                  /\ current_file_bytes_received s = 0%Z).

Lemma idle_file p : stable idle (on_file p).
Proof.
  unfold on_file.
  destruct (if endswith N.eqb p (u "/") then rstrip_while (N.eqb slash) p else p);
    [walk idtac|].
  apply stable_bind; [through|intros seg].
  apply stable_bind; [walk ltac:(through)|intros size].
  apply hoare_bind with (Q1 := zeroed).
  - apply hoare_modify. side.
  - intros _. apply hoare_conseq with (P' := zeroed) (Q' := zeroed).
    + as_stable. walk ltac:(through).
    + auto.
    + side.
  - side.
Qed.

(** A round that does not start in the state of file data leaves the
    total as it is. *)
Lemma idle_round (rbs : Z) (s s' : env) (r : outcome unit) :
  current_state s <> STATE_RECEIVING_FILE_DATA ->
  received_bytes_total s = c ->
  loop_body rbs s = (r, s') -> idle s'.
Proof.
  intros Hstate Htotal.
  pose proof idle_file as Hfile.
  assert (Hroot : stable idle on_root_folder_header) by through.
  assert (Htotals : stable idle on_total_info_header) by through.
  assert (Hitem : stable idle on_item_header) by through.
  assert (Hshake : stable idle on_handshake) by through.
  assert (Hidle : idle s) by (split; [exact Htotal|intros H; contradiction]).
  intros E.
  assert (Hd : hoare (fun t => t = s) (dispatch rbs) idle).
  { intros t r1 t1 -> E1. unfold dispatch in E1. rewrite bind_get in E1.
    destruct (current_state s) eqn:Es; try contradiction.
    - exact (Hroot s r1 t1 Hidle E1).
    - exact (Htotals s r1 t1 Hidle E1).
    - exact (Hitem s r1 t1 Hidle E1).
    - exact (Hshake s r1 t1 Hidle E1).
    - injection E1 as <- <-. exact Hidle. }
  unfold loop_body in E.
  eapply (@hoare_try_except env unit (fun t => t = s) idle);
    [exact Hd| |reflexivity|exact E].
  intros e. cbv beta. walk_handler ltac:(through).
Qed.

Variable e : Z.

(** In the state of file data: the total is [c] and the bytes of the file
    of declared size [e]. *)
Local Abbreviation filling :=
  (fun s : env => current_state s = STATE_RECEIVING_FILE_DATA
                  /\ current_file_bytes_expected s = e
                  /\ received_bytes_total s = (c + current_file_bytes_received s)%Z).

(** The file is complete: the total is [c] and its declared size. *)
Local Abbreviation filled :=
  (fun s : env => (current_state s = STATE_RECEIVING_FILE_DATA
                   \/ current_state s = STATE_WAITING_FOR_ITEM_HEADER)
                  /\ current_file_bytes_expected s = e
                  /\ current_file_bytes_received s = e
                  /\ received_bytes_total s = (c + e)%Z).

Local Abbreviation after_data :=
  (fun s : env => filling s
                  \/ (current_state s = STATE_WAITING_FOR_ITEM_HEADER
                      /\ received_bytes_total s = (c + e)%Z)).

Lemma filling_take h k : stable filling (take_from_buffer h k).
Proof.
  intros s r s' (Hs & He & Ht) E. unfold take_from_buffer in E.
  rewrite bind_get in E.
  destruct (len (received_buffer s) >? 0)%Z.
  - destruct (Z.min (len (received_buffer s)) k >? 0)%Z.
    + unfold write in E. run in E. injection E as <- <-. fields.
      repeat split; auto. lia.
    + run in E. injection E as <- <-. auto.
  - injection E as <- <-. auto.
Qed.

Lemma filling_data_loop rounds h rbs : stable filling (data_loop rounds h rbs).
Proof.
  pose proof filling_take.
  induction rounds as [|rounds IH]; cbn [data_loop].
  - walk idtac.
  - walk ltac:(through).
Qed.

Lemma filling_file_data h rbs : hoare filling (on_file_data h rbs) after_data.
Proof.
  intros s r s' Hs E. unfold on_file_data in E. rewrite bind_gets in E.
  unfold bind at 1 in E.
  destruct (data_loop (S (length (w_net (W s)))) h rbs s) as [[[]|x|] s1] eqn:Ed;
    pose proof (@filling_data_loop _ h rbs s _ s1 Hs Ed) as H1.
  2,3: injection E as <- <-; left; exact H1.
  rewrite bind_get in E.
  destruct (current_file_bytes_received s1 =? current_file_bytes_expected s1)%Z
    eqn:Eq.
  - apply Z.eqb_eq in Eq.
    assert (Hdone : stable filled
                      (close_current_file ;; say StFileDone ;;
                       modify (set_current_state STATE_WAITING_FOR_ITEM_HEADER)))
      by (walk ltac:(through)).
    assert (Hf : filled s1).
    { destruct H1 as (Hs1 & He1 & Ht1). repeat split; auto; try lia. }
    destruct (Hdone s1 r s' Hf E) as ([Hst|Hst] & He' & Hr' & Ht').
    + left. repeat split; auto. lia.
    + right. auto.
  - injection E as <- <-. left. exact H1.
Qed.

(** A round in the state of file data: the file goes on, or it is
    complete and the total has its declared size more. *)
Lemma filling_round (rbs : Z) : hoare filling (loop_body rbs) after_data.
Proof.
  unfold loop_body. apply hoare_try_except.
  - intros s r s' Hs E. unfold dispatch in E. rewrite bind_get in E.
    destruct Hs as (Hs & He & Ht). rewrite Hs in E.
    destruct (current_file_handle s) as [h|].
    + exact (@filling_file_data h rbs s r s' (conj Hs (conj He Ht)) E).
    + injection E as <- <-. left. auto.
  - intros x. cbv beta. walk_handler ltac:(through).
Qed.

End WithUnicode.

Lemma state_eqb_eq (x y : state) : state_eqb x y = true <-> x = y.
Proof. destruct x, y; cbn; split; intros H; try reflexivity; discriminate H. Qed.

Lemma state_eqb_neq (x y : state) : state_eqb x y = false <-> x <> y.
Proof.
  destruct (state_eqb x y) eqn:E.
  - apply state_eqb_eq in E. split; [discriminate|contradiction].
  - split; [|reflexivity]. intros _ H. apply state_eqb_eq in H. congruence.
Qed.

Lemma sum_sizes_app (l1 l2 : list Z) :
  sum_sizes (l1 ++ l2) = (sum_sizes l1 + sum_sizes l2)%Z.
Proof.
  unfold sum_sizes. induction l1 as [|x l1 IH]; cbn; [reflexivity|].
  rewrite IH. lia.
Qed.

Section Sessions.
Context {db : UnicodeDB}.
Variables (rbs : Z) (s0 : env).
Hypothesis Hzero : received_bytes_total s0 = 0%Z.
Hypothesis Hfirst : current_state s0 = STATE_WAITING_FOR_ROOT_FOLDER_HEADER.

(** The total is the sizes of the files completed and the bytes of the
    file that is being received. *)
Lemma session_total (done : list Z) (s : env) :
  session rbs s0 done s ->
  received_bytes_total s = (sum_sizes done + pending s)%Z.
Proof.
  induction 1 as [|done s s' c Hs IH E|done s s' r Hs IH E].
  - unfold pending. rewrite Hzero, Hfirst. reflexivity.
  - apply Inversion.inv_lift in E. destruct E as (w' & _ & ->).
    unfold pending in *. fields. exact IH.
  - rewrite sum_sizes_app. unfold pending, completed in *.
    destruct (state_eqb (current_state s) STATE_RECEIVING_FILE_DATA) eqn:Es.
    + apply state_eqb_eq in Es.
      destruct (@filling_round db (sum_sizes done) (current_file_bytes_expected s)
                  rbs s r s' (conj Es (conj eq_refl IH)) E)
        as [(Hs' & He' & Ht')|(Hs' & Ht')]; rewrite Hs'; cbn; lia.
    + apply state_eqb_neq in Es.
      destruct (@idle_round db (sum_sizes done) rbs s s' r Es ltac:(lia) E)
        as (Ht' & Hr').
      cbn [andb sum_sizes fold_right].
      destruct (state_eqb (current_state s') STATE_RECEIVING_FILE_DATA) eqn:Es'.
      * apply state_eqb_eq in Es'. rewrite (Hr' Es'). lia.
      * lia.
Qed.

End Sessions.

Section Loop.
Context {db : UnicodeDB}.
Variables (rbs : Z) (s0 : env).

(** What the main loop does is a session. *)
Lemma main_loop_session (rounds : nat) :
  forall (done : list Z) (s s' : env) (r : outcome unit),
    session rbs s0 done s ->
    main_loop rounds rbs s = (r, s') ->
    exists done', session rbs s0 done' s'.
Proof.
  induction rounds as [|rounds IH]; intros done s s' r Hs E; cbn [main_loop] in E.
  - injection E as <- <-. eauto.
  - rewrite bind_lift in E.
    destruct (is_set_polled (the_world s)) as (c & w' & Ec & _). rewrite Ec in E.
    assert (Hs1 : session rbs s0 done (with_world w' s)).
    { apply session_poll with (s := s) (c := c); [exact Hs|].
      unfold lift. rewrite Ec. reflexivity. }
    destruct c; [injection E as <- <-; eauto|].
    rewrite bind_get in E.
    destruct (state_eqb (current_state (with_world w' s)) STATE_HANDSHAKE_COMPLETE);
      [injection E as <- <-; eauto|].
    unfold bind in E.
    destruct (loop_body rbs (with_world w' s)) as [[[]|x|] s1] eqn:El;
      pose proof (session_round Hs1 El) as Hs2.
    + exact (IH _ _ _ _ Hs2 E).
    + injection E as <- <-. eauto.
    + injection E as <- <-. eauto.
Qed.

End Loop.
End TotalFacts.

Module C6.
Import Py Sys Spec Logic RunFacts FolderRun EndFacts FolderMonotone TotalFacts
       folder_handler.

Section Claim.
Context {db : UnicodeDB}.

(** C6: [received_bytes_total] does not go down in a round of the main
    loop, nor over the loop; in a session that starts at 0 it is the sum of
    the declared sizes of the files completed and the bytes of the file
    being received, so when an END_TRANSFER header is read (no file is
    being received then) it is that sum, and it is the value the check
    compares. *)
Theorem total_is_sum_of_completed (rbs : Z) (s0 : env) :
  received_bytes_total s0 = 0%Z ->
  current_state s0 = STATE_WAITING_FOR_ROOT_FOLDER_HEADER ->
  (forall s r s',
     loop_body rbs s = (r, s') ->
     (received_bytes_total s <= received_bytes_total s')%Z)
  /\ (forall rounds r s',
        main_loop rounds rbs s0 = (r, s') ->
        (0 <= received_bytes_total s')%Z
        /\ exists done, session rbs s0 done s')
  /\ (forall done s,
        session rbs s0 done s ->
        received_bytes_total s = (sum_sizes done + pending s)%Z)
  /\ (forall done s rest,
        session rbs s0 done s ->
        current_state s = STATE_WAITING_FOR_ITEM_HEADER ->
        received_buffer s = b "FDR_V1|END_TRANSFER|" ++ rest ->
        received_bytes_total s = sum_sizes done
        /\ exists s1,
             loop_body rbs s = (Ret tt, s1)
             /\ transfer_success s1 = verification s).
Proof.
  intros Hzero Hfirst. split; [|split; [|split]].
  - intros s r s' E.
    exact (@mono_loop_body db (received_bytes_total s) rbs s r s' (Z.le_refl _) E).
  - intros rounds r s' E. split.
    + assert (H0 : (0 <= received_bytes_total s0)%Z) by lia.
      exact (@mono_main_loop db 0%Z rounds rbs s0 r s' H0 E).
    + exact (@main_loop_session db rbs s0 rounds [] s0 s' r (session_start rbs s0) E).
  - intros done s Hs. exact (session_total Hzero Hfirst Hs).
  - intros done s rest Hs Hstate Hb.
    pose proof (session_total Hzero Hfirst Hs) as Ht.
    unfold pending in Ht. rewrite Hstate in Ht. cbn in Ht. split; [lia|].
    destruct (@end_transfer_round db rbs s rest Hstate Hb) as (s1 & E & _ & Hok & _).
    exists s1. auto.
Qed.

End Claim.

(** C6 on a session of one file of three bytes: the main loop ends with a
    total of 3, and the session has completed a file of size 3. *)
Lemma total_sample :
  let stream :=
    b "FDR_V1|FOLDER|docs/|FDR_V1|TOTAL_INFO|2,3|FDR_V1|FILE|docs/a.txt|3|abcFDR_V1|END_TRANSFER|" in
  let s0 := folder_at_start stream (saved_world [] []) in
  exists s' done,
    @main_loop ascii_db 64 4096 s0 = (Ret tt, s')
    /\ received_bytes_total s' = 3%Z
    /\ session 4096 s0 done s'
    /\ sum_sizes done = 3%Z.
Proof.
  intros stream s0.
  destruct (@total_is_sum_of_completed ascii_db 4096 s0 eq_refl eq_refl)
    as (_ & Hloop & Hsum & _).
  destruct (@main_loop ascii_db 64 4096 s0) as [r s'] eqn:E.
  destruct (Hloop 64%nat r s' E) as (_ & done & Hs).
  pose proof (Hsum done s' Hs) as Ht.
  vm_compute in E. injection E as <- <-.
  eexists. exists done. split; [reflexivity|]. split; [reflexivity|].
  split; [exact Hs|].
  unfold pending in Ht. cbn [received_bytes_total current_state state_eqb] in Ht.
  lia.
Defined.

End C6.

(* ===================================================================== *)
(** * The hint of the single-file header *)
(* ===================================================================== *)

Module HintFacts.
Import Py Sys Spec Logic RunFacts HelpersFacts ReaderFacts single_file_handler.

Section Rules.

Lemma blind_ret {A} (a : A) : blind (ret a).
Proof. intros v s. reflexivity. Qed.

Lemma blind_raise {A} (e : exn) : blind (@raise env A e).
Proof. intros v s. reflexivity. Qed.

Lemma blind_blocked {A} : blind (fun s : env => (@Blocked A, s)).
Proof. intros v s. reflexivity. Qed.

Lemma blind_bind {A B} (m : M env A) (k : A -> M env B) :
  blind m -> (forall a, blind (k a)) -> blind (bind m k).
Proof.
  intros Hm Hk v s. unfold bind. rewrite Hm.
  destruct (m s) as [[a|e|] s1]; cbn; [apply Hk|reflexivity|reflexivity].
Qed.

Lemma blind_get_bind {B} (k : env -> M env B) :
  (forall a v, k (set_current_buffer_size_from_header v a) = k a) ->
  (forall a, blind (k a)) -> blind (bind get k).
Proof. intros Hk1 Hk2 v s. rewrite !bind_get, Hk1. apply Hk2. Qed.

Lemma blind_gets {A} (f : env -> A) :
  (forall v s, f (set_current_buffer_size_from_header v s) = f s) ->
  blind (gets f).
Proof. intros Hf v s. unfold gets. rewrite Hf. reflexivity. Qed.

Lemma blind_modify (f : env -> env) :
  (forall v s, f (set_current_buffer_size_from_header v s)
               = set_current_buffer_size_from_header v (f s)) ->
  blind (modify f).
Proof. intros Hf v s. unfold modify, with_hint. cbn. rewrite Hf. reflexivity. Qed.

Lemma blind_lift {A} (m : M world A) : blind (lift m).
Proof.
  intros v s. unfold lift. cbn. destruct (m (W s)) as [r w]. reflexivity.
Qed.

Lemma blind_try_except {A} (m : M env A) (h : exn -> option (M env A)) :
  blind m ->
  (forall e, match h e with Some k => blind k | None => True end) ->
  blind (try_except m h).
Proof.
  intros Hm Hh v s. unfold try_except. rewrite Hm.
  destruct (m s) as [[a|e|] s1]; cbn; try reflexivity.
  specialize (Hh e). destruct (h e) as [k|]; [apply Hh|reflexivity].
Qed.

Lemma blind_try_finally {A} (m : M env A) (f : M env unit) :
  blind m -> blind f -> blind (try_finally m f).
Proof.
  intros Hm Hf v s. unfold try_finally. rewrite Hm.
  destruct (m s) as [[a|e|] s1]; cbn; try reflexivity;
    rewrite Hf; destruct (f s1) as [[[]|e'|] s2]; reflexivity.
Qed.

Lemma blind_format_bytes {db : UnicodeDB} (n : Z) : blind (utils.format_bytes n).
Proof.
  unfold utils.format_bytes.
  destruct (n <=? 0)%Z; [apply blind_ret|].
  destruct (9 <=? float_log_1024 n)%Z; [apply blind_raise|apply blind_ret].
Qed.

End Rules.

(** The walk through a body that does not look at the hint. *)
Ltac unseen known :=
  lazymatch goal with
  | |- blind (bind get _) =>
      apply blind_get_bind; [intros; reflexivity | intros; unseen known]
  | |- blind (bind _ _) => apply blind_bind; [unseen known | intros; unseen known]
  | |- blind (ret _) => apply blind_ret
  | |- blind (raise _) => apply blind_raise
  | |- blind (gets _) => apply blind_gets; intros; reflexivity
  | |- blind (modify _) => apply blind_modify; intros; reflexivity
  | |- blind (lift _) => apply blind_lift
  | |- blind (say _) => apply blind_lift
  | |- blind (utils.format_bytes _) => apply blind_format_bytes
  | |- blind (try_except _ _) =>
      apply blind_try_except;
      [unseen known | let e := fresh "e" in intros e; cbv beta; unseen_handler known]
  | |- blind (try_finally _ _) =>
      apply blind_try_finally; [unseen known | unseen known]
  | |- blind (fun s => (Blocked, s)) => apply blind_blocked
  | |- blind (match ?x with _ => _ end) => destruct x eqn:?; unseen known
  | |- blind _ => first [solve [known] | fail 1 "no lemma for this call"]
  end
with unseen_handler known :=
  lazymatch goal with
  | |- match (if ?c then _ else _) with _ => _ end =>
      destruct c eqn:?; unseen_handler known
  | |- match Some _ with _ => _ end => cbv beta iota; unseen known
  | |- match None with _ => _ end => exact I
  | |- True => exact I
  | |- _ => unseen known
  end.

Section WithUnicode.
Context {db : UnicodeDB}.

Lemma blind_receive_loop rounds handle rbs : blind (receive_loop rounds handle rbs).
Proof.
  induction rounds as [|rounds IH]; cbn [receive_loop].
  - apply blind_blocked.
  - unseen ltac:(eauto).
Qed.

Lemma blind_receive_file rbs : blind (receive_file rbs).
Proof.
  pose proof blind_receive_loop.
  unfold receive_file, receive_body, cleanup. unseen ltac:(eauto).
Qed.

Lemma blind_prepare_path name : blind (prepare_path name).
Proof. unfold prepare_path. unseen ltac:(eauto). Qed.

(** The rest of the handler after the header. *)
Lemma blind_after_header (rbs : Z) (k : M env unit) (h : exn -> option (M env unit))
    (f : M env unit) :
  blind k ->
  (forall e, match h e with Some k' => blind k' | None => True end) ->
  blind f ->
  blind (try_finally (try_except k h) f).
Proof.
  intros Hk Hh Hf. apply blind_try_finally; [|exact Hf].
  apply blind_try_except; assumption.
Qed.

Lemma single_header_ready (timeout : Z) (s : env) (token : str) (tb rest : bytes) :
  current_remaining_buffer s = tb ++ sep_byte :: rest ->
  decode tb = Some token -> ~ In sep_byte tb ->
  read_header timeout s = (Ret token, set_current_remaining_buffer rest s).
Proof.
  intros Hb Hd Hn. unfold read_header. rewrite bind_gets, Hb, bind_lift.
  rewrite (@read_header_immediate token tb rest timeout helpers.default_max_buffer
             (the_world s) Hd Hn).
  cbn [the_world with_world env_has_world]. destruct s. reflexivity.
Qed.

(** A header whose three frames are in the buffer, with a size that is
    accepted: the header is parsed, whatever the third frame is. *)
Lemma parse_header_ready (s : env) (name size_frame frame : str)
    (nb sb tb rest : bytes) (n : Z) :
  current_remaining_buffer s = nb ++ sep_byte :: sb ++ sep_byte :: tb ++ sep_byte :: rest ->
  decode nb = Some name -> ~ In sep_byte nb ->
  decode sb = Some size_frame -> ~ In sep_byte sb ->
  int size_frame = Some n ->
  (0 <= n <= config.TEST_FILE_SIZE * 10000)%Z ->
  decode tb = Some frame -> ~ In sep_byte tb ->
  parse_header s
  = (Ret tt,
     set_current_buffer_size_from_header (hint_value frame)
       (set_current_remaining_buffer rest
          (set_filesize n (set_filename_from_header name s)))).
Proof.
  intros Hb Hd1 Hn1 Hd2 Hn2 Hsize Hrange Hd3 Hn3. unfold parse_header.
  rewrite (@bind_returns _ _ _ _ _ _ _ _
             (@single_header_ready (config.DISCOVERY_TIMEOUT * 2) s name nb _
                Hb Hd1 Hn1)).
  rewrite bind_modify.
  rewrite (@bind_returns _ _ _ _ _ _ _ _
             (@single_header_ready helpers.default_timeout
                (set_filename_from_header name
                   (set_current_remaining_buffer
                      (sb ++ sep_byte :: tb ++ sep_byte :: rest) s))
                size_frame sb _ eq_refl Hd2 Hn2)).
  rewrite Hsize.
  assert (Hlt : (n <? 0)%Z = false) by (apply Z.ltb_ge; lia).
  assert (Hgt : (n >? config.TEST_FILE_SIZE * 10000)%Z = false)
    by (rewrite Z.gtb_ltb; apply Z.ltb_ge; lia).
  unfold try_except at 1. unfold bind at 1. rewrite bind_modify, Hlt, Hgt.
  unfold ret at 1.
  rewrite (@bind_returns _ _ _ _ _ _ _ _
             (@single_header_ready helpers.default_timeout
                (set_filesize n
                   (set_current_remaining_buffer (tb ++ sep_byte :: rest)
                      (set_filename_from_header name
                         (set_current_remaining_buffer
                            (sb ++ sep_byte :: tb ++ sep_byte :: rest) s))))
                frame tb rest eq_refl Hd3 Hn3)).
  unfold hint_value, try_except.
  destruct (int frame) as [k|]; [|reflexivity].
  rewrite bind_modify. destruct (k <=? 0)%Z; reflexivity.
Qed.

End WithUnicode.
End HintFacts.

Module SizeFacts.
Import Py Sys Spec Logic RunFacts WorldFrames single_file_handler.

Section Rules.
Variable rbs : Z.

Local Abbreviation sized := (fun s : env => reads_within rbs (W s)).

Lemma sized_lift {A} (m : M world A) :
  stable (reads_within rbs) m -> stable sized (lift m).
Proof.
  intros Hm s r s' Hs E. unfold lift in E. cbn in E.
  destruct (m (W s)) as [r1 w1] eqn:Em. injection E as <- <-. cbn.
  exact (Hm (W s) r1 w1 Hs Em).
Qed.

(** A call that keeps the network side keeps the log of [recv]. *)
Lemma within_kept {A} (m : M world A) :
  (forall side0, stable (fun w => net_side w = side0) m) ->
  stable (reads_within rbs) m.
Proof.
  intros Hm w r w' Hw E. pose proof (@kept _ m w w' r Hm E) as Hk.
  unfold reads_within, net_side in *. injection Hk as Hlog _ _ _ _.
  rewrite Hlog. exact Hw.
Qed.

Lemma within_recv (size : Z) :
  (size <= rbs)%Z -> stable (reads_within rbs) (recv size).
Proof.
  intros Hsize w r w' Hw E. unfold recv in E.
  destruct (size <? 0)%Z; [injection E as <- <-; exact Hw|].
  assert (Hlog : reads_within rbs (log_recv size w)).
  { unfold reads_within in *. cbn. apply Forall_app. split; [exact Hw|].
    constructor; [exact Hsize|constructor]. }
  cbv zeta in E.
  destruct (w_net (log_recv size w)) as [|[dt [n| |]] net];
    injection E as <- <-; exact Hlog.
Qed.

End Rules.

(** The calls of the world in the single-file receiver. *)
Ltac world_call :=
  apply sized_lift;
  first [ apply within_recv; lia
        | apply within_kept; intros;
          first [ apply quiet_gui | apply quiet_abspath | apply quiet_path_exists
                | apply quiet_path_isdir | apply quiet_makedirs | apply quiet_open_wb
                | apply quiet_remove | apply quiet_write | apply quiet_is_set
                | apply quiet_time | apply quiet_close_socket
                | apply quiet_sanitize_path | apply quiet_unique_name ] ].

Ltac sized_walk known :=
  walk_with ltac:(world_call) known.

Section Handler.
Context {db : UnicodeDB}.
Variable rbs : Z.

Local Abbreviation sized := (fun s : env => reads_within rbs (W s)).

Lemma sized_say e : stable sized (say e).
Proof. unfold say. sized_walk idtac. Qed.

Lemma sized_receive_loop rounds handle : stable sized (receive_loop rounds handle rbs).
Proof.
  pose proof sized_say.
  induction rounds as [|rounds IH]; cbn [receive_loop].
  - apply stable_blocked.
  - sized_walk ltac:(eauto).
Qed.

Lemma sized_receive_file : stable sized (receive_file rbs).
Proof.
  pose proof sized_say. pose proof sized_receive_loop.
  unfold receive_file, receive_body, cleanup. sized_walk ltac:(eauto).
Qed.

Lemma sized_prepare_path name : stable sized (prepare_path name).
Proof. pose proof sized_say. unfold prepare_path. sized_walk ltac:(eauto). Qed.

End Handler.
End SizeFacts.


(* ===================================================================== *)
(** * A single-file transfer that is complete *)
(* ===================================================================== *)

Module SingleComplete.
Import Py Sys Spec Logic FSFacts RunFacts single_file_handler.

Lemma is_set_unset (w : world) : w_cancel w = [] -> is_set w = (Ret false, w).
Proof. intros H. unfold is_set. rewrite H. reflexivity. Qed.

Lemma firstn_more {A} (k m : nat) (l : list A) :
  firstn (k + m) l = firstn k l ++ firstn m (skipn k l).
Proof.
  revert l. induction k as [|k IH]; intros l; [reflexivity|].
  destruct l as [|x l]; cbn; [rewrite firstn_nil; reflexivity|].
  rewrite IH. reflexivity.
Qed.

Lemma skipn_more {A} (k m : nat) (l : list A) :
  skipn (k + m) l = skipn m (skipn k l).
Proof.
  revert l. induction k as [|k IH]; intros l; [reflexivity|].
  destruct l as [|x l]; cbn; [rewrite skipn_nil; reflexivity|apply IH].
Qed.

Section Loop.
Variables (handle : str) (rbs : Z).
Hypothesis Hrbs : (0 < rbs)%Z.

(** The bytes of the file come, in whatever chunks: the loop ends with
    all of them written, and has read no byte more. *)
Lemma receive_loop_complete (net : list (Z * recv_event)) :
  forall (rounds : nat) (s : env) (c : bytes),
    w_net (W s) = net -> length net < rounds ->
    w_cancel (W s) = [] ->
    forallb (fun e => negb (is_reset e)) net = true ->
    (received_bytes s <= filesize s)%Z ->
    let need := Z.to_nat (filesize s - received_bytes s) in
    need <= length (w_wire (W s)) ->
    need <= length (filter is_arrival net) ->
    FS.lookup handle (w_fs (W s)) = Some (FS.File c) ->
    exists s',
      receive_loop rounds handle rbs s = (Ret tt, s')
      /\ received_bytes s' = filesize s
      /\ FS.lookup handle (w_fs (W s'))
         = Some (FS.File (c ++ firstn need (w_wire (W s))))
      /\ w_wire (W s') = skipn need (w_wire (W s))
      /\ filesize s' = filesize s /\ file_path s' = file_path s
      /\ transfer_success s' = transfer_success s
      /\ is_cancelled s' = is_cancelled s
      /\ w_cwd (W s') = w_cwd (W s)
      /\ w_sent (W s') = w_sent (W s).
Proof.
  induction net as [|[dt ev] net IH];
    intros rounds s c Hnet Hr Hcan Hok Hle need Hwire Harr Hfile;
    (destruct rounds as [|rounds]; [cbn in Hr; lia|]);
    cbn [receive_loop]; rewrite bind_get;
    destruct (received_bytes s <? filesize s)%Z eqn:Hlt.
  - apply Z.ltb_lt in Hlt. cbn in Harr. unfold need in Harr. lia.
  - apply Z.ltb_ge in Hlt. assert (Hneed : need = 0) by (unfold need; lia).
    rewrite Hneed. cbn. rewrite app_nil_r.
    exists s. repeat split; auto. lia.
  - apply Z.ltb_lt in Hlt.
    rewrite bind_lift. cbn [the_world env_has_world].
    rewrite (is_set_unset _ Hcan). cbv beta iota.
    set (size := Z.min rbs (filesize s - received_bytes s)).
    assert (Hsize : (0 < size)%Z) by (unfold size; lia).
    replace (size <=? 0)%Z with false by (symmetry; apply Z.leb_gt; lia).
    unfold bind at 1. unfold try_except at 1. rewrite bind_lift.
    unfold recv. replace (size <? 0)%Z with false by (symmetry; apply Z.ltb_ge; lia).
    cbn [the_world with_world env_has_world W set_W].
    change (w_net (log_recv size (W s))) with (w_net (W s)).
    change (w_wire (log_recv size (W s))) with (w_wire (W s)).
    rewrite Hnet.
    cbn [forallb] in Hok. apply andb_prop in Hok. destruct Hok as [Hev Hok].
    destruct ev as [n| |]; cbv beta iota.
    + set (k := Nat.min (Nat.min (Pos.to_nat n) (Z.to_nat size))
                        (length (w_wire (W s)))).
      assert (Hk : 1 <= k <= need).
      { unfold k, need, size in *. lia. }
      destruct (firstn k (w_wire (W s))) as [|c0 chunk] eqn:Echunk.
      { apply (f_equal (@length _)) in Echunk. rewrite length_firstn in Echunk.
        cbn in Echunk. lia. }
      rewrite <- Echunk. unfold ret at 1. cbv beta iota.
      destruct (firstn k (w_wire (W s))) as [|c1 chunk1] eqn:Echunk1; [discriminate|].
      rewrite <- Echunk1. clear c0 chunk Echunk.
      unfold write. rewrite bind_lift_modify, bind_modify.
      cbn [the_world with_world env_has_world W set_W].
      match goal with |- exists s', receive_loop _ _ _ ?st = _ /\ _ =>
        destruct (IH rounds st (c ++ firstn k (w_wire (W s))))
          as (s' & El & Hrec & Hf & Hw & Hrest)
      end.
      * reflexivity.
      * cbn in Hr. lia.
      * exact Hcan.
      * exact Hok.
      * cbn. unfold len. rewrite length_firstn. unfold need, size in *. lia.
      * cbn. unfold len. rewrite length_firstn, length_skipn.
        unfold need, size in *. lia.
      * cbn. unfold len. rewrite length_firstn.
        cbn [filter is_arrival snd length] in Harr. unfold need, size in *. lia.
      * cbn. apply append_file. exact Hfile.
      * exists s'. split; [exact El|].
        cbn in Hrec, Hf, Hw, Hrest.
        assert (Hsplit : need
                         = k + Z.to_nat (filesize s
                                         - (received_bytes s
                                            + len (firstn k (w_wire (W s)))))).
        { unfold len. rewrite length_firstn. unfold need, size in *. lia. }
        split; [exact Hrec|]. split.
        { rewrite Hf, Hsplit, firstn_more, app_assoc. reflexivity. }
        split.
        { rewrite Hw, Hsplit, skipn_more. reflexivity. }
        exact Hrest.
    + unfold isinstance. unfold ret at 1. cbv beta iota.
      match goal with |- exists s', receive_loop _ _ _ ?st = _ /\ _ =>
        destruct (IH rounds st c) as (s' & El & Hrest)
      end.
      * reflexivity.
      * cbn in Hr. lia.
      * exact Hcan.
      * exact Hok.
      * exact Hle.
      * exact Hwire.
      * cbn [filter is_arrival snd] in Harr. exact Harr.
      * exact Hfile.
      * exists s'. split; [exact El|]. exact Hrest.
    + discriminate Hev.
  - apply Z.ltb_ge in Hlt. assert (Hneed : need = 0) by (unfold need; lia).
    rewrite Hneed. cbn. rewrite app_nil_r.
    exists s. repeat split; auto. lia.
Qed.

End Loop.

(** The receive block when the bytes of the file come: the file is
    created, filled with the declared number of bytes and kept, and the
    transfer is marked as a success and not as cancelled. *)
Lemma receive_file_whole (rbs : Z) (s : env) (path : str) (f : FS.t) :
  let q := PosixPath.abspath (w_cwd (W s)) path in
  let buffer := current_remaining_buffer s in
  let wire := w_wire (W s) in
  let n := Z.to_nat (filesize s) in
  (0 < rbs)%Z ->
  file_path s = Some path ->
  (0 < filesize s)%Z -> received_bytes s = 0%Z -> is_cancelled s = false ->
  FS.open_wb (w_fs (W s)) q = Some f ->
  w_cancel (W s) = [] ->
  forallb (fun e => negb (is_reset e)) (w_net (W s)) = true ->
  n <= length buffer + length wire ->
  n - length buffer <= length (filter is_arrival (w_net (W s))) ->
  exists s',
    receive_file rbs s = (Ret tt, s')
    /\ transfer_success s' = true
    /\ received_bytes s' = filesize s
    /\ FS.lookup q (w_fs (W s')) = Some (FS.File (firstn n (buffer ++ wire)))
    /\ w_wire (W s') = skipn (n - length buffer) wire
    /\ is_cancelled s' = false
    /\ filesize s' = filesize s.
Proof.
  intros q buffer wire n Hrbs Hpath Hsize Hzero Hgo Hopen Hcan Hnet Hall Harr.
  subst buffer wire n.
  set (buffer := current_remaining_buffer s) in *.
  set (wire := w_wire (W s)) in *.
  set (n := Z.to_nat (filesize s)) in *.
  pose proof (open_wb_creates _ _ Hopen) as Hcreated.
  unfold receive_file. rewrite bind_modify. unfold try_finally, try_except.
  unfold receive_body at 1. rewrite bind_get.
  cbn [file_path filesize set_file_handle received_bytes current_remaining_buffer].
  rewrite Hpath.
  replace (filesize s =? 0)%Z with false by (symmetry; apply Z.eqb_neq; lia).
  rewrite bind_lift. unfold open_wb.
  cbn [the_world with_world env_has_world W set_file_handle]. fold q.
  rewrite Hopen, bind_modify.
  set (s1 := set_file_handle (Some q)
               (set_W (set_fs f (W s)) (set_file_handle None s))).
  (* the bytes that came with the header *)
  set (k := Nat.min (length buffer) n).
  assert (Hbuf : exists s2,
             (match current_remaining_buffer s with
              | [] => ret tt
              | buffer =>
                  let bytes_to_write_now :=
                    Z.min (len buffer) (filesize s - received_bytes s) in
                  (if (bytes_to_write_now >? 0)%Z then
                     lift (write q (firstn (Z.to_nat bytes_to_write_now) buffer)) ;;
                     modify (fun s => set_received_bytes
                                        (received_bytes s + bytes_to_write_now) s)
                   else ret tt) ;;
                  modify (set_current_remaining_buffer [])
              end) s1 = (Ret tt, s2)
             /\ received_bytes s2 = Z.of_nat k
             /\ FS.lookup q (w_fs (W s2)) = Some (FS.File (firstn k buffer))
             /\ W s2 = set_fs (w_fs (W s2)) (W s)
             /\ filesize s2 = filesize s /\ file_path s2 = file_path s
             /\ transfer_success s2 = transfer_success s
             /\ is_cancelled s2 = false).
  { assert (Hk : k = Nat.min (length buffer) n) by reflexivity.
    clearbody k. unfold buffer in *.
    destruct (current_remaining_buffer s) as [|c0 buffer'] eqn:Ebuf.
    - exists s1. unfold s1. cbn. cbn in Hk. subst k. repeat split; auto.
    - rewrite <- Ebuf in *. cbv zeta. rewrite Hzero, Z.sub_0_r.
      assert (Hmin : Z.min (len (current_remaining_buffer s)) (filesize s)
                     = Z.of_nat k)
        by (unfold len; subst k; unfold n; lia).
      rewrite Hmin.
      assert (Hpos : (Z.of_nat k >? 0)%Z = true).
      { rewrite Z.gtb_ltb. apply Z.ltb_lt. subst k. unfold n. rewrite Ebuf.
        cbn [length]. lia. }
      rewrite Hpos, Nat2Z.id, bind_assoc. unfold write.
      rewrite bind_lift_modify, bind_modify. unfold modify.
      eexists. split; [reflexivity|]. unfold s1. cbn.
      repeat split; auto; [lia|].
      exact (@append_file f q [] _ Hcreated). }
  destruct Hbuf as (s2 & Ebuf & Hr2 & Hf2 & Hw2 & Hz2 & Hp2 & Ht2 & Hc2).
  unfold bind at 1. fold s1. cbv zeta in Ebuf. unfold buffer. rewrite Ebuf.
  rewrite bind_gets.
  assert (Hwire2 : w_wire (W s2) = wire) by (rewrite Hw2; reflexivity).
  assert (Hnet2 : w_net (W s2) = w_net (W s)) by (rewrite Hw2; reflexivity).
  assert (Hcan2 : w_cancel (W s2) = []) by (rewrite Hw2; exact Hcan).
  assert (Hneed : Z.to_nat (filesize s2 - received_bytes s2) = n - length buffer).
  { rewrite Hz2, Hr2. unfold k, n. lia. }
  assert (H1 : length (w_net (W s2)) < S (length (w_net (W s2)))) by lia.
  assert (H2 : forallb (fun e => negb (is_reset e)) (w_net (W s2)) = true)
    by (rewrite Hnet2; exact Hnet).
  assert (H3 : (received_bytes s2 <= filesize s2)%Z)
    by (rewrite Hz2, Hr2; unfold k, n; lia).
  assert (H4 : Z.to_nat (filesize s2 - received_bytes s2) <= length (w_wire (W s2)))
    by (rewrite Hneed, Hwire2; lia).
  assert (H5 : Z.to_nat (filesize s2 - received_bytes s2)
               <= length (filter is_arrival (w_net (W s2))))
    by (rewrite Hneed, Hnet2; exact Harr).
  destruct (@receive_loop_complete q rbs Hrbs (w_net (W s2))
              (S (length (w_net (W s2)))) s2 (firstn k buffer)
              eq_refl H1 Hcan2 H2 H3 H4 H5 Hf2)
    as (s3 & Eloop & Hr3 & Hf3 & Hw3 & Hz3 & Hp3 & Ht3 & Hc3 & Hcwd3 & _).
  unfold bind at 1. rewrite Eloop. rewrite bind_get.
  rewrite Hc3, Hc2.
  replace (received_bytes s3 >=? filesize s3)%Z with true
    by (symmetry; rewrite Z.geb_leb; apply Z.leb_le; lia).
  cbn [negb andb]. unfold modify at 1.
  (* the inner [finally] *)
  unfold cleanup. rewrite bind_get.
  cbn [file_path set_transfer_success transfer_success].
  rewrite Hp3, Hp2, Hpath, bind_lift. unfold path_exists, gets.
  cbn [negb andb]. eexists. split; [reflexivity|].
  cbn [transfer_success received_bytes W set_transfer_success set_W
       the_world with_world env_has_world].
  split; [reflexivity|]. split; [congruence|].
  assert (Hcwd : w_cwd (W s3) = w_cwd (W s)) by (rewrite Hcwd3, Hw2; reflexivity).
  rewrite Hneed, Hwire2 in Hf3. rewrite Hneed, Hwire2 in Hw3.
  split; [|split; [exact Hw3|cbn; split; congruence]].
  rewrite Hf3. f_equal. f_equal. unfold k. subst buffer.
  set (buffer := current_remaining_buffer s) in *.
  destruct (Nat.le_ge_cases (length buffer) n) as [Hle|Hge].
  - rewrite Nat.min_l by lia. rewrite firstn_all2 by lia.
    rewrite firstn_app. rewrite (firstn_all2 buffer) by lia. reflexivity.
  - rewrite Nat.min_r by lia.
    assert (Hnone : n - length buffer = 0) by lia.
    rewrite Hnone, firstn_app, Hnone. cbn. rewrite !app_nil_r. reflexivity.
Qed.

(** When the bytes of the file come (no cancellation, no reset, enough
    arrivals for the bytes that are not in the buffer yet), the file is
    stored with exactly the declared number of bytes, the transfer is a
    success, and no byte after the file has been read. *)
Theorem complete_file_is_stored (rbs : Z) (s : env) (path : str) (f : FS.t) :
  let q := PosixPath.abspath (w_cwd (W s)) path in
  let buffer := current_remaining_buffer s in
  let wire := w_wire (W s) in
  let n := Z.to_nat (filesize s) in
  (0 < rbs)%Z ->
  file_path s = Some path ->
  (0 < filesize s)%Z -> received_bytes s = 0%Z -> is_cancelled s = false ->
  FS.open_wb (w_fs (W s)) q = Some f ->
  w_cancel (W s) = [] ->
  forallb (fun e => negb (is_reset e)) (w_net (W s)) = true ->
  n <= length buffer + length wire ->
  n - length buffer <= length (filter is_arrival (w_net (W s))) ->
  exists s',
    receive_file rbs s = (Ret tt, s')
    /\ transfer_success s' = true
    /\ received_bytes s' = filesize s
    /\ FS.lookup q (w_fs (W s')) = Some (FS.File (firstn n (buffer ++ wire)))
    /\ w_wire (W s') = skipn (n - length buffer) wire.
Proof.
  intros q buffer wire n Hrbs Hpath Hsize Hzero Hgo Hopen Hcan Hnet Hall Harr.
  destruct (@receive_file_whole rbs s path f Hrbs Hpath Hsize Hzero Hgo Hopen
              Hcan Hnet Hall Harr)
    as (s' & E & Hdone & Hcount & Hfile & Hwire & _).
  exists s'. split; [exact E|]. split; [exact Hdone|]. split; [exact Hcount|].
  split; [exact Hfile|exact Hwire].
Qed.

(** The transfer of [hello] with three bytes after the header, the rest in
    chunks of one byte and more after a socket timeout, and two bytes of
    something else behind. *)
Lemma complete_file_sample :
  exists s',
    receive_file 4096
      (single_after_header (u "a.txt") 5 (b "hel")
         (saved_world (b "lo!!") [(0%Z, Arrive 1); (500%Z, Silence); (0%Z, Arrive 10)]))
    = (Ret tt, s')
    /\ transfer_success s' = true
    /\ received_bytes s' = 5%Z
    /\ FS.lookup (u "/home/user/received_files/a.txt") (w_fs (W s'))
       = Some (FS.File (b "hello"))
    /\ w_wire (W s') = b "!!".
Proof.
  apply (@complete_file_is_stored 4096
           (single_after_header (u "a.txt") 5 (b "hel")
              (saved_world (b "lo!!")
                 [(0%Z, Arrive 1); (500%Z, Silence); (0%Z, Arrive 10)]))
           (u "/home/user/received_files/a.txt")
           ((u "/home/user/received_files/a.txt", FS.File []) :: saved_fs));
    try reflexivity; cbn; lia.
Defined.

End SingleComplete.

Module NewNames.
Import Py Sys Spec Logic FSFacts RunFacts single_file_handler.

(** The name the renaming loop gives is the name of nothing that exists;
    the loop changes nothing. *)
Lemma unique_name_is_new (rounds : nat) (base ext : str) :
  forall (final : str) (counter : Z) (w w' : world) (p : str),
    unique_name rounds base ext final counter w = (Ret p, w') ->
    w' = w
    /\ FS.exists_ (w_fs w) (PosixPath.abspath (w_cwd w) p) = false
    /\ (p = final
        \/ exists i, (counter <= i <= 10000)%Z
                     /\ p = base ++ [underscore] ++ str_of_Z i ++ ext).
Proof.
  induction rounds as [|rounds IH]; intros final counter w w' p E;
    cbn [unique_name] in E; unfold path_exists in E; rewrite bind_gets in E;
    destruct (FS.exists_ (w_fs w) (PosixPath.abspath (w_cwd w) final)) eqn:Ex.
  - discriminate E.
  - injection E as <- <-. auto.
  - destruct (counter + 1 >? 10000)%Z eqn:Ec; [discriminate E|].
    rewrite Z.gtb_ltb in Ec. apply Z.ltb_ge in Ec.
    destruct (IH _ _ _ _ _ E) as (Hw & Hnew & [Hp|(i & Hi & Hp)]).
    + split; [exact Hw|]. split; [exact Hnew|]. right. exists counter.
      split; [lia|exact Hp].
    + split; [exact Hw|]. split; [exact Hnew|]. right. exists i.
      split; [lia|exact Hp].
  - injection E as <- <-. auto.
Qed.

Section WithUnicode.
Context {db : UnicodeDB}.

(** The single-file receiver never settles on the name of something that
    exists: a file that is there is not overwritten. *)
Theorem prepared_path_is_new (name : str) (s s' : env) :
  prepare_path name s = (Ret true, s') ->
  exists p,
    file_path s' = Some p
    /\ FS.exists_ (w_fs (W s')) (PosixPath.abspath (w_cwd (W s')) p) = false.
Proof.
  intros E. unfold prepare_path, try_except in E.
  match type of E with
  | (let (_, _) := ?body s in _) = _ => destruct (body s) as [[a|e|] s1] eqn:Eb
  end.
  - injection E as -> ->.
    apply Inversion.inv_bind in Eb. destruct Eb as (base_abs & t1 & _ & Eb).
    apply Inversion.inv_bind in Eb. destruct Eb as (present & t2 & _ & Eb).
    apply Inversion.inv_bind in Eb. destruct Eb as (u1 & t3 & _ & Eb).
    apply Inversion.inv_bind in Eb. destruct Eb as (p0 & t4 & _ & Eb).
    destruct (PosixPath.splitext p0) as [base ext].
    apply Inversion.inv_bind in Eb. destruct Eb as (p & t5 & Eu & Eb).
    apply Inversion.inv_lift in Eu. destruct Eu as (w5 & Eu & ->).
    apply unique_name_is_new in Eu. destruct Eu as (-> & Hnew & _).
    apply Inversion.inv_bind in Eb. destruct Eb as (u2 & t6 & Em & Eb).
    apply Inversion.inv_modify in Em. subst t6.
    apply Inversion.inv_ret in Eb. destruct Eb as [_ ->].
    exists p. split; [reflexivity|]. cbn. exact Hnew.
  - destruct (isinstance e ValueError || isinstance e OSError
              || isinstance e RuntimeError); [|discriminate E].
    unfold say, lift, gui, modify, bind, ret in E. cbn in E. discriminate E.
  - discriminate E.
Qed.

End WithUnicode.

(** With [a.txt] there already, the name is [a_1.txt]. *)
Lemma prepared_path_sample :
  let r := @prepare_path ascii_db (u "a.txt") (initial_env [] (taken_world [] [])) in
  file_path (snd r) = Some (u "/home/user/received_files/a_1.txt")
  /\ exists p,
       file_path (snd r) = Some p
       /\ FS.exists_ (w_fs (W (snd r))) (PosixPath.abspath (w_cwd (W (snd r))) p)
          = false.
Proof.
  split; [reflexivity|].
  apply (@prepared_path_is_new ascii_db (u "a.txt")
           (initial_env [] (taken_world [] []))).
  reflexivity.
Defined.

End NewNames.

(* ===================================================================== *)
(** * The header reader at its edges *)
(* ===================================================================== *)

Module ReaderEdges.
Import Py Sys Spec Logic RunFacts HelpersFacts ReaderFacts WorldFrames helpers.

Lemma find_from_sound (c : byte) (l : bytes) :
  forall i j, find_from Byte.eqb i l [c] = Some j ->
    exists tb rest, l = tb ++ c :: rest /\ ~ In c tb /\ j = i + length tb.
Proof.
  induction l as [|x l IH]; intros i j H.
  - cbn in H. discriminate H.
  - cbn in H. destruct (Byte.eqb c x) eqn:E.
    + rewrite startswith_nil in H. cbn in H. injection H as <-.
      apply Byte.byte_dec_bl in E. subst x.
      
      exists [], l. cbn. repeat split; [tauto|lia].
    + cbn in H. destruct (IH _ _ H) as [tb [rest [-> [Hn ->]]]].
      exists (x :: tb), rest. cbn. repeat split; [|lia].
      intros [->|Hin]; [|exact (Hn Hin)].
      rewrite byte_eqb_refl in E. discriminate E.
Qed.

Lemma split_at_ends (buf : bytes) (i : nat) (w : world) (r : outcome (str * bytes))
    (w' : world) :
  split_at_separator buf [sep_byte] i w = (r, w') ->
  w' = w /\ forall token leftover, r = Ret (token, leftover) ->
              decode (firstn i buf) = Some token /\ leftover = skipn (i + 1) buf.
Proof.
  unfold split_at_separator, try_except, bind, decode_utf8, ret, raise.
  destruct (decode (firstn i buf)) as [token|]; cbn; intros H; inversion H; subst.
  - split; [reflexivity|]. intros t l E. inversion E. auto.
  - split; [reflexivity|]. intros t l E. discriminate E.
Qed.

Lemma took_nothing (w : world) : took w w [] [].
Proof. unfold took. rewrite app_nil_r. auto. Qed.

Lemma took_poll (w w0 w' : world) taken sizes :
  polled w w0 -> took w0 w' taken sizes -> took w w' taken sizes.
Proof.
  unfold polled, took. intros P [A B]. decompose [and] P. split; congruence.
Qed.

Lemma took_recv (w w0 : world) (dt : Z) (k : nat) rest (size : Z) :
  polled w w0 ->
  took w (after_recv dt k rest (log_recv size w0)) (firstn k (w_wire w0)) [size].
Proof.
  unfold polled, took. intros P. decompose [and] P. cbn.
  rewrite firstn_skipn. split; congruence.
Qed.

Lemma took_log (w w0 : world) (size : Z) :
  polled w w0 -> took w (log_recv size w0) [] [size].
Proof. unfold polled, took. intros P. decompose [and] P. cbn. split; congruence. Qed.

Lemma took_trans (w w1 w' : world) t1 s1 t2 s2 :
  took w w1 t1 s1 -> took w1 w' t2 s2 -> took w w' (t1 ++ t2) (s1 ++ s2).
Proof.
  unfold took. intros [A B] [C D]. rewrite A, C, D, B, !app_assoc. auto.
Qed.

(** A run that stops where it stands. *)
Ltac stops tk :=
  exists [], []; rewrite app_nil_r;
  split; [tk|split; [constructor|split; [lia|discriminate]]].

Section Loop.
Variables (start timeout max_buffer : Z).

Local Abbreviation asked sizes :=
  (Forall (fun n => 1 <= n <= 4096 /\ n <= max_buffer)%Z sizes).

(** What any run of the loop does: the bytes it has taken are the head of
    the wire, it asks for 1 to 4096 bytes and never for more than the limit
    leaves room for, and a frame it returns is cut out of the bytes it was
    given followed by the bytes it took. *)
Lemma loop_trace :
  forall (rounds : nat) (buf : bytes) (w : world) r (w' : world),
    read_header_loop rounds start timeout max_buffer [sep_byte] buf w = (r, w') ->
    exists taken sizes,
      took w w' taken sizes /\ asked sizes
      /\ (len (buf ++ taken) <= Z.max (len buf) max_buffer)%Z
      /\ (forall token leftover, r = Ret (token, leftover) ->
            exists tb, decode tb = Some token /\ ~ In sep_byte tb
                       /\ buf ++ taken = tb ++ sep_byte :: leftover).
Proof.
  induction rounds as [|rounds IH]; intros buf w r w' H.
  - cbn in H. inversion H; subst. stops ltac:(apply took_nothing).
  - cbn [read_header_loop] in H. unfold bind at 1 in H. unfold time, gets in H.
    destruct (w_now w - start <? timeout)%Z.
    2:{ inversion H; subst. stops ltac:(apply took_nothing). }
    unfold bind at 1 in H.
    destruct (is_set_polled w) as [c [w0 [Eset P]]]. rewrite Eset in H.
    destruct c.
    { inversion H; subst. stops ltac:(eapply took_poll; [exact P|apply took_nothing]). }
    set (size := if (len buf =? 0)%Z
                 then Z.min config.BUFFER_SIZE_FOR_HEADER max_buffer
                 else Z.min 4096 (max_buffer - len buf)) in H.
    unfold bind at 1 in H. unfold try_except at 1 in H.
    destruct (size <=? 0)%Z eqn:Esize.
    { cbn in H. inversion H; subst.
      stops ltac:(eapply took_poll; [exact P|apply took_nothing]). }
    apply Z.leb_gt in Esize.
    unfold bind at 1 in H. unfold recv at 1 in H.
    replace (size <? 0)%Z with false in H by (symmetry; apply Z.ltb_ge; lia).
    assert (Hasked : asked [size]).
    { constructor; [|constructor].
      unfold size, config.BUFFER_SIZE_FOR_HEADER, len in *.
      destruct (Z.of_nat (length buf) =? 0)%Z; lia. }
    assert (Hroom : forall k, (len (buf ++ firstn k (w_wire w0))
                               <= Z.max (len buf) max_buffer)%Z
                              \/ Z.to_nat size < k).
    { intros k. destruct (Nat.leb_spec k (Z.to_nat size)) as [Hk|Hk]; [left|right; exact Hk].
      unfold len. rewrite length_app.
      pose proof (firstn_le_length k (w_wire w0)) as L1.
      assert (L2 : length (firstn k (w_wire w0)) <= k)
        by (rewrite length_firstn; lia).
      unfold size, config.BUFFER_SIZE_FOR_HEADER, len in *.
      destruct (Z.of_nat (length buf) =? 0)%Z eqn:E0;
        [apply Z.eqb_eq in E0|apply Z.eqb_neq in E0]; lia. }
    change (w_net (log_recv size w0)) with (w_net w0) in H.
    change (w_wire (log_recv size w0)) with (w_wire w0) in H.
    destruct (w_net w0) as [|[dt ev] rest] eqn:Enet.
    { inversion H; subst. exists [], [size]. rewrite app_nil_r.
      split; [apply took_log; exact P|split; [exact Hasked|split; [lia|discriminate]]]. }
    destruct ev as [n| |].
    + set (k := Nat.min (Nat.min (Pos.to_nat n) (Z.to_nat size))
                        (length (w_wire w0))) in H.
      pose proof (@took_recv w w0 dt k rest size P) as T.
      destruct (Hroom k) as [Hlen|Hbad]; [|unfold k in Hbad; lia].
      set (w1 := after_recv dt k rest (log_recv size w0)) in *.
      set (chunk := firstn k (w_wire w0)) in *.
      unfold ret at 1 in H.
      destruct chunk as [|c0 chunk0] eqn:Echunk.
      { assert (E : w' = w1 /\ forall t l, r <> Ret (t, l))
          by (destruct (len buf =? 0)%Z; inversion H; split;
              first [reflexivity|discriminate]).
        destruct E as [-> Hr]. exists [], [size]. rewrite app_nil_r.
        split; [exact T|split; [exact Hasked|split; [lia|]]].
        intros t l E. destruct (Hr _ _ E). }
      rewrite <- Echunk in *. clear c0 chunk0 Echunk.
      destruct (find Byte.eqb (buf ++ chunk) [sep_byte]) as [i|] eqn:Efind.
      * destruct (split_at_ends _ _ _ H) as [-> Hret].
        exists chunk, [size].
        split; [exact T|split; [exact Hasked|split; [exact Hlen|]]].
        intros token leftover E. destruct (Hret _ _ E) as [Hd ->].
        destruct (find_from_sound _ _ _ Efind) as [tb [rest0 [Eb [Hn ->]]]].
        exists tb. rewrite Eb in Hd |- *. cbn [Nat.add] in Hd |- *.
        rewrite firstn_app, Nat.sub_diag, firstn_all in Hd. cbn [firstn] in Hd.
        rewrite app_nil_r in Hd.
        split; [exact Hd|split; [exact Hn|]].
        f_equal. f_equal.
        change (sep_byte :: rest0) with ([sep_byte] ++ rest0).
        rewrite app_assoc.
        replace (length tb + 1) with (length (tb ++ [sep_byte]))
          by (rewrite length_app; reflexivity).
        rewrite skipn_app, Nat.sub_diag, skipn_all. reflexivity.
      * destruct (len (buf ++ chunk) >? max_buffer)%Z eqn:Ebig.
        { inversion H; subst. exists chunk, [size].
          split; [exact T|split; [exact Hasked|split; [exact Hlen|discriminate]]]. }
        destruct (IH _ _ _ _ H) as [taken [sizes [T' [A' [L' R']]]]].
        exists (chunk ++ taken), (size :: sizes).
        split; [exact (took_trans T T')|].
        split; [constructor; [inversion Hasked; assumption|exact A']|].
        rewrite app_assoc. split; [lia|exact R'].
    + cbn in H.
      pose proof (@took_recv w w0 dt 0 rest size P) as T. cbn [firstn] in T.
      destruct (IH _ _ _ _ H) as [taken [sizes [T' [A' [L' R']]]]].
      exists taken, (size :: sizes).
      split; [exact (took_trans T T')|].
      split; [constructor; [inversion Hasked; assumption|exact A']|].
      split; [exact L'|exact R'].
    + cbn in H. inversion H; subst.
      pose proof (@took_recv w w0 dt 0 rest size P) as T. cbn [firstn] in T.
      exists [], [size]. rewrite app_nil_r.
      split; [exact T|split; [exact Hasked|split; [lia|discriminate]]].
Qed.

End Loop.

(** The same for a whole call. *)
Lemma reader_trace (buf : bytes) (timeout max_buffer : Z) (w : world) r (w' : world) :
  read_header_from_socket buf timeout max_buffer w = (r, w') ->
  exists taken sizes,
    took w w' taken sizes
    /\ Forall (fun n => 1 <= n <= 4096 /\ n <= max_buffer)%Z sizes
    /\ (len (buf ++ taken) <= Z.max (len buf) max_buffer)%Z
    /\ (forall token leftover, r = Ret (token, leftover) ->
          exists tb, decode tb = Some token /\ ~ In sep_byte tb
                     /\ buf ++ taken = tb ++ sep_byte :: leftover).
Proof.
  unfold read_header_from_socket, encode_utf8. rewrite encode_separator.
  unfold bind at 1. unfold ret at 1. unfold bind at 1. unfold time, gets.
  destruct (find Byte.eqb buf [sep_byte]) as [i|] eqn:Efind.
  - intros H. destruct (split_at_ends _ _ _ H) as [-> Hret].
    exists [], []. rewrite app_nil_r.
    split; [apply took_nothing|split; [constructor|split; [lia|]]].
    intros token leftover E. destruct (Hret _ _ E) as [Hd ->].
    destruct (find_from_sound _ _ _ Efind) as [tb [rest0 [Eb [Hn ->]]]].
    exists tb. rewrite Eb in Hd |- *. cbn [Nat.add] in Hd |- *.
    rewrite firstn_app, Nat.sub_diag, firstn_all in Hd. cbn [firstn] in Hd.
    rewrite app_nil_r in Hd.
    split; [exact Hd|split; [exact Hn|]].
    f_equal. f_equal.
    change (sep_byte :: rest0) with ([sep_byte] ++ rest0).
    rewrite app_assoc.
    replace (length tb + 1) with (length (tb ++ [sep_byte]))
      by (rewrite length_app; reflexivity).
    rewrite skipn_app, Nat.sub_diag, skipn_all. reflexivity.
  - unfold bind at 1. intros H. exact (loop_trace _ _ _ _ _ _ H).
Qed.

(** The first round of the loop, up to the size of the first read. *)
Lemma first_round (buf : bytes) (timeout max_buffer : Z) (w : world) :
  ~ In sep_byte buf -> (0 < timeout)%Z ->
  read_header_from_socket buf timeout max_buffer w
  = (cancelled <- is_set ;;
     if cancelled then raise CancelledError
     else
       chunk <- try_except
         (let chunk_size_to_read :=
            if (len buf =? 0)%Z
            then Z.min config.BUFFER_SIZE_FOR_HEADER max_buffer
            else Z.min 4096 (max_buffer - len buf) in
          if (chunk_size_to_read <=? 0)%Z then raise ValueError
          else chunk <- recv chunk_size_to_read ;; ret (Some chunk))
         (fun e => if isinstance e SocketTimeout then Some (ret None)
                   else Some (raise PlainException)) ;;
       match chunk with
       | None => read_header_loop (length (w_net w)) (w_now w) timeout max_buffer
                                  [sep_byte] buf
       | Some [] => if (len buf =? 0)%Z then raise ConnectionResetError
                    else raise ValueError
       | Some chunk =>
           let header_buffer := buf ++ chunk in
           match find Byte.eqb header_buffer [sep_byte] with
           | Some separator_index =>
               split_at_separator header_buffer [sep_byte] separator_index
           | None =>
               if (len header_buffer >? max_buffer)%Z then raise ValueError
               else read_header_loop (length (w_net w)) (w_now w) timeout
                                     max_buffer [sep_byte] header_buffer
           end
       end) w.
Proof.
  intros Hn Ht. unfold read_header_from_socket, encode_utf8.
  rewrite encode_separator. unfold bind at 1. unfold ret at 1.
  unfold bind at 1. unfold time, gets. unfold find.
  rewrite find_from_absent by exact Hn.
  unfold bind at 1. cbn [read_header_loop]. unfold bind at 1. unfold time, gets.
  rewrite Z.sub_diag.
  replace (0 <? timeout)%Z with true by (symmetry; apply Z.ltb_lt; exact Ht).
  reflexivity.
Qed.

(** A frame that is whole in the initial buffer is settled without the
    socket, the clock or the cancel event: the token when its bytes are
    UTF-8, a [ValueError] when they are not; the world is untouched. *)
Theorem frame_in_buffer (tb leftover : bytes) (timeout max_buffer : Z) (w : world) :
  ~ In sep_byte tb ->
  read_header_from_socket (tb ++ sep_byte :: leftover) timeout max_buffer w
  = (match decode tb with
     | Some token => Ret (token, leftover)
     | None => Raise ValueError
     end, w).
Proof.
  intros Hn. destruct (decode tb) as [token|] eqn:Hd.
  - apply read_header_immediate; assumption.
  - unfold read_header_from_socket, encode_utf8.
    rewrite encode_separator. unfold bind at 1. unfold ret at 1.
    unfold bind at 1. unfold time, gets.
    unfold find. rewrite find_from_first by exact Hn. cbn [Nat.add].
    unfold split_at_separator, try_except, bind, decode_utf8.
    rewrite firstn_app, Nat.sub_diag, firstn_all. cbn [firstn].
    rewrite app_nil_r, Hd. reflexivity.
Qed.

Lemma frame_in_buffer_samples :
  read_header_from_socket (b "FDR_V1|FOLDER|") 10000 8192 (world_on [] [])
  = (Ret (u "FDR_V1", b "FOLDER|"), world_on [] [])
  /\ read_header_from_socket [xff; sep_byte; x61] 10000 8192 (world_on [] [])
     = (Raise ValueError, world_on [] []).
Proof.
  split.
  - apply (@frame_in_buffer (b "FDR_V1") (b "FOLDER|") 10000 8192 (world_on [] [])).
    vm_compute. intuition discriminate.
  - apply (@frame_in_buffer [xff] [x61] 10000 8192 (world_on [] [])).
    vm_compute. intuition discriminate.
Defined.

(** A frame the reader returns is cut from the stream: the bytes it was
    given, followed by the bytes it took off the wire, are the bytes of the
    token (free of the separator), the separator, and the leftover it
    hands back.  No byte is lost or made up. *)
Theorem returned_frame_is_cut_from_the_stream (buf : bytes)
    (timeout max_buffer : Z) (w w' : world) (token : str) (leftover : bytes) :
  read_header_from_socket buf timeout max_buffer w = (Ret (token, leftover), w') ->
  exists tb taken,
    w_wire w = taken ++ w_wire w'
    /\ decode tb = Some token /\ ~ In sep_byte tb
    /\ buf ++ taken = tb ++ sep_byte :: leftover.
Proof.
  intros H. destruct (reader_trace _ _ _ _ H) as [taken [sizes [[T _] [_ [_ R]]]]].
  destruct (R _ _ eq_refl) as [tb [Hd [Hn E]]].
  exists tb, taken. auto.
Qed.

Lemma returned_frame_sample :
  exists leftover w',
    read_header_from_socket [xd8; xb3] 10000 8192 sample_world
    = (Ret (sample_token, leftover), w')
    /\ exists tb taken,
         w_wire sample_world = taken ++ w_wire w'
         /\ decode tb = Some sample_token /\ ~ In sep_byte tb
         /\ [xd8; xb3] ++ taken = tb ++ sep_byte :: leftover.
Proof.
  eexists. eexists. split; [vm_compute; reflexivity|].
  apply (@returned_frame_is_cut_from_the_stream [xd8; xb3] 10000 8192 sample_world).
  vm_compute. reflexivity.
Defined.

(** However a call ends, each [recv] it has made asked for 1 to 4096 bytes
    and for no more than [max_buffer]; the bytes it took are the head of the
    wire; and a buffer that starts within [max_buffer] stays within it. *)
Theorem reads_are_bounded (buf : bytes) (timeout max_buffer : Z) (w : world) :
  let w' := snd (read_header_from_socket buf timeout max_buffer w) in
  exists taken sizes,
    took w w' taken sizes
    /\ Forall (fun n => 1 <= n <= 4096 /\ n <= max_buffer)%Z sizes
    /\ (len (buf ++ taken) <= Z.max (len buf) max_buffer)%Z.
Proof.
  intros w'. subst w'.
  destruct (read_header_from_socket buf timeout max_buffer w) as [r w'] eqn:H.
  destruct (reader_trace _ _ _ _ H) as [taken [sizes [T [A [L _]]]]].
  exists taken, sizes. auto.
Qed.

(** A cancellation seen at the first poll stops the call before anything
    is read: the socket side of the world is as it was. *)
Theorem cancel_stops_before_reading (buf : bytes) (timeout max_buffer : Z)
    (w : world) (answers : list bool) :
  ~ In sep_byte buf -> (0 < timeout)%Z -> w_cancel w = true :: answers ->
  read_header_from_socket buf timeout max_buffer w
  = (Raise CancelledError, set_cancel answers w).
Proof.
  intros Hn Ht Hc. rewrite first_round by assumption.
  unfold bind at 1. unfold is_set. rewrite Hc. reflexivity.
Qed.

Lemma cancel_sample :
  read_header_from_socket (b "FDR") 10000 8192
    (mkWorld 0 (u "/srv") [] (b "_V1|") [(0, Arrive 4)]%Z [true] [] [] [] false [])
  = (Raise CancelledError,
     mkWorld 0 (u "/srv") [] (b "_V1|") [(0, Arrive 4)]%Z [] [] [] [] false []).
Proof.
  apply (@cancel_stops_before_reading (b "FDR") 10000 8192
           (mkWorld 0 (u "/srv") [] (b "_V1|") [(0, Arrive 4)]%Z [true] [] [] []
                    false []) []);
    [vm_compute; intuition discriminate|reflexivity|reflexivity].
Defined.

(** What goes wrong in the [try] around [recv], other than its timeout,
    leaves the call as a plain [Exception]: the [ValueError] of a buffer
    that has no room left, raised before any read, and the reset of the
    connection. *)
Theorem failed_read_is_plain_exception (buf : bytes) (timeout max_buffer : Z)
    (w : world) :
  ~ In sep_byte buf -> (0 < timeout)%Z -> w_cancel w = [] ->
  (max_buffer <= len buf)%Z
  \/ (exists dt rest, w_net w = (dt, Reset) :: rest) ->
  fst (read_header_from_socket buf timeout max_buffer w) = Raise PlainException
  /\ ((max_buffer <= len buf)%Z ->
      snd (read_header_from_socket buf timeout max_buffer w) = w).
Proof.
  intros Hn Ht Hc Hwhy.
  destruct (read_header_from_socket buf timeout max_buffer w) as [r w'] eqn:H.
  cbn [fst snd]. rewrite first_round in H by assumption.
  unfold bind at 1 in H. unfold is_set in H. rewrite Hc in H.
  unfold bind at 1 in H. unfold try_except at 1 in H.
  set (size := if (len buf =? 0)%Z
               then Z.min config.BUFFER_SIZE_FOR_HEADER max_buffer
               else Z.min 4096 (max_buffer - len buf)) in H.
  destruct (size <=? 0)%Z eqn:Esize.
  - cbn in H. inversion H. split; [reflexivity|intros _; reflexivity].
  - apply Z.leb_gt in Esize.
    assert (Hroom : ~ (max_buffer <= len buf)%Z).
    { unfold size, config.BUFFER_SIZE_FOR_HEADER, len in *.
      destruct (Z.of_nat (length buf) =? 0)%Z eqn:E0;
        [apply Z.eqb_eq in E0|apply Z.eqb_neq in E0]; lia. }
    destruct Hwhy as [Hfull|[dt [rest Hnet]]]; [destruct (Hroom Hfull)|].
    unfold bind at 1 in H. unfold recv in H.
    replace (size <? 0)%Z with false in H by (symmetry; apply Z.ltb_ge; lia).
    change (w_net (log_recv size w)) with (w_net w) in H. rewrite Hnet in H.
    cbn in H. inversion H. split; [reflexivity|intros Hfull; destruct (Hroom Hfull)].
Qed.

Lemma failed_read_samples :
  (fst (read_header_from_socket (b "abcd") 10000 4 (world_on (b "|") [(0, Arrive 1)]%Z))
   = Raise PlainException
   /\ ((4 <= len (b "abcd"))%Z ->
       snd (read_header_from_socket (b "abcd") 10000 4
              (world_on (b "|") [(0, Arrive 1)]%Z))
       = world_on (b "|") [(0, Arrive 1)]%Z))
  /\ (fst (read_header_from_socket [] 10000 8192 (world_on [] [(0, Reset)]%Z))
      = Raise PlainException
      /\ ((8192 <= len (@nil byte))%Z ->
          snd (read_header_from_socket [] 10000 8192 (world_on [] [(0, Reset)]%Z))
          = world_on [] [(0, Reset)]%Z)).
Proof.
  split.
  - apply (@failed_read_is_plain_exception (b "abcd") 10000 4
             (world_on (b "|") [(0, Arrive 1)]%Z));
      [vm_compute; intuition discriminate|reflexivity|reflexivity
      |left; vm_compute; discriminate].
  - apply (@failed_read_is_plain_exception [] 10000 8192
             (world_on [] [(0, Reset)]%Z));
      [vm_compute; intuition|reflexivity|reflexivity
      |right; eexists; eexists; reflexivity].
Defined.

(** The peer closes while the frame is incomplete: [recv] gives no byte.
    With nothing in the buffer the call raises [ConnectionResetError], with
    a part of a frame in it [ValueError]. *)
Theorem peer_closed_before_separator (buf : bytes) (timeout max_buffer : Z)
    (w : world) (dt : Z) (n : positive) (rest : list (Z * recv_event)) :
  ~ In sep_byte buf -> (0 < timeout)%Z -> w_cancel w = [] ->
  (len buf < max_buffer)%Z ->
  w_net w = (dt, Arrive n) :: rest -> w_wire w = [] ->
  fst (read_header_from_socket buf timeout max_buffer w)
  = Raise (match buf with [] => ConnectionResetError | _ :: _ => ValueError end).
Proof.
  intros Hn Ht Hc Hroom Hnet Hwire. rewrite first_round by assumption.
  unfold bind at 1. unfold is_set. rewrite Hc.
  unfold bind at 1. unfold try_except at 1.
  set (size := if (len buf =? 0)%Z
               then Z.min config.BUFFER_SIZE_FOR_HEADER max_buffer
               else Z.min 4096 (max_buffer - len buf)).
  assert (Hsize : (0 < size)%Z).
  { unfold size, config.BUFFER_SIZE_FOR_HEADER, len in *.
    destruct (Z.of_nat (length buf) =? 0)%Z eqn:E0;
      [apply Z.eqb_eq in E0|apply Z.eqb_neq in E0]; lia. }
  replace (size <=? 0)%Z with false by (symmetry; apply Z.leb_gt; lia).
  unfold bind at 1. unfold recv.
  replace (size <? 0)%Z with false by (symmetry; apply Z.ltb_ge; lia).
  change (w_net (log_recv size w)) with (w_net w).
  change (w_wire (log_recv size w)) with (w_wire w).
  rewrite Hnet, Hwire. cbn [length]. rewrite Nat.min_0_r. cbn [firstn].
  unfold ret at 1. destruct buf; reflexivity.
Qed.

Lemma peer_closed_samples :
  fst (read_header_from_socket [] 10000 8192 (world_on [] [(0, Arrive 1)]%Z))
  = Raise ConnectionResetError
  /\ fst (read_header_from_socket (b "FDR") 10000 8192
            (world_on [] [(0, Arrive 1)]%Z))
     = Raise ValueError.
Proof.
  split.
  - apply (@peer_closed_before_separator [] 10000 8192
             (world_on [] [(0, Arrive 1)]%Z) 0 1 []);
      [vm_compute; intuition|reflexivity|reflexivity|reflexivity
      |reflexivity|reflexivity].
  - apply (@peer_closed_before_separator (b "FDR") 10000 8192
             (world_on [] [(0, Arrive 1)]%Z) 0 1 []);
      [vm_compute; intuition discriminate|reflexivity|reflexivity|reflexivity
      |reflexivity|reflexivity].
Defined.

End ReaderEdges.

(* ===================================================================== *)
(** * How the handlers end *)
(* ===================================================================== *)

Module Guarded.
Import Py Sys Spec Logic RunFacts.

(** A [try / except / finally] whose handlers catch everything and return,
    and whose [finally] returns in a state where [Q] holds: no exception
    leaves it, and [Q] holds when it returns. *)
Lemma guarded_run {S A} (m : M S A) (h : exn -> option (M S A)) (f : M S unit)
    (Q : S -> Prop) :
  (forall e, exists k, h e = Some k /\ forall s, exists a s', k s = (Ret a, s')) ->
  (forall s, exists s', f s = (Ret tt, s') /\ Q s') ->
  forall s, match try_finally (try_except m h) f s with
            | (Ret _, s') => Q s'
            | (Raise _, _) => False
            | (Blocked, _) => True
            end.
Proof.
  intros Hh Hf s. unfold try_finally, try_except.
  destruct (m s) as [[a|e|] s1].
  - destruct (Hf s1) as [s2 [-> HQ]]. exact HQ.
  - destruct (Hh e) as [k [-> Hk]]. destruct (Hk s1) as [a [s2 ->]].
    destruct (Hf s2) as [s3 [-> HQ]]. exact HQ.
  - exact I.
Qed.

(** The scrutinee of the first [match] of the goal, taken apart. *)
Ltac cases :=
  repeat match goal with
  | |- context [match ?x with _ => _ end] =>
      lazymatch x with
      | context [match _ with _ => _ end] => fail
      | _ => destruct x eqn:?
      end
  end.

End Guarded.

Module SingleEnd.
Import Py Sys Spec Logic RunFacts Guarded single_file_handler.

Lemma handlers_return (e : exn) :
  exists k,
    (if isinstance e SocketTimeout || isinstance e ConnectionResetError
        || isinstance e ValueError || isinstance e CancelledError
        || isinstance e OSError || isinstance e RuntimeError
     then Some (say StHeaderError ;; say ShowError ;;
                modify (set_is_cancelled true) ;;
                modify (set_transfer_success false))
     else Some (s <- get ;;
                if is_cancelled s then ret tt
                else say StProcessingError ;; say ShowError ;;
                     modify (set_is_cancelled true) ;;
                     modify (set_transfer_success false)))
    = Some k
    /\ forall s, exists a s', k s = (Ret a, s').
Proof.
  destruct (_ || _); eexists; (split; [reflexivity|]); intros s.
  - eexists. eexists. reflexivity.
  - unfold bind at 1. unfold get.
    destruct (is_cancelled s); eexists; eexists; reflexivity.
Qed.

Lemma finally_closes (d : gui_event) (s : env) :
  exists s',
    (lift close_socket ;;
     s <- get ;;
     (if transfer_success s then ret tt
      else if is_cancelled s then say StTransferCancelled
      else say StTransferFailed) ;;
     say StHandlerFinished ;;
     say OnTransferFinished) s = (Ret tt, s')
    /\ w_closed (W s') = true
    /\ last (w_gui (W s')) d = OnTransferFinished.
Proof.
  unfold bind, get, lift, close_socket, modify, say, gui, ret. cbn.
  destruct (transfer_success s); [|destruct (is_cancelled s)];
    cbn; eexists; (split; [reflexivity|]); cbn; rewrite last_last; auto.
Qed.

Lemma single_ends {db : UnicodeDB} (d : gui_event) (rbs : Z) (s : env) :
  match handle_client_connection rbs s with
  | (Ret _, s') =>
      w_closed (W s') = true
      /\ last (w_gui (W s')) d = OnTransferFinished
  | (Raise _, _) => False
  | (Blocked, _) => True
  end.
Proof.
  unfold handle_client_connection. unfold bind at 1.
  unfold say at 1. unfold lift, gui, modify. cbn [fst snd].
  apply guarded_run.
  - exact handlers_return.
  - exact (finally_closes d).
Qed.

End SingleEnd.

Module FolderEnd.
Import Py Sys Spec Logic RunFacts Guarded folder_handler.

Lemma close_current_file_returns (s : env) :
  exists s', close_current_file s = (Ret tt, s') /\ W s' = W s.
Proof.
  unfold close_current_file, bind, get, modify.
  destruct (current_file_handle s); eexists; split; reflexivity.
Qed.

Lemma is_set_returns (s : env) : exists c s', lift is_set s = (Ret c, s').
Proof.
  unfold lift, is_set. cbn. destruct (w_cancel (W s)); eexists; eexists; reflexivity.
Qed.

Lemma on_error_returns (e : exn) (s : env) : exists a s', on_error e s = (Ret a, s').
Proof.
  unfold on_error. destruct (close_current_file_returns s) as [s1 [E1 _]].
  rewrite (@bind_returns _ _ _ _ _ _ _ _ E1). rewrite bind_get.
  assert (E2 : exists s2,
             (if negb (isinstance e CancelledError) && negb (is_cancelled s1)
              then modify (set_is_cancelled true) else ret tt) s1 = (Ret tt, s2))
    by (destruct (_ && _); eexists; reflexivity).
  destruct E2 as [s2 E2]. rewrite (@bind_returns _ _ _ _ _ _ _ _ E2).
  assert (E3 : exists c s3,
             (if isinstance e CancelledError then lift is_set else ret false) s2
             = (Ret c, s3)).
  { destruct (isinstance e CancelledError); [apply is_set_returns|].
    eexists. eexists. reflexivity. }
  destruct E3 as [c [s3 E3]]. rewrite (@bind_returns _ _ _ _ _ _ _ _ E3).
  destruct (negb c); eexists; eexists; reflexivity.
Qed.

Lemma finish_closes (d : gui_event) (s : env) :
  exists s',
    finish s = (Ret tt, s')
    /\ w_closed (W s') = true
    /\ last (w_gui (W s')) d = OnTransferFinished.
Proof.
  unfold finish. destruct (close_current_file_returns s) as [s1 [E1 _]].
  rewrite (@bind_returns _ _ _ _ _ _ _ _ E1). rewrite bind_get.
  assert (E2 : exists s2,
    (match current_file_path s1 with
     | None => ret tt
     | Some path =>
         present <- lift (path_exists path) ;;
         if negb (transfer_success s1) && negb (length path =? 0) && present
            && (current_file_bytes_expected s1 >? 0)%Z
            && (current_file_bytes_received s1 <? current_file_bytes_expected s1)%Z
         then try_except (lift (remove path) ;; say StIncompleteRemoved)
                (fun _ => Some (say StRemoveFailed))
         else ret tt
     end) s1 = (Ret tt, s2)).
  { destruct (current_file_path s1) as [path|]; [|eexists; reflexivity].
    rewrite bind_lift. unfold path_exists at 1, gets.
    destruct (_ && _); [|eexists; reflexivity].
    unfold try_except. rewrite bind_lift. unfold remove.
    destruct (FS.remove _ _); eexists; reflexivity. }
  destruct E2 as [s2 E2]. rewrite (@bind_returns _ _ _ _ _ _ _ _ E2).
  unfold bind, lift, close_socket, modify, say, gui. cbn.
  eexists. split; [reflexivity|]. cbn. rewrite last_last. auto.
Qed.

Lemma folder_ends {db : UnicodeDB} (d : gui_event) (rbs : Z) (s : env) :
  match handle_client_folder_transfer rbs s with
  | (Ret _, s') =>
      w_closed (W s') = true
      /\ last (w_gui (W s')) d = OnTransferFinished
  | (Raise _, _) => False
  | (Blocked, _) => True
  end.
Proof.
  unfold handle_client_folder_transfer. unfold bind at 1.
  unfold say at 1. unfold lift, gui, modify. cbn [fst snd].
  apply guarded_run.
  - intros e. eexists. split; [reflexivity|]. apply on_error_returns.
  - exact (finish_closes d).
Qed.

End FolderEnd.

Module Endings.
Import Py Sys Spec.

Section WithUnicode.
Context {db : UnicodeDB}.

(** No exception leaves the single-file handler, whatever the peer sends
    and whatever the disk does; and when the handler returns, the socket
    has been closed and the end of the transfer is the last thing the GUI
    was told. *)
Theorem single_handler_ends_closed (rbs : Z) (initial_buffer : bytes) (w : world) :
  match single_file_handler.run rbs initial_buffer w with
  | (Ret _, s') =>
      w_closed (single_file_handler.W s') = true
      /\ last (w_gui (single_file_handler.W s')) StNewConnection
         = OnTransferFinished
  | (Raise _, _) => False
  | (Blocked, _) => True
  end.
Proof. apply (SingleEnd.single_ends StNewConnection). Qed.

(** The same for the folder handler. *)
Theorem folder_handler_ends_closed (rbs : Z) (initial_buffer : bytes) (w : world) :
  match folder_handler.run rbs initial_buffer w with
  | (Ret _, s') =>
      w_closed (folder_handler.W s') = true
      /\ last (w_gui (folder_handler.W s')) StNewConnection = OnTransferFinished
  | (Raise _, _) => False
  | (Blocked, _) => True
  end.
Proof. apply (FolderEnd.folder_ends StNewConnection). Qed.

(** What the accept loop does with a connection it does not hand over. *)
Lemma on_accept_ends (d : gui_event) (callback : option server.callback_result)
    (w : world) :
  match server.on_accept callback w with
  | (Ret None, w') => w_closed w' = true /\ last (w_gui w') d = OnTransferFinished
  | (Ret (Some _), _) => True
  | (Raise _, _) => False
  | (Blocked, _) => True
  end.
Proof.
  unfold server.on_accept, server.detect_protocol, try_except, bind, gui, modify,
    close_socket, recv, encode_utf8, ret, raise.
  change (config.BUFFER_SIZE_FOR_HEADER <? 0)%Z with false. cbv iota.
  change (w_net (log_recv config.BUFFER_SIZE_FOR_HEADER (add_gui OnTransferStarted w)))
    with (w_net w).
  destruct (w_net w) as [|[dt ev] net]; [exact I|].
  destruct ev as [n| |].
  - cbv beta iota zeta.
    destruct (firstn _ _) as [|c0 chunk].
    + cbn. rewrite last_last. auto.
    + change (encode (config.FOLDER_PROTOCOL_PREFIX ++ config.HEADER_SEPARATOR))
        with (Some (b "FDR_V1|")).
      cbv beta iota. destruct (startswith _ _ _); exact I.
  - cbn. rewrite last_last. auto.
  - cbn. rewrite last_last. auto.
Qed.

(** A connection the server has accepted: no exception leaves its
    handling, and when the handling returns (the sniff has failed, or the
    handler it was given to has returned), the socket has been closed and
    the end of the transfer is the last thing the GUI was told. *)
Theorem served_connection_ends_closed (callback : option server.callback_result)
    (w : world) :
  match server.serve callback w with
  | (Ret _, w') =>
      w_closed w' = true /\ last (w_gui w') OnTransferStarted = OnTransferFinished
  | (Raise _, _) => False
  | (Blocked, _) => True
  end.
Proof.
  unfold server.serve, bind.
  pose proof (on_accept_ends OnTransferStarted callback w) as Ha.
  destruct (server.on_accept callback w) as [[[h|]|e|] w1]; [|exact Ha..].
  destruct h as [[|] rbs buf]; unfold server.run_handler.
  - pose proof (FolderEnd.folder_ends OnTransferStarted rbs
                  (folder_handler.initial_env buf w1)) as Hh.
    unfold folder_handler.run.
    destruct (folder_handler.handle_client_folder_transfer _ _) as [[a|e|] s'];
      exact Hh.
  - pose proof (SingleEnd.single_ends OnTransferStarted rbs
                  (single_file_handler.initial_env buf w1)) as Hh.
    unfold single_file_handler.run.
    destruct (single_file_handler.handle_client_connection _ _) as [[a|e|] s'];
      exact Hh.
Qed.

End WithUnicode.

End Endings.

(* ===================================================================== *)
(** * The names [sanitize_filename_part] lets through *)
(* ===================================================================== *)

Module StripFacts.
Import Py.

Section Strip.
Context {A : Type}.
Variable p : A -> bool.

Lemma lstrip_suffix (l : list A) :
  exists pre, l = pre ++ lstrip_while p l /\ forallb p pre = true.
Proof.
  induction l as [|x l [pre [E F]]]; [exists []; auto|].
  cbn. destruct (p x) eqn:Ex.
  - exists (x :: pre). cbn. rewrite Ex, F. split; [f_equal; exact E|reflexivity].
  - exists []. auto.
Qed.

Lemma lstrip_head (l : list A) (d : A) :
  lstrip_while p l <> [] -> p (hd d (lstrip_while p l)) = false.
Proof.
  induction l as [|x l IH]; cbn; [congruence|].
  destruct (p x) eqn:Ex; [exact IH|]. cbn. intros _. exact Ex.
Qed.

Lemma lstrip_nil (l : list A) : lstrip_while p l = [] <-> forallb p l = true.
Proof.
  induction l as [|x l IH]; cbn; [tauto|].
  destruct (p x); cbn; [exact IH|]. split; discriminate.
Qed.

Lemma rstrip_prefix (l : list A) :
  exists suf, l = rstrip_while p l ++ suf /\ forallb p suf = true.
Proof.
  unfold rstrip_while. destruct (lstrip_suffix (rev l)) as [pre [E F]].
  exists (rev pre). split.
  - rewrite <- rev_app_distr, <- E, rev_involutive. reflexivity.
  - rewrite forallb_forall in *. intros x Hx. apply F. apply in_rev. exact Hx.
Qed.

Lemma rstrip_last (l : list A) (d : A) :
  rstrip_while p l <> [] -> p (last (rstrip_while p l) d) = false.
Proof.
  unfold rstrip_while. intros H.
  destruct (lstrip_while p (rev l)) as [|x r] eqn:E; [cbn in H; congruence|].
  pose proof (@lstrip_head (rev l) d) as Hh. rewrite E in Hh.
  cbn [rev]. rewrite last_last. apply Hh. discriminate.
Qed.

Lemma rstrip_nil (l : list A) : rstrip_while p l = [] <-> forallb p l = true.
Proof.
  unfold rstrip_while. split.
  - intros H. assert (H' : lstrip_while p (rev l) = []).
    { destruct (lstrip_while p (rev l)); [reflexivity|].
      cbn in H. apply app_eq_nil in H. destruct H as [_ H]. discriminate H. }
    apply lstrip_nil in H'. rewrite forallb_forall in *.
    intros x Hx. apply H'. apply in_rev. rewrite rev_involutive. exact Hx.
  - intros H. assert (H' : forallb p (rev l) = true).
    { rewrite forallb_forall in *. intros x Hx. apply H. apply in_rev. exact Hx. }
    apply lstrip_nil in H'. rewrite H'. reflexivity.
Qed.

End Strip.

End StripFacts.

Module Names.
Import Py Sys Spec PathFacts StripFacts utils.

Section WithUnicode.
Context {db : UnicodeDB}.

(** The two substitutions of [sanitize_filename_part] on one character. *)
Local Abbreviation cleaned :=
  (fun c : N =>
     let c' := if keep_char c then c else underscore in
     if (c' =? space)%N then underscore else c').

Lemma cleaned_map (part : str) :
  map (fun c => if (c =? space)%N then underscore else c)
      (map (fun c => if keep_char c then c else underscore) part)
  = map cleaned part.
Proof. rewrite map_map. reflexivity. Qed.

Lemma keep_underscore : keep_char underscore = true.
Proof. reflexivity. Qed.

Lemma cleaned_kept (c : N) : keep_char (cleaned c) = true /\ cleaned c <> space.
Proof.
  cbv beta zeta. destruct (keep_char c) eqn:K.
  - destruct (N.eqb_spec c space) as [->|Hne].
    + split; [exact keep_underscore|discriminate].
    + split; [exact K|exact Hne].
  - split; [exact keep_underscore|discriminate].
Qed.

(** A name that [sanitize_filename_part] returns for a part that is not
    empty: it is not empty and not longer than the part, each of its
    characters is one the regular expression keeps and is not a space, it
    does not start with a dot, and it ends neither with a dot nor with
    whitespace. *)
Theorem sanitized_part_shape (part name : str) :
  sanitize_filename_part part = Some name -> part <> [] ->
  name <> [] /\ length name <= length part
  /\ Forall (fun c => keep_char c = true /\ c <> space) name
  /\ hd underscore name <> dot
  /\ last name underscore <> dot
  /\ isspace (last name underscore) = false.
Proof.
  intros H Hne. unfold sanitize_filename_part in H.
  destruct part as [|c0 part0] eqn:Ep; [congruence|]. rewrite <- Ep in *.
  clear c0 part0 Ep.
  destruct (str_eqb part (u ".") || str_eqb part (u "..")); [discriminate H|].
  rewrite cleaned_map in H.
  set (l1 := lstrip_while (N.eqb dot) (map cleaned part)) in H.
  set (q := fun c => isspace c || (c =? dot)%N) in H.
  destruct (rstrip_while q l1) as [|x r] eqn:E; [discriminate H|].
  injection H as <-.
  destruct (rstrip_prefix q l1) as [suf [E1 _]]. rewrite E in E1.
  destruct (lstrip_suffix (N.eqb dot) (map cleaned part)) as [pre [E0 _]].
  fold l1 in E0.
  assert (Hh : (dot =? hd underscore l1)%N = false).
  { apply lstrip_head. fold l1. rewrite E1. discriminate. }
  pose proof (@rstrip_last _ q l1 underscore) as Hl. rewrite E in Hl.
  specialize (Hl ltac:(discriminate)).
  clearbody l1. subst l1.
  assert (Hall : Forall (fun c => keep_char c = true /\ c <> space) (map cleaned part)).
  { apply Forall_forall. intros c Hc. apply in_map_iff in Hc.
    destruct Hc as [c' [<- _]]. apply cleaned_kept. }
  pose proof (f_equal (@length _) E0) as L0.
  rewrite length_map, !length_app in L0.
  split; [discriminate|].
  split; [lia|].
  split.
  { rewrite E0 in Hall. apply Forall_app in Hall. destruct Hall as [_ Hall].
    apply Forall_app in Hall. tauto. }
  split.
  { cbn [hd app] in Hh |- *. apply N.eqb_neq in Hh. congruence. }
  unfold q in Hl. apply orb_false_iff in Hl. destruct Hl as [Hs Hd].
  split; [apply N.eqb_neq; exact Hd|exact Hs].
Qed.

Lemma cleaned_stripped (c : N) :
  isspace (cleaned c) || (cleaned c =? dot)%N = true
  <-> c = dot \/ (isspace c = true /\ c <> space).
Proof.
  cbv beta zeta. destruct (keep_char c) eqn:K.
  - destruct (N.eqb_spec c space) as [->|Hne].
    + cbn. split; [discriminate|]. intros [H|[_ H]]; [discriminate H|congruence].
    + rewrite orb_true_iff, N.eqb_eq. tauto.
  - cbn. split; [discriminate|]. intros [->|[H _]].
    + discriminate K.
    + unfold keep_char in K. rewrite H, orb_true_r in K. discriminate K.
Qed.

(** The parts [sanitize_filename_part] refuses (with a [ValueError]) are
    the parts, not empty, made of dots and of whitespace other than the
    space character only: [.], [..], [...], a lone tab.  Every other part
    is given a name. *)
Theorem refused_parts (part : str) :
  sanitize_filename_part part = None
  <-> part <> []
      /\ Forall (fun c => c = dot \/ (isspace c = true /\ c <> space)) part.
Proof.
  unfold sanitize_filename_part.
  destruct part as [|c0 part0] eqn:Ep.
  { split; [discriminate|]. intros [H _]. congruence. }
  rewrite <- Ep. assert (Hne : part <> []) by (rewrite Ep; discriminate).
  clear c0 part0 Ep.
  destruct (str_eqb part (u ".") || str_eqb part (u "..")) eqn:Edots.
  { split; [|reflexivity]. intros _. split; [exact Hne|].
    apply orb_true_iff in Edots.
    destruct Edots as [E|E]; apply str_eqb_eq in E; subst part;
      repeat constructor. }
  rewrite cleaned_map.
  set (q := fun c => isspace c || (c =? dot)%N).
  destruct (lstrip_suffix (N.eqb dot) (map cleaned part)) as [pre [E0 F0]].
  set (l1 := lstrip_while (N.eqb dot) (map cleaned part)) in *.
  assert (Hq : forallb q l1 = true
               <-> Forall (fun c => c = dot \/ (isspace c = true /\ c <> space)) part).
  { assert (Hpre : forallb q pre = true).
    { rewrite forallb_forall in *. intros x Hx. specialize (F0 x Hx).
      apply N.eqb_eq in F0. subst x. unfold q. apply orb_true_r. }
    assert (Hmap : forallb q (map cleaned part) = true <-> forallb q l1 = true).
    { rewrite E0 at 1. rewrite forallb_app, Hpre. tauto. }
    rewrite <- Hmap, forallb_forall, Forall_forall. split.
    - intros H c Hc. apply cleaned_stripped. apply (H (cleaned c)).
      exact (@in_map _ _ cleaned part c Hc).
    - intros H x Hx. apply in_map_iff in Hx. destruct Hx as [c [<- Hc]].
      apply cleaned_stripped. exact (H c Hc). }
  pose proof (rstrip_nil q l1) as Hnil.
  destruct (rstrip_while q l1) as [|x r].
  - split; [|reflexivity]. intros _. split; [exact Hne|]. tauto.
  - split; [discriminate|]. intros [_ H]. apply Hq, Hnil in H. discriminate H.
Qed.

End WithUnicode.

Lemma sanitized_part_sample :
  @sanitize_filename_part ascii_db (u "..my report*.txt. ") = Some (u "my_report_.txt._")
  /\ u "my_report_.txt._" <> []
  /\ length (u "my_report_.txt._") <= length (u "..my report*.txt. ")
  /\ Forall (fun c => @keep_char ascii_db c = true /\ c <> space) (u "my_report_.txt._")
  /\ hd underscore (u "my_report_.txt._") <> dot
  /\ last (u "my_report_.txt._") underscore <> dot
  /\ @isspace ascii_db (last (u "my_report_.txt._") underscore) = false.
Proof.
  split; [reflexivity|].
  apply (@sanitized_part_shape ascii_db (u "..my report*.txt. ") (u "my_report_.txt._"));
    [reflexivity|discriminate].
Defined.

End Names.

(* ===================================================================== *)
(** * Triples that tell a return from an exception *)
(* ===================================================================== *)

Module Triples.
Import Py Sys Spec Logic.

Section Rules.
Context {S : Type}.
Implicit Types (P : S -> Prop) (R : exn -> S -> Prop).

Lemma triple_conseq {A} P P' (Q Q' : A -> S -> Prop) R R' (m : M S A) :
  triple P' m Q' R' -> (forall s, P s -> P' s) ->
  (forall a s, Q' a s -> Q a s) -> (forall e s, R' e s -> R e s) ->
  triple P m Q R.
Proof.
  unfold triple. intros H HP HQ HR s Hs. specialize (H s (HP s Hs)).
  destruct (m s) as [[a|e|] s']; auto.
Qed.

Lemma triple_ret {A} P (Q : A -> S -> Prop) R (a : A) :
  (forall s, P s -> Q a s) -> triple P (ret a) Q R.
Proof. unfold triple, ret. auto. Qed.

Lemma triple_raise {A} P (Q : A -> S -> Prop) R (e : exn) :
  (forall s, P s -> R e s) -> triple P (@raise S A e) Q R.
Proof. unfold triple, raise. auto. Qed.

Lemma triple_bind {A B} P (Q1 : A -> S -> Prop) (Q : B -> S -> Prop) R
    (m : M S A) (k : A -> M S B) :
  triple P m Q1 R -> (forall a, triple (Q1 a) (k a) Q R) ->
  triple P (bind m k) Q R.
Proof.
  unfold triple, bind. intros Hm Hk s Hs. specialize (Hm s Hs).
  destruct (m s) as [[a|e|] s1]; [exact (Hk a s1 Hm)|exact Hm|exact I].
Qed.

(** The state read by [get] is the state the rest starts in. *)
Lemma triple_get_bind {B} P (Q : B -> S -> Prop) R (k : S -> M S B) :
  (forall s0, triple (fun s => P s /\ s = s0) (k s0) Q R) ->
  triple P (bind get k) Q R.
Proof.
  unfold triple, bind, get. intros Hk s Hs. exact (Hk s s (conj Hs eq_refl)).
Qed.

Lemma triple_gets_bind {A B} P (Q : B -> S -> Prop) R (f : S -> A)
    (k : A -> M S B) :
  (forall s0, triple (fun s => P s /\ s = s0) (k (f s0)) Q R) ->
  triple P (bind (gets f) k) Q R.
Proof.
  unfold triple, bind, gets. intros Hk s Hs. exact (Hk s s (conj Hs eq_refl)).
Qed.

Lemma triple_modify P (Q : unit -> S -> Prop) R (f : S -> S) :
  (forall s, P s -> Q tt (f s)) -> triple P (modify f) Q R.
Proof. unfold triple, modify. auto. Qed.

Lemma triple_try_except {A} P (Q : A -> S -> Prop) R1 R (m : M S A)
    (h : exn -> option (M S A)) :
  triple P m Q R1 ->
  (forall e, match h e with
             | Some k => triple (R1 e) k Q R
             | None => forall s, R1 e s -> R e s
             end) ->
  triple P (try_except m h) Q R.
Proof.
  unfold triple, try_except. intros Hm Hh s Hs. specialize (Hm s Hs).
  destruct (m s) as [[a|e|] s1]; [exact Hm| |exact I].
  specialize (Hh e). destruct (h e) as [k|]; [exact (Hh s1 Hm)|exact (Hh s1 Hm)].
Qed.

Lemma triple_try_finally {A} P (Q1 Q : A -> S -> Prop) R1 R (m : M S A)
    (f : M S unit) :
  triple P m Q1 R1 ->
  (forall a, triple (Q1 a) f (fun _ => Q a) R) ->
  (forall e, triple (R1 e) f (fun _ => R e) R) ->
  triple P (try_finally m f) Q R.
Proof.
  unfold triple, try_finally. intros Hm Hq Hr s Hs. specialize (Hm s Hs).
  destruct (m s) as [[a|e|] s1]; [| |exact I].
  - specialize (Hq a s1 Hm). destruct (f s1) as [[[]|e'|] s2]; exact Hq.
  - specialize (Hr e s1 Hm). destruct (f s1) as [[[]|e'|] s2]; exact Hr.
Qed.

(** What holds however a call ends holds when it returns and when it
    raises. *)
Lemma triple_of_hoare {A} P (J : S -> Prop) (m : M S A) :
  hoare P m J -> triple P m (fun _ => J) (fun _ => J).
Proof.
  unfold hoare, triple. intros H s Hs.
  destruct (m s) as [[a|e|] s1] eqn:E; [exact (H _ _ _ Hs E)..|exact I].
Qed.

(** A call that keeps [J] through. *)
Lemma triple_step {A} (J : S -> Prop) R (m : M S A) :
  stable J m -> (forall e s, J s -> R e s) -> triple J m (fun _ => J) R.
Proof.
  intros H HR. eapply triple_conseq; [apply triple_of_hoare; exact H|..]; auto.
Qed.

Lemma triple_conj {A} P P' (Q Q' : A -> S -> Prop) R R' (m : M S A) :
  triple P m Q R -> triple P' m Q' R' ->
  triple (fun s => P s /\ P' s) m (fun a s => Q a s /\ Q' a s)
         (fun e s => R e s /\ R' e s).
Proof.
  unfold triple. intros H H' s [Hs Hs']. specialize (H s Hs). specialize (H' s Hs').
  destruct (m s) as [[a|e|] s1]; auto.
Qed.

End Rules.

End Triples.

(* ===================================================================== *)
(** * What the success flag of the single-file receiver stands for *)
(* ===================================================================== *)

Module SingleSuccess.
Import Py Sys Spec Logic RunFacts FSFacts Triples single_file_handler.

(** No success yet, no failure yet, nothing received yet. *)
Local Abbreviation fresh :=
  (fun s : env => transfer_success s = false /\ is_cancelled s = false
                  /\ received_bytes s = 0%Z).
Local Abbreviation sized :=
  (fun s : env => (transfer_success s = false /\ is_cancelled s = false
                   /\ received_bytes s = 0%Z) /\ (0 <= filesize s)%Z).
Local Abbreviation unset := (fun s : env => transfer_success s = false).

Section WithUnicode.
Context {db : UnicodeDB}.

Lemma fresh_say e : stable fresh (say e).
Proof. unfold say. walk idtac. Qed.

Lemma sized_through_say e : stable sized (say e).
Proof. unfold say. walk idtac. Qed.

Lemma unset_say e : stable unset (say e).
Proof. unfold say. walk idtac. Qed.

Lemma fresh_read_header t : stable fresh (read_header t).
Proof. unfold read_header. walk idtac. Qed.

Lemma sized_through_read_header t : stable sized (read_header t).
Proof. unfold read_header. walk idtac. Qed.

(** A header that is accepted has a size that is not negative. *)
Lemma parse_header_sized :
  triple fresh parse_header (fun _ => sized) (fun _ => unset).
Proof.
  unfold parse_header.
  eapply triple_bind; [apply triple_step; [apply fresh_read_header|tauto]|].
  intros header_part1. eapply triple_bind with (Q1 := fun _ => fresh).
  { apply triple_modify. cbn. tauto. }
  intros _.
  eapply triple_bind; [apply triple_step; [apply fresh_read_header|tauto]|].
  intros header_part2. eapply triple_bind with (Q1 := fun _ => sized).
  { eapply triple_try_except with (R1 := fun _ => unset).
    - destruct (int header_part2) as [n|]; [|apply triple_raise; tauto].
      eapply triple_bind with (Q1 := fun _ s => fresh s /\ filesize s = n).
      { apply triple_modify. cbn. tauto. }
      intros _. destruct (n <? 0)%Z eqn:En; [apply triple_raise; tauto|].
      apply Z.ltb_ge in En.
      destruct (n >? _)%Z.
      + eapply triple_bind with (Q1 := fun _ => unset).
        * eapply triple_conseq;
            [apply triple_of_hoare; apply (stable_format_bytes unset)|..];
            cbv beta; tauto.
        * intros _. eapply triple_bind with (Q1 := fun _ => unset).
          -- eapply triple_conseq; [apply triple_of_hoare; apply unset_say|..];
               cbv beta; tauto.
          -- intros _. apply triple_raise. tauto.
      + apply triple_ret. intros s [H E]. split; [exact H|lia].
    - intros e. destruct (isinstance e ValueError).
      + apply triple_raise. tauto.
      + tauto. }
  intros _.
  eapply triple_bind; [apply triple_step; [apply sized_through_read_header|tauto]|].
  intros header_part3.
  apply triple_step; [|tauto].
  pose proof sized_through_say. walk ltac:(eauto).
Qed.

Lemma prepare_path_sized (name : str) :
  triple sized (prepare_path name) (fun a s => if a then sized s else unset s)
         (fun _ => unset).
Proof.
  unfold prepare_path.
  eapply triple_try_except with (R1 := fun _ => sized).
  - eapply triple_bind; [apply triple_step; [walk idtac|tauto]|].
    intros base. eapply triple_bind; [apply triple_step; [walk idtac|tauto]|].
    intros present. eapply triple_bind; [apply triple_step; [walk idtac|tauto]|].
    intros ?. eapply triple_bind; [apply triple_step; [walk idtac|tauto]|].
    intros file_path_base. destruct (PosixPath.splitext file_path_base) as [base0 ext].
    eapply triple_bind; [apply triple_step; [walk idtac|tauto]|].
    intros final. eapply triple_bind with (Q1 := fun _ => sized).
    { apply triple_modify. cbn. tauto. }
    intros ?. apply triple_ret. tauto.
  - intros e. destruct (_ || _).
    + eapply triple_bind; [apply triple_step; [apply sized_through_say|tauto]|].
      intros ?. eapply triple_bind; [apply triple_step; [apply sized_through_say|tauto]|].
      intros ?. eapply triple_bind with (Q1 := fun _ => unset).
      { apply triple_modify. cbn. tauto. }
      intros ?. apply triple_ret. tauto.
    + tauto.
Qed.

End WithUnicode.

Section Receiving.
Variables (handle path cwd : str) (rbs : Z).

Local Abbreviation filling := (Spec.filling handle path cwd).

(** A step that leaves the disk, the directory and the counters alone. *)
Lemma filling_frame (s s' : env) :
  filling s ->
  transfer_success s' = false -> file_path s' = file_path s ->
  w_cwd (W s') = w_cwd (W s) -> w_fs (W s') = w_fs (W s) ->
  received_bytes s' = received_bytes s -> filesize s' = filesize s ->
  filling s'.
Proof.
  unfold Spec.filling. intros (H1 & H2 & H3 & H4 & c & H5 & H6) E1 E2 E3 E4 E5 E6.
  rewrite E2, E3, E4, E5, E6. repeat split; auto. exists c. auto.
Qed.

(** A chunk written and counted. *)
Lemma filling_write (s : env) (chunk : bytes) :
  filling s -> (received_bytes s + len chunk <= filesize s)%Z ->
  filling (set_received_bytes (received_bytes s + len chunk)
             (with_world (set_fs (FS.append (w_fs (W s)) handle chunk) (W s)) s)).
Proof.
  unfold Spec.filling. intros (H1 & H2 & H3 & H4 & c & H5 & H6) Hroom. cbn.
  repeat split; auto. exists (c ++ chunk). split.
  - apply append_file. exact H5.
  - unfold len in *. rewrite length_app. lia.
Qed.

Lemma filling_loop :
  forall (rounds : nat) (s : env) r (s' : env),
    filling s -> receive_loop rounds handle rbs s = (r, s') -> filling s'.
Proof.
  induction rounds as [|rounds IH]; intros s r s' Hs E.
  - cbn in E. inversion E; subst. exact Hs.
  - cbn [receive_loop] in E. rewrite bind_get in E.
    destruct (received_bytes s <? filesize s)%Z eqn:Eless;
      [|inversion E; subst; exact Hs].
    apply Z.ltb_lt in Eless. rewrite bind_lift in E.
    destruct (is_set_polled (the_world s)) as [cancelled [w0 [E0 P0]]].
    rewrite E0 in E. cbv beta iota in E.
    destruct P0 as (_ & P0c & P0f & P0w & P0n & _).
    cbn [the_world env_has_world] in *.
    assert (H0 : filling (with_world w0 s)).
    { apply (@filling_frame s _ Hs); cbn; auto. apply Hs. }
    destruct cancelled.
    { unfold say in E. rewrite bind_lift in E. cbn in E. inversion E; subst.
      apply (@filling_frame _ _ H0); cbn; auto. apply Hs. }
    set (size := Z.min rbs (filesize s - received_bytes s)) in E.
    destruct (size <=? 0)%Z eqn:Esize.
    { cbn in E. inversion E; subst. exact H0. }
    apply Z.leb_gt in Esize.
    unfold bind at 1 in E. unfold try_except at 1 in E. rewrite bind_lift in E.
    unfold recv in E.
    replace (size <? 0)%Z with false in E by (symmetry; apply Z.ltb_ge; lia).
    cbn [the_world with_world env_has_world W set_W] in E.
    change (w_net (log_recv size w0)) with (w_net w0) in E.
    change (w_wire (log_recv size w0)) with (w_wire w0) in E.
    destruct (w_net w0) as [|[dt ev] net].
    { inversion E; subst. apply (@filling_frame _ _ H0); cbn; auto. apply Hs. }
    destruct ev as [n| |]; cbv beta iota zeta in E.
    + set (k := Nat.min (Nat.min (Pos.to_nat n) (Z.to_nat size))
                        (length (w_wire w0))) in E.
      set (s1 := with_world (after_recv dt k net (log_recv size w0)) s) in E.
      assert (H1 : filling s1).
      { apply (@filling_frame _ _ H0); cbn; auto. apply Hs. }
      assert (Hk : (Z.of_nat k <= filesize s - received_bytes s)%Z)
        by (unfold k, size; lia).
      unfold ret at 1 in E. cbv beta iota in E.
      destruct (firstn k (w_wire w0)) as [|c0 chunk] eqn:Echunk.
      * unfold say in E. rewrite bind_lift in E. cbn in E. inversion E; subst.
        apply (@filling_frame _ _ H1); cbn; auto. apply Hs.
      * rewrite <- Echunk in *. clear c0 chunk Echunk.
        unfold write in E. rewrite bind_lift_modify, bind_modify in E.
        refine (IH _ _ _ _ E).
        apply (@filling_write s1 (firstn k (w_wire w0)) H1).
        cbn. unfold len. rewrite length_firstn. lia.
    + cbn in E. refine (IH _ _ _ _ E).
      apply (@filling_frame _ _ H0); cbn; auto. apply Hs.
    + unfold say in E. cbn in E. inversion E; subst.
      apply (@filling_frame _ _ H0); cbn; auto. apply Hs.
Qed.

End Receiving.

Lemma unset_stored (s : env) : transfer_success s = false -> whole_file_stored s.
Proof. unfold whole_file_stored. intros H K. congruence. Qed.

(** A step that leaves the disk, the directory and the variables alone. *)
Lemma stored_frame (s s' : env) :
  whole_file_stored s ->
  transfer_success s' = transfer_success s -> is_cancelled s' = is_cancelled s ->
  received_bytes s' = received_bytes s -> filesize s' = filesize s ->
  file_path s' = file_path s ->
  w_cwd (W s') = w_cwd (W s) -> w_fs (W s') = w_fs (W s) ->
  whole_file_stored s'.
Proof.
  unfold whole_file_stored. intros H E1 E2 E3 E4 E5 E6 E7.
  rewrite E1, E2, E3, E4, E5, E6, E7. exact H.
Qed.

(** The bytes of the payload that came with the header. *)
Lemma filling_buffer (handle path cwd : str) (s0 s : env) :
  filling handle path cwd s -> received_bytes s = 0%Z ->
  exists s1,
    (match current_remaining_buffer s0 with
     | [] => ret tt
     | buffer =>
         let bytes_to_write_now :=
           Z.min (len buffer) (filesize s0 - received_bytes s0) in
         (if (bytes_to_write_now >? 0)%Z then
            lift (write handle (firstn (Z.to_nat bytes_to_write_now) buffer)) ;;
            modify (fun s => set_received_bytes
                               (received_bytes s + bytes_to_write_now) s)
          else ret tt) ;;
         modify (set_current_remaining_buffer [])
     end) s = (Ret tt, s1)
    /\ (filesize s0 = filesize s -> received_bytes s0 = 0%Z ->
        filling handle path cwd s1).
Proof.
  intros Hs H0.
  destruct (current_remaining_buffer s0) as [|c0 buffer0] eqn:Eb.
  { exists s. split; [reflexivity|auto]. }
  rewrite <- Eb. clear c0 buffer0 Eb. cbv zeta.
  set (n := Z.min (len (current_remaining_buffer s0))
                  (filesize s0 - received_bytes s0)).
  destruct (n >? 0)%Z eqn:En.
  - unfold write. rewrite bind_assoc, bind_lift_modify, bind_modify.
    eexists. split; [reflexivity|]. intros Ef E0.
    rewrite Z.gtb_ltb in En. apply Z.ltb_lt in En.
    assert (Hlen : len (firstn (Z.to_nat n) (current_remaining_buffer s0)) = n).
    { unfold len. rewrite length_firstn. unfold n, len in *. lia. }
    pose proof (@filling_write handle path cwd s
                  (firstn (Z.to_nat n) (current_remaining_buffer s0)) Hs) as Hw.
    rewrite Hlen in Hw.
    apply (@filling_frame handle path cwd _ _ (Hw ltac:(unfold n; lia)));
      first [reflexivity | cbn; apply Hs].
  - rewrite bind_ret. eexists. split; [reflexivity|]. intros _ _.
    apply (@filling_frame handle path cwd _ _ Hs); try reflexivity. apply Hs.
Qed.

Lemma receive_body_stored (rbs : Z) :
  hoare sized (receive_body rbs) whole_file_stored.
Proof.
  intros s r s' [[Hu [Hc H0]] Hsize] E.
  unfold receive_body in E. rewrite bind_get in E.
  destruct (file_path s) as [path|] eqn:Epath;
    [|inversion E; subst; apply unset_stored; exact Hu].
  destruct (filesize s =? 0)%Z eqn:Ezero.
  - apply Z.eqb_eq in Ezero. unfold try_except in E. rewrite bind_lift in E.
    unfold open_wb in E. cbn [the_world env_has_world] in E.
    destruct (FS.open_wb _ _) as [f|] eqn:Eo.
    + cbn in E. inversion E; subst. unfold whole_file_stored. cbn. intros _.
      split; [exact Hc|]. split; [congruence|].
      exists path, []. split; [exact Epath|].
      split; [exact (open_wb_creates _ _ Eo)|]. rewrite Ezero. reflexivity.
    + cbn in E. inversion E; subst. apply unset_stored. exact Hu.
  - apply Z.eqb_neq in Ezero. rewrite bind_lift in E. unfold open_wb in E.
    cbn [the_world env_has_world] in E.
    destruct (FS.open_wb _ _) as [f|] eqn:Eo;
      [|inversion E; subst; apply unset_stored; exact Hu].
    rewrite bind_modify in E.
    set (q := PosixPath.abspath (w_cwd (W s)) path) in *.
    set (s2 := set_file_handle (Some q) (with_world (set_fs f (W s)) s)) in E.
    assert (H2 : filling q path (w_cwd (W s)) s2).
    { unfold Spec.filling. cbn. repeat split; auto; [lia|].
      exists []. split; [exact (open_wb_creates _ _ Eo)|]. rewrite H0. reflexivity. }
    destruct (@filling_buffer q path (w_cwd (W s)) s s2 H2 H0) as [s3 [E3 H3]].
    specialize (H3 eq_refl H0).
    rewrite (@bind_returns _ _ _ _ _ _ _ _ E3) in E. rewrite bind_gets in E.
    unfold bind at 1 in E.
    destruct (receive_loop _ q rbs s3) as [r4 s4] eqn:El.
    pose proof (@filling_loop q path (w_cwd (W s)) rbs _ _ _ _ H3 El) as H4.
    destruct r4 as [[]|e|];
      [|inversion E; subst; apply unset_stored; apply H4..].
    rewrite bind_get in E.
    destruct (negb (is_cancelled s4) && (received_bytes s4 >=? filesize s4)%Z) eqn:Eok;
      [|inversion E; subst; apply unset_stored; apply H4].
    apply andb_prop in Eok. destruct Eok as [Enc Ege].
    apply negb_true_iff in Enc. rewrite Z.geb_leb in Ege. apply Z.leb_le in Ege.
    inversion E; subst. destruct H4 as (_ & Hp & Hcwd & Hle & c & Hl & Hlen).
    unfold whole_file_stored. cbn. intros _.
    split; [exact Enc|]. split; [lia|].
    exists path, c. split; [exact Hp|]. rewrite Hcwd. split; [exact Hl|lia].
Qed.

Lemma unset_cleanup : stable unset cleanup.
Proof. pose proof unset_say. unfold cleanup. walk ltac:(eauto). Qed.

Lemma cleanup_stored : stable whole_file_stored cleanup.
Proof.
  intros s r s' Hs E. destruct (transfer_success s) eqn:Es.
  - unfold cleanup in E. rewrite bind_get in E.
    destruct (file_path s) as [path|]; [|inversion E; subst; exact Hs].
    rewrite bind_lift in E. unfold path_exists, gets in E. rewrite Es in E.
    cbn in E. inversion E; subst.
    apply (@stored_frame s _ Hs); reflexivity.
  - apply unset_stored. eapply unset_cleanup; [|exact E]. exact Es.
Qed.

Lemma receive_file_stored (rbs : Z) :
  hoare sized (receive_file rbs) whole_file_stored.
Proof.
  intros s r s' Hs E. unfold receive_file in E. rewrite bind_modify in E.
  unfold try_finally, try_except in E.
  destruct (receive_body rbs _) as [rb sb] eqn:Eb.
  assert (Hb : whole_file_stored sb).
  { eapply receive_body_stored; [|exact Eb]. exact Hs. }
  destruct rb as [[]|e|].
  - destruct (cleanup sb) as [rc sc] eqn:Ec.
    assert (Hc : whole_file_stored sc) by (eapply cleanup_stored; [exact Hb|exact Ec]).
    destruct rc as [[]|e|]; inversion E; subst; exact Hc.
  - match type of E with
    | context [match ?h sb with _ => _ end] =>
        destruct (h sb) as [rh sh] eqn:Eh
    end.
    assert (Hh : rh = Ret tt /\ whole_file_stored sh).
    { rewrite bind_get in Eh. destruct (is_cancelled sb).
      - inversion Eh; subst. auto.
      - unfold say in Eh. cbn in Eh. inversion Eh; subst.
        split; [reflexivity|]. apply unset_stored. reflexivity. }
    destruct Hh as [-> Hh].
    destruct (cleanup sh) as [rc sc] eqn:Ec.
    assert (Hc : whole_file_stored sc) by (eapply cleanup_stored; [exact Hh|exact Ec]).
    destruct rc as [[]|e'|]; inversion E; subst; exact Hc.
  - inversion E; subst. exact Hb.
Qed.

Lemma finally_stored (s : env) :
  whole_file_stored s ->
  match (lift close_socket ;;
         s <- get ;;
         (if transfer_success s then ret tt
          else if is_cancelled s then say StTransferCancelled
          else say StTransferFailed) ;;
         say StHandlerFinished ;;
         say OnTransferFinished) s with
  | (_, s') => whole_file_stored s'
  end.
Proof.
  intros Hs. unfold bind, get, lift, close_socket, modify, say, gui, ret. cbn.
  destruct (transfer_success s) eqn:Es; [|destruct (is_cancelled s) eqn:Ec]; cbn;
    apply (@stored_frame s _ Hs); reflexivity.
Qed.

(** Formatting a size for the log stores nothing and sets no flag. *)
Lemma sized_format_bytes {db : UnicodeDB} (n : Z) :
  triple sized (utils.format_bytes n) (fun _ => sized) (fun _ => whole_file_stored).
Proof.
  eapply triple_conseq;
    [apply triple_of_hoare; apply (stable_format_bytes sized)|..];
    cbv beta; [tauto|auto|].
  intros ? s H. apply unset_stored. apply H.
Qed.

Lemma handler_stored {db : UnicodeDB} (rbs : Z) :
  triple fresh (handle_client_connection rbs) (fun _ => whole_file_stored)
         (fun _ => whole_file_stored).
Proof.
  unfold handle_client_connection.
  eapply triple_bind; [apply triple_step; [apply fresh_say|]|].
  { intros ? s H. apply unset_stored. apply H. }
  intros ?.
  eapply triple_try_finally with (Q1 := fun _ => whole_file_stored)
                                 (R1 := fun _ => whole_file_stored).
  - eapply triple_try_except with (R1 := fun _ => whole_file_stored).
    + eapply triple_bind with (Q1 := fun _ => sized).
      { eapply triple_conseq; [apply parse_header_sized|auto..].
        intros ? s H. apply unset_stored. exact H. }
      intros ?. eapply triple_bind; [apply triple_step; [walk idtac|]|].
      { intros ? s H. apply unset_stored. apply H. }
      intros cancelled. destruct cancelled.
      * eapply triple_bind; [apply triple_step; [apply sized_through_say|]|].
        { intros ? s H. apply unset_stored. apply H. }
        intros ?. apply triple_modify. intros s H. apply unset_stored. apply H.
      * apply triple_get_bind. intros s0.
        eapply triple_bind with (Q1 := fun _ => sized);
          [eapply triple_conseq; [apply sized_format_bytes|..];
             cbv beta; [tauto|auto|auto]
          |intros ?].
        eapply triple_bind with (Q1 := fun _ => sized).
        { eapply triple_conseq; [apply triple_of_hoare; apply sized_through_say|..];
            cbv beta; [tauto|auto|].
          intros ? s H. apply unset_stored. apply H. }
        intros ?.
        eapply triple_bind with (Q1 := fun _ => sized);
          [apply sized_format_bytes|intros ?].
        eapply triple_bind with (Q1 := fun _ => sized);
          [apply sized_format_bytes|intros ?].
        eapply triple_bind
          with (Q1 := fun (a : bool) (s : env) => if a then sized s else unset s).
        { eapply triple_conseq; [apply prepare_path_sized|auto..].
          intros ? s H. apply unset_stored. exact H. }
        intros prepared. destruct prepared.
        -- apply triple_of_hoare. apply receive_file_stored.
        -- apply triple_ret. intros s H. apply unset_stored. exact H.
    + intros e. destruct (_ || _).
      * intros s _. unfold say. cbn. apply unset_stored. reflexivity.
      * intros s Hs. rewrite bind_get. destruct (is_cancelled s); [exact Hs|].
        unfold say. cbn. apply unset_stored. reflexivity.
  - intros r0 s Hs. pose proof (finally_stored Hs) as H.
    match type of H with
    | match ?m with _ => _ end => destruct m as [[[]|e1|] s']
    end; [exact H|exact H|exact I].
  - intros e0 s Hs. pose proof (finally_stored Hs) as H.
    match type of H with
    | match ?m with _ => _ end => destruct m as [[[]|e1|] s']
    end; [exact H|exact H|exact I].
Qed.

End SingleSuccess.

Module SuccessFlag.
Import Py Sys Spec.

(** When the single-file handler returns with its success flag set, the
    transfer was not cancelled, the bytes counted are as many as the header
    declared, and the file saved under [file_path] is on the disk with
    that many bytes. *)
Theorem success_is_a_whole_file {db : UnicodeDB} (rbs : Z) (initial_buffer : bytes)
    (w : world) :
  match single_file_handler.run rbs initial_buffer w with
  | (Ret _, s') => whole_file_stored s'
  | (Raise _, _) => False
  | (Blocked, _) => True
  end.
Proof.
  pose proof (SingleEnd.single_ends StNewConnection rbs
                (single_file_handler.initial_env initial_buffer w)) as He.
  pose proof (@SingleSuccess.handler_stored db rbs
                (single_file_handler.initial_env initial_buffer w)) as Hs.
  unfold single_file_handler.run.
  destruct (single_file_handler.handle_client_connection _ _) as [[a|e|] s'].
  - apply Hs. cbn. auto.
  - exact He.
  - exact I.
Qed.

End SuccessFlag.

(* ===================================================================== *)
(** * The response of the handshake *)
(* ===================================================================== *)

Module Response.
Import Py Sys Spec handshake.

(** The receiver's side of the handshake returns whatever happens, after
    one call of [sendall], with the signal of the verification result:
    when the call succeeds the signal is what was sent, when it fails
    nothing was sent and no second attempt is made.  Nothing is read from
    the socket, and the socket is not closed. *)
Theorem response_is_sent_once (verification_result : bool) (w : world) :
  let signal := if verification_result
                then config.HANDSHAKE_COMPLETE_OK_SIGNAL
                else config.HANDSHAKE_ERROR_SIGNAL in
  let sent := match w_sendok w with false :: _ => [] | _ => [signal] end in
  let w' := snd (perform_folder_handshake_server verification_result w) in
  fst (perform_folder_handshake_server verification_result w) = Ret tt
  /\ w_sent w' = w_sent w ++ sent
  /\ w_sendok w' = tl (w_sendok w)
  /\ w_recv_log w' = w_recv_log w /\ w_wire w' = w_wire w /\ w_net w' = w_net w
  /\ w_fs w' = w_fs w /\ w_closed w' = w_closed w.
Proof.
  unfold perform_folder_handshake_server, try_except, bind, gui, modify, sendall.
  destruct verification_result; cbn;
    destruct (w_sendok w) as [|[|] rest]; cbn;
    rewrite ?app_nil_r; repeat split; reflexivity.
Qed.

End Response.

(* ===================================================================== *)
(** * The bytes of a file in a folder session *)
(* ===================================================================== *)

Module FolderData.
Import Py Sys Spec Logic RunFacts FSFacts FolderRun folder_handler.

Section Data.
Variables (handle : str) (stream : bytes) (base : Z).

Local Abbreviation streaming := (Spec.streaming handle stream base).

(** A step that leaves the file, the buffer, the wire and the counters
    alone. *)
Lemma streaming_frame (s s' : env) :
  streaming s ->
  w_fs (W s') = w_fs (W s) -> w_wire (W s') = w_wire (W s) ->
  received_buffer s' = received_buffer s ->
  current_file_bytes_received s' = current_file_bytes_received s ->
  current_file_bytes_expected s' = current_file_bytes_expected s ->
  received_bytes_total s' = received_bytes_total s ->
  streaming s'.
Proof.
  unfold Spec.streaming. intros (c & H1 & H2 & H3 & H4 & H5) E1 E2 E3 E4 E5 E6.
  exists c. rewrite E1, E2, E3, E4, E5, E6. auto.
Qed.

(** Step 1 of a round: bytes go from the buffer to the file. *)
Lemma streaming_take (s : env) :
  streaming s ->
  exists complete s1,
    take_from_buffer handle
      (current_file_bytes_expected s - current_file_bytes_received s) s
    = (Ret complete, s1)
    /\ streaming s1
    /\ current_file_bytes_expected s1 = current_file_bytes_expected s
    /\ w_net (W s1) = w_net (W s).
Proof.
  intros Hs. pose proof Hs as (c & H1 & H2 & H3 & H4 & H5).
  unfold take_from_buffer. rewrite bind_get.
  destruct (len (received_buffer s) >? 0)%Z eqn:Eav.
  2:{ eexists. eexists. split; [reflexivity|auto]. }
  cbv zeta.
  set (n := Z.min (len (received_buffer s))
                  (current_file_bytes_expected s - current_file_bytes_received s)).
  destruct (n >? 0)%Z eqn:En.
  2:{ rewrite bind_ret, bind_get. eexists. eexists. split; [reflexivity|auto]. }
  rewrite Z.gtb_ltb in En. apply Z.ltb_lt in En.
  unfold write.
  repeat first [rewrite bind_assoc | rewrite bind_lift_modify | rewrite bind_modify].
  rewrite bind_get.
  eexists. eexists. split; [reflexivity|].
  split; [|split; reflexivity].
  unfold Spec.streaming. cbn.
  exists (c ++ firstn (Z.to_nat n) (received_buffer s)).
  assert (Hlen : len (firstn (Z.to_nat n) (received_buffer s)) = n).
  { unfold len. rewrite length_firstn. unfold n, len in *. lia. }
  split; [apply append_file; exact H1|].
  split; [unfold len in *; rewrite length_app; lia|].
  split; [unfold n; lia|].
  split; [|lia].
  rewrite <- H4, <- !app_assoc. f_equal. rewrite app_assoc, firstn_skipn.
  reflexivity.
Qed.

Lemma streaming_loop (rbs : Z) :
  forall (rounds : nat) (s : env) r (s' : env),
    streaming s -> data_loop rounds handle rbs s = (r, s') ->
    streaming s'
    /\ current_file_bytes_expected s' = current_file_bytes_expected s.
Proof.
  induction rounds as [|rounds IH]; intros s r s' Hs E.
  - cbn in E. inversion E; subst. auto.
  - cbn [data_loop] in E. rewrite bind_get in E.
    destruct (current_file_bytes_received s <? current_file_bytes_expected s)%Z;
      [|inversion E; subst; auto].
    rewrite bind_lift in E.
    destruct (is_set_polled (the_world s)) as [cancelled [w0 [E0 P0]]].
    rewrite E0 in E. cbv beta iota in E.
    destruct P0 as (_ & P0c & P0f & P0w & P0n & _).
    cbn [the_world env_has_world] in *.
    assert (H0 : streaming (with_world w0 s)).
    { apply (@streaming_frame s _ Hs); cbn; auto. }
    destruct cancelled.
    { inversion E; subst. split; [|reflexivity].
      apply (@streaming_frame _ _ H0); reflexivity. }
    cbv zeta in E.
    destruct (streaming_take H0) as [complete [s1 [E1 [H1 [X1 N1]]]]].
    cbn [with_world env_has_world current_file_bytes_expected
         current_file_bytes_received set_W] in E1.
    rewrite (@bind_returns _ _ _ _ _ _ _ _ E1) in E.
    cbn in X1.
    destruct complete; [inversion E; subst; auto|].
    rewrite bind_get in E.
    destruct (current_file_bytes_received s1 <? current_file_bytes_expected s1)%Z eqn:Emore.
    2:{ destruct (IH _ _ _ H1 E) as [H2 X2]. split; [exact H2|congruence]. }
    set (size := Z.max 0 (Z.min rbs (current_file_bytes_expected s
                                     - current_file_bytes_received s))) in E.
    destruct (size >? 0)%Z eqn:Esize.
    2:{ destruct (IH _ _ _ H1 E) as [H2 X2]. split; [exact H2|congruence]. }
    rewrite Z.gtb_ltb in Esize. apply Z.ltb_lt in Esize.
    unfold bind at 1 in E. unfold try_except at 1 in E. rewrite bind_lift in E.
    unfold recv in E.
    replace (size <? 0)%Z with false in E by (symmetry; apply Z.ltb_ge; lia).
    cbn [the_world with_world env_has_world] in E.
    change (w_net (log_recv size (W s1))) with (w_net (W s1)) in E.
    change (w_wire (log_recv size (W s1))) with (w_wire (W s1)) in E.
    destruct (w_net (W s1)) as [|[dt ev] net].
    { inversion E; subst. split; [|exact X1].
      apply (@streaming_frame _ _ H1); reflexivity. }
    destruct ev as [n| |]; cbv beta iota zeta in E.
    + set (k := Nat.min (Nat.min (Pos.to_nat n) (Z.to_nat size))
                        (length (w_wire (W s1)))) in E.
      unfold ret at 1 in E. cbv beta iota in E.
      destruct (firstn k (w_wire (W s1))) as [|c0 chunk] eqn:Echunk.
      * assert (Hw : skipn k (w_wire (W s1)) = w_wire (W s1)).
        { rewrite <- (firstn_skipn k (w_wire (W s1))) at 2. rewrite Echunk.
          reflexivity. }
        assert (Hend : s' = set_W (after_recv dt k net (log_recv size (W s1))) s1).
        { destruct (_ <? _)%Z; inversion E; reflexivity. }
        subst s'. split; [|exact X1].
        apply (@streaming_frame _ _ H1); cbn; auto.
      * rewrite <- Echunk in *. clear c0 chunk Echunk.
        rewrite bind_modify in E.
        match type of E with
        | data_loop _ _ _ ?st = _ => assert (H2 : streaming st)
        end.
        { destruct H1 as (c & G1 & G2 & G3 & G4 & G5).
          unfold Spec.streaming. cbn. exists c.
          repeat split; auto.
          rewrite <- G4. rewrite <- !app_assoc. f_equal. f_equal.
          rewrite firstn_skipn. reflexivity. }
        destruct (IH _ _ _ H2 E) as [H3 X3]. split; [exact H3|].
        cbn in X3. congruence.
    + cbn in E.
      match type of E with
      | data_loop _ _ _ ?st = _ => assert (H2 : streaming st)
      end.
      { apply (@streaming_frame _ _ H1); cbn; auto. }
      destruct (IH _ _ _ H2 E) as [H3 X3]. split; [exact H3|].
      cbn in X3. congruence.
    + cbn in E. inversion E; subst. split; [|exact X1].
      apply (@streaming_frame _ _ H1); reflexivity.
Qed.

End Data.

(** The bytes written into the file of a folder session are the head of the
    stream: after [on_file_data], however it ends, the file holds the first
    bytes of what was in the receive buffer followed by what the peer had
    sent, as many as are counted for it and not more than declared; the
    rest of the stream is in the receive buffer and on the wire, in order,
    for the next header; and the session total has grown by the bytes of
    the file. *)
Theorem file_bytes_are_the_head_of_the_stream (handle : str) (rbs : Z)
    (s : env) r (s' : env) :
  let stream := received_buffer s ++ w_wire (W s) in
  let n := Z.to_nat (current_file_bytes_received s') in
  FS.lookup handle (w_fs (W s)) = Some (FS.File []) ->
  current_file_bytes_received s = 0%Z ->
  (0 <= current_file_bytes_expected s)%Z ->
  on_file_data handle rbs s = (r, s') ->
  FS.lookup handle (w_fs (W s')) = Some (FS.File (firstn n stream))
  /\ received_buffer s' ++ w_wire (W s') = skipn n stream
  /\ (0 <= current_file_bytes_received s' <= current_file_bytes_expected s)%Z
  /\ received_bytes_total s'
     = (received_bytes_total s + current_file_bytes_received s')%Z.
Proof.
  intros stream n Hfile Hzero Hsize E.
  assert (H0 : Spec.streaming handle stream (received_bytes_total s) s).
  { exists []. cbn. rewrite Hzero. repeat split; auto. lia. }
  assert (H1 : Spec.streaming handle stream (received_bytes_total s) s'
               /\ current_file_bytes_expected s' = current_file_bytes_expected s).
  { unfold on_file_data in E. rewrite bind_gets in E. unfold bind at 1 in E.
    destruct (data_loop _ handle rbs s) as [r1 s1] eqn:El.
    destruct (streaming_loop _ _ H0 El) as [H1 X1].
    destruct r1 as [[]|e|]; [|inversion E; subst; auto..].
    rewrite bind_get in E.
    destruct (_ =? _)%Z; [|inversion E; subst; auto].
    destruct (FolderEnd.close_current_file_returns s1) as [s2 [E2 W2]].
    assert (F2 : received_buffer s2 = received_buffer s1
                 /\ current_file_bytes_received s2 = current_file_bytes_received s1
                 /\ current_file_bytes_expected s2 = current_file_bytes_expected s1
                 /\ received_bytes_total s2 = received_bytes_total s1).
    { unfold close_current_file in E2. rewrite bind_get in E2.
      destruct (current_file_handle s1); inversion E2; subst; auto. }
    rewrite (@bind_returns _ _ _ _ _ _ _ _ E2) in E.
    unfold say in E. cbn in E. inversion E; subst.
    split; [|cbn; intuition congruence].
    apply (@streaming_frame handle stream _ _ _ H1); cbn;
      first [rewrite W2; reflexivity | intuition congruence]. }
  destruct H1 as [(c & G1 & G2 & G3 & G4 & G5) X].
  assert (Hc : c = firstn n stream /\ received_buffer s' ++ w_wire (W s') = skipn n stream).
  { assert (Hn : n = length c) by (unfold n, len in *; lia).
    rewrite Hn, <- G4. rewrite firstn_app, Nat.sub_diag, firstn_all. cbn [firstn].
    rewrite app_nil_r, skipn_app, Nat.sub_diag, skipn_all. auto. }
  destruct Hc as [<- Hrest].
  split; [exact G1|]. split; [exact Hrest|].
  split; [unfold len in *; lia|exact G5].
Qed.

Lemma file_bytes_sample :
  exists r s',
    on_file_data (u "/home/user/received_folders/docs/a.txt") 4096 receiving_sample
    = (r, s')
    /\ current_file_bytes_received s' = 5%Z
    /\ firstn 5 (b "hello!FDR_V1|") = b "hello"
    /\ (FS.lookup (u "/home/user/received_folders/docs/a.txt") (w_fs (W s'))
        = Some (FS.File (firstn (Z.to_nat (current_file_bytes_received s'))
                           (received_buffer receiving_sample
                            ++ w_wire (W receiving_sample))))
        /\ received_buffer s' ++ w_wire (W s')
           = skipn (Z.to_nat (current_file_bytes_received s'))
               (received_buffer receiving_sample ++ w_wire (W receiving_sample))
        /\ (0 <= current_file_bytes_received s'
            <= current_file_bytes_expected receiving_sample)%Z
        /\ received_bytes_total s'
           = (received_bytes_total receiving_sample
              + current_file_bytes_received s')%Z).
Proof.
  eexists. eexists. split; [vm_compute; reflexivity|].
  split; [reflexivity|]. split; [reflexivity|].
  eapply (@file_bytes_are_the_head_of_the_stream
            (u "/home/user/received_folders/docs/a.txt") 4096 receiving_sample);
    [reflexivity|reflexivity|vm_compute; discriminate|vm_compute; reflexivity].
Defined.

End FolderData.

(* ===================================================================== *)
(** * What the folder receiver sends *)
(* ===================================================================== *)

Module SentFacts.
Import Py Sys Spec Logic RunFacts WorldFrames.

Section Sent.
Variable sent0 : list bytes.

Local Abbreviation unsent := (fun w : world => w_sent w = sent0).

Lemma unsent_kept {A} (m : M world A) :
  (forall side0, stable (fun w => net_side w = side0) m) -> stable unsent m.
Proof.
  intros Hm w r w' Hw E. pose proof (@kept _ m w w' r Hm E) as Hk.
  unfold net_side in Hk. injection Hk as _ _ _ Hs _. congruence.
Qed.

Lemma unsent_recv (size : Z) : stable unsent (recv size).
Proof.
  intros w r w' Hw E. unfold recv in E.
  destruct (size <? 0)%Z; [injection E as <- <-; exact Hw|].
  cbv zeta in E.
  destruct (w_net (log_recv size w)) as [|[dt [n| |]] net];
    injection E as <- <-; exact Hw.
Qed.

Lemma unsent_time : stable unsent time.
Proof. apply unsent_kept. intros. apply quiet_time. Qed.

Lemma unsent_is_set : stable unsent is_set.
Proof. apply unsent_kept. intros. apply quiet_is_set. Qed.

Lemma unsent_split buf sep i : stable unsent (helpers.split_at_separator buf sep i).
Proof. unfold helpers.split_at_separator. walk idtac. Qed.

Lemma unsent_reader_loop start timeout max_buffer sep :
  forall rounds buf,
    stable unsent (helpers.read_header_loop rounds start timeout max_buffer sep buf).
Proof.
  pose proof unsent_time. pose proof unsent_is_set. pose proof unsent_recv.
  pose proof unsent_split.
  induction rounds as [|rounds IH]; intros buf; cbn [helpers.read_header_loop].
  - apply stable_blocked.
  - walk ltac:(eauto).
Qed.

Lemma unsent_reader buf timeout max_buffer :
  stable unsent (helpers.read_header_from_socket buf timeout max_buffer).
Proof.
  pose proof unsent_time. pose proof unsent_split. pose proof unsent_reader_loop.
  unfold helpers.read_header_from_socket. walk ltac:(eauto).
Qed.

End Sent.

(** The response of the handshake: it returns, with one signal sent at
    most. *)
Lemma response_sent (verification_result : bool) (w : world) :
  fst (handshake.perform_folder_handshake_server verification_result w) = Ret tt
  /\ w_sent (snd (handshake.perform_folder_handshake_server verification_result w))
     = w_sent w
       ++ match w_sendok w with
          | false :: _ => []
          | _ => [if verification_result
                  then config.HANDSHAKE_COMPLETE_OK_SIGNAL
                  else config.HANDSHAKE_ERROR_SIGNAL]
          end.
Proof.
  unfold handshake.perform_folder_handshake_server, try_except, bind, gui, modify,
    sendall.
  destruct verification_result; cbn;
    destruct (w_sendok w) as [|[|] rest]; cbn;
    rewrite ?app_nil_r; split; reflexivity.
Qed.

End SentFacts.

Module FolderSent.
Import Py Sys Spec Logic RunFacts WorldFrames SentFacts FolderWalk folder_handler.

(** A call of the world that sends nothing, under a condition that looks
    at nothing else in the world than what was sent. *)
Lemma lift_unsent {A} (P : env -> Prop) (m : M world A) :
  (forall x, stable (fun w => w_sent w = x) m) ->
  (forall s w', P s -> w_sent w' = w_sent (W s) -> P (set_W w' s)) ->
  stable P (lift m).
Proof.
  intros Hm HP s r s' Hs E. unfold lift in E. cbn in E.
  destruct (m (W s)) as [r1 w1] eqn:Em. injection E as <- <-.
  apply HP; [exact Hs|]. exact (Hm (w_sent (W s)) (W s) _ _ eq_refl Em).
Qed.

Ltac sends_nothing :=
  first [ apply unsent_recv | apply unsent_reader
        | apply unsent_kept; intros;
          first [ apply quiet_gui | apply quiet_abspath | apply quiet_path_exists
                | apply quiet_path_isdir | apply quiet_makedirs | apply quiet_open_wb
                | apply quiet_remove | apply quiet_write | apply quiet_is_set
                | apply quiet_time | apply quiet_close_socket
                | apply quiet_sanitize_path | apply quiet_unique_name ] ].

Ltac lifted_unsent :=
  apply lift_unsent;
  [ intros; sends_nothing
  | let H := fresh in let Hw := fresh in
    intros ? ? H Hw; cbn; rewrite Hw; exact H ].

Ltac sent_walk known := walk_with ltac:(lifted_unsent) known.
Ltac sent_through :=
  first [ solve [eauto] | unfold_call; sent_walk ltac:(sent_through) ].

Lemma matched_verification (s : env) : verification s = true <-> matched s.
Proof.
  unfold verification, matched, unknown, eq_expected.
  destruct (total_expected_items s) as [i|]; [|cbn; split; [discriminate|]];
    [|intros [H _]; discriminate H].
  destruct (total_expected_size s) as [z|];
    [|rewrite orb_true_r; cbn; split; [discriminate|]; intros [_ [H _]]; discriminate H].
  rewrite negb_true_iff, !orb_false_iff, !negb_false_iff, !Z.ltb_ge, !Z.eqb_eq.
  split.
  - intros [[Hi Hz] [Ei Ez]]. subst. auto.
  - intros [Ei [Ez [Hi Hz]]]. injection Ei as ->. injection Ez as ->. auto.
Qed.

Section WithUnicode.
Context {db : UnicodeDB}.
Variable sent0 : list bytes.

Local Abbreviation unanswered :=
  (fun s : env =>
     w_sent (W s) = sent0 /\ transfer_success s = false
     /\ current_state s <> STATE_HANDSHAKE_COMPLETE).

Local Abbreviation answered :=
  (fun s : env =>
     (current_state s <> STATE_HANDSHAKE_COMPLETE -> w_sent (W s) = sent0)
     /\ (current_state s = STATE_HANDSHAKE_COMPLETE ->
         exists l,
           w_sent (W s) = sent0 ++ l
           /\ (l = [] \/ l = [config.HANDSHAKE_ERROR_SIGNAL]
               \/ (l = [config.HANDSHAKE_COMPLETE_OK_SIGNAL]
                   /\ (total_expected_items s = Some (items_received_count s)
                       /\ total_expected_size s = Some (received_bytes_total s)
                       /\ (0 <= items_received_count s)%Z
                       /\ (0 <= received_bytes_total s)%Z))))
     /\ (transfer_success s = true ->
         (total_expected_items s = Some (items_received_count s)
          /\ total_expected_size s = Some (received_bytes_total s)
          /\ (0 <= items_received_count s)%Z
          /\ (0 <= received_bytes_total s)%Z)
         /\ (current_state s = STATE_WAITING_FOR_HANDSHAKE_REQUEST
             \/ current_state s = STATE_HANDSHAKE_COMPLETE))).

Lemma unanswered_data_loop rounds h rbs : stable unanswered (data_loop rounds h rbs).
Proof.
  induction rounds as [|rounds IH]; cbn [data_loop].
  - apply stable_blocked.
  - sent_walk ltac:(sent_through).
Qed.

Lemma unanswered_on_root : stable unanswered on_root_folder_header.
Proof. sent_through. Qed.

Lemma unanswered_on_total : stable unanswered on_total_info_header.
Proof. sent_through. Qed.

Lemma unanswered_on_folder_or_file t p : stable unanswered (on_folder_or_file t p).
Proof. sent_through. Qed.

Lemma unanswered_on_file_data h rbs : stable unanswered (on_file_data h rbs).
Proof. pose proof unanswered_data_loop. sent_through. Qed.

Lemma unanswered_answered (s : env) : unanswered s -> answered s.
Proof.
  intros (H1 & H2 & H3). split; [auto|]. split; [intros H; destruct (H3 H)|].
  intros H. congruence.
Qed.

(** END_TRANSFER: the state is set, then the success, by the count and the
    size. *)
Lemma on_end_transfer_answered : hoare unanswered on_end_transfer answered.
Proof.
  intros s r s' (H1 & H2 & H3) E. unfold on_end_transfer, say, gui in E.
  rewrite bind_lift_modify in E.
  destruct (FolderEnd.close_current_file_returns (with_world (add_gui StEndTransfer (the_world s)) s))
    as [s1 [E1 W1]].
  assert (F1 : total_expected_items s1 = total_expected_items s
               /\ total_expected_size s1 = total_expected_size s
               /\ items_received_count s1 = items_received_count s
               /\ received_bytes_total s1 = received_bytes_total s).
  { unfold close_current_file in E1. rewrite bind_get in E1.
    destruct (current_file_handle _); inversion E1; subst; auto. }
  destruct F1 as (F1 & F2 & F3 & F4).
  rewrite (@bind_returns _ _ _ _ _ _ _ _ E1) in E.
  rewrite bind_modify, bind_get in E.
  cbn [set_current_state total_expected_items total_expected_size
       items_received_count received_bytes_total] in E.
  pose proof (matched_verification s1) as Hv. unfold verification in Hv.
  destruct (_ || _) eqn:Ebad in E.
  - (* the check fails: no success *)
    assert (Hend : transfer_success s' = false
                   /\ current_state s' = STATE_WAITING_FOR_HANDSHAKE_REQUEST
                   /\ w_sent (W s') = w_sent (W s1)).
    { rewrite bind_assoc, bind_lift_modify, bind_assoc in E.
      destruct (total_expected_items s1) as [i|], (total_expected_size s1) as [z|];
        try destruct (_ && _); cbn in E; injection E as _ <-; cbn; auto. }
    destruct Hend as (G1 & G2 & G3).
    split; [intros _; rewrite G3, W1; exact H1|].
    split; [intros K; congruence|]. intros K. congruence.
  - (* the check passes *)
    cbn in E. injection E as _ <-. cbn.
    split; [intros _; rewrite W1; exact H1|].
    split; [intros K; discriminate K|]. intros _. split; [|auto].
    rewrite Ebad in Hv. cbn in Hv. apply Hv. reflexivity.
Qed.

Lemma on_item_header_answered : hoare unanswered on_item_header answered.
Proof.
  pose proof unanswered_on_folder_or_file as Hitem.
  assert (Hread : forall t, stable unanswered (read_header t)) by (intros; sent_through).
  assert (Hreq : forall seg, stable unanswered (is_handshake_request seg))
    by (intros; sent_through).
  unfold on_item_header.
  eapply hoare_bind with (Q1 := unanswered);
    [apply Hread| |apply unanswered_answered].
  intros prefix. eapply hoare_bind with (Q1 := unanswered);
    [apply Hreq| |apply unanswered_answered].
  intros request. destruct request.
  { eapply hoare_conseq with (P' := unanswered) (Q' := unanswered);
      [|auto|apply unanswered_answered].
    as_stable. sent_walk idtac. }
  destruct (negb _).
  { eapply hoare_conseq with (P' := unanswered) (Q' := unanswered);
      [|auto|apply unanswered_answered].
    as_stable. sent_walk idtac. }
  eapply hoare_bind with (Q1 := unanswered);
    [apply Hread| |apply unanswered_answered].
  intros type. destruct (str_eqb type config.FOLDER_HEADER_TYPE_END_TRANSFER).
  { apply on_end_transfer_answered. }
  eapply hoare_conseq with (P' := unanswered) (Q' := unanswered);
    [|auto|apply unanswered_answered].
  as_stable. sent_walk ltac:(eauto).
Qed.

(** The handshake: one response at most, and the state that ends the
    session. *)
Lemma on_handshake_answered (s : env) r (s' : env) :
  answered s -> current_state s = STATE_WAITING_FOR_HANDSHAKE_REQUEST ->
  on_handshake s = (r, s') -> answered s'.
Proof.
  intros (H1 & H2 & H3) Hst E. unfold on_handshake in E.
  rewrite bind_get, bind_lift in E. cbn [the_world env_has_world] in E.
  destruct (response_sent (transfer_success s) (W s)) as (R1 & R2).
  destruct (handshake.perform_folder_handshake_server _ (W s)) as [r1 w1].
  cbn [fst snd] in R1, R2. subst r1. cbn in E. injection E as _ <-. cbn.
  assert (Hsent : w_sent (W s) = sent0) by (apply H1; congruence).
  split; [intros K; congruence|].
  split.
  - intros _. eexists. split; [rewrite R2, Hsent; reflexivity|].
    destruct (w_sendok (W s)) as [|[|] rest]; auto;
      destruct (transfer_success s) eqn:Es; auto;
      right; right; (split; [reflexivity|]); apply H3; reflexivity.
  - intros K. split; [apply H3; exact K|auto].
Qed.

Lemma hoare_get_bind {B} (P Q : env -> Prop) (k : env -> M env B) :
  (forall s0, hoare (fun s => P s /\ s = s0) (k s0) Q) -> hoare P (bind get k) Q.
Proof.
  intros Hk s r s' Hs E. rewrite bind_get in E.
  exact (Hk s s r s' (conj Hs eq_refl) E).
Qed.

Lemma dispatch_answered rbs : hoare answered (dispatch rbs) answered.
Proof.
  unfold dispatch. apply hoare_get_bind. intros s0.
  assert (Hun : current_state s0 <> STATE_WAITING_FOR_HANDSHAKE_REQUEST ->
                current_state s0 <> STATE_HANDSHAKE_COMPLETE ->
                forall s, answered s /\ s = s0 -> unanswered s).
  { intros N1 N2 s [(H1 & H2 & H3) ->]. split; [auto|]. split; [|auto].
    destruct (transfer_success s0); [|reflexivity].
    destruct (H3 eq_refl) as [_ [K|K]]; congruence. }
  destruct (current_state s0) eqn:Est.
  - eapply hoare_conseq with (P' := unanswered) (Q' := unanswered);
      [apply unanswered_on_root|apply Hun; discriminate|apply unanswered_answered].
  - eapply hoare_conseq with (P' := unanswered) (Q' := unanswered);
      [apply unanswered_on_total|apply Hun; discriminate|apply unanswered_answered].
  - eapply hoare_conseq with (P' := unanswered) (Q' := answered);
      [apply on_item_header_answered|apply Hun; discriminate|auto].
  - destruct (current_file_handle s0) as [h|].
    + eapply hoare_conseq with (P' := unanswered) (Q' := unanswered);
        [apply unanswered_on_file_data|apply Hun; discriminate
        |apply unanswered_answered].
    + intros s r s' [Hs _] E. injection E as _ <-. exact Hs.
  - intros s r s' [Hs ->] E. exact (on_handshake_answered Hs Est E).
  - intros s r s' [Hs _] E. injection E as _ <-. exact Hs.
Qed.

Lemma answered_close : stable answered close_current_file.
Proof. sent_through. Qed.

Lemma answered_say e : stable answered (say e).
Proof. sent_through. Qed.

Lemma answered_loop_body rbs : stable answered (loop_body rbs).
Proof.
  pose proof answered_close. pose proof (dispatch_answered rbs).
  unfold loop_body. sent_walk ltac:(eauto).
Qed.

Lemma answered_main_loop rbs : forall rounds, stable answered (main_loop rounds rbs).
Proof.
  pose proof (answered_loop_body rbs).
  induction rounds as [|rounds IH]; cbn [main_loop].
  - apply stable_blocked.
  - sent_walk ltac:(eauto).
Qed.

Lemma answered_handler rbs : stable answered (handle_client_folder_transfer rbs).
Proof.
  pose proof answered_close. pose proof answered_say.
  pose proof (answered_main_loop rbs).
  unfold handle_client_folder_transfer, initial_setup, after_loop, on_error, finish.
  sent_walk ltac:(eauto).
Qed.

End WithUnicode.

End FolderSent.

Module FolderAnswers.
Import Py Sys Spec.

Section WithUnicode.
Context {db : UnicodeDB}.

(** All that the folder handler sends on a connection is one response of
    the handshake at most, and that response is the signal of success only
    if the items and the bytes received are as many as TOTAL_INFO
    announced. *)
Theorem folder_handler_sends_one_response (rbs : Z) (initial_buffer : bytes)
    (w : world) :
  let s' := snd (folder_handler.run rbs initial_buffer w) in
  exists l,
    w_sent (folder_handler.W s') = w_sent w ++ l
    /\ (l = [] \/ l = [config.HANDSHAKE_ERROR_SIGNAL]
        \/ (l = [config.HANDSHAKE_COMPLETE_OK_SIGNAL] /\ matched s')).
Proof.
  intros s'. subst s'. unfold folder_handler.run.
  destruct (folder_handler.handle_client_folder_transfer rbs _) as [r s'] eqn:E.
  assert (H : (fun s => _ /\ _ /\ _) s') by
    (refine (@FolderSent.answered_handler db (w_sent w) rbs _ _ _ _ E);
     cbn; repeat split; try discriminate; auto).
  cbv beta in H. destruct H as (H1 & H2 & _). cbn [snd].
  destruct (folder_handler.state_eqb (folder_handler.current_state s')
              folder_handler.STATE_HANDSHAKE_COMPLETE) eqn:Est.
  - apply TotalFacts.state_eqb_eq in Est. exact (H2 Est).
  - apply TotalFacts.state_eqb_neq in Est. exists []. rewrite app_nil_r. auto.
Qed.

(** The folder handler records a success only if the items and the bytes
    received are as many as TOTAL_INFO announced. *)
Theorem folder_success_is_verified (rbs : Z) (initial_buffer : bytes) (w : world) :
  let s' := snd (folder_handler.run rbs initial_buffer w) in
  folder_handler.transfer_success s' = true -> matched s'.
Proof.
  intros s'. subst s'. unfold folder_handler.run.
  destruct (folder_handler.handle_client_folder_transfer rbs _) as [r s'] eqn:E.
  assert (H : (fun s => _ /\ _ /\ _) s') by
    (refine (@FolderSent.answered_handler db (w_sent w) rbs _ _ _ _ E);
     cbn; repeat split; try discriminate; auto).
  cbv beta in H. destruct H as (_ & _ & H3). cbn [snd].
  intros K. apply H3. exact K.
Qed.

End WithUnicode.

Lemma folder_success_sample :
  matched (snd (@folder_handler.run ascii_db 4096
                  (b "FDR_V1|FOLDER|docs/|FDR_V1|TOTAL_INFO|1,0|FDR_V1|END_TRANSFER|")
                  (world_on [] []))).
Proof.
  apply (@folder_success_is_verified ascii_db 4096
           (b "FDR_V1|FOLDER|docs/|FDR_V1|TOTAL_INFO|1,0|FDR_V1|END_TRANSFER|")
           (world_on [] [])).
  vm_compute. reflexivity.
Defined.

End FolderAnswers.

(* ===================================================================== *)
(** * The single-file receiver sends nothing *)
(* ===================================================================== *)

Module SingleSent.
Import Py Sys Spec Logic RunFacts WorldFrames SentFacts single_file_handler.

Lemma lift_silent {A} (P : env -> Prop) (m : M world A) :
  (forall x, stable (fun w => w_sent w = x) m) ->
  (forall s w', P s -> w_sent w' = w_sent (W s) -> P (set_W w' s)) ->
  stable P (lift m).
Proof.
  intros Hm HP s r s' Hs E. unfold lift in E. cbn in E.
  destruct (m (W s)) as [r1 w1] eqn:Em. injection E as <- <-.
  apply HP; [exact Hs|]. exact (Hm (w_sent (W s)) (W s) _ _ eq_refl Em).
Qed.

Ltac lifted_silent :=
  apply lift_silent;
  [ intros; FolderSent.sends_nothing
  | let H := fresh in let Hw := fresh in
    intros ? ? H Hw; cbn; rewrite Hw; exact H ].

Ltac silent_walk known := walk_with ltac:(lifted_silent) known.

Section WithUnicode.
Context {db : UnicodeDB}.
Variable sent0 : list bytes.

Local Abbreviation silent := (fun s : env => w_sent (W s) = sent0).

Lemma silent_say e : stable silent (say e).
Proof. unfold say. silent_walk idtac. Qed.

Lemma silent_read_header t : stable silent (read_header t).
Proof. unfold read_header. silent_walk idtac. Qed.

Lemma silent_receive_loop handle rbs :
  forall rounds, stable silent (receive_loop rounds handle rbs).
Proof.
  pose proof silent_say.
  induction rounds as [|rounds IH]; cbn [receive_loop].
  - apply stable_blocked.
  - silent_walk ltac:(eauto).
Qed.

Lemma silent_handler rbs : stable silent (handle_client_connection rbs).
Proof.
  pose proof silent_say. pose proof silent_read_header.
  pose proof silent_receive_loop.
  unfold handle_client_connection, parse_header, prepare_path, receive_file,
    receive_body, cleanup.
  silent_walk ltac:(eauto).
Qed.

End WithUnicode.

(** The single-file handler sends nothing to the peer, however the
    transfer goes: no acknowledgement, no error report. *)
Theorem single_handler_sends_nothing {db : UnicodeDB} (rbs : Z)
    (initial_buffer : bytes) (w : world) :
  w_sent (W (snd (run rbs initial_buffer w))) = w_sent w.
Proof.
  unfold run.
  destruct (handle_client_connection rbs _) as [r s'] eqn:E. cbn [snd].
  refine (@silent_handler db (w_sent w) rbs (initial_env initial_buffer w) _ _ _ E).
  reflexivity.
Qed.

End SingleSent.

(* ===================================================================== *)
(** * No part of a file is left behind *)
(* ===================================================================== *)

Module SinglePartial.
Import Py Sys Spec Logic RunFacts FSFacts Triples SingleSuccess single_file_handler.

Local Abbreviation fresh :=
  (fun s : env => transfer_success s = false /\ is_cancelled s = false
                  /\ received_bytes s = 0%Z).
Local Abbreviation sized :=
  (fun s : env => (transfer_success s = false /\ is_cancelled s = false
                   /\ received_bytes s = 0%Z) /\ (0 <= filesize s)%Z).
Local Abbreviation unset := (fun s : env => transfer_success s = false).
Local Abbreviation nofile := (fun s : env => file_path s = None).

Lemma nofile_clean (s : env) : file_path s = None -> no_partial_file s.
Proof. unfold no_partial_file. intros H p c K. congruence. Qed.

Lemma clean_frame (s s' : env) :
  no_partial_file s ->
  file_path s' = file_path s -> filesize s' = filesize s ->
  received_bytes s' = received_bytes s ->
  w_cwd (W s') = w_cwd (W s) -> w_fs (W s') = w_fs (W s) ->
  no_partial_file s'.
Proof.
  unfold no_partial_file. intros H E1 E2 E3 E4 E5.
  rewrite E1, E2, E3, E4, E5. exact H.
Qed.

(** The inner [finally] leaves no part of a file. *)
Lemma cleanup_clean : hoare whole_file_stored cleanup no_partial_file.
Proof.
  intros s r s' Hs E. unfold cleanup in E. rewrite bind_get in E.
  destruct (file_path s) as [path|] eqn:Epath.
  2:{ injection E as _ <-. apply nofile_clean. exact Epath. }
  rewrite bind_lift in E. unfold path_exists at 1, gets in E.
  cbn [the_world with_world env_has_world] in E.
  set (q := PosixPath.abspath (w_cwd (W s)) path) in *.
  destruct (negb (transfer_success s) && negb (length path =? 0)
            && FS.exists_ (w_fs (W s)) q && (filesize s >? 0)%Z
            && (received_bytes s <? filesize s)%Z) eqn:Econd.
  - unfold try_except in E. rewrite bind_lift in E. unfold remove in E.
    cbn [the_world with_world env_has_world W set_W w_cwd w_fs] in E. fold q in E.
    unfold FS.remove in E.
    destruct (FS.lookup q (w_fs (W s))) as [[c0|]|] eqn:El.
    + unfold say in E. cbn in E. injection E as _ <-.
      unfold no_partial_file. cbn. intros p c Hp _ _ _. rewrite Epath in Hp.
      injection Hp as <-. fold q. rewrite lookup_drop. discriminate.
    + unfold say in E. cbn in E. injection E as _ <-.
      unfold no_partial_file. cbn. intros p c Hp _ _ _. rewrite Epath in Hp.
      injection Hp as <-. fold q. rewrite El. discriminate.
    + unfold say in E. cbn in E. injection E as _ <-.
      unfold no_partial_file. cbn. intros p c Hp _ _ _. rewrite Epath in Hp.
      injection Hp as <-. fold q. rewrite El. discriminate.
  - injection E as _ <-. unfold no_partial_file. cbn.
    intros p c Hp Hne Hpos Hless. rewrite Epath in Hp. injection Hp as <-.
    fold q. intros Hfile.
    assert (Hex : FS.exists_ (w_fs (W s)) q = true)
      by (unfold FS.exists_; rewrite Hfile; apply orb_true_r).
    assert (Hlen : (length path =? 0) = false)
      by (destruct path; [congruence|reflexivity]).
    rewrite Hex, Hlen in Econd.
    replace (filesize s >? 0)%Z with true in Econd
      by (symmetry; rewrite Z.gtb_ltb; apply Z.ltb_lt; exact Hpos).
    replace (received_bytes s <? filesize s)%Z with true in Econd
      by (symmetry; apply Z.ltb_lt; exact Hless).
    cbn in Econd. rewrite !andb_true_r in Econd. apply negb_false_iff in Econd.
    destruct (Hs Econd) as (_ & Heq & _). lia.
Qed.

Lemma receive_file_clean (rbs : Z) :
  triple sized (receive_file rbs) (fun _ => no_partial_file)
         (fun _ => no_partial_file).
Proof.
  intros s Hs. unfold receive_file. rewrite bind_modify.
  unfold try_finally.
  match goal with
  | |- context [try_except ?m ?h ?st] =>
      destruct (try_except m h st) as [rg sg] eqn:Eg
  end.
  assert (Hg : whole_file_stored sg).
  { unfold try_except in Eg.
    destruct (receive_body rbs _) as [rb sb] eqn:Eb.
    assert (Hb : whole_file_stored sb)
      by (eapply receive_body_stored; [|exact Eb]; exact Hs).
    destruct rb as [[]|e|]; [injection Eg as _ <-; exact Hb| |injection Eg as _ <-; exact Hb].
    rewrite bind_get in Eg. destruct (is_cancelled sb).
    - injection Eg as _ <-. exact Hb.
    - unfold say in Eg. cbn in Eg. injection Eg as _ <-.
      apply unset_stored. reflexivity. }
  destruct rg as [[]|e|]; [| |exact I].
  - destruct (cleanup sg) as [rc sc] eqn:Ec.
    assert (Hc : no_partial_file sc) by (eapply cleanup_clean; [exact Hg|exact Ec]).
    destruct rc as [[]|e|]; [exact Hc|exact Hc|exact I].
  - destruct (cleanup sg) as [rc sc] eqn:Ec.
    assert (Hc : no_partial_file sc) by (eapply cleanup_clean; [exact Hg|exact Ec]).
    destruct rc as [[]|e'|]; [exact Hc|exact Hc|exact I].
Qed.

Section WithUnicode.
Context {db : UnicodeDB}.

Lemma nofile_say e : stable nofile (say e).
Proof. unfold say. walk idtac. Qed.

Lemma nofile_parse_header : stable nofile parse_header.
Proof.
  pose proof nofile_say.
  unfold parse_header, read_header. walk ltac:(eauto).
Qed.

(** The path is settled by the last step of [prepare_path]. *)
Lemma prepare_path_nofile (name : str) :
  triple nofile (prepare_path name)
         (fun (a : bool) (s : env) => a = false -> file_path s = None)
         (fun _ => nofile).
Proof.
  unfold prepare_path.
  eapply triple_try_except with (R1 := fun _ => nofile).
  - eapply triple_bind; [apply triple_step; [walk idtac|tauto]|].
    intros base. eapply triple_bind; [apply triple_step; [walk idtac|tauto]|].
    intros present. eapply triple_bind; [apply triple_step; [walk idtac|tauto]|].
    intros ?. eapply triple_bind; [apply triple_step; [walk idtac|tauto]|].
    intros file_path_base. destruct (PosixPath.splitext file_path_base) as [base0 ext].
    eapply triple_bind; [apply triple_step; [walk idtac|tauto]|].
    intros final. eapply triple_bind with (Q1 := fun _ _ => True).
    { apply triple_modify. auto. }
    intros ?. apply triple_ret. intros s _ K. discriminate K.
  - intros e. destruct (_ || _).
    + eapply triple_bind; [apply triple_step; [apply nofile_say|tauto]|].
      intros ?. eapply triple_bind; [apply triple_step; [apply nofile_say|tauto]|].
      intros ?. eapply triple_bind with (Q1 := fun _ => nofile).
      { apply triple_modify. cbn. tauto. }
      intros ?. apply triple_ret. tauto.
    + tauto.
Qed.

Lemma finally_clean (s : env) :
  no_partial_file s ->
  match (lift close_socket ;;
         s <- get ;;
         (if transfer_success s then ret tt
          else if is_cancelled s then say StTransferCancelled
          else say StTransferFailed) ;;
         say StHandlerFinished ;;
         say OnTransferFinished) s with
  | (_, s') => no_partial_file s'
  end.
Proof.
  intros Hs. unfold bind, get, lift, close_socket, modify, say, gui, ret. cbn.
  destruct (transfer_success s) eqn:Es; [|destruct (is_cancelled s) eqn:Ec]; cbn;
    apply (@clean_frame s _ Hs); reflexivity.
Qed.

(** Formatting a size for the log chooses no path and sets no flag. *)
Lemma nofile_format_bytes (n : Z) :
  triple (fun s => sized s /\ nofile s) (utils.format_bytes n)
         (fun _ s => sized s /\ nofile s) (fun _ => no_partial_file).
Proof.
  eapply triple_conseq;
    [apply triple_of_hoare;
     apply (stable_format_bytes (fun s => sized s /\ nofile s))|..];
    cbv beta; [tauto|auto|].
  intros ? s [_ H]. apply nofile_clean. exact H.
Qed.

Lemma handler_clean (rbs : Z) :
  triple (fun s => fresh s /\ nofile s) (handle_client_connection rbs)
         (fun _ => no_partial_file) (fun _ => no_partial_file).
Proof.
  unfold handle_client_connection.
  eapply triple_bind with (Q1 := fun _ s => fresh s /\ nofile s).
  { apply triple_step; [unfold say; walk idtac|].
    intros ? s [_ H]. apply nofile_clean. exact H. }
  intros ?.
  eapply triple_try_finally with (Q1 := fun _ => no_partial_file)
                                 (R1 := fun _ => no_partial_file).
  - eapply triple_try_except with (R1 := fun _ => no_partial_file).
    + eapply triple_bind with (Q1 := fun _ s => sized s /\ nofile s).
      { eapply triple_conseq;
          [exact (triple_conj parse_header_sized
                    (triple_of_hoare nofile_parse_header))|auto..].
        intros ? s [_ H]. apply nofile_clean. exact H. }
      intros ?. eapply triple_bind; [apply triple_step; [walk idtac|]|].
      { intros ? s [_ H]. apply nofile_clean. exact H. }
      intros cancelled. destruct cancelled.
      * eapply triple_bind; [apply triple_step; [unfold say; walk idtac|]|].
        { intros ? s [_ H]. apply nofile_clean. exact H. }
        intros ?. apply triple_modify. intros s [_ H]. apply nofile_clean. exact H.
      * apply triple_get_bind. intros s0.
        eapply triple_bind with (Q1 := fun _ s => sized s /\ nofile s);
          [eapply triple_conseq; [apply nofile_format_bytes|..];
             cbv beta; [tauto|auto|auto]
          |intros ?].
        eapply triple_bind with (Q1 := fun _ s => sized s /\ nofile s).
        { eapply triple_conseq with (P' := fun s => sized s /\ nofile s)
                                    (Q' := fun _ s => sized s /\ nofile s)
                                    (R' := fun _ s => sized s /\ nofile s);
            [apply triple_of_hoare; unfold say; as_stable; walk idtac
            |tauto|auto|].
          intros ? s [_ H]. apply nofile_clean. exact H. }
        intros ?.
        eapply triple_bind with (Q1 := fun _ s => sized s /\ nofile s);
          [apply nofile_format_bytes|intros ?].
        eapply triple_bind with (Q1 := fun _ s => sized s /\ nofile s);
          [apply nofile_format_bytes|intros ?].
        eapply triple_bind
          with (Q1 := fun (a : bool) (s : env) =>
                        (if a then sized s else unset s)
                        /\ (a = false -> file_path s = None)).
        { eapply triple_conseq;
            [exact (triple_conj (prepare_path_sized _) (prepare_path_nofile _))
            |auto..].
          intros ? s [_ H]. apply nofile_clean. exact H. }
        intros prepared. destruct prepared.
        -- eapply triple_conseq; [apply receive_file_clean|tauto|auto|auto].
        -- apply triple_ret. intros s [_ H]. apply nofile_clean. auto.
    + intros e. destruct (_ || _).
      * intros s Hs. unfold say. cbn. apply (@clean_frame s _ Hs); reflexivity.
      * intros s Hs. rewrite bind_get. destruct (is_cancelled s); [exact Hs|].
        unfold say. cbn. apply (@clean_frame s _ Hs); reflexivity.
  - intros r0 s Hs. pose proof (finally_clean Hs) as H.
    match type of H with
    | match ?m with _ => _ end => destruct m as [[[]|e1|] s']
    end; [exact H|exact H|exact I].
  - intros e0 s Hs. pose proof (finally_clean Hs) as H.
    match type of H with
    | match ?m with _ => _ end => destruct m as [[[]|e1|] s']
    end; [exact H|exact H|exact I].
Qed.

End WithUnicode.

End SinglePartial.

Module NoPartialFile.
Import Py Sys Spec.

(** When the single-file handler returns, whatever made the transfer fall
    short (cancellation, a socket error, the peer closing, an error of the
    disk), no part of a file is left: if fewer bytes were received than the
    header declared, there is no file under the path that was chosen. *)
Theorem no_partial_file_is_left {db : UnicodeDB} (rbs : Z) (initial_buffer : bytes)
    (w : world) :
  match single_file_handler.run rbs initial_buffer w with
  | (Ret _, s') => no_partial_file s'
  | (Raise _, _) => False
  | (Blocked, _) => True
  end.
Proof.
  pose proof (SingleEnd.single_ends StNewConnection rbs
                (single_file_handler.initial_env initial_buffer w)) as He.
  pose proof (@SinglePartial.handler_clean db rbs
                (single_file_handler.initial_env initial_buffer w)) as Hs.
  unfold single_file_handler.run.
  destruct (single_file_handler.handle_client_connection _ _) as [[a|e|] s'].
  - apply Hs. cbn. auto.
  - exact He.
  - exact I.
Qed.

End NoPartialFile.

(* ===================================================================== *)
(** * The sender's side of the handshake *)
(* ===================================================================== *)

Module ClientFacts.
Import Py Sys Spec Logic RunFacts handshake_client.

(** What the loop keeps: the bytes read and the bytes still to read are
    the stream, and nothing is sent. *)
Lemma response_loop_reads (stream : bytes) (start : Z) :
  forall (rounds : nat) (s : env) r (s' : env),
    handshake_successful s = false ->
    response_buffer s ++ w_wire (W s) = stream ->
    response_loop rounds start s = (r, s') ->
    (handshake_successful s' = true ->
     contains (response_buffer s') config.HANDSHAKE_COMPLETE_OK_SIGNAL = true)
    /\ response_buffer s' ++ w_wire (W s') = stream
    /\ w_sent (W s') = w_sent (W s).
Proof.
  induction rounds as [|rounds IH]; intros s r s' Hf Hs E.
  - cbn in E. injection E as _ <-. split; [congruence|auto].
  - cbn [response_loop] in E. rewrite bind_lift in E. unfold time at 1, gets in E.
    cbn [the_world with_world env_has_world] in E.
    destruct (_ <? _)%Z.
    2:{ injection E as _ <-. cbn. split; [congruence|auto]. }
    rewrite bind_lift in E.
    destruct (is_set_polled (the_world (set_W (W s) s))) as [cancelled [w0 [E0 P0]]].
    rewrite E0 in E. cbv beta iota in E.
    destruct P0 as (_ & _ & _ & P0w & _ & _ & _ & P0s & _).
    cbn [the_world with_world env_has_world W set_W] in *.
    destruct cancelled.
    { cbn in E. injection E as _ <-. cbn. rewrite P0w, P0s.
      split; [congruence|auto]. }
    unfold bind at 1 in E. unfold try_except at 1 in E. rewrite bind_lift in E.
    unfold recv in E.
    change (config.HANDSHAKE_READ_BUFFER_SIZE <? 0)%Z with false in E.
    cbv iota zeta in E.
    cbn [the_world with_world env_has_world W set_W] in E.
    change (w_net (log_recv config.HANDSHAKE_READ_BUFFER_SIZE w0)) with (w_net w0) in E.
    change (w_wire (log_recv config.HANDSHAKE_READ_BUFFER_SIZE w0)) with (w_wire w0) in E.
    destruct (w_net w0) as [|[dt ev] net].
    { injection E as _ <-. cbn. rewrite P0w, P0s. split; [congruence|auto]. }
    destruct ev as [n| |]; cbv beta iota in E.
    + set (k := Nat.min (Nat.min (Pos.to_nat n)
                           (Z.to_nat config.HANDSHAKE_READ_BUFFER_SIZE))
                        (length (w_wire w0))) in E.
      unfold ret at 1 in E. cbv beta iota in E.
      destruct (firstn k (w_wire w0)) as [|c0 chunk] eqn:Echunk.
      * injection E as _ <-. cbn. rewrite P0s. split; [congruence|].
        split; [|reflexivity].
        rewrite <- Hs, <- P0w. f_equal.
        rewrite <- (firstn_skipn k (w_wire w0)) at 2. rewrite Echunk. reflexivity.
      * rewrite <- Echunk in *. clear c0 chunk Echunk.
        rewrite bind_modify, bind_get in E.
        cbn [response_buffer set_response_buffer set_W] in E.
        assert (Hstream : (response_buffer s ++ firstn k (w_wire w0))
                          ++ skipn k (w_wire w0) = stream).
        { rewrite <- app_assoc, firstn_skipn, P0w. exact Hs. }
        destruct (contains _ config.HANDSHAKE_COMPLETE_OK_SIGNAL) eqn:Eok.
        { cbn in E. injection E as _ <-. cbn. rewrite P0s. auto. }
        destruct (contains _ config.HANDSHAKE_ERROR_SIGNAL) eqn:Eerr.
        { cbn in E. injection E as _ <-. cbn. rewrite P0s.
          split; [congruence|auto]. }
        destruct (_ >? _)%Z.
        { injection E as _ <-. cbn. rewrite P0s. split; [congruence|auto]. }
        edestruct IH as (G1 & G2 & G3); [| |exact E|];
          [cbn; exact Hf|cbn; exact Hstream|].
        split; [exact G1|]. split; [exact G2|]. rewrite G3. cbn. exact P0s.
    + cbn in E.
      assert (Hstream : response_buffer s ++ w_wire w0 = stream)
        by (rewrite P0w; exact Hs).
      edestruct IH as (G1 & G2 & G3); [| |exact E|];
        [cbn; exact Hf|cbn; exact Hstream|].
      split; [exact G1|]. split; [exact G2|]. rewrite G3. cbn. exact P0s.
    + cbn in E. injection E as _ <-. cbn. rewrite P0w, P0s.
      split; [congruence|auto].
Qed.

(** The [try] block: however it ends. *)
Lemma request_post (w : world) r (s' : env) :
  request_and_wait (initial_env w) = (r, s') ->
  (handshake_successful s' = true ->
   contains (response_buffer s') config.HANDSHAKE_COMPLETE_OK_SIGNAL = true)
  /\ response_buffer s' ++ w_wire (W s') = w_wire w
  /\ (w_sent (W s') = w_sent w ++ [config.HANDSHAKE_REQUEST_SIGNAL]
      \/ w_sent (W s') = w_sent w).
Proof.
  intros E. unfold request_and_wait in E. unfold say at 1 in E.
  rewrite bind_modify, bind_lift in E. unfold sendall in E.
  cbn [the_world with_world env_has_world W set_W initial_env
       handshake_successful response_buffer gui_log] in E.
  assert (Hloop : forall (w1 : world) (log : list shown),
             w_wire w1 = w_wire w ->
             (w_sent w1 = w_sent w ++ [config.HANDSHAKE_REQUEST_SIGNAL]
              \/ w_sent w1 = w_sent w) ->
             (say SpeedWaitingForConfirmation ;;
              start_time <- lift time ;;
              rounds <- gets (fun s => S (length (w_net (W s)))) ;;
              response_loop rounds start_time ;;
              cancelled <- lift is_set ;;
              s <- get ;;
              if negb cancelled && negb (handshake_successful s)
              then raise SocketTimeout
              else ret tt) (mkEnv false [] log w1) = (r, s') ->
             (handshake_successful s' = true ->
              contains (response_buffer s') config.HANDSHAKE_COMPLETE_OK_SIGNAL = true)
             /\ response_buffer s' ++ w_wire (W s') = w_wire w
             /\ (w_sent (W s') = w_sent w ++ [config.HANDSHAKE_REQUEST_SIGNAL]
                 \/ w_sent (W s') = w_sent w)).
  { clear E. intros w1 log Hw Hsent E. unfold say at 1 in E.
    rewrite bind_modify, bind_lift in E. unfold time at 1, gets in E.
    cbn [the_world with_world env_has_world W set_W
         handshake_successful response_buffer gui_log] in E.
    unfold bind at 1 in E. cbv beta iota in E. unfold bind at 1 in E.
    destruct (response_loop _ _ _) as [r1 s1] eqn:El.
    edestruct (@response_loop_reads (w_wire w)) as (G1 & G2 & G3);
      [| |exact El|]; [reflexivity|cbn; exact Hw|].
    cbn in G3. rewrite <- G3 in Hsent.
    destruct r1 as [[]|e|]; [|injection E as _ <-; auto..].
    rewrite bind_lift in E.
    destruct (is_set_polled (the_world s1)) as [cancelled [w0 [E0 P0]]].
    rewrite E0 in E. cbv beta iota in E.
    destruct P0 as (_ & _ & _ & P0w & _ & _ & _ & P0s & _).
    cbn [the_world with_world env_has_world] in *.
    rewrite bind_get in E.
    assert (Hend : s' = set_W w0 s1)
      by (destruct (_ && _); injection E as _ <-; reflexivity).
    subst s'. cbn. rewrite P0w, P0s. auto. }
  destruct (w_sendok w) as [|[|] rest].
  - refine (Hloop _ _ _ _ E); cbn; auto.
  - refine (Hloop _ _ _ _ E); cbn; auto.
  - injection E as _ <-. cbn. split; [discriminate|auto].
Qed.

(** ** The response arrives *)

(** The signal of a verification result. *)
Local Abbreviation signal_of v :=
  (if v : bool then config.HANDSHAKE_COMPLETE_OK_SIGNAL
   else config.HANDSHAKE_ERROR_SIGNAL).

(** A part of a signal holds no signal; a whole signal holds itself only,
    and is within the limit of the buffer. *)
Lemma signal_parts (v : bool) (j : nat) :
  j < length (signal_of v) ->
  contains (firstn j (signal_of v)) config.HANDSHAKE_COMPLETE_OK_SIGNAL = false
  /\ contains (firstn j (signal_of v)) config.HANDSHAKE_ERROR_SIGNAL = false
  /\ (len (firstn j (signal_of v)) >? config.BUFFER_SIZE_FOR_HEADER * 2)%Z = false.
Proof.
  intros Hj.
  assert (H : forallb (fun j =>
                negb (contains (firstn j (signal_of v))
                               config.HANDSHAKE_COMPLETE_OK_SIGNAL)
                && negb (contains (firstn j (signal_of v))
                                  config.HANDSHAKE_ERROR_SIGNAL)
                && negb (len (firstn j (signal_of v))
                         >? config.BUFFER_SIZE_FOR_HEADER * 2)%Z)
              (seq 0 (length (signal_of v))) = true)
    by (destruct v; vm_compute; reflexivity).
  rewrite forallb_forall in H. specialize (H j).
  rewrite in_seq in H. specialize (H ltac:(lia)).
  apply andb_prop in H. destruct H as [H H3]. apply andb_prop in H.
  destruct H as [H1 H2]. rewrite negb_true_iff in H1, H2, H3. auto.
Qed.

Lemma signal_whole (v : bool) :
  contains (signal_of v) config.HANDSHAKE_COMPLETE_OK_SIGNAL = v
  /\ (v = false -> contains (signal_of v) config.HANDSHAKE_ERROR_SIGNAL = true).
Proof. destruct v; vm_compute; split; auto; discriminate. Qed.

Lemma firstn_more_of (j k : nat) (l : bytes) :
  firstn j l ++ firstn k (skipn j l) = firstn (j + k) l.
Proof.
  revert l. induction j as [|j IH]; intros l; [reflexivity|].
  destruct l as [|x l]; cbn; [rewrite firstn_nil; reflexivity|].
  rewrite IH. reflexivity.
Qed.

Lemma skipn_more_of (j k : nat) (l : bytes) : skipn k (skipn j l) = skipn (j + k) l.
Proof.
  revert l. induction j as [|j IH]; intros l; [reflexivity|].
  destruct l as [|x l]; cbn; [rewrite skipn_nil; reflexivity|]. apply IH.
Qed.

Lemma min_of_three (a m l j : nat) :
  1 <= a -> 1 <= m -> j < l -> 1 <= Nat.min (Nat.min a m) (l - j) <= l - j.
Proof. lia. Qed.

Section Delivery.
Variables (v : bool) (start : Z).

Lemma response_loop_delivers (net : list (Z * recv_event)) :
  forall (rounds j : nat) (s : env),
    w_net (W s) = net -> length net < rounds ->
    forallb negb (w_cancel (W s)) = true ->
    forallb (fun e => (0 <=? fst e)%Z && negb (is_reset e)) net = true ->
    (w_now (W s) - start + total_time net < HANDSHAKE_TIMEOUT)%Z ->
    response_buffer s = firstn j (signal_of v) ->
    w_wire (W s) = skipn j (signal_of v) ->
    j < length (signal_of v) ->
    length (signal_of v) - j <= length (filter is_arrival net) ->
    exists s',
      response_loop rounds start s = (Ret tt, s')
      /\ handshake_successful s' = v
      /\ gui_log s'
         = gui_log s ++ (if v then [StConfirmed; ShowInfo]
                         else [StReceiverError; ShowWarning])
      /\ forallb negb (w_cancel (W s')) = true
      /\ response_buffer s' = signal_of v
      /\ w_sent (W s') = w_sent (W s).
Proof.
  induction net as [|[dt ev] net IH];
    intros rounds j s Hnet Hr Hc Hev Ht Hbuf Hwire Hj Hneed.
  - cbn [filter length] in Hneed. lia.
  - destruct rounds as [|rounds]; [cbn in Hr; lia|].
    cbn [forallb fst] in Hev. apply andb_prop in Hev. destruct Hev as [Hev0 Hev].
    apply andb_prop in Hev0. destruct Hev0 as [Hdt Hnr]. apply Z.leb_le in Hdt.
    cbn [total_time fold_right fst] in Ht. fold (total_time net) in Ht.
    assert (Htot : (0 <= total_time net)%Z).
    { clear - Hev. induction net as [|e net IHn]; cbn; [lia|].
      cbn in Hev. apply andb_prop in Hev. destruct Hev as [He Hev].
      apply andb_prop in He. destruct He as [He _]. apply Z.leb_le in He.
      specialize (IHn Hev). unfold total_time in IHn. lia. }
    destruct (ReaderFacts.pop_cancel_fields (W s)) as [Pn [Pw Pt]].
    pose proof (ReaderFacts.pop_cancel_quiet _ Hc) as Pc.
    cbn [response_loop]. rewrite bind_lift. unfold time at 1, gets.
    cbn [the_world with_world env_has_world].
    replace (w_now (W s) - start <? HANDSHAKE_TIMEOUT)%Z with true
      by (symmetry; apply Z.ltb_lt; lia).
    rewrite bind_lift. cbn [the_world with_world env_has_world W set_W].
    rewrite (ReaderFacts.is_set_quiet _ Hc). cbv beta iota.
    unfold bind at 1. unfold try_except at 1. rewrite bind_lift. unfold recv.
    change (config.HANDSHAKE_READ_BUFFER_SIZE <? 0)%Z with false. cbv iota zeta.
    cbn [the_world with_world env_has_world W set_W].
    set (w0 := pop_cancel (W s)) in *.
    assert (Ps : w_sent w0 = w_sent (W s))
      by (unfold w0, pop_cancel; destruct (w_cancel (W s)); reflexivity).
    change (w_net (log_recv config.HANDSHAKE_READ_BUFFER_SIZE w0)) with (w_net w0).
    change (w_wire (log_recv config.HANDSHAKE_READ_BUFFER_SIZE w0)) with (w_wire w0).
    rewrite Pn, Hnet.
    destruct ev as [n| |]; [| |discriminate Hnr]; cbv beta iota.
    + (* bytes arrive *)
      rewrite Pw, Hwire.
      set (k := Nat.min (Nat.min (Pos.to_nat n)
                           (Z.to_nat config.HANDSHAKE_READ_BUFFER_SIZE))
                        (length (skipn j (signal_of v)))).
      assert (Hk : 1 <= k <= length (signal_of v) - j).
      { unfold k. rewrite length_skipn. apply min_of_three; [lia| |exact Hj].
        apply Nat.leb_le. reflexivity. }
      unfold ret at 1. cbv beta iota.
      destruct (firstn k (skipn j (signal_of v))) as [|c0 chunk] eqn:Echunk.
      { apply (f_equal (@length _)) in Echunk.
        rewrite length_firstn, length_skipn in Echunk. cbn [length] in Echunk.
        clearbody k. clear - Echunk Hk. lia. }
      rewrite <- Echunk. clear c0 chunk Echunk.
      rewrite bind_modify, bind_get.
      cbn [response_buffer set_response_buffer set_W].
      rewrite Hbuf, firstn_more_of.
      destruct (Nat.eq_dec (j + k) (length (signal_of v))) as [Hall|Hpart].
      * (* the signal is whole *)
        rewrite Hall, firstn_all. clear IH.
        destruct v.
        -- change (contains config.HANDSHAKE_COMPLETE_OK_SIGNAL
                            config.HANDSHAKE_COMPLETE_OK_SIGNAL) with true.
           cbv iota. unfold say, bind, modify. cbn [fst snd].
           eexists. split; [reflexivity|]. cbn.
           split; [reflexivity|]. split; [rewrite <- app_assoc; reflexivity|].
           split; [exact Pc|]. split; [reflexivity|exact Ps].
        -- change (contains config.HANDSHAKE_ERROR_SIGNAL
                            config.HANDSHAKE_COMPLETE_OK_SIGNAL) with false.
           change (contains config.HANDSHAKE_ERROR_SIGNAL
                            config.HANDSHAKE_ERROR_SIGNAL) with true.
           cbv iota. unfold say, bind, modify. cbn [fst snd].
           eexists. split; [reflexivity|]. cbn.
           split; [reflexivity|]. split; [rewrite <- app_assoc; reflexivity|].
           split; [exact Pc|]. split; [reflexivity|exact Ps].
      * (* a part of it *)
        destruct (@signal_parts v (j + k) ltac:(clear - Hk Hpart Hj; lia))
          as (H1 & H2 & H3).
        cbv beta in H1, H2, H3. rewrite H1, H2, H3.
        clearbody k.
        match goal with
        | |- exists s', response_loop _ _ ?st = _ /\ _ =>
            destruct (IH rounds (j + k) st) as [s' (G1 & G2 & G3 & G4 & G5 & G6)]
        end;
          [ reflexivity
          | cbn [length] in Hr; lia
          | exact Pc
          | exact Hev
          | cbn [W set_W set_response_buffer w_now after_recv log_recv];
            rewrite Pt; lia
          | reflexivity
          | cbn [W set_W set_response_buffer w_wire after_recv log_recv];
            rewrite Pw, Hwire; apply skipn_more_of
          | lia
          | cbn [filter is_arrival snd length] in Hneed; lia
          | ].
        exists s'. cbn in G3, G6. rewrite G6, Ps. repeat split; assumption.
    + (* the socket timeout expires *)
      cbn [isinstance]. unfold ret at 1. cbv beta iota.
      match goal with
      | |- exists s', response_loop _ _ ?st = _ /\ _ =>
          destruct (IH rounds j st) as [s' (G1 & G2 & G3 & G4 & G5 & G6)]
      end;
        [ reflexivity
        | cbn [length] in Hr; lia
        | exact Pc
        | exact Hev
        | cbn [W set_W w_now after_recv log_recv]; rewrite Pt; lia
        | exact Hbuf
        | cbn [W set_W w_wire after_recv log_recv skipn]; rewrite Pw; exact Hwire
        | exact Hj
        | cbn [filter is_arrival snd length] in Hneed; exact Hneed
        | ].
      exists s'. cbn in G3, G6. rewrite G6, Ps. repeat split; assumption.
Qed.

End Delivery.

End ClientFacts.

Module ClientVerdict.
Import Py Sys Spec RunFacts ClientFacts handshake_client.

(** The sender's side of the handshake lets no exception out, and its
    answer is backed by what it read: it answers [True] only if the signal
    of success is in the bytes it has read, which are the first bytes the
    receiver sent; and the request is all it may have sent. *)
Theorem client_verdict_is_what_was_read (w : world) :
  match run w with
  | (Ret verdict, s') =>
      (verdict = true ->
       contains (response_buffer s') config.HANDSHAKE_COMPLETE_OK_SIGNAL = true)
      /\ response_buffer s' ++ w_wire (W s') = w_wire w
      /\ (w_sent (W s') = w_sent w ++ [config.HANDSHAKE_REQUEST_SIGNAL]
          \/ w_sent (W s') = w_sent w)
  | (Raise _, _) => False
  | (Blocked, _) => True
  end.
Proof.
  unfold run, perform_folder_handshake_client. unfold bind at 1.
  unfold try_except.
  destruct (request_and_wait (initial_env w)) as [r s1] eqn:E.
  pose proof (request_post _ E) as (G1 & G2 & G3).
  destruct r as [[]|e|]; [| |exact I].
  - rewrite bind_get. cbn. auto.
  - destruct (isinstance e CancelledError); cbn; (split; [discriminate|auto]).
Qed.

(** The two sides of the handshake, put together: the receiver sends its
    response, the sender reads it from its socket, in whatever chunks and
    with socket timeouts in between, within [HANDSHAKE_TIMEOUT] and without
    a cancellation; the sender's answer is the receiver's verification
    result.  On a response of failure the sender shows the receiver's
    error, and then the error of a timeout as well. *)
Theorem handshake_round_trip (verification_result : bool) (ws wc : world) :
  let answer := snd (handshake.perform_folder_handshake_server
                       verification_result ws) in
  hd true (w_sendok ws) = true ->
  w_wire wc = concat (skipn (length (w_sent ws)) (w_sent answer)) ->
  hd true (w_sendok wc) = true ->
  delivers wc HANDSHAKE_TIMEOUT (length (w_wire wc)) = true ->
  fst (run wc) = Ret verification_result
  /\ gui_log (snd (run wc))
     = [StSendingRequest; SpeedWaitingForConfirmation]
       ++ (if verification_result then [StConfirmed; ShowInfo]
           else [StReceiverError; ShowWarning; StHandshakeError; ShowError])
  /\ w_sent (W (snd (run wc))) = w_sent wc ++ [config.HANDSHAKE_REQUEST_SIGNAL].
Proof.
  intros answer Hsok Hwire Hcok Hd.
  assert (Hsig : w_wire wc
                 = if verification_result then config.HANDSHAKE_COMPLETE_OK_SIGNAL
                   else config.HANDSHAKE_ERROR_SIGNAL).
  { destruct (SentFacts.response_sent verification_result ws) as [_ Hs].
    fold answer in Hs. rewrite Hwire, Hs, skipn_app, Nat.sub_diag, skipn_all.
    destruct (w_sendok ws) as [|[|] rest]; [| |discriminate Hsok];
      cbn; apply app_nil_r. }
  unfold delivers in Hd. apply andb_prop in Hd. destruct Hd as [Hd Hneed].
  apply andb_prop in Hd. destruct Hd as [Hd Ht]. apply andb_prop in Hd.
  destruct Hd as [Hc Hev]. apply Z.ltb_lt in Ht. apply Nat.leb_le in Hneed.
  rewrite Hsig in Hneed.
  set (w1 := after_send true (tl (w_sendok wc)) config.HANDSHAKE_REQUEST_SIGNAL wc).
  set (s1 := mkEnv false [] [StSendingRequest; SpeedWaitingForConfirmation] w1).
  destruct (@response_loop_delivers verification_result (w_now wc) (w_net wc)
              (S (length (w_net wc))) 0 s1)
    as [s2 (G1 & G2 & G3 & G4 & G5 & G6)];
    [reflexivity|lia|exact Hc|exact Hev|cbn; lia|reflexivity|exact Hsig
    |destruct verification_result; cbn; lia|rewrite Nat.sub_0_r; exact Hneed|].
  assert (Hrun : request_and_wait (initial_env wc)
                 = ((if verification_result then Ret tt else Raise SocketTimeout),
                    set_W (pop_cancel (W s2)) s2)).
  { unfold request_and_wait. unfold say at 1. rewrite bind_modify, bind_lift.
    unfold sendall.
    cbn [the_world with_world env_has_world W set_W initial_env
         handshake_successful response_buffer gui_log].
    assert (Hsend : match w_sendok wc with
                    | [] => (Ret tt, after_send true [] config.HANDSHAKE_REQUEST_SIGNAL wc)
                    | true :: rest =>
                        (Ret tt, after_send true rest config.HANDSHAKE_REQUEST_SIGNAL wc)
                    | false :: rest =>
                        (Raise OSError,
                         after_send false rest config.HANDSHAKE_REQUEST_SIGNAL wc)
                    end = (Ret tt, w1))
      by (unfold w1; destruct (w_sendok wc) as [|[|] rest];
          [reflexivity|reflexivity|discriminate Hcok]).
    rewrite Hsend. cbv beta iota. unfold say at 1. rewrite bind_modify, bind_lift.
    unfold time at 1, gets.
    cbn [the_world with_world env_has_world W set_W
         handshake_successful response_buffer gui_log app].
    unfold bind at 1. cbv beta iota.
    change (w_now w1) with (w_now wc). change (w_net w1) with (w_net wc).
    change (set_W w1 _) with s1.
    unfold bind at 1. change (w_net (W s1)) with (w_net wc).
    rewrite G1. rewrite bind_lift.
    cbn [the_world with_world env_has_world].
    rewrite (ReaderFacts.is_set_quiet _ G4). cbv beta iota.
    rewrite bind_get. cbn [handshake_successful set_W]. rewrite G2.
    destruct verification_result; reflexivity. }
  assert (Hs2 : w_sent (W s2) = w_sent wc ++ [config.HANDSHAKE_REQUEST_SIGNAL])
    by (rewrite G6; reflexivity).
  assert (Hp : w_sent (pop_cancel (W s2)) = w_sent (W s2))
    by (unfold pop_cancel; destruct (w_cancel (W s2)); reflexivity).
  assert (Hfinal : exists sf,
             run wc = (Ret verification_result, sf)
             /\ gui_log sf
                = gui_log s2 ++ (if verification_result then []
                                 else [StHandshakeError; ShowError])
             /\ w_sent (W sf) = w_sent (W s2)).
  { unfold run, perform_folder_handshake_client. unfold bind at 1.
    unfold try_except. rewrite Hrun.
    destruct verification_result; cbv beta iota.
    - rewrite bind_get. unfold ret. cbn [handshake_successful set_W].
      rewrite G2. eexists. split; [reflexivity|]. cbn. rewrite app_nil_r. auto.
    - change (isinstance SocketTimeout CancelledError) with false. cbv iota.
      unfold say, bind, modify. cbn [fst snd]. unfold get, ret.
      eexists. split; [reflexivity|]. cbn. rewrite <- app_assoc. auto. }
  destruct Hfinal as [sf (F1 & F2 & F3)]. rewrite F1. cbn [fst snd].
  split; [reflexivity|]. rewrite F2, F3, G3, Hs2. cbn [gui_log s1].
  split; [|reflexivity]. destruct verification_result; reflexivity.
Qed.

Lemma handshake_round_trip_sample :
  fst (run (world_on (b "TRANSFER_ERROR") ((10, Arrive 9) :: (40, Silence) :: repeat (5, Arrive 3) 13)%Z))
  = Ret false
  /\ gui_log (snd (run (world_on (b "TRANSFER_ERROR")
                          ((10, Arrive 9) :: (40, Silence) :: repeat (5, Arrive 3) 13)%Z)))
     = [StSendingRequest; SpeedWaitingForConfirmation]
       ++ [StReceiverError; ShowWarning; StHandshakeError; ShowError]
  /\ w_sent (W (snd (run (world_on (b "TRANSFER_ERROR")
                            ((10, Arrive 9) :: (40, Silence) :: repeat (5, Arrive 3) 13)%Z))))
     = w_sent (world_on (b "TRANSFER_ERROR")
                 ((10, Arrive 9) :: (40, Silence) :: repeat (5, Arrive 3) 13)%Z)
       ++ [config.HANDSHAKE_REQUEST_SIGNAL].
Proof.
  apply (@handshake_round_trip false (world_on [] [])
           (world_on (b "TRANSFER_ERROR")
              ((10, Arrive 9) :: (40, Silence) :: repeat (5, Arrive 3) 13)%Z));
    reflexivity.
Defined.

End ClientVerdict.

(* ===================================================================== *)
(** * A file whose name is empty *)
(* ===================================================================== *)

Module PathShape.
Import Py PosixPath Spec PathFacts.

Lemma plain_parts (c : str) :
  plain_name c = true ->
  c <> [] /\ c <> curdir /\ c <> pardir /\ ~ In slash c.
Proof.
  unfold plain_name. intros H.
  apply andb_prop in H. destruct H as [H H4].
  apply andb_prop in H. destruct H as [H H3].
  apply andb_prop in H. destruct H as [H1 H2].
  apply negb_true_iff in H1, H2, H3, H4.
  repeat split; try (intros ->; cbn in *; discriminate).
  intros Hin. assert (E : existsb (N.eqb slash) c = true).
  { apply existsb_exists. exists slash. split; [exact Hin|apply N.eqb_refl]. }
  congruence.
Qed.

Lemma plain_no_slash (cs : list str) :
  forallb plain_name cs = true -> Forall (fun part => ~ In slash part) cs.
Proof.
  intros H. apply Forall_forall. intros c Hc.
  rewrite forallb_forall in H. apply plain_parts. auto.
Qed.

Lemma plain_components (cs : list str) :
  forallb plain_name cs = true -> forallb is_component cs = true.
Proof.
  intros H. apply forallb_forall. intros c Hc.
  rewrite forallb_forall in H. destruct (plain_parts c (H c Hc)) as (H1 & H2 & _).
  unfold is_component. apply andb_true_intro. split; apply negb_true_iff.
  - destruct (str_eqb c []) eqn:E; [apply str_eqb_eq in E; contradiction|reflexivity].
  - destruct (str_eqb c curdir) eqn:E; [apply str_eqb_eq in E; contradiction|reflexivity].
Qed.

Lemma after_last_le (c : N) (l : str) : after_last N.eqb c l <= length l.
Proof.
  induction l as [|x l IH]; cbn; [lia|].
  destruct (after_last N.eqb c l); [destruct (N.eqb x c); lia|lia].
Qed.

Lemma after_last_absent (c : N) (m : str) :
  ~ In c m -> after_last N.eqb c m = 0.
Proof.
  induction m as [|x m IH]; intros Hn; cbn; [reflexivity|].
  rewrite IH by (intros H; apply Hn; right; exact H).
  destruct (N.eqb x c) eqn:E; [|reflexivity].
  apply N.eqb_eq in E. subst x. exfalso. apply Hn. left. reflexivity.
Qed.

Lemma after_last_app_absent (c : N) (l m : str) :
  ~ In c m -> after_last N.eqb c (l ++ m) = after_last N.eqb c l.
Proof.
  intros Hn. induction l as [|x l IH]; cbn.
  - apply after_last_absent. exact Hn.
  - rewrite IH. reflexivity.
Qed.

Lemma after_last_app_present (c : N) (l m : str) :
  ~ In c m -> after_last N.eqb c (l ++ c :: m) = S (length l).
Proof.
  intros Hn. induction l as [|x l IH]; cbn.
  - rewrite after_last_absent by exact Hn. rewrite N.eqb_refl. reflexivity.
  - rewrite IH. reflexivity.
Qed.

(** [os.path.basename] of a name that is empty or ends with a slash. *)
Lemma basename_of_directory (name : str) :
  name = [] \/ endswith N.eqb name sep = true -> basename name = [].
Proof.
  intros [->|H]; [reflexivity|].
  unfold endswith in H. change (rev sep) with [slash] in H.
  destruct (rev name) as [|c r] eqn:E; [discriminate H|].
  cbn [startswith] in H. apply andb_prop in H. destruct H as [H _].
  apply N.eqb_eq in H. subst c.
  assert (En : name = rev r ++ [slash]).
  { rewrite <- (rev_involutive name), E. reflexivity. }
  unfold basename. rewrite En.
  rewrite after_last_app_present by (intros []).
  apply skipn_all2. rewrite length_app. cbn. lia.
Qed.

Lemma join_with_snoc (cs : list str) (x : str) :
  cs <> [] -> join_with sep (cs ++ [x]) = join_with sep cs ++ sep ++ x.
Proof.
  induction cs as [|p cs IH]; intros Hne; [contradiction|].
  destruct cs as [|q cs]; [reflexivity|].
  change (join_with sep ((p :: q :: cs) ++ [x]))
    with (p ++ sep ++ join_with sep ((q :: cs) ++ [x])).
  rewrite IH by discriminate.
  change (join_with sep (p :: q :: cs)) with (p ++ sep ++ join_with sep (q :: cs)).
  rewrite <- !app_assoc. reflexivity.
Qed.

(** A rooted path with one more name is the path, a slash and the name. *)
Lemma rooted_snoc (cs : list str) (x : str) :
  rooted (cs ++ [x])
  = match cs with [] => [] | _ => rooted cs end ++ slash :: x.
Proof.
  destruct cs as [|p cs]; [reflexivity|].
  unfold rooted. rewrite join_with_snoc by discriminate.
  rewrite <- !app_assoc. reflexivity.
Qed.

Lemma rooted_suffix (cs : list str) (x y : str) :
  rooted (cs ++ [x ++ y]) = rooted (cs ++ [x]) ++ y.
Proof.
  rewrite !rooted_snoc. rewrite <- app_assoc. reflexivity.
Qed.

Lemma starts_plain (cs : list str) :
  forallb plain_name cs = true -> startswith N.eqb (join_with sep cs) sep = false.
Proof.
  destruct cs as [|p cs]; intros H; [reflexivity|].
  cbn [forallb] in H. apply andb_prop in H. destruct H as [Hp _].
  destruct (plain_parts p Hp) as (Hne & _ & _ & Hs).
  destruct p as [|c p]; [contradiction|].
  assert (Hc : N.eqb slash c = false).
  { apply N.eqb_neq. intros <-. apply Hs. left. reflexivity. }
  destruct cs; unfold sep; cbn [join_with app startswith]; rewrite Hc; reflexivity.
Qed.

Lemma ends_plain (cs : list str) :
  cs <> [] -> forallb plain_name cs = true ->
  exists pre c, join_with sep cs = pre ++ [c] /\ c <> slash.
Proof.
  induction cs as [|p cs IH]; intros Hne H; [contradiction|].
  cbn [forallb] in H. apply andb_prop in H. destruct H as [Hp Hcs].
  destruct cs as [|q cs].
  - destruct (plain_parts p Hp) as (Hn & _ & _ & Hs).
    exists (removelast p), (last p slash). split.
    + cbn [join_with]. apply app_removelast_last. exact Hn.
    + intros E. apply Hs. rewrite <- E.
      destruct (exists_last Hn) as (l & a & ->). rewrite last_last.
      apply in_or_app. right. left. reflexivity.
  - destruct (IH ltac:(discriminate) Hcs) as (pre & c & E & Hc).
    exists (p ++ sep ++ pre), c. split; [|exact Hc].
    change (join_with sep (p :: q :: cs)) with (p ++ sep ++ join_with sep (q :: cs)).
    rewrite E, <- !app_assoc. reflexivity.
Qed.

Lemma rooted_open_end (cs : list str) :
  cs <> [] -> forallb plain_name cs = true ->
  endswith N.eqb (rooted cs) sep = false.
Proof.
  intros Hne H. destruct (ends_plain Hne H) as (pre & c & E & Hc).
  unfold endswith, rooted. rewrite E, app_assoc, rev_app_distr.
  change (rev sep) with [slash]. cbn [rev app startswith].
  replace (N.eqb slash c) with false; [reflexivity|].
  symmetry. apply N.eqb_neq. congruence.
Qed.

(** [os.path.join(cwd, name)] for a working directory in its usual form. *)
Lemma join_rooted (cs : list str) (x : str) :
  forallb plain_name cs = true -> plain_name x = true ->
  join (rooted cs) [x] = rooted (cs ++ [x]).
Proof.
  intros H Hx. unfold join. cbn [fold_left]. unfold join_step.
  replace (startswith N.eqb x sep) with false
    by (symmetry; apply (@starts_plain [x]); cbn; rewrite Hx; reflexivity).
  rewrite rooted_snoc. destruct cs as [|p cs]; [reflexivity|].
  rewrite (@rooted_open_end (p :: cs)) by (discriminate || exact H).
  unfold rooted at 1, sep at 1. cbn [app]. reflexivity.
Qed.

Lemma split_join (cs : list str) :
  cs <> [] -> Forall (fun part => ~ In slash part) cs ->
  split_on N.eqb slash (join_with sep cs) = cs.
Proof.
  induction cs as [|p cs IH]; intros Hne H; [contradiction|].
  inversion H as [|? ? Hp Hcs]; subst.
  destruct cs as [|q cs].
  - apply split_on_single. exact Hp.
  - change (join_with sep (p :: q :: cs)) with (p ++ slash :: join_with sep (q :: cs)).
    rewrite split_on_app by exact Hp. rewrite IH by (discriminate || exact Hcs).
    reflexivity.
Qed.

Lemma fold_plain (cs : list str) :
  forallb plain_name cs = true ->
  forall acc, fold_left (normpath_step 1) cs acc = acc ++ cs.
Proof.
  induction cs as [|c cs IH]; intros H acc; cbn [fold_left].
  - rewrite app_nil_r. reflexivity.
  - cbn [forallb] in H. apply andb_prop in H. destruct H as [Hc Hcs].
    rewrite (IH Hcs). unfold plain_name in Hc.
    apply andb_prop in Hc. destruct Hc as [Hc _].
    apply andb_prop in Hc. destruct Hc as [Hc H3].
    apply andb_prop in Hc. destruct Hc as [H1 H2].
    apply negb_true_iff in H1, H2. unfold normpath_step.
    rewrite H1, H2, H3. cbn [orb]. rewrite <- app_assoc. reflexivity.
Qed.

(** [os.path.normpath] leaves a rooted path of plain names as it is. *)
Lemma normpath_rooted (cs : list str) :
  forallb plain_name cs = true -> normpath (rooted cs) = rooted cs.
Proof.
  intros H. unfold normpath, rooted, sep. cbn [app].
  assert (E1 : startswith N.eqb (slash :: join_with [slash] cs) [slash] = true).
  { cbn [startswith]. rewrite N.eqb_refl. destruct (join_with [slash] cs); reflexivity. }
  assert (E2 : startswith N.eqb (slash :: join_with [slash] cs) [slash; slash] = false).
  { cbn [startswith]. rewrite N.eqb_refl. exact (starts_plain cs H). }
  rewrite E1, E2. cbn [andb repeat app].
  cbn [split_on]. rewrite N.eqb_refl. cbn [fold_left].
  change (normpath_step 1 [] []) with (@nil str).
  destruct cs as [|p cs]; [reflexivity|].
  change (join_with [slash] (p :: cs)) with (join_with sep (p :: cs)).
  rewrite split_join by (discriminate || apply plain_no_slash; exact H).
  rewrite (fold_plain _ H). reflexivity.
Qed.

Lemma isabs_rooted (cs : list str) : isabs (rooted cs) = true.
Proof.
  unfold isabs, rooted, sep. cbn [app startswith]. rewrite N.eqb_refl.
  destruct (join_with [slash] cs); reflexivity.
Qed.

Lemma abspath_rooted (cwd : str) (cs : list str) :
  forallb plain_name cs = true -> abspath cwd (rooted cs) = rooted cs.
Proof.
  intros H. unfold abspath. rewrite isabs_rooted. apply normpath_rooted. exact H.
Qed.

(** [os.path.abspath(name)] in a working directory of the usual form. *)
Lemma abspath_in (cs : list str) (x : str) :
  forallb plain_name cs = true -> plain_name x = true ->
  abspath (rooted cs) x = rooted (cs ++ [x]).
Proof.
  intros H Hx. unfold abspath.
  replace (isabs x) with false
    by (symmetry; apply (@starts_plain [x]); cbn; rewrite Hx; reflexivity).
  rewrite join_rooted by assumption.
  apply normpath_rooted. rewrite forallb_app, H. cbn. rewrite Hx. reflexivity.
Qed.

Lemma components_rooted (cs : list str) :
  forallb plain_name cs = true -> components (rooted cs) = cs.
Proof.
  intros H. apply components_sep_join;
    [apply plain_no_slash|apply plain_components]; exact H.
Qed.

Lemma str_compare_refl (x : str) : str_compare x x = Eq.
Proof.
  induction x as [|a x IH]; [reflexivity|].
  cbn. rewrite N.compare_refl. exact IH.
Qed.

Lemma comps_compare_refl (x : list str) : comps_compare x x = Eq.
Proof.
  induction x as [|a x IH]; [reflexivity|].
  cbn. rewrite str_compare_refl. exact IH.
Qed.

Lemma commonpath_rooted (cs : list str) :
  forallb plain_name cs = true ->
  commonpath (rooted cs) (rooted cs) = Some (rooted cs).
Proof.
  intros H. unfold commonpath. rewrite Bool.eqb_reflx.
  rewrite (components_rooted _ H), comps_compare_refl, common_prefix_self.
  rewrite isabs_rooted. reflexivity.
Qed.

(** A last name without a dot has no extension. *)
Lemma splitext_rooted (cs : list str) (x : str) :
  plain_name x = true -> ~ In dot x ->
  splitext (rooted (cs ++ [x])) = (rooted (cs ++ [x]), []).
Proof.
  intros Hx Hd. destruct (plain_parts x Hx) as (_ & _ & _ & Hs).
  rewrite rooted_snoc.
  set (pre := match cs with [] => [] | _ => rooted cs end).
  unfold splitext.
  rewrite after_last_app_present by exact Hs.
  rewrite after_last_app_absent
    by (intros [E|E]; [discriminate E|exact (Hd E)]).
  pose proof (after_last_le dot pre) as Hle.
  replace (S (length pre) <? after_last N.eqb dot pre) with false; [reflexivity|].
  symmetry. apply Nat.ltb_ge. lia.
Qed.

(** A path whose last name is longer is not inside the shorter one. *)
Lemma sibling_is_outside (cs : list str) (x y : str) :
  forallb plain_name cs = true -> plain_name x = true ->
  plain_name (x ++ y) = true -> y <> [] ->
  ~ inside (rooted (cs ++ [x])) (rooted (cs ++ [x ++ y])).
Proof.
  intros H Hx Hxy Hy [more E].
  rewrite !components_rooted in E
    by (rewrite forallb_app, H; cbn; rewrite ?Hx, ?Hxy; reflexivity).
  rewrite <- app_assoc in E. apply app_inv_head in E.
  injection E as E _. apply (f_equal (@length N)) in E.
  rewrite length_app in E. destruct y; [contradiction|cbn in E; lia].
Qed.

End PathShape.

Module EmptyName.
Import Py Sys Spec RunFacts PathShape single_file_handler.

Section WithUnicode.
Context {db : UnicodeDB}.

(** [sanitize_path] on the empty relative path gives the base directory
    itself. *)
Lemma sanitize_path_base (cs : list str) (w : world) :
  forallb plain_name cs = true ->
  FS.exists_ (w_fs w) (rooted cs) = true ->
  utils.sanitize_path (rooted cs) [] w = (Ret (rooted cs), w).
Proof.
  intros H He. unfold utils.sanitize_path.
  change (rooted cs) with (slash :: join_with PosixPath.sep cs) at 1. cbv iota.
  erewrite bind_returns; cycle 1.
  { apply try_except_returns. unfold abspath at 1. rewrite bind_gets.
    rewrite (abspath_rooted _ _ H). unfold path_exists at 1. rewrite bind_gets.
    rewrite (abspath_rooted _ _ H), He. reflexivity. }
  change (split_on N.eqb slash []) with [@nil N]. cbn [length].
  replace (utils.sanitize_parts 1 0 [[]] []) with (Some (@nil str)) by reflexivity.
  change (utils.names_a_sub_item []) with false.
  cbn [length Nat.eqb andb PosixPath.join fold_left].
  rewrite (normpath_rooted _ H), (commonpath_rooted _ H).
  rewrite PathFacts.str_eqb_refl. reflexivity.
Qed.

Lemma same_world (s : env) : set_W (W s) s = s.
Proof. destruct s. reflexivity. Qed.

(** The name that is taken: the conflict loop goes one round. *)
Lemma unique_name_second (rounds : nat) (base ext : str) (w : world) :
  let second := base ++ [underscore] ++ str_of_Z 1 ++ ext in
  FS.exists_ (w_fs w) (PosixPath.abspath (w_cwd w) base) = true ->
  FS.exists_ (w_fs w) (PosixPath.abspath (w_cwd w) second) = false ->
  unique_name (S (S rounds)) base ext base 1 w = (Ret second, w).
Proof.
  intros second H1 H2. cbn [unique_name].
  unfold path_exists at 1. rewrite bind_gets, H1.
  change (1 + 1 >? 10000)%Z with false. cbv iota.
  destruct rounds; cbn [unique_name];
    unfold path_exists at 1; rewrite bind_gets; fold second; rewrite H2;
    reflexivity.
Qed.

(** A header whose file name is empty, or ends with a slash, leaves
    nothing to name the file with: [sanitize_path] then gives the
    [received_files] directory itself, which exists, and the conflict
    loop settles on [received_files_1], a path beside the directory and
    not inside it. *)
Theorem nameless_file_is_saved_beside_the_directory
    (names : list str) (name : str) (s : env) :
  let base := rooted (names ++ [save_dir]) in
  forallb plain_name names = true ->
  w_cwd (W s) = rooted names ->
  name = [] \/ endswith N.eqb name PosixPath.sep = true ->
  FS.exists_ (w_fs (W s)) base = true ->
  FS.exists_ (w_fs (W s)) (base ++ u "_1") = false ->
  prepare_path (PosixPath.basename name) s
  = (Ret true, set_file_path (Some (base ++ u "_1")) s)
  /\ ~ inside base (base ++ u "_1").
Proof.
  intros base H Hcwd Hname Hbase Hfree.
  assert (Hs : plain_name save_dir = true) by reflexivity.
  assert (Hs1 : plain_name (save_dir ++ u "_1") = true) by reflexivity.
  assert (Hb : forallb plain_name (names ++ [save_dir]) = true)
    by (rewrite forallb_app, H; reflexivity).
  assert (Hb1 : forallb plain_name (names ++ [save_dir ++ u "_1"]) = true)
    by (rewrite forallb_app, H; reflexivity).
  assert (Hc : base ++ u "_1" = rooted (names ++ [save_dir ++ u "_1"]))
    by (symmetry; apply rooted_suffix).
  subst base. split.
  - rewrite (basename_of_directory Hname). unfold prepare_path.
    apply try_except_returns.
    rewrite bind_lift. unfold abspath at 1, gets.
    cbn [the_world with_world env_has_world].
    rewrite Hcwd, (abspath_in _ _ H Hs), same_world.
    rewrite bind_lift. unfold path_exists at 1, gets.
    cbn [the_world with_world env_has_world].
    rewrite (abspath_rooted _ _ Hb), Hbase, same_world.
    rewrite bind_ret, bind_lift.
    cbn [the_world with_world env_has_world].
    rewrite (@sanitize_path_base _ _ Hb Hbase), same_world.
    rewrite (@splitext_rooted names _ Hs) by (vm_compute; intuition discriminate).
    rewrite bind_lift.
    cbn [the_world with_world env_has_world].
    assert (Er : exists r, Z.to_nat 10000 = S (S r))
      by (exists (Z.to_nat 9998); vm_compute; reflexivity).
    destruct Er as [r ->].
    rewrite unique_name_second; cycle 1.
    { rewrite (abspath_rooted _ _ Hb). exact Hbase. }
    { change ([underscore] ++ str_of_Z 1 ++ []) with (u "_1").
      rewrite Hc, (abspath_rooted _ _ Hb1), <- Hc. exact Hfree. }
    change ([underscore] ++ str_of_Z 1 ++ []) with (u "_1").
    rewrite same_world, bind_modify. reflexivity.
  - rewrite Hc. apply sibling_is_outside; try assumption. discriminate.
Qed.

End WithUnicode.

(** In [/home/user], where [received_files] is there: for the name
    [docs/] the path is [/home/user/received_files_1]; and the handler
    that reads the header of an empty name and three bytes from the
    connection writes them there. *)
Lemma nameless_file_sample :
  let s := initial_env [] (saved_world [] []) in
  (@prepare_path ascii_db (PosixPath.basename (u "docs/")) s
   = (Ret true, set_file_path (Some (u "/home/user/received_files_1")) s)
   /\ ~ inside (u "/home/user/received_files") (u "/home/user/received_files_1"))
  /\ FS.lookup (u "/home/user/received_files_1")
       (w_fs (W (snd (@run ascii_db 4096 []
                        (saved_world (b "|3|4096|abc") [(0%Z, Arrive 14)])))))
     = Some (FS.File (b "abc")).
Proof.
  split; [|vm_compute; reflexivity].
  apply (@nameless_file_is_saved_beside_the_directory ascii_db
           [u "home"; u "user"] (u "docs/")
           (initial_env [] (saved_world [] [])));
    vm_compute; auto.
Defined.

End EmptyName.

(* ===================================================================== *)
(** * A peer that sends nothing *)
(* ===================================================================== *)

Module ReaderTimeout.
Import Py Sys Spec RunFacts HelpersFacts helpers.

Lemma silent_recv (size dt : Z) (rest : list (Z * recv_event)) (w : world) :
  (0 < size)%Z -> w_net w = (dt, Silence) :: rest ->
  recv size w = (Raise SocketTimeout, after_recv dt 0 rest (log_recv size w)).
Proof.
  intros Hs Hn. unfold recv.
  replace (size <? 0)%Z with false by (symmetry; apply Z.ltb_ge; lia).
  cbn [w_net log_recv]. rewrite Hn. reflexivity.
Qed.

Section Loop.
Variables (start timeout max_buffer : Z) (buf : bytes)
          (rest : list (Z * recv_event)).
Hypothesis Hroom : (len buf < max_buffer)%Z.

Lemma loop_expires (waits : list Z) :
  forall (rounds : nat) (w : world) (elapsed : Z),
    length waits < rounds -> w_cancel w = [] ->
    w_net w = silences waits ++ rest ->
    w_now w = (start + elapsed)%Z ->
    expires elapsed timeout waits ->
    exists w',
      read_header_loop rounds start timeout max_buffer [sep_byte] buf w
      = (Raise SocketTimeout, w')
      /\ w_net w' = rest /\ w_wire w' = w_wire w
      /\ w_now w' = (w_now w + fold_right Z.add 0 waits)%Z
      /\ length (w_recv_log w') = length (w_recv_log w) + length waits
      /\ w_fs w' = w_fs w /\ w_sent w' = w_sent w.
Proof.
  induction waits as [|dt waits IH]; intros rounds w elapsed Hr Hc Hn Hnow He;
    (destruct rounds as [|rounds]; [cbn in Hr; lia|]);
    cbn [read_header_loop]; unfold time; rewrite bind_gets, Hnow.
  - cbn [expires] in He.
    replace (start + elapsed - start <? timeout)%Z with false
      by (symmetry; apply Z.ltb_ge; lia).
    exists w. cbn [fold_right length]. unfold raise.
    repeat split; try reflexivity; try lia. exact Hn.
  - cbn [expires] in He. destruct He as [Hlt He].
    replace (start + elapsed - start <? timeout)%Z with true
      by (symmetry; apply Z.ltb_lt; lia).
    unfold bind at 1. unfold is_set. rewrite Hc.
    set (size := if (len buf =? 0)%Z
                 then Z.min config.BUFFER_SIZE_FOR_HEADER max_buffer
                 else Z.min 4096 (max_buffer - len buf)).
    assert (Hsize : (0 < size)%Z).
    { subst size. unfold config.BUFFER_SIZE_FOR_HEADER.
      destruct (len buf =? 0)%Z eqn:E; [apply Z.eqb_eq in E|]; lia. }
    replace (size <=? 0)%Z with false by (symmetry; apply Z.leb_gt; exact Hsize).
    unfold bind at 1, try_except, bind at 1.
    cbn [silences map app] in Hn.
    rewrite (@silent_recv _ _ _ _ Hsize Hn).
    change (isinstance SocketTimeout SocketTimeout) with true. cbv iota. unfold ret at 1.
    destruct (IH rounds (after_recv dt 0 (silences waits ++ rest) (log_recv size w))
                (elapsed + dt)%Z) as (w' & E & H1 & H2 & H3 & H4 & H5 & H6).
    + cbn in Hr. lia.
    + exact Hc.
    + reflexivity.
    + cbn [w_now after_recv log_recv]. lia.
    + exact He.
    + exists w'. split; [exact E|].
      cbn [w_now w_wire w_recv_log w_fs w_sent after_recv log_recv skipn] in H2, H3, H4, H5, H6.
      rewrite length_app in H4. cbn [length fold_right] in *.
      repeat split; try assumption; lia.
Qed.

End Loop.

(** When the buffer has no separator and the peer stays silent until the
    deadline has passed, the call ends in [socket.timeout]: it has made one
    [recv] for each wait, has taken nothing off the connection, and has
    run for the whole of the waits, the last of which began before the
    deadline. *)
Theorem silent_peer_times_out (buf : bytes) (timeout max_buffer : Z)
    (w : world) (waits : list Z) (rest : list (Z * recv_event)) :
  ~ In sep_byte buf -> (len buf < max_buffer)%Z -> w_cancel w = [] ->
  w_net w = silences waits ++ rest ->
  expires 0 timeout waits ->
  exists w',
    read_header_from_socket buf timeout max_buffer w = (Raise SocketTimeout, w')
    /\ w_net w' = rest /\ w_wire w' = w_wire w
    /\ w_now w' = (w_now w + fold_right Z.add 0 waits)%Z
    /\ length (w_recv_log w') = length (w_recv_log w) + length waits
    /\ w_fs w' = w_fs w /\ w_sent w' = w_sent w.
Proof.
  intros Hn Hroom Hc Hnet He.
  unfold read_header_from_socket, encode_utf8.
  rewrite encode_separator. rewrite bind_ret. unfold time. rewrite bind_gets.
  unfold find. rewrite find_from_absent by exact Hn. rewrite bind_gets.
  apply (@loop_expires (w_now w) timeout max_buffer buf rest Hroom waits
           (S (length (w_net w))) w 0%Z).
  - rewrite Hnet, length_app. unfold silences. rewrite length_map. lia.
  - exact Hc.
  - exact Hnet.
  - lia.
  - exact He.
Qed.

(** Twenty socket timeouts of half a second use up the ten seconds of a
    header read, although the rest of the frame comes right after. *)
Lemma silent_peer_sample :
  exists w',
    read_header_from_socket (b "FDR") 10000 8192
      (mkWorld 0 (u "/srv") [] (b "_V1|")
               (silences (repeat 500%Z 20) ++ [(0%Z, Arrive 4)])
               [] [] [] [] false [])
    = (Raise SocketTimeout, w')
    /\ w_net w' = [(0%Z, Arrive 4)] /\ w_wire w' = b "_V1|"
    /\ w_now w' = 10000%Z
    /\ length (w_recv_log w') = 20
    /\ w_fs w' = [] /\ w_sent w' = [].
Proof.
  apply (@silent_peer_times_out (b "FDR") 10000 8192
           (mkWorld 0 (u "/srv") [] (b "_V1|")
                    (silences (repeat 500%Z 20) ++ [(0%Z, Arrive 4)])
                    [] [] [] [] false [])
           (repeat 500%Z 20) [(0%Z, Arrive 4)]).
  - vm_compute. intuition discriminate.
  - reflexivity.
  - reflexivity.
  - reflexivity.
  - cbn. lia.
Defined.

End ReaderTimeout.

(* ===================================================================== *)
(** * An item header of an unknown type *)
(* ===================================================================== *)

Module UnknownType.
Import Py Sys Spec RunFacts FolderRun folder_handler.

Lemma buffer_set_twice (x y : bytes) (s : env) :
  set_received_buffer y (set_received_buffer x s) = set_received_buffer y s.
Proof. destruct s. reflexivity. Qed.

Lemma str_eqb_differs (x y : str) : x <> y -> str_eqb x y = false.
Proof.
  intros H. destruct (str_eqb x y) eqn:E; [|reflexivity].
  apply PathFacts.str_eqb_eq in E. contradiction.
Qed.

Section WithUnicode.
Context {db : UnicodeDB}.

(** In the state that waits for an item header, a header [FDR_V1|kind|]
    whose type is none of END_TRANSFER, FOLDER and FILE is no error: the
    round of the main loop ends with the two frames taken from the buffer
    and nothing else changed (the state, the counts, the disk, the
    connection).  What follows the type is left for the next round, which
    reads it as the start of a header. *)
Theorem unknown_item_type_is_passed_over (rbs : Z) (s : env) (kind : str)
    (kb rest : bytes) :
  current_state s = STATE_WAITING_FOR_ITEM_HEADER ->
  received_buffer s = b "FDR_V1|" ++ kb ++ sep_byte :: rest ->
  decode kb = Some kind -> ~ In sep_byte kb ->
  kind <> config.FOLDER_HEADER_TYPE_END_TRANSFER ->
  kind <> config.FOLDER_HEADER_TYPE_FOLDER ->
  kind <> config.FOLDER_HEADER_TYPE_FILE ->
  loop_body rbs s = (Ret tt, set_received_buffer rest s).
Proof.
  intros Hstate Hb Hd Hn H1 H2 H3.
  assert (Hb1 : received_buffer s
                = b "FDR_V1" ++ sep_byte :: (kb ++ sep_byte :: rest)) by exact Hb.
  assert (Hsep1 : ~ In sep_byte (b "FDR_V1")) by (cbn; intuition discriminate).
  pose proof (@read_header_ready config.DISCOVERY_TIMEOUT s (u "FDR_V1")
                (b "FDR_V1") _ Hb1 eq_refl Hsep1) as E1.
  pose proof (@read_header_ready helpers.default_timeout
                (set_received_buffer (kb ++ sep_byte :: rest) s)
                kind kb rest eq_refl Hd Hn) as E2.
  rewrite buffer_set_twice in E2.
  unfold loop_body. apply try_except_returns.
  unfold dispatch. rewrite bind_get, Hstate. unfold on_item_header.
  step E1.
  step (EndFacts.prefix_is_no_request (set_received_buffer (kb ++ sep_byte :: rest) s)).
  cbv iota.
  replace (str_eqb (u "FDR_V1") config.FOLDER_PROTOCOL_PREFIX) with true
    by reflexivity.
  cbn [negb]. cbv iota. step E2.
  rewrite (str_eqb_differs H1), (str_eqb_differs H2), (str_eqb_differs H3).
  reflexivity.
Qed.

End WithUnicode.

(** A second TOTAL_INFO header, in a session that waits for items: its
    type is passed over, and the next round takes its count for the prefix
    of a header and fails. *)
Lemma unknown_item_type_sample :
  let s := folder_in_session (b "FDR_V1|TOTAL_INFO|3|100|") (saved_world [] []) in
  @loop_body ascii_db 4096 s = (Ret tt, set_received_buffer (b "3|100|") s)
  /\ fst (@loop_body ascii_db 4096 (set_received_buffer (b "3|100|") s))
     = Raise ValueError.
Proof.
  split; [|vm_compute; reflexivity].
  apply (@unknown_item_type_is_passed_over ascii_db 4096
           (folder_in_session (b "FDR_V1|TOTAL_INFO|3|100|") (saved_world [] []))
           (u "TOTAL_INFO") (b "TOTAL_INFO") (b "3|100|"));
    try reflexivity; try discriminate.
  vm_compute. intuition discriminate.
Defined.

End UnknownType.

(* ===================================================================== *)
(** * What was on the disk stays as it was *)
(* ===================================================================== *)

Module DiskFacts.
Import Py Spec PathFacts FSFacts.

Lemma lookup_drop_other (p q : str) (fs : FS.t) :
  str_eqb q p = false -> FS.lookup q (FS.drop p fs) = FS.lookup q fs.
Proof.
  intros H. unfold FS.drop. induction fs as [|[q' n] fs IH]; [reflexivity|].
  cbn [filter fst]. destruct (str_eqb p q') eqn:E; cbn [negb FS.lookup].
  - apply str_eqb_eq in E. subst q'. rewrite H. exact IH.
  - destruct (str_eqb q q'); [reflexivity|exact IH].
Qed.

Lemma preserved_refl (fs : FS.t) : preserved fs fs.
Proof. intros q n H. exact H. Qed.

Lemma preserved_trans (a c d : FS.t) :
  preserved a c -> preserved c d -> preserved a d.
Proof. intros H1 H2 q n H. auto. Qed.

Lemma preserved_new (p : str) (n : FS.node) (fs : FS.t) :
  FS.lookup p fs = None -> preserved fs ((p, n) :: fs).
Proof.
  intros H q m Hq. cbn [FS.lookup]. destruct (str_eqb q p) eqn:E; [|exact Hq].
  apply str_eqb_eq in E. subst q. congruence.
Qed.

Lemma mkdir_preserved (fs fs' : FS.t) (name : str) :
  FS.mkdir fs name = Some fs' -> preserved fs fs'.
Proof.
  unfold FS.mkdir. destruct (FS.exists_ fs name) eqn:E; [discriminate|].
  destruct (FS.isdir fs _); [|discriminate]. intros [= <-].
  apply preserved_new. apply exists_false in E. tauto.
Qed.

Lemma makedirs_fuel_preserved (fuel : nat) :
  forall (fs fs' : FS.t) (name : str),
    FS.makedirs_fuel fuel fs name = Some fs' -> preserved fs fs'.
Proof.
  induction fuel as [|fuel IH]; intros fs fs' name H; [discriminate H|].
  cbn [FS.makedirs_fuel] in H. cbv zeta in H.
  match type of H with
  | match ?parents with _ => _ end = _ => destruct parents as [fs1|] eqn:Ep
  end; [|discriminate H].
  assert (H1 : preserved fs fs1).
  { match type of Ep with
    | (if ?c then _ else _) = _ => destruct c
    end; [exact (IH _ _ _ Ep)|injection Ep as <-; apply preserved_refl]. }
  destruct (FS.mkdir fs1 name) as [fs2|] eqn:Em.
  - injection H as <-. eapply preserved_trans; [exact H1|].
    exact (mkdir_preserved _ _ Em).
  - destruct (FS.isdir fs1 name); [injection H as <-; exact H1|discriminate H].
Qed.

Lemma makedirs_preserved (fs fs' : FS.t) (name : str) :
  FS.makedirs fs name = Some fs' -> preserved fs fs'.
Proof. apply makedirs_fuel_preserved. Qed.

Section Old.
Variable fs0 : FS.t.

(** What does not exist now was not there at the start. *)
Lemma not_there (fs : FS.t) (q : str) :
  preserved fs0 fs -> FS.exists_ fs q = false -> FS.lookup q fs0 = None.
Proof.
  intros H E. apply exists_false in E. destruct E as [E _].
  destruct (FS.lookup q fs0) as [n|] eqn:L; [|reflexivity].
  apply H in L. congruence.
Qed.

Lemma preserved_but (p : str) (n : FS.node) (fs : FS.t) :
  FS.lookup p fs0 = None -> preserved fs0 fs ->
  preserved fs0 ((p, n) :: FS.drop p fs).
Proof.
  intros Hp H q m Hq. cbn [FS.lookup]. destruct (str_eqb q p) eqn:E.
  - apply str_eqb_eq in E. subst q. congruence.
  - rewrite lookup_drop_other by exact E. exact (H _ _ Hq).
Qed.

Lemma preserved_drop (p : str) (fs : FS.t) :
  FS.lookup p fs0 = None -> preserved fs0 fs -> preserved fs0 (FS.drop p fs).
Proof.
  intros Hp H q m Hq. destruct (str_eqb q p) eqn:E.
  - apply str_eqb_eq in E. subst q. congruence.
  - rewrite lookup_drop_other by exact E. exact (H _ _ Hq).
Qed.

Lemma open_wb_old (p : str) (fs fs' : FS.t) :
  FS.lookup p fs0 = None -> preserved fs0 fs ->
  FS.open_wb fs p = Some fs' -> preserved fs0 fs'.
Proof.
  intros Hp H. unfold FS.open_wb. destruct (FS.isdir fs p); [discriminate|].
  destruct (FS.isdir fs _); [|discriminate]. intros [= <-].
  apply preserved_but; assumption.
Qed.

Lemma append_old (p : str) (data : bytes) (fs : FS.t) :
  FS.lookup p fs0 = None -> preserved fs0 fs ->
  preserved fs0 (FS.append fs p data).
Proof.
  intros Hp H. unfold FS.append. destruct (FS.lookup p fs) as [[c|]|]; try exact H.
  apply preserved_but; assumption.
Qed.

Lemma remove_old (p : str) (fs fs' : FS.t) :
  FS.lookup p fs0 = None -> preserved fs0 fs ->
  FS.remove fs p = Some fs' -> preserved fs0 fs'.
Proof.
  intros Hp H. unfold FS.remove. destruct (FS.lookup p fs) as [[c|]|]; try discriminate.
  intros [= <-]. apply preserved_drop; assumption.
Qed.

End Old.

End DiskFacts.

Module OldWorld.
Import Py Sys Spec Logic RunFacts DiskFacts.

Section Old.
Variables (fs0 : FS.t) (cwd0 : str).

Local Abbreviation old :=
  (fun w : world => preserved fs0 (w_fs w) /\ w_cwd w = cwd0).

Lemma old_same {A} (m : M world A) :
  (forall w r w', m w = (r, w') -> w_fs w' = w_fs w /\ w_cwd w' = w_cwd w) ->
  stable old m.
Proof.
  intros H w r w' [H1 H2] E. destruct (H _ _ _ E) as [Ef Ec].
  rewrite Ef, Ec. auto.
Qed.

Lemma old_gui e : stable old (gui e).
Proof. apply old_same. unfold gui, modify. intros w r w' [= <- <-]. auto. Qed.

Lemma old_abspath p : stable old (abspath p).
Proof. apply old_same. unfold abspath, gets. intros w r w' [= <- <-]. auto. Qed.

Lemma old_path_exists p : stable old (path_exists p).
Proof. apply old_same. unfold path_exists, gets. intros w r w' [= <- <-]. auto. Qed.

Lemma old_path_isdir p : stable old (path_isdir p).
Proof. apply old_same. unfold path_isdir, gets. intros w r w' [= <- <-]. auto. Qed.

Lemma old_time : stable old time.
Proof. apply old_same. unfold time, gets. intros w r w' [= <- <-]. auto. Qed.

Lemma old_is_set : stable old is_set.
Proof.
  apply old_same. unfold is_set. intros w r w'.
  destruct (w_cancel w); intros [= <- <-]; auto.
Qed.

Lemma old_close_socket : stable old close_socket.
Proof. apply old_same. unfold close_socket, modify. intros w r w' [= <- <-]. auto. Qed.

Lemma old_recv size : stable old (recv size).
Proof.
  apply old_same. unfold recv. intros w r w'.
  destruct (size <? 0)%Z; [intros [= <- <-]; auto|]. cbv zeta.
  destruct (w_net (log_recv size w)) as [|[dt [n| |]] net];
    intros [= <- <-]; auto.
Qed.

Lemma old_sendall data : stable old (sendall data).
Proof.
  apply old_same. unfold sendall. intros w r w'.
  destruct (w_sendok w) as [|[|] rest]; intros [= <- <-]; auto.
Qed.

Lemma old_makedirs p : stable old (makedirs p).
Proof.
  intros w r w' [H1 H2] E. unfold makedirs in E.
  destruct (FS.makedirs _ _) as [f|] eqn:Em; injection E as <- <-;
    [|auto].
  split; [|exact H2]. cbn.
  eapply preserved_trans; [exact H1|exact (makedirs_preserved _ _ Em)].
Qed.

(** A file that was not there at the start may be created, written and
    removed. *)
Lemma old_open_wb p :
  FS.lookup (PosixPath.abspath cwd0 p) fs0 = None -> stable old (open_wb p).
Proof.
  intros Hp w r w' [H1 H2] E. unfold open_wb in E. cbv zeta in E.
  rewrite H2 in E.
  destruct (FS.open_wb _ _) as [f|] eqn:Eo; injection E as <- <-; [|auto].
  split; [|exact H2]. cbn. exact (open_wb_old _ Hp H1 Eo).
Qed.

Lemma old_write h d : FS.lookup h fs0 = None -> stable old (write h d).
Proof.
  intros Hp w r w' [H1 H2] E. unfold write, modify in E. injection E as <- <-.
  split; [|exact H2]. cbn. apply append_old; assumption.
Qed.

Lemma old_remove p :
  FS.lookup (PosixPath.abspath cwd0 p) fs0 = None -> stable old (remove p).
Proof.
  intros Hp w r w' [H1 H2] E. unfold remove in E. rewrite H2 in E.
  destruct (FS.remove _ _) as [f|] eqn:Er; injection E as <- <-; [|auto].
  split; [|exact H2]. cbn. exact (remove_old _ Hp H1 Er).
Qed.

Lemma old_split buf sep i : stable old (helpers.split_at_separator buf sep i).
Proof. unfold helpers.split_at_separator. walk idtac. Qed.

Lemma old_reader_loop start timeout max_buffer sep :
  forall rounds buf,
    stable old (helpers.read_header_loop rounds start timeout max_buffer sep buf).
Proof.
  pose proof old_time. pose proof old_is_set. pose proof old_recv.
  pose proof old_split.
  induction rounds as [|rounds IH]; intros buf; cbn [helpers.read_header_loop].
  - apply stable_blocked.
  - walk ltac:(eauto).
Qed.

Lemma old_reader buf timeout max_buffer :
  stable old (helpers.read_header_from_socket buf timeout max_buffer).
Proof.
  pose proof old_time. pose proof old_split. pose proof old_reader_loop.
  unfold helpers.read_header_from_socket. walk ltac:(eauto).
Qed.

Lemma old_unique_name base ext :
  forall rounds final counter,
    stable old (single_file_handler.unique_name rounds base ext final counter).
Proof.
  pose proof old_path_exists.
  induction rounds as [|rounds IH]; intros final counter;
    cbn [single_file_handler.unique_name]; walk ltac:(eauto).
Qed.

Lemma old_response v : stable old (handshake.perform_folder_handshake_server v).
Proof.
  pose proof old_gui. pose proof old_sendall.
  unfold handshake.perform_folder_handshake_server. walk ltac:(eauto).
Qed.

Context {db : UnicodeDB}.

Lemma old_sanitize_path base rel : stable old (utils.sanitize_path base rel).
Proof.
  pose proof old_abspath. pose proof old_path_exists. pose proof old_makedirs.
  unfold utils.sanitize_path. walk ltac:(eauto).
Qed.

End Old.

(** A call of the world that changes nothing that was on the disk. *)
Ltac keeps_old :=
  first [ apply old_gui | apply old_abspath | apply old_path_exists
        | apply old_path_isdir | apply old_time | apply old_is_set
        | apply old_close_socket | apply old_recv | apply old_sendall
        | apply old_makedirs | apply old_reader | apply old_unique_name
        | apply old_response | apply old_sanitize_path
        | apply old_open_wb; solve [eauto]
        | apply old_write; solve [eauto]
        | apply old_remove; solve [eauto] ].

Section Steps.
Context {S : Type}.

Lemma stable_get_bind {B} (I : S -> Prop) (k : S -> M S B) :
  (forall s0, I s0 -> stable I (k s0)) -> stable I (bind get k).
Proof. intros H s r s' Hs E. rewrite bind_get in E. exact (H s Hs s r s' Hs E). Qed.

Lemma stable_assoc {A B C} (I : S -> Prop) (m : M S A) (k : A -> M S B)
    (h : B -> M S C) :
  stable I (bind m (fun a => bind (k a) h)) -> stable I (bind (bind m k) h).
Proof. intros H s r s' Hs E. rewrite bind_assoc in E. exact (H s r s' Hs E). Qed.

Lemma stable_bind_ret {A B} (I : S -> Prop) (a : A) (k : A -> M S B) :
  stable I (k a) -> stable I (bind (ret a) k).
Proof. intros H s r s' Hs E. rewrite bind_ret in E. exact (H s r s' Hs E). Qed.

Lemma stable_bind_raise {A B} (I : S -> Prop) (e : exn) (k : A -> M S B) :
  stable I (bind (raise e) k).
Proof. intros s r s' Hs E. rewrite bind_raise in E. injection E as _ <-. exact Hs. Qed.

End Steps.

End OldWorld.

Module OldSingle.
Import Py Sys Spec Logic RunFacts DiskFacts OldWorld single_file_handler.

Section WithUnicode.
Context {db : UnicodeDB}.
Variables (fs0 : FS.t) (cwd0 : str).

Local Abbreviation old :=
  (fun w : world => preserved fs0 (w_fs w) /\ w_cwd w = cwd0).

(** The disk holds what it held, and the path chosen for the file is the
    name of nothing that was there. *)
Local Abbreviation careful :=
  (fun s : env =>
     (preserved fs0 (w_fs (W s)) /\ w_cwd (W s) = cwd0)
     /\ forall p, file_path s = Some p ->
                  FS.lookup (PosixPath.abspath cwd0 p) fs0 = None).

Lemma single_lift_old {A} (m : M world A) : stable old m -> stable careful (lift m).
Proof.
  intros Hm s r s' [Ho Hf] E. unfold lift in E. cbn in E.
  destruct (m (W s)) as [r1 w1] eqn:Em. injection E as <- <-.
  split; [exact (Hm _ _ _ Ho Em)|exact Hf].
Qed.

Lemma single_bind_unique {B} rounds base ext final counter (k : str -> M env B) :
  (forall p, FS.lookup (PosixPath.abspath cwd0 p) fs0 = None -> stable careful (k p)) ->
  stable careful (bind (lift (unique_name rounds base ext final counter)) k).
Proof.
  intros Hk s r s' Hs E. rewrite bind_lift in E.
  cbn [the_world with_world env_has_world] in E.
  destruct (unique_name rounds base ext final counter (W s)) as [r1 w1] eqn:Eu.
  assert (H1 : careful (set_W w1 s)).
  { apply (@single_lift_old _ (unique_name rounds base ext final counter)
             (@old_unique_name fs0 cwd0 base ext rounds final counter)
             s r1 _ Hs).
    unfold lift. cbn. rewrite Eu. reflexivity. }
  destruct r1 as [p|e|]; [|injection E as _ <-; exact H1..].
  refine (Hk p _ _ _ _ H1 E).
  destruct (NewNames.unique_name_is_new _ _ _ _ _ _ Eu) as (_ & Hnew & _).
  destruct Hs as [[Hp Hc] _]. rewrite Hc in Hnew.
  exact (@not_there _ _ _ Hp Hnew).
Qed.

Lemma single_bind_open {B} p (k : str -> M env B) :
  FS.lookup (PosixPath.abspath cwd0 p) fs0 = None ->
  stable careful (k (PosixPath.abspath cwd0 p)) ->
  stable careful (bind (lift (open_wb p)) k).
Proof.
  intros Hp Hk s r s' Hs E. rewrite bind_lift in E.
  cbn [the_world with_world env_has_world] in E.
  destruct (open_wb p (W s)) as [r1 w1] eqn:Eo.
  assert (H1 : careful (set_W w1 s)).
  { apply (@single_lift_old _ (open_wb p) (@old_open_wb fs0 cwd0 p Hp) s r1 _ Hs).
    unfold lift. cbn. rewrite Eo. reflexivity. }
  destruct r1 as [h|e|]; [|injection E as _ <-; exact H1..].
  destruct (WorldFrames.inv_open_wb _ _ Eo) as (f & _ & -> & _).
  destruct Hs as [[_ Hc] _]. rewrite Hc in E.
  exact (Hk _ _ _ H1 E).
Qed.

End WithUnicode.

Ltac single_old_side :=
  let s := fresh "s" in let Ho := fresh "Ho" in let Hf := fresh "Hf" in
  let p := fresh "p" in let Hp := fresh "Hp" in
  intros s [Ho Hf]; cbn; split; [exact Ho|];
  intros p Hp;
  first [ exact (Hf p Hp) | discriminate Hp
        | injection Hp as <-; solve [eauto] ].

Ltac single_old_walk known :=
  lazymatch goal with
  | |- stable _ (bind get _) =>
      apply stable_get_bind; intros ? [? ?]; single_old_walk known
  | |- stable _ (bind (lift (unique_name _ _ _ _ _)) _) =>
      apply single_bind_unique; intros ? ?; single_old_walk known
  | |- stable _ (bind (lift (open_wb _)) _) =>
      apply single_bind_open; [solve [eauto]|single_old_walk known]
  | |- stable _ (bind _ _) =>
      apply stable_bind; [single_old_walk known|intros; single_old_walk known]
  | |- stable _ (ret _) => apply stable_ret
  | |- stable _ (raise _) => apply stable_raise
  | |- stable _ get => apply stable_get
  | |- stable _ (gets _) => apply stable_gets
  | |- stable _ (modify _) => apply stable_modify; single_old_side
  | |- stable _ (lift _) => apply single_lift_old; keeps_old
  | |- stable _ (try_except _ _) =>
      apply stable_try_except;
      [single_old_walk known
      |let e := fresh "e" in intros e; cbv beta; single_old_handler known]
  | |- stable _ (try_finally _ _) =>
      apply stable_try_finally; [single_old_walk known|single_old_walk known]
  | |- stable _ (fun s => (Blocked, s)) => apply stable_blocked
  | |- stable _ (match ?x with _ => _ end) =>
      destruct x eqn:?; single_old_walk known
  | |- stable _ (Sys.encode_utf8 _) => unfold Sys.encode_utf8; single_old_walk known
  | |- stable _ (Sys.decode_utf8 _) => unfold Sys.decode_utf8; single_old_walk known
  | |- stable _ (utils.format_bytes _) =>
      unfold utils.format_bytes; single_old_walk known
  | |- stable _ _ => first [solve [known]|fail 1 "no lemma for this call"]
  end
with single_old_handler known :=
  lazymatch goal with
  | |- match (if ?c then _ else _) with _ => _ end =>
      destruct c eqn:?; single_old_handler known
  | |- match Some _ with _ => _ end => cbv beta iota; single_old_walk known
  | |- match None with _ => _ end => exact I
  | |- True => exact I
  | |- _ => single_old_walk known
  end.

Section Handler.
Context {db : UnicodeDB}.
Variables (fs0 : FS.t) (cwd0 : str).

Local Abbreviation careful :=
  (fun s : env =>
     (preserved fs0 (w_fs (W s)) /\ w_cwd (W s) = cwd0)
     /\ forall p, file_path s = Some p ->
                  FS.lookup (PosixPath.abspath cwd0 p) fs0 = None).

Lemma careful_say e : stable careful (say e).
Proof. unfold say. single_old_walk idtac. Qed.

Lemma careful_read_header t : stable careful (read_header t).
Proof. unfold read_header. single_old_walk idtac. Qed.

Lemma careful_receive_loop handle rbs :
  FS.lookup handle fs0 = None ->
  forall rounds, stable careful (receive_loop rounds handle rbs).
Proof.
  intros Hh. pose proof careful_say.
  induction rounds as [|rounds IH]; cbn [receive_loop].
  - apply stable_blocked.
  - single_old_walk ltac:(eauto).
Qed.

Lemma careful_handler rbs : stable careful (handle_client_connection rbs).
Proof.
  pose proof careful_say. pose proof careful_read_header.
  pose proof careful_receive_loop.
  unfold handle_client_connection, parse_header, prepare_path, receive_file,
    receive_body, cleanup.
  single_old_walk ltac:(eauto).
Qed.

End Handler.

End OldSingle.

Module OldFolder.
Import Py Sys Spec Logic RunFacts DiskFacts OldWorld FolderWalk folder_handler.

Section WithUnicode.
Context {db : UnicodeDB}.
Variables (fs0 : FS.t) (cwd0 : str).

Local Abbreviation old :=
  (fun w : world => preserved fs0 (w_fs w) /\ w_cwd w = cwd0).

(** The disk holds what it held, and neither the open file nor the path
    chosen for it is the name of something that was there. *)
Local Abbreviation wary :=
  (fun s : env =>
     (preserved fs0 (w_fs (W s)) /\ w_cwd (W s) = cwd0)
     /\ (forall h, current_file_handle s = Some h -> FS.lookup h fs0 = None)
     /\ (forall p, current_file_path s = Some p ->
                   FS.lookup (PosixPath.abspath cwd0 p) fs0 = None)).

Lemma folder_lift_old {A} (m : M world A) : stable old m -> stable wary (lift m).
Proof.
  intros Hm s r s' [Ho Hf] E. unfold lift in E. cbn in E.
  destruct (m (W s)) as [r1 w1] eqn:Em. injection E as <- <-.
  split; [exact (Hm _ _ _ Ho Em)|exact Hf].
Qed.

Lemma folder_bind_unique {B} rounds base ext final counter (k : str -> M env B) :
  (forall p, FS.lookup (PosixPath.abspath cwd0 p) fs0 = None -> stable wary (k p)) ->
  stable wary
    (bind (lift (single_file_handler.unique_name rounds base ext final counter)) k).
Proof.
  intros Hk s r s' Hs E. rewrite bind_lift in E.
  cbn [the_world with_world env_has_world] in E.
  destruct (single_file_handler.unique_name rounds base ext final counter (W s))
    as [r1 w1] eqn:Eu.
  assert (H1 : wary (set_W w1 s)).
  { apply (@folder_lift_old _ (single_file_handler.unique_name rounds base ext final counter)
             (@old_unique_name fs0 cwd0 base ext rounds final counter)
             s r1 _ Hs).
    unfold lift. cbn. rewrite Eu. reflexivity. }
  destruct r1 as [p|e|]; [|injection E as _ <-; exact H1..].
  refine (Hk p _ _ _ _ H1 E).
  destruct (NewNames.unique_name_is_new _ _ _ _ _ _ Eu) as (_ & Hnew & _).
  destruct Hs as [[Hp Hc] _]. rewrite Hc in Hnew.
  exact (@not_there _ _ _ Hp Hnew).
Qed.

Lemma folder_bind_exists {B} p (k : bool -> M env B) :
  (forall present,
     (present = false -> FS.lookup (PosixPath.abspath cwd0 p) fs0 = None) ->
     stable wary (k present)) ->
  stable wary (bind (lift (path_exists p)) k).
Proof.
  intros Hk s r s' Hs E. rewrite bind_lift in E.
  unfold path_exists at 1, gets in E.
  cbn [the_world with_world env_has_world] in E.
  assert (H1 : wary (set_W (W s) s)) by (destruct s; exact Hs).
  refine (Hk _ _ _ _ _ H1 E).
  intros Hnew. destruct Hs as [[Hp Hc] _]. rewrite Hc in Hnew.
  exact (@not_there _ _ _ Hp Hnew).
Qed.

Lemma folder_bind_open {B} p (k : str -> M env B) :
  FS.lookup (PosixPath.abspath cwd0 p) fs0 = None ->
  stable wary (k (PosixPath.abspath cwd0 p)) ->
  stable wary (bind (lift (open_wb p)) k).
Proof.
  intros Hp Hk s r s' Hs E. rewrite bind_lift in E.
  cbn [the_world with_world env_has_world] in E.
  destruct (open_wb p (W s)) as [r1 w1] eqn:Eo.
  assert (H1 : wary (set_W w1 s)).
  { apply (@folder_lift_old _ (open_wb p) (@old_open_wb fs0 cwd0 p Hp) s r1 _ Hs).
    unfold lift. cbn. rewrite Eo. reflexivity. }
  destruct r1 as [h|e|]; [|injection E as _ <-; exact H1..].
  destruct (WorldFrames.inv_open_wb _ _ Eo) as (f & _ & -> & _).
  destruct Hs as [[_ Hc] _]. rewrite Hc in E.
  exact (Hk _ _ _ H1 E).
Qed.

End WithUnicode.

Ltac folder_old_side :=
  let s := fresh "s" in let Ho := fresh "Ho" in let Hh := fresh "Hh" in
  let Hf := fresh "Hf" in
  intros s [Ho [Hh Hf]]; cbn; split; [exact Ho|];
  split;
  (let p := fresh "p" in let Hp := fresh "Hp" in
   intros p Hp;
   first [ exact (Hh p Hp) | exact (Hf p Hp) | discriminate Hp
         | injection Hp as <-; solve [eauto] ]).

Ltac folder_old_walk known :=
  lazymatch goal with
  | |- stable _ (bind get _) =>
      apply stable_get_bind; intros ? [? [? ?]]; folder_old_walk known
  | |- stable _ (bind (bind _ _) _) => apply stable_assoc; folder_old_walk known
  | |- stable _ (bind (ret _) _) => apply stable_bind_ret; folder_old_walk known
  | |- stable _ (bind (raise _) _) => apply stable_bind_raise
  | |- stable _ (bind (required _) _) => unfold required at 1; folder_old_walk known
  | |- stable _ (bind (match ?x with _ => _ end) _) =>
      destruct x eqn:?; folder_old_walk known
  | |- stable _ (bind (lift (single_file_handler.unique_name _ _ _ _ _)) _) =>
      apply folder_bind_unique; intros ? ?; folder_old_walk known
  | |- stable _ (bind (lift (path_exists _)) _) =>
      apply folder_bind_exists; intros ? ?; folder_old_walk known
  | |- stable _ (bind (lift (open_wb _)) _) =>
      apply folder_bind_open; [solve [eauto]|folder_old_walk known]
  | |- stable _ (bind _ _) =>
      apply stable_bind; [folder_old_walk known|intros; folder_old_walk known]
  | |- stable _ (ret _) => apply stable_ret
  | |- stable _ (raise _) => apply stable_raise
  | |- stable _ get => apply stable_get
  | |- stable _ (gets _) => apply stable_gets
  | |- stable _ (modify _) => apply stable_modify; folder_old_side
  | |- stable _ (lift _) => apply folder_lift_old; keeps_old
  | |- stable _ (try_except _ _) =>
      apply stable_try_except;
      [folder_old_walk known
      |let e := fresh "e" in intros e; cbv beta; folder_old_handler known]
  | |- stable _ (try_finally _ _) =>
      apply stable_try_finally; [folder_old_walk known|folder_old_walk known]
  | |- stable _ (fun s => (Blocked, s)) => apply stable_blocked
  | |- stable _ (match ?x with _ => _ end) =>
      destruct x eqn:?; folder_old_walk known
  | |- stable _ (Sys.encode_utf8 _) => unfold Sys.encode_utf8; folder_old_walk known
  | |- stable _ (Sys.decode_utf8 _) => unfold Sys.decode_utf8; folder_old_walk known
  | |- stable _ (utils.format_bytes _) =>
      unfold utils.format_bytes; folder_old_walk known
  | |- stable _ _ => first [solve [known]|fail 1 "no lemma for this call"]
  end
with folder_old_handler known :=
  lazymatch goal with
  | |- match (if ?c then _ else _) with _ => _ end =>
      destruct c eqn:?; folder_old_handler known
  | |- match Some _ with _ => _ end => cbv beta iota; folder_old_walk known
  | |- match None with _ => _ end => exact I
  | |- True => exact I
  | |- _ => folder_old_walk known
  end.

Ltac folder_old_through :=
  first [ solve [eauto] | unfold_call; folder_old_walk ltac:(folder_old_through) ].

Section Handler.
Context {db : UnicodeDB}.
Variables (fs0 : FS.t) (cwd0 : str).

Local Abbreviation wary :=
  (fun s : env =>
     (preserved fs0 (w_fs (W s)) /\ w_cwd (W s) = cwd0)
     /\ (forall h, current_file_handle s = Some h -> FS.lookup h fs0 = None)
     /\ (forall p, current_file_path s = Some p ->
                   FS.lookup (PosixPath.abspath cwd0 p) fs0 = None)).

Lemma wary_say e : stable wary (say e).
Proof. folder_old_through. Qed.

Lemma wary_read_header t : stable wary (read_header t).
Proof. folder_old_through. Qed.

Lemma wary_close : stable wary close_current_file.
Proof. folder_old_through. Qed.

Lemma wary_take handle n :
  FS.lookup handle fs0 = None -> stable wary (take_from_buffer handle n).
Proof. intros Hh. folder_old_through. Qed.

Lemma wary_data_loop handle rbs :
  FS.lookup handle fs0 = None ->
  forall rounds, stable wary (data_loop rounds handle rbs).
Proof.
  intros Hh. pose proof (@wary_take handle).
  induction rounds as [|rounds IH]; cbn [data_loop].
  - apply stable_blocked.
  - folder_old_walk ltac:(eauto).
Qed.

Lemma wary_on_file_data handle rbs :
  FS.lookup handle fs0 = None -> stable wary (on_file_data handle rbs).
Proof.
  intros Hh. pose proof wary_say. pose proof wary_close.
  pose proof (@wary_data_loop handle rbs Hh).
  unfold on_file_data. folder_old_walk ltac:(eauto).
Qed.

Lemma wary_on_file rel : stable wary (on_file rel).
Proof.
  pose proof wary_say. pose proof wary_read_header. pose proof wary_close.
  folder_old_through.
Qed.

Lemma wary_on_root : stable wary on_root_folder_header.
Proof.
  pose proof wary_say. pose proof wary_read_header. pose proof wary_close.
  folder_old_through.
Qed.

Lemma wary_on_total : stable wary on_total_info_header.
Proof.
  pose proof wary_say. pose proof wary_read_header. pose proof wary_close.
  folder_old_through.
Qed.

Lemma wary_on_end : stable wary on_end_transfer.
Proof.
  pose proof wary_say. pose proof wary_read_header. pose proof wary_close.
  folder_old_through.
Qed.

Lemma wary_on_folder rel : stable wary (on_folder rel).
Proof.
  pose proof wary_say. pose proof wary_read_header. pose proof wary_close.
  folder_old_through.
Qed.

Lemma wary_on_item : stable wary on_item_header.
Proof.
  pose proof wary_say. pose proof wary_read_header. pose proof wary_close.
  pose proof wary_on_file. pose proof wary_on_folder. pose proof wary_on_end.
  folder_old_through.
Qed.

Lemma wary_on_handshake : stable wary on_handshake.
Proof. folder_old_through. Qed.

Lemma wary_loop_body rbs : stable wary (loop_body rbs).
Proof.
  pose proof wary_say. pose proof wary_read_header. pose proof wary_close.
  pose proof wary_on_file_data. pose proof wary_on_root. pose proof wary_on_total.
  pose proof wary_on_item. pose proof wary_on_handshake.
  folder_old_through.
Qed.

Lemma wary_main_loop rbs : forall rounds, stable wary (main_loop rounds rbs).
Proof.
  pose proof wary_loop_body.
  induction rounds as [|rounds IH]; cbn [main_loop].
  - apply stable_blocked.
  - folder_old_walk ltac:(eauto).
Qed.

Lemma wary_handler rbs : stable wary (handle_client_folder_transfer rbs).
Proof.
  pose proof wary_say. pose proof wary_close. pose proof wary_main_loop.
  unfold handle_client_folder_transfer, initial_setup, after_loop, on_error, finish.
  folder_old_walk ltac:(eauto).
Qed.

End Handler.

End OldFolder.

Module OldFiles.
Import Py Sys Spec DiskFacts.

(** Whatever comes over the connection and however the transfer ends, the
    single-file handler leaves every file and directory that was on the
    disk as it was: it creates, writes and removes only the file whose
    name it has chosen, and that name is new. *)
Theorem single_handler_keeps_what_was_there {db : UnicodeDB} (rbs : Z)
    (initial_buffer : bytes) (w : world) :
  preserved (w_fs w)
    (w_fs (single_file_handler.W (snd (single_file_handler.run rbs initial_buffer w)))).
Proof.
  unfold single_file_handler.run.
  destruct (single_file_handler.handle_client_connection rbs _) as [r s'] eqn:E.
  cbn [snd].
  refine (proj1 (proj1 (@OldSingle.careful_handler db (w_fs w) (w_cwd w) rbs
                          (single_file_handler.initial_env initial_buffer w) _ _ _ E))).
  split; [split; [apply preserved_refl|reflexivity]|].
  intros p Hp. discriminate Hp.
Qed.

(** The same for the folder handler, over a whole session: directories
    are only added, a FILE item that meets an existing name is given a new
    one, and only a file of the session is written to or removed. *)
Theorem folder_handler_keeps_what_was_there {db : UnicodeDB} (rbs : Z)
    (initial_buffer : bytes) (w : world) :
  preserved (w_fs w)
    (w_fs (folder_handler.W (snd (folder_handler.run rbs initial_buffer w)))).
Proof.
  unfold folder_handler.run.
  destruct (folder_handler.handle_client_folder_transfer rbs _) as [r s'] eqn:E.
  cbn [snd].
  refine (proj1 (proj1 (@OldFolder.wary_handler db (w_fs w) (w_cwd w) rbs
                          (folder_handler.initial_env initial_buffer w) _ _ _ E))).
  split; [split; [apply preserved_refl|reflexivity]|].
  split; intros p Hp; discriminate Hp.
Qed.

End OldFiles.

(* ===================================================================== *)
(** * The name given on a conflict *)
(* ===================================================================== *)

Module ConflictNames.
Import Py Sys Spec RunFacts single_file_handler.

Section Loop.
Variables (base ext first : str) (w : world).

Lemma candidate_next (c : Z) :
  (1 <= c)%Z ->
  base ++ [underscore] ++ str_of_Z c ++ ext = candidate base ext first c.
Proof.
  intros H. unfold candidate.
  replace (c =? 0)%Z with false by (symmetry; apply Z.eqb_neq; lia).
  reflexivity.
Qed.

(** The loop from its round [c]: [n] names more are taken, the next is
    free. *)
Lemma loop_finds (n : nat) :
  forall (rounds : nat) (c : Z),
    n <= rounds -> (1 <= c)%Z -> (c + Z.of_nat n <= 10000)%Z ->
    (forall i, (c - 1 <= i < c - 1 + Z.of_nat n)%Z ->
               taken w (candidate base ext first i) = true) ->
    taken w (candidate base ext first (c - 1 + Z.of_nat n)) = false ->
    unique_name rounds base ext (candidate base ext first (c - 1)) c w
    = (Ret (candidate base ext first (c - 1 + Z.of_nat n)), w).
Proof.
  induction n as [|n IH]; intros rounds c Hr Hc Hmax Htaken Hfree.
  - replace (c - 1 + Z.of_nat 0)%Z with (c - 1)%Z in * by lia.
    destruct rounds; cbn [unique_name]; unfold path_exists at 1;
      rewrite bind_gets; unfold taken in Hfree; rewrite Hfree; reflexivity.
  - destruct rounds as [|rounds]; [lia|].
    cbn [unique_name]. unfold path_exists at 1. rewrite bind_gets.
    assert (H0 : taken w (candidate base ext first (c - 1)) = true)
      by (apply Htaken; lia).
    unfold taken in H0. rewrite H0.
    replace (c + 1 >? 10000)%Z with false
      by (symmetry; rewrite Z.gtb_ltb; apply Z.ltb_ge; lia).
    rewrite (candidate_next Hc).
    replace c with (c + 1 - 1)%Z at 1 by lia.
    replace (c - 1 + Z.of_nat (S n))%Z with (c + 1 - 1 + Z.of_nat n)%Z in * by lia.
    apply IH; try lia; [|exact Hfree].
    intros i Hi. apply Htaken. lia.
Qed.

End Loop.

(** When the path exists, the file is given the first name that is free
    among [base_1.ext], [base_2.ext], ... up to [base_9999.ext]; nothing
    on the disk is touched by the search. *)
Theorem conflict_name_is_the_first_free (base ext first : str) (w : world)
    (k : Z) :
  (0 <= k < 10000)%Z ->
  (forall i, (0 <= i < k)%Z -> taken w (candidate base ext first i) = true) ->
  taken w (candidate base ext first k) = false ->
  unique_name (Z.to_nat 10000) base ext first 1 w
  = (Ret (candidate base ext first k), w).
Proof.
  intros Hk Htaken Hfree.
  pose proof (@loop_finds base ext first w (Z.to_nat k) (Z.to_nat 10000) 1%Z) as H.
  rewrite Z2Nat.id in H by lia.
  replace (1 - 1 + k)%Z with k in H by lia.
  change (1 - 1)%Z with 0%Z in H.
  change (candidate base ext first 0) with first in H.
  apply H; try lia; assumption.
Qed.

(** [a.txt] and [a_1.txt] are there: a third [a.txt] becomes [a_2.txt]. *)
Lemma conflict_name_sample :
  let w := mkWorld 0 (u "/home/user")
             ((u "/home/user/received_files/a_1.txt", FS.File (b "second"))
              :: (u "/home/user/received_files/a.txt", FS.File (b "first"))
              :: saved_fs) [] [] [] [] [] [] false [] in
  unique_name (Z.to_nat 10000) (u "/home/user/received_files/a") (u ".txt")
              (u "/home/user/received_files/a.txt") 1 w
  = (Ret (u "/home/user/received_files/a_2.txt"), w).
Proof.
  apply (@conflict_name_is_the_first_free (u "/home/user/received_files/a")
           (u ".txt") (u "/home/user/received_files/a.txt")
           (mkWorld 0 (u "/home/user")
             ((u "/home/user/received_files/a_1.txt", FS.File (b "second"))
              :: (u "/home/user/received_files/a.txt", FS.File (b "first"))
              :: saved_fs) [] [] [] [] [] [] false []) 2).
  - lia.
  - intros i Hi. assert (E : i = 0%Z \/ i = 1%Z) by lia.
    destruct E as [-> | ->]; vm_compute; reflexivity.
  - vm_compute. reflexivity.
Defined.

End ConflictNames.

(* ===================================================================== *)
(** * A size that is refused *)
(* ===================================================================== *)

Module RefusedSize.
Import Py Sys Spec RunFacts HintFacts single_file_handler.

Lemma bind_raised {S A B} (m : M S A) (k : A -> M S B) (s s1 : S) (e : exn) :
  m s = (Raise e, s1) -> bind m k s = (Raise e, s1).
Proof. unfold bind. intros ->. reflexivity. Qed.

Section WithUnicode.
Context {db : UnicodeDB}.

(** The first two frames are in the buffer and the size is refused: the
    header ends in a [ValueError], or, for a size above the limit that
    [utils.format_bytes] cannot format, in the error of that call; nothing
    is done but the two frames taken and, for a number, the size
    recorded. *)
Lemma parse_header_refused (s : env) (name size_frame : str) (nb sb rest : bytes) :
  current_remaining_buffer s = nb ++ sep_byte :: sb ++ sep_byte :: rest ->
  decode nb = Some name -> ~ In sep_byte nb ->
  decode sb = Some size_frame -> ~ In sep_byte sb ->
  refused_size size_frame ->
  exists e s2,
    parse_header s = (Raise e, s2)
    /\ (e = ValueError \/ e = PlainException)
    /\ file_path s2 = file_path s
    /\ is_cancelled s2 = is_cancelled s
    /\ w_fs (W s2) = w_fs (W s) /\ w_wire (W s2) = w_wire (W s)
    /\ w_recv_log (W s2) = w_recv_log (W s)
    /\ w_net (W s2) = w_net (W s)
    /\ w_closed (W s2) = w_closed (W s).
Proof.
  intros Hb Hd1 Hn1 Hd2 Hn2 Hsize. unfold parse_header.
  rewrite (@bind_returns _ _ _ _ _ _ _ _
             (@single_header_ready (config.DISCOVERY_TIMEOUT * 2) s name nb _
                Hb Hd1 Hn1)).
  rewrite bind_modify.
  rewrite (@bind_returns _ _ _ _ _ _ _ _
             (@single_header_ready helpers.default_timeout
                (set_filename_from_header name
                   (set_current_remaining_buffer (sb ++ sep_byte :: rest) s))
                size_frame sb _ eq_refl Hd2 Hn2)).
  unfold refused_size in Hsize.
  destruct (int size_frame) as [n|].
  - unfold try_except at 1. unfold bind at 1. rewrite bind_modify.
    destruct (n <? 0)%Z eqn:Hlt.
    + exists ValueError. eexists. split; [reflexivity|]. cbn. auto 10.
    + replace (n >? config.TEST_FILE_SIZE * 10000)%Z with true
        by (symmetry; rewrite Z.gtb_ltb; apply Z.ltb_lt; apply Z.ltb_ge in Hlt; lia).
      unfold utils.format_bytes.
      replace (n <=? 0)%Z with false
        by (symmetry; apply Z.leb_gt; apply Z.ltb_ge in Hlt;
            unfold config.TEST_FILE_SIZE in Hsize; lia).
      destruct (9 <=? float_log_1024 n)%Z.
      * exists PlainException. eexists. split; [reflexivity|]. cbn. auto 10.
      * rewrite bind_ret. unfold say, gui. rewrite bind_lift_modify.
        exists ValueError. eexists. split; [reflexivity|]. cbn. auto 10.
  - exists ValueError. eexists. split; [reflexivity|]. cbn. auto 10.
Qed.


End WithUnicode.


End RefusedSize.

(* ===================================================================== *)
(** * What the cleanup of a folder session removes *)
(* ===================================================================== *)

Module FinalCleanup.
Import Py Sys Spec RunFacts FSFacts FolderRun folder_handler.

Lemma lookup_exists (fs : FS.t) (q : str) (n : FS.node) :
  FS.lookup q fs = Some n -> FS.exists_ fs q = true.
Proof. intros H. unfold FS.exists_. rewrite H. apply orb_true_r. Qed.

(** The outer [finally] of the folder handler calls [close_current_file]
    before it looks for an incomplete file, and [close_current_file]
    forgets the path of the file it closes.  So with a file open, the
    cleanup removes nothing: the part of the file that was received stays
    on the disk.  With no file open, the path is the one left by the last
    FILE item, and the file under it is removed when the counters say
    that a file is incomplete. *)
Theorem cleanup_looks_after_the_path_is_forgotten (s : env) :
  match current_file_handle s with
  | Some _ =>
      w_fs (W (snd (finish s))) = w_fs (W s)
      /\ current_file_path (snd (finish s)) = None
  | None =>
      forall p c,
        current_file_path s = Some p -> p <> [] ->
        transfer_success s = false ->
        (0 < current_file_bytes_expected s)%Z ->
        (current_file_bytes_received s < current_file_bytes_expected s)%Z ->
        FS.lookup (PosixPath.abspath (w_cwd (W s)) p) (w_fs (W s))
        = Some (FS.File c) ->
        FS.lookup (PosixPath.abspath (w_cwd (W s)) p) (w_fs (W (snd (finish s))))
        = None
  end.
Proof.
  destruct (current_file_handle s) as [h|] eqn:Eh.
  - unfold finish, close_current_file. rewrite bind_assoc, bind_get, Eh.
    unfold say, gui, lift, modify, bind, get, close_socket, ret. cbn. auto.
  - intros p c Hp Hne Hs Hpos Hless Hfile.
    unfold finish.
    rewrite (@bind_returns _ _ _ _ _ _ _ _ (close_current_file_closed s Eh)).
    rewrite bind_get, Hp. rewrite bind_assoc, bind_lift.
    unfold path_exists at 1, gets. fields.
    rewrite (lookup_exists _ _ Hfile), Hs.
    replace (length p =? 0) with false by (destruct p; [contradiction|reflexivity]).
    replace (current_file_bytes_expected s >? 0)%Z with true
      by (symmetry; rewrite Z.gtb_ltb; apply Z.ltb_lt; exact Hpos).
    replace (current_file_bytes_received s <? current_file_bytes_expected s)%Z
      with true by (symmetry; apply Z.ltb_lt; exact Hless).
    cbn [negb andb]. rewrite set_W_same.
    erewrite bind_returns; cycle 1.
    { apply try_except_returns. rewrite bind_lift. unfold remove at 1. fields.
      rewrite (remove_file _ _ Hfile). unfold say, gui, lift, modify. cbn.
      reflexivity. }
    unfold say, gui, lift, modify, bind, get, close_socket, ret. cbn.
    apply lookup_drop.
Qed.

(** With [docs/a.txt] open and 3 of its 5 bytes written, the cleanup
    leaves the disk as it is; with the empty file [docs/empty.txt] done
    and the next item begun, it removes the empty file.  Both happen in
    whole sessions: the peer closes after [abc], and the 3 bytes stay; the
    item after the empty file has a name that is refused, and the empty
    file, counted as received, is gone. *)
Lemma cleanup_samples :
  (w_fs (W (snd (@finish receiving_sample))) = w_fs (W receiving_sample)
   /\ current_file_path (snd (@finish receiving_sample)) = None)
  /\ FS.lookup (u "/home/user/received_folders/docs/empty.txt")
       (w_fs (W (snd (@finish after_empty_file)))) = None
  /\ (let r := @run ascii_db 4096
                 (b "FDR_V1|FOLDER|docs/|FDR_V1|TOTAL_INFO|2,5|FDR_V1|FILE|docs/a.txt|5|abc")
                 (saved_world [] [(0%Z, Arrive 1)]) in
      transfer_success (snd r) = false
      /\ FS.lookup (u "/home/user/received_folders/docs/a.txt") (w_fs (W (snd r)))
         = Some (FS.File (b "abc")))
  /\ (let r := @run ascii_db 4096
                 (b "FDR_V1|FOLDER|docs/|FDR_V1|TOTAL_INFO|3,5|FDR_V1|FILE|docs/empty.txt|0|FDR_V1|FILE|docs/...|5|hello")
                 (saved_world [] []) in
      items_received_count (snd r) = 2%Z
      /\ FS.lookup (u "/home/user/received_folders/docs/empty.txt")
                   (w_fs (W (snd r))) = None).
Proof.
  split; [exact (cleanup_looks_after_the_path_is_forgotten receiving_sample)|].
  split.
  - exact (cleanup_looks_after_the_path_is_forgotten after_empty_file
             (u "/home/user/received_folders/docs/empty.txt") []
             eq_refl ltac:(discriminate) eq_refl eq_refl eq_refl eq_refl).
  - split; vm_compute; split; reflexivity.
Defined.

End FinalCleanup.
(* ===================================================================== *)
(** * A header whose hint is refused: the transfer goes on *)
(* ===================================================================== *)

Module PathChoice.
Import Py Sys Spec Logic RunFacts Inversion NewNames single_file_handler.

Section OnlyDisk.
Variable w0 : world.

(** The world is [w0] but for the disk. *)
Local Abbreviation only_fs := (fun w : world => exists f, w = set_fs f w0).

Lemma disk_abspath p : stable only_fs (abspath p).
Proof. unfold abspath. walk idtac. Qed.

Lemma disk_path_exists p : stable only_fs (path_exists p).
Proof. unfold path_exists. walk idtac. Qed.

Lemma disk_makedirs p : stable only_fs (makedirs p).
Proof.
  unfold stable, hoare, makedirs. intros w r w' [f ->] E.
  destruct (FS.makedirs _ _) as [f'|]; injection E as <- <-.
  - exists f'. reflexivity.
  - exists f. reflexivity.
Qed.

Lemma disk_sanitize_path {db : UnicodeDB} base rel :
  stable only_fs (utils.sanitize_path base rel).
Proof.
  pose proof disk_abspath. pose proof disk_path_exists. pose proof disk_makedirs.
  unfold utils.sanitize_path. walk ltac:(eauto).
Qed.

End OnlyDisk.

Lemma only_fs_start (w : world) : exists f, w = set_fs f w.
Proof. exists (w_fs w). destruct w. reflexivity. Qed.

Section WithUnicode.
Context {db : UnicodeDB}.

(** When the path is settled, nothing has changed but the disk, where
    [received_files] may have been created, and the path itself. *)
Lemma prepare_path_shape (name : str) (s s' : env) :
  prepare_path name s = (Ret true, s') ->
  exists p f, s' = set_file_path (Some p) (with_world (set_fs f (W s)) s).
Proof.
  intros E. unfold prepare_path, try_except in E.
  match type of E with
  | (let (_, _) := ?body s in _) = _ => destruct (body s) as [[a|e|] s1] eqn:Eb
  end.
  - injection E as -> ->.
    apply inv_bind in Eb. destruct Eb as (base_abs & t1 & E1 & Eb).
    apply inv_lift in E1. destruct E1 as (w1 & E1 & ->).
    pose proof (@disk_abspath _ _ _ _ _ (only_fs_start _) E1) as [f1 H1].
    apply inv_bind in Eb. destruct Eb as (present & t2 & E2 & Eb).
    apply inv_lift in E2. destruct E2 as (w2 & E2 & ->).
    cbn [the_world with_world env_has_world W set_W] in E2.
    pose proof (@disk_path_exists _ _ _ _ _ (ex_intro _ f1 H1) E2) as [f2 H2].
    apply inv_bind in Eb. destruct Eb as (u1 & t3 & E3 & Eb).
    assert (H3 : exists f3 w3, t3 = with_world w3 s /\ w3 = set_fs f3 (W s)).
    { destruct present.
      - apply inv_ret in E3. destruct E3 as [_ ->]. exists f2, w2. auto.
      - apply inv_try_raises in E3.
        + apply inv_lift in E3. destruct E3 as (w3 & E3 & ->).
          cbn [the_world with_world env_has_world W set_W] in E3.
          pose proof (@disk_makedirs _ _ _ _ _ (ex_intro _ f2 H2) E3) as [f3 H3].
          exists f3, w3. auto.
        + intros e. destruct (isinstance e OSError); eexists; reflexivity. }
    destruct H3 as (f3 & w3 & -> & H3).
    apply inv_bind in Eb. destruct Eb as (p0 & t4 & E4 & Eb).
    apply inv_lift in E4. destruct E4 as (w4 & E4 & ->).
    cbn [the_world with_world env_has_world W set_W] in E4.
    pose proof (@disk_sanitize_path _ _ _ _ _ _ _ (ex_intro _ f3 H3) E4) as [f4 H4].
    destruct (PosixPath.splitext p0) as [base ext].
    apply inv_bind in Eb. destruct Eb as (p & t5 & E5 & Eb).
    apply inv_lift in E5. destruct E5 as (w5 & E5 & ->).
    apply unique_name_is_new in E5. destruct E5 as (-> & _).
    apply inv_bind in Eb. destruct Eb as (u2 & t6 & Em & Eb).
    apply inv_modify in Em. subst t6.
    apply inv_ret in Eb. destruct Eb as [_ ->].
    exists p, f4. cbn [the_world with_world env_has_world W set_W].
    rewrite H4. reflexivity.
  - destruct (isinstance e ValueError || isinstance e OSError
              || isinstance e RuntimeError); [|discriminate E].
    unfold say, lift, gui, modify, bind, ret in E. cbn in E. discriminate E.
  - discriminate E.
Qed.

End WithUnicode.
End PathChoice.

Module C10.
Import Py Sys Spec Logic RunFacts WorldFrames HintFacts SizeFacts PathChoice
       SingleComplete single_file_handler.

Lemma guarded_bind_returns {S A B} (m : M S A) (k : A -> M S B)
    (h : exn -> option (M S B)) (f : M S unit) (s s1 : S) (a : A) :
  m s = (Ret a, s1) ->
  try_finally (try_except (bind m k) h) f s = try_finally (try_except (k a) h) f s1.
Proof. intros E. unfold try_finally, try_except, bind. rewrite E. reflexivity. Qed.

Lemma bind_say {B} (e : gui_event) (k : unit -> M env B) (s : env) :
  bind (say e) k s = k tt (with_world (add_gui e (W s)) s).
Proof. reflexivity. Qed.

(** What does not look at the hint leaves it as it is. *)
Lemma blind_keeps_hint {A} (m : M env A) (s : env) :
  blind m ->
  current_buffer_size_from_header (snd (m s)) = current_buffer_size_from_header s.
Proof.
  intros H. pose proof (H (current_buffer_size_from_header s) s) as E.
  assert (Es : set_current_buffer_size_from_header
                 (current_buffer_size_from_header s) s = s)
    by (destruct s; reflexivity).
  rewrite Es in E.
  transitivity (current_buffer_size_from_header
                  (snd (with_hint (current_buffer_size_from_header s) (m s))));
    [rewrite <- E; reflexivity|reflexivity].
Qed.

Section Claim.
Context {db : UnicodeDB}.

Lemma blind_receive_announced (rbs n : Z) (name : str) :
  blind (receive_announced rbs n name).
Proof.
  pose proof blind_receive_file. pose proof blind_prepare_path.
  unfold receive_announced. unseen ltac:(eauto).
Qed.

(** What follows [s = get] in the handler, for a hint that is formatted. *)
Lemma announced (rbs : Z) (s : env) :
  (current_buffer_size_from_header s <= 0)%Z
  \/ (float_log_1024 (current_buffer_size_from_header s) < 9)%Z ->
  (utils.format_bytes (filesize s) ;;
   say StReceiveStart ;;
   utils.format_bytes rbs ;;
   utils.format_bytes (current_buffer_size_from_header s) ;;
   prepared <- prepare_path (PosixPath.basename (filename_from_header s)) ;;
   if prepared then receive_file rbs else ret tt)
  = receive_announced rbs (filesize s) (filename_from_header s).
Proof.
  intros H. rewrite (format_bytes_returns H). reflexivity.
Qed.

(** The receive is announced, the path is settled and the bytes of the
    file come: the file is stored. *)
Lemma receive_announced_stores (rbs n : Z) (name : str) (s s_p : env)
    (path : str) (f : FS.t) :
  (0 < rbs)%Z -> (float_log_1024 rbs < 9)%Z ->
  (0 < n < 2 ^ 89)%Z ->
  filesize s = n -> received_bytes s = 0%Z -> is_cancelled s = false ->
  w_cancel (W s) = [] ->
  forallb (fun e => negb (is_reset e)) (w_net (W s)) = true ->
  Z.to_nat n <= length (current_remaining_buffer s) + length (w_wire (W s)) ->
  Z.to_nat n - length (current_remaining_buffer s)
  <= length (filter is_arrival (w_net (W s))) ->
  prepare_path (PosixPath.basename name)
    (with_world (add_gui StReceiveStart (W s)) s) = (Ret true, s_p) ->
  file_path s_p = Some path ->
  FS.open_wb (w_fs (W s_p)) (PosixPath.abspath (w_cwd (W s)) path) = Some f ->
  exists s',
    receive_announced rbs n name s = (Ret tt, s')
    /\ transfer_success s' = true
    /\ received_bytes s' = n
    /\ FS.lookup (PosixPath.abspath (w_cwd (W s)) path) (w_fs (W s'))
       = Some (FS.File (firstn (Z.to_nat n)
                          (current_remaining_buffer s ++ w_wire (W s)))).
Proof.
  intros Hrbs Hfr Hn Hsize Hzero Hgo Hcan Hnet Hall Harr Eprep Hpath Hopen.
  unfold receive_announced.
  rewrite (@format_bytes_small db env n) by lia.
  rewrite bind_ret, bind_say.
  rewrite (@format_bytes_returns db env rbs (or_intror Hfr)), bind_ret.
  rewrite (@bind_returns _ _ _ _ _ _ _ _ Eprep).
  destruct (prepare_path_shape _ _ Eprep) as (p & f1 & Es).
  assert (Hkept : filesize s_p = n /\ received_bytes s_p = 0%Z
                  /\ is_cancelled s_p = false
                  /\ current_remaining_buffer s_p = current_remaining_buffer s
                  /\ W s_p = set_fs f1 (add_gui StReceiveStart (W s)))
    by (rewrite Es; cbn; auto).
  destruct Hkept as (Hsize' & Hzero' & Hgo' & Hbuf' & Hw').
  assert (Hcwd : w_cwd (W s_p) = w_cwd (W s)) by (rewrite Hw'; reflexivity).
  rewrite <- Hcwd in Hopen.
  destruct (@receive_file_whole rbs s_p path f Hrbs Hpath)
    as (s' & E & Hdone & Hcount & Hfile & _);
    rewrite ?Hsize', ?Hbuf', ?Hw'; cbn; try assumption; try lia.
  - rewrite Hcwd, Hw' in Hopen. exact Hopen.
  - exists s'. rewrite Hsize', Hbuf', Hcwd, Hw' in *. cbn in Hfile.
    split; [exact E|]. split; [exact Hdone|]. split; [exact Hcount|exact Hfile].
Qed.


(** A valid hint that [utils.format_bytes] cannot format, of [2 ^ 91] or
    more, does stop the transfer: the error of the status line is caught
    by the last [except] clause, before any path is chosen. *)
Lemma unformatted_hint_stops (rbs : Z) (w : world) (name size_frame hint : str)
    (nb sb hb rest : bytes) (n h : Z) :
  decode nb = Some name -> ~ In sep_byte nb ->
  decode sb = Some size_frame -> ~ In sep_byte sb ->
  int size_frame = Some n ->
  (0 <= n <= config.TEST_FILE_SIZE * 10000)%Z ->
  decode hb = Some hint -> ~ In sep_byte hb ->
  int hint = Some h -> (2 ^ 91 <= h)%Z ->
  (rbs <= 0)%Z \/ (float_log_1024 rbs < 9)%Z ->
  w_cancel w = [] ->
  exists s',
    handle_client_connection rbs
      (initial_env (nb ++ sep_byte :: sb ++ sep_byte :: hb ++ sep_byte :: rest) w)
    = (Ret tt, s')
    /\ transfer_success s' = false /\ is_cancelled s' = true
    /\ file_path s' = None
    /\ w_fs (W s') = w_fs w /\ w_recv_log (W s') = w_recv_log w
    /\ w_gui (W s')
       = w_gui w ++ [StNewConnection; StReceiveStart; StProcessingError;
                     ShowError; StTransferCancelled; StHandlerFinished;
                     OnTransferFinished].
Proof.
  intros Hd1 Hn1 Hd2 Hn2 Hsize Hrange Hd3 Hn3 Hint Hlarge Hrbs Hcan.
  assert (Hvalue : hint_value hint = h).
  { unfold hint_value. rewrite Hint.
    destruct (h <=? 0)%Z eqn:E; [apply Z.leb_le in E; lia|reflexivity]. }
  set (s0 := initial_env (nb ++ sep_byte :: sb ++ sep_byte :: hb ++ sep_byte :: rest) w).
  assert (Hparse : forall w0 : world,
             parse_header (with_world w0 s0)
             = (Ret tt,
                set_current_buffer_size_from_header (hint_value hint)
                  (set_current_remaining_buffer rest
                     (set_filesize n
                        (set_filename_from_header name (with_world w0 s0)))))).
  { intros w0.
    apply (@parse_header_ready db (with_world w0 s0) name size_frame
             hint nb sb hb rest n); [reflexivity|assumption..]. }
  unfold handle_client_connection. rewrite !bind_say.
  rewrite (@guarded_bind_returns _ _ _ _ _ _ _ _ _ _ (Hparse _)).
  rewrite Hvalue.
  match goal with
  | |- context [try_finally (try_except (bind (lift is_set) ?k) ?hd) ?f ?X] =>
      assert (Eis : lift is_set X = (Ret false, X))
        by (unfold lift, is_set; cbn; rewrite Hcan; reflexivity);
      rewrite (@guarded_bind_returns _ _ _ (lift is_set) k hd f X X false Eis)
  end.
  match goal with
  | |- context [try_finally (try_except (bind get ?k) ?hd) ?f ?X] =>
      rewrite (@guarded_bind_returns _ _ _ get k hd f X X X eq_refl)
  end.
  cbv beta.
  cbn [filesize current_buffer_size_from_header
       set_current_buffer_size_from_header set_current_remaining_buffer
       set_filesize set_filename_from_header].
  rewrite (@format_bytes_small db env n)
    by (unfold config.TEST_FILE_SIZE in Hrange; lia).
  rewrite (@format_bytes_returns db env rbs Hrbs).
  rewrite (@format_bytes_large db env h Hlarge).
  unfold try_finally, try_except, bind, ret, raise, say, lift, gui, modify, get,
    close_socket.
  cbn. eexists. split; [reflexivity|]. cbn.
  rewrite <- !app_assoc. auto 10.
Qed.

End Claim.


End C10.
